(* ===== verification/_CoqProject ===== *)
-Q . S2P
Prelude.v
Interfaces.v
TsStream.v
Protection.v
PidInfo.v
PsiParser.v
PsiStream.v
PsiInvariant.v
PsiReach.v
PsiPmt.v
PsiPat.v
PsiEcm.v
PsiChannel.v
PsiPadding.v
PsiThread.v
PsiExamples.v
Floats.v
UpperBound.v
BufferIndexer.v
IndexerProps.v
TimeInterval.v
Watchdog.v
TimeShift.v
TimeShiftProps.v
TimeShiftStream.v
TimeShiftExamples.v
Locks.v
Json.v
JsonParser.v
JsonProps.v
JsonRoundtrip.v
JsonFuel.v
ProtectionExport.v
MVar.v
Rtp.v
RtpProps.v
BufferQueue.v
Regex.v
StdString.v
ChannelConfig.v
ChannelProps.v
MediaSource.v
CallbackHandler.v
SourceData.v
SourceQueue.v
SourceControl.v
HttpDemuxer.v
HttpPipeline.v
ListenerPipeline.v
Listeners.v
HttpThread.v
SourceExamples.v
ConfigOptions.v
Plugin.v
PluginProps.v
PluginErrors.v
PluginQuiet.v
PluginChannel.v
PluginStream.v
StreamBox.v
MulticastDemuxer.v
ChannelFiles.v
PluginExamples.v
RouteMonitor.v
Nokia.v
NokiaProps.v
NokiaPlugin.v
NokiaExamples.v
Sockets.v
SocketServer.v
TsDump.v
StreamExamples.v
Multicast.v
ScheduledTask.v
RouteThread.v
ConfigCache.v
Lifecycle.v
JsonHeap.v
JsonMemory.v
JsonProgram.v
