(* ===== verification/Prelude.v ===== *)
(** * A verification of the fast channel change plugin of StreamFS

    The plugin receives television channels and shows them to applications as files. This
    library models its sources, which are C++, as executable definitions and proves what they
    do. Paths below are relative to src/.

    ** The program and its parts

    A demuxer (HTTP, RTP, UDP; DVB is a stub) fills buffers that [BufferQueue] hands to the consumer thread of
    [MediaSourceHandler]. It cuts them into chunks and posts them, through [StreamProcessor],
    to the time shift buffer and to the PSI parser. The parser finds the program tables and the
    entitlement messages (ECM) and assigns the protection data to a monitored variable. The
    configuration handlers watch such variables and serve the files with which an application
    selects a channel, seeks, changes the speed and reads the protection data; [FCCPlugin] is
    the file interface. [NetworkRouteMonitor] tells the media source handler of the interface
    to use. Each demuxer has a callback handler, which hears of channel switches: that of the
    set-top box, [NokiaSocketCbHandler], gets the protection data by datagram and starts and stops
    the PSI parser; the others do nothing. [SocketServer] copies the stream to TCP clients.

    ** Files and sources

    - Interfaces: constants and containers of code outside the repository, as type classes.
    - TsStream, PidInfo, PsiParser: src/StreamParser/PSIParser.cpp. Protection:
      include/StreamParser/StreamProtectionConfig.h.
    - PsiStream, PsiInvariant, PsiReach, PsiPmt, PsiPat, PsiEcm, PsiChannel, PsiPadding,
      PsiThread: theorems on it; PsiExamples: at concrete streams.
    - Floats, UpperBound, BufferIndexer, IndexerProps:
      src/StreamParser/BufferIndexer.cpp, with binary floating point and the bisection it uses.
    - TimeInterval, Watchdog: src/TimeIntervalMonitor.cpp, src/TimeStampCorrector.cpp,
      src/TimeoutWatchdog.cpp, include/utils/CyclicEventTimer.h, src/ConstDelayDefHandler.cpp.
    - TimeShift, TimeShiftProps, TimeShiftStream, TimeShiftExamples:
      src/StreamParser/TimeShiftBufferConsumer.cpp.
    - Locks: the order in which methods take mutexes.
    - Json, JsonParser, JsonProps, JsonRoundtrip, JsonFuel: include/utils/json.hpp, on values;
      JsonHeap, JsonMemory, JsonProgram: the memory behind them.
      ProtectionExport: src/StreamProtectionConfigExport.cpp.
    - MVar: include/utils/MonitoredVariable.h.
    - Rtp, RtpProps: the packets of 3rdparty/rtp/RtpStreamListener.cpp. Multicast: the sockets and
      threads of it and of 3rdparty/udp/UdpStreamListener.cpp.
      MulticastDemuxer: UdpDemuxer.cpp and RtpDemuxer.cpp, and 3rdparty/dvb/.
    - BufferQueue: include/BufferQueue.h.
    - Regex, StdString, ChannelConfig, ChannelProps: include/ChannelConfig.h.
    - CallbackHandler: include/DemuxerCallbackHandler.h as an interface, and the handlers that do
      nothing.
    - MediaSource, SourceData, SourceQueue, SourceControl: src/MediaSourceHandler.cpp,
      src/externals.cpp. HttpDemuxer, HttpPipeline: src/HttpDemuxerImpl.cpp and the way of the
      data from it to the stream processor. HttpThread: its thread. ListenerPipeline,
      Listeners: the same way for a listener that pushes buffers, and the RTP and UDP listeners
      as such. SourceExamples: concrete inputs.
    - ConfigOptions: include/config_options.h, include/PlayerStateEnum.h. Plugin, PluginProps,
      PluginErrors, PluginQuiet, PluginChannel, PluginExamples: src/FCCPlugin.cpp,
      src/fcc/FCCConfigHandlers.cpp, src/confighandler/ and src/StreamParser/StreamProcessor.cpp,
      over the components above. PluginStream, StreamBox: the file of the stream, over any threads
      that bring data; ChannelFiles: over those of an HTTP, an RTP and a UDP channel. ConfigCache:
      src/confighandler/ConfigCache.cpp.
    - RouteMonitor, RouteThread: src/NetworkRouteMonitor.cpp, its table and its thread.
    - Nokia, NokiaProps: 3rdparty/nokia/NokiaSocketCbHandler.cpp. NokiaPlugin: the plugin with
      this handler. NokiaExamples: at concrete channels.
    - Sockets, SocketServer: the descriptors of a process, and src/SocketServer.cpp. TsDump: the
      copies of the stream that MediaSourceHandler and TimeShiftBufferConsumer send to its clients.
      StreamExamples: these and the files of multicast channels at concrete inputs.
    - Lifecycle: loading and unloading (include/FCCPlugin.h), and the socket of the Nokia handler.
    - ScheduledTask: include/StreamParser/ScheduledTask.h, which nothing uses.

    ** How the code is modelled

    An object is a record of its members, and a method a function that returns the new record.
    What can fail is an [outcome]: a result, or a [stop] that says why there is none (undefined
    behaviour, an exception, an abort, a call that has to wait, fuel used up). Machine integers
    are [Z] with the wrap-around written out ([u32], [s16] and so on). An access outside an
    array stops with [Ub], and a read outside a packet in the PSI parser with [Overread]. Memory
    of [malloc] holds anything: a pointer in it that was never written is [Indeterminate], its use
    stops with [Ub], and the theorems on the ways of the data have this as one of their outcomes
    ([Dirt] in SourceQueue.v). Calls to other objects that return nothing are recorded as lists of
    events. A thread's loop is modelled by its body, and interleaving by step relations over
    such bodies; a method under its mutex is one step, the accesses of a thread without a mutex
    are steps of their own where others depend on them (the reactions of [messageLoop], the loop of
    NetworkRouteMonitor over its callbacks), and what goes wrong between mutexes is in the files on
    locks and in lemmas on races.

    ** What is proved

    - PSI parser: its packet loop parses the packets of the byte stream wherever chunks end;
      every encoded PMT is read exactly; an ECM over several packets is put together; an
      encrypted channel is published with its tables, among packets of other streams and however
      posts and rounds of the thread interleave; an invariant of all calls, whose only fault is a
      read outside a packet.
    - Composition: a channel is selected by writing a file, its stream is cut, queued and parsed,
      and the text that an application reads from drm0, in pieces of any size, decodes to the ECM
      and the tables ([drm_end_to_end]); the same from the datagrams of the set-top box. With any
      other callback handler the parser never runs. What an application reads from the file of
      the stream is what curl delivers ([http_file_correct]) or what a multicast group is sent, in
      the order of the sender ([rtp_file_correct]), in every interleaving of all the threads. The
      proof is one for all channels: [Pipeline] in StreamBox.v is the interface of the threads
      that bring data.
    - Buffer index and time shift buffer: the answers of the index, where a reader reads, and
      how posting, seeking and the end of a stream move that position; the reads of a handle put
      together are the stream.
    - Timers: intervals add up, and a watchdog expires once.
    - JSON: what is printed is read back, for values that are printed faithfully, parsing ends, and the export of the protection data
      has what was published. Copies, moves and assignments of JSON objects implement the
      functions on values without a leak or a second delete.
    - RTP: packets out of order within the cache are delivered in order, and nothing aborts.
    - Buffers and media source: buffers are never lost or doubled; the chunks are the bytes of
      the buffers; a demuxer has one connection at most, unless a channel is opened in the middle
      of a reaction to a lost multicast; every byte curl delivers reaches the stream processor.
    - Channel URIs are read as their syntax says.
    - Plugin: a channel or a speed written is read back, files can be read piece by piece, the
      size of drm0 is that of its value, and which protection data is kept.
    - Monitored variables: an assignment calls each watcher once, and hangs on an expired one.
    - Routes: the interface with the least metric is chosen and each change reported once; the
      thread of the monitor ends when it is stopped, unless a callback has expired.
    - Sockets: a multicast listener has one socket open at a time and reads from no other; a
      client of the socket server gets, in order, what [write] takes of the data; what the clients
      get of the two copies of the stream.
    - Nokia datagrams: the sections of a channel are published once, and what the scan of the
      PMT finds.
    - Errors: which writes to a configuration file are refused, which escape as exceptions, and
      that a refused one leaves the stream and the player alone ([write_errors]); deadlocks of
      crossed mutexes, waits that do not end, lengths that cause undefined behaviour, and
      descriptors that are lost.

    ** Fuel

    Loops that are not structural take fuel, chosen by the definition that starts them from the
    length of its input: the JSON parser twice the text and a constant, loops over tables and
    buffers their length and one. Theorems show that it is enough ([Load_terminates],
    [psi_parser_invariant], [ca_scan_correct] and the functional theorems, which all give a
    result). JsonProgram takes one unit for each operation, as each nests values by one at most.
    Where the code itself does not end, it is a theorem that no fuel is enough.

    ** What is not modelled

    The kernel and curl: what a system call answers is an argument of the definitions, and
    Sockets.v has the descriptors they hand out and take back. curl's transfer is the sequence of
    its callbacks. The walk over the bytes of a netlink message is done by macros of the kernel's
    headers. Data races on members that are not atomic ([mClientFd], the exit flags) are findings
    but have no model: turns of threads are atomic there. Tracing, logging and scripts have no
    part in the behaviour. In [FCCPlugin] the watchers are called as the handlers' constructors
    register them instead of through the table of MVar. Code behind DEBUG_INPUT_STREAM and
    CHANNEL_SWITCH_BLOCKS_READ is in no build. The theorems on files assume that the channel stays
    open, that no packet's header reaches beyond its datagram, and that a player whose pause is
    longer than the watchdog waits reads by the first of the open handles and is not overtaken by
    the window ([kept_up]); what happens otherwise is in the theorems on the components. *)

From Stdlib Require Export ZArith Lia.
From stdpp Require Export prelude gmap strings.

#[global] Open Scope Z_scope.

(** * Machine integers

    C++ integers are modelled as [Z]; where an operation can leave the range of
    its type the wrap-around is written out with one of these. *)

Definition u8 (z : Z) : Z := z mod 256.
Definition u16 (z : Z) : Z := z mod 65536.
Definition u32 (z : Z) : Z := z mod 4294967296.
Definition u64 (z : Z) : Z := z mod 18446744073709551616.

(** Two's complement reading of the low [2 * half] residues, for conversions to
    a signed type. *)
Definition signed_wrap (half z : Z) : Z :=
  let r := z mod (2 * half) in if r <? half then r else r - 2 * half.

Definition s8 (z : Z) : Z := signed_wrap 128 z.
Definition s16 (z : Z) : Z := signed_wrap 32768 z.
Definition s32 (z : Z) : Z := signed_wrap 2147483648 z.
Definition s64 (z : Z) : Z := signed_wrap 9223372036854775808 z.

Definition is_byte (b : Z) : Prop := 0 <= b < 256.

Definition is_bytes (l : list Z) : Prop := Forall is_byte l.

#[export] Instance is_byte_dec b : Decision (is_byte b).
Proof. unfold is_byte; apply _. Defined.

#[export] Instance is_bytes_dec l : Decision (is_bytes l).
Proof. unfold is_bytes; apply _. Defined.

(** * Outcomes

    A C++ call returns, or stops: on undefined behaviour (an access outside an
    object, a dereferenced end iterator), on an exception that leaves the
    function, in [abort()]; [Overread] is the undefined behaviour of a read outside a packet, told
    apart from all other; [Blocked] is a call that has to wait for another thread, so that
    the step it is part of is not taken yet, and [OutOfFuel] is the model's own answer for a
    loop that has used up its fuel. *)

Inductive exn := InvalidArgument | OutOfRange.

Inductive stop := Ub | Overread | Throw (e : exn) | Abort | Blocked | OutOfFuel.

Inductive outcome (A : Type) :=
| Done (a : A)
| Stop (s : stop).
Arguments Done {A} a.
Arguments Stop {A} s.

#[export] Instance exn_eq_dec : EqDecision exn.
Proof. solve_decision. Defined.

#[export] Instance stop_eq_dec : EqDecision stop.
Proof. solve_decision. Defined.

#[export] Instance outcome_ret : MRet outcome := fun A a => Done a.

#[export] Instance outcome_bind : MBind outcome := fun A B f m =>
  match m with Done a => f a | Stop s => Stop s end.

#[export] Instance outcome_fmap : FMap outcome := fun A B f m =>
  match m with Done a => Done (f a) | Stop s => Stop s end.

Definition is_done {A} (m : outcome A) : bool :=
  match m with Done _ => true | Stop _ => false end.

(** Length and slices with [Z] indices. *)

Definition zlen {A} (l : list A) : Z := Z.of_nat (length l).

Definition ztake {A} (n : Z) (l : list A) : list A := take (Z.to_nat n) l.

Definition zdrop {A} (n : Z) (l : list A) : list A := drop (Z.to_nat n) l.

(** [l[i]]: an access outside the object is undefined behaviour. *)
Definition rd {A} (l : list A) (i : Z) : outcome A :=
  if 0 <=? i then
    match l !! Z.to_nat i with Some x => Done x | None => Stop Ub end
  else Stop Ub.

(** A read of which the failure is a kind of its own. *)
Definition read_as {A} (e : stop) (m : outcome A) : outcome A :=
  match m with Done x => Done x | Stop _ => Stop e end.

(** The byte [i] of a packet. *)
Abbreviation packet_rd packet i := (read_as Overread (rd packet i)).

(** The [n] elements of [l] from [i] on, all of which must exist. *)
Definition slice {A} (l : list A) (i n : Z) : outcome (list A) :=
  if (0 <=? i) && (0 <=? n) && (i + n <=? zlen l)
  then Done (ztake n (zdrop i l)) else Stop Ub.

(** [dst] with [src] copied over its elements from [i] on. *)
Definition splice {A} (dst : list A) (i : Z) (src : list A) : outcome (list A) :=
  if (0 <=? i) && (i + zlen src <=? zlen dst)
  then Done (ztake i dst ++ src ++ zdrop (i + zlen src) dst) else Stop Ub.

(** * Record update

    [r <| f := v |>] is [r] with the field [f] replaced by [v]. A record type
    declares its eta-expansion once, as an [Eta] instance; the update functions are
    found from it. *)

Class Eta (R : Type) := eta : R -> R.

Class FieldUpdate {R T : Type} (field : R -> T) := field_update : T -> R -> R.

#[global] Typeclasses Opaque Eta FieldUpdate.

Ltac find_field_update :=
  lazymatch goal with
  | |- @FieldUpdate ?R ?T ?field =>
      let v := fresh "v" in
      let r := fresh "r" in
      refine (fun (v : T) (r : R) => _);
      let e := constr:(ltac:(typeclasses eauto) : Eta R) in
      let e' := eval hnf in e in
      let body := eval cbv beta in (e' r) in
      match body with
      | context C [field r] => let t := context C [v] in exact t
      end
  end.

#[export] Hint Extern 1 (FieldUpdate _) => find_field_update : typeclass_instances.

Declare Scope update_scope.
Notation "r <| f := v |>" := (field_update (field := f) v r)
  (at level 1, f at next level, v at level 99, left associativity,
   format "r  <| f  :=  v |>") : update_scope.
#[global] Open Scope update_scope.

(** * Tactics *)

(** Case analysis on the boolean tests of the goal or the context, turning them
    into arithmetic facts. *)
Ltac b2p :=
  repeat match goal with
  | H : _ && _ = true |- _ => apply andb_prop in H as [? ?]
  | H : _ || _ = false |- _ => apply orb_false_elim in H as [? ?]
  | H : (_ =? _) = true |- _ => apply Z.eqb_eq in H
  | H : (_ =? _) = false |- _ => apply Z.eqb_neq in H
  | H : (_ <=? _) = true |- _ => apply Z.leb_le in H
  | H : (_ <=? _) = false |- _ => apply Z.leb_gt in H
  | H : (_ <? _) = true |- _ => apply Z.ltb_lt in H
  | H : (_ <? _) = false |- _ => apply Z.ltb_ge in H
  | H : (_ >? _) = true |- _ => apply Z.gtb_lt in H
  | H : (_ >? _) = false |- _ => rewrite Z.gtb_ltb in H; apply Z.ltb_ge in H
  | H : negb _ = true |- _ => apply negb_true_iff in H
  | H : negb _ = false |- _ => apply negb_false_iff in H
  | H : bool_decide _ = true |- _ => apply bool_decide_eq_true in H
  | H : bool_decide _ = false |- _ => apply bool_decide_eq_false in H
  end.

(** Split the first [if] of the goal. *)
Ltac case_if :=
  match goal with
  | |- context [if ?b then _ else _] =>
      lazymatch type of b with
      | bool => let E := fresh "E" in destruct b eqn:E; b2p
      end
  end.

(** Open [m ≫= f = Done r]. *)
Ltac inv_bind H :=
  match type of H with
  | (mbind ?f ?m) = Done _ =>
      let E := fresh "E" in destruct m eqn:E; [cbn in H | discriminate H]
  end.

(** * Shared lemmas *)

Create HintDb fcc.

Section outcomes.
Context {A B : Type}.
Implicit Types (m : outcome A) (f : A -> outcome B).

Lemma bind_Done f a : Done a ≫= f = f a.
Proof. done. Qed.

Lemma bind_done_inv f m r :
  m ≫= f = Done r -> exists a, m = Done a /\ f a = Done r.
Proof. destruct m; cbn; [eauto | discriminate]. Qed.

Lemma bind_stop_inv f m s :
  m ≫= f = Stop s -> m = Stop s \/ exists a, m = Done a /\ f a = Stop s.
Proof. destruct m; cbn; [eauto | intros [= ->]; auto]. Qed.

Lemma bind_not_stop f m s :
  m <> Stop s -> (forall a, m = Done a -> f a <> Stop s) -> m ≫= f <> Stop s.
Proof. destruct m; cbn; intros H1 H2; [by apply H2 | congruence]. Qed.

End outcomes.

(** Replace calls that return by what they return; rewriting keeps the conversions
    of the kernel small where [cbn] would leave it a nest of binds to compare. *)
Lemma read_as_Done {A} e (x : A) : read_as e (Done x) = Done x.
Proof. done. Qed.

Ltac step_done := rewrite ?read_as_Done, bind_Done; cbv beta.

Section zlists.
Context {A : Type}.
Implicit Types l k : list A.

Lemma zlen_nonneg l : 0 <= zlen l.
Proof. unfold zlen; lia. Qed.

Lemma zlen_app l k : zlen (l ++ k) = zlen l + zlen k.
Proof. unfold zlen; rewrite length_app; lia. Qed.

Lemma zlen_cons x l : zlen (x :: l) = 1 + zlen l.
Proof. unfold zlen; simpl; lia. Qed.

Lemma zlen_nil : zlen (@nil A) = 0.
Proof. reflexivity. Qed.

Lemma zlen_replicate n (x : A) : 0 <= n -> zlen (replicate (Z.to_nat n) x) = n.
Proof. intros; unfold zlen; rewrite length_replicate; lia. Qed.

Lemma zlen_ztake n l : 0 <= n <= zlen l -> zlen (ztake n l) = n.
Proof. unfold zlen, ztake; intros; rewrite length_take; lia. Qed.

Lemma zlen_zdrop n l : 0 <= n <= zlen l -> zlen (zdrop n l) = zlen l - n.
Proof. unfold zlen, zdrop; intros; rewrite length_drop; lia. Qed.

Lemma zlen_zdrop_max n l : 0 <= n -> zlen (zdrop n l) = Z.max 0 (zlen l - n).
Proof. unfold zlen, zdrop; intros; rewrite length_drop; lia. Qed.

Lemma ztake_zdrop n l : ztake n l ++ zdrop n l = l.
Proof. unfold ztake, zdrop; apply take_drop. Qed.

Lemma zdrop_zdrop n m l : 0 <= n -> 0 <= m -> zdrop m (zdrop n l) = zdrop (n + m) l.
Proof. intros; unfold zdrop; rewrite drop_drop; f_equal; lia. Qed.

Lemma zdrop_0 l : zdrop 0 l = l.
Proof. reflexivity. Qed.

Lemma ztake_0 l : ztake 0 l = [].
Proof. reflexivity. Qed.

Lemma ztake_all n l : zlen l <= n -> ztake n l = l.
Proof. unfold zlen, ztake; intros; apply take_ge; lia. Qed.

Lemma zdrop_all n l : zlen l <= n -> zdrop n l = [].
Proof. unfold zlen, zdrop; intros; apply drop_ge; lia. Qed.

Lemma zdrop_app_l n l k : 0 <= n <= zlen l -> zdrop n (l ++ k) = zdrop n l ++ k.
Proof. unfold zlen, zdrop; intros; apply drop_app_le; lia. Qed.

Lemma zdrop_app_r n l k : zlen l <= n -> zdrop n (l ++ k) = zdrop (n - zlen l) k.
Proof. unfold zlen, zdrop; intros; rewrite drop_app_ge by lia; f_equal; lia. Qed.

Lemma ztake_app_l n l k : n <= zlen l -> ztake n (l ++ k) = ztake n l.
Proof. unfold zlen, ztake; intros; apply take_app_le; lia. Qed.

Lemma ztake_app_r n l k :
  zlen l <= n -> ztake n (l ++ k) = l ++ ztake (n - zlen l) k.
Proof. unfold zlen, ztake; intros; rewrite take_app_ge by lia; do 2 f_equal; lia. Qed.

Lemma ztake_ztake n m l : 0 <= n <= m -> ztake n (ztake m l) = ztake n l.
Proof. unfold ztake; intros; rewrite take_take; f_equal; lia. Qed.

Lemma ztake_add n m l :
  0 <= n -> 0 <= m -> ztake (n + m) l = ztake n l ++ ztake m (zdrop n l).
Proof.
  intros; unfold ztake, zdrop.
  rewrite Z2Nat.inj_add, take_take_drop by lia; done.
Qed.

Lemma ztake_slice_eq n i m l k : ztake n l = ztake n k -> 0 <= i -> 0 <= m -> i + m <= n ->
  ztake m (zdrop i l) = ztake m (zdrop i k).
Proof.
  unfold ztake, zdrop; intros Heq ???.
  assert (Ht : forall j : list A, take (Z.to_nat i + Z.to_nat m) j =
    take (Z.to_nat i + Z.to_nat m) (take (Z.to_nat n) j))
    by (intros j; rewrite take_take; f_equal; lia).
  by rewrite !take_drop_commute, Ht, Heq, <- Ht.
Qed.

Lemma zdrop_replicate n m (x : A) : 0 <= n <= m ->
  zdrop n (replicate (Z.to_nat m) x) = replicate (Z.to_nat (m - n)) x.
Proof. intros; unfold zdrop; rewrite drop_replicate; f_equal; lia. Qed.

Lemma rd_done l i x : rd l i = Done x <-> 0 <= i /\ l !! Z.to_nat i = Some x.
Proof.
  unfold rd; case_if; [|split; [done|lia]].
  destruct (l !! Z.to_nat i); split; intuition congruence.
Qed.

Lemma rd_in_range l i : 0 <= i < zlen l -> exists x, rd l i = Done x.
Proof.
  unfold zlen; intros Hi.
  destruct (lookup_lt_is_Some_2 l (Z.to_nat i)) as [x Hx]; [lia|].
  exists x; apply rd_done; split; [lia | done].
Qed.

Lemma rd_range_inv l i x : rd l i = Done x -> 0 <= i < zlen l.
Proof.
  intros [? Hx]%rd_done; apply lookup_lt_Some in Hx; unfold zlen; lia.
Qed.

Lemma rd_ub l i : rd l i = Stop Ub <-> i < 0 \/ zlen l <= i.
Proof.
  unfold rd, zlen; case_if; [|split; [lia|done]].
  destruct (l !! Z.to_nat i) eqn:Hl.
  - apply lookup_lt_Some in Hl; split; [done | lia].
  - apply lookup_ge_None in Hl; split; [lia | done].
Qed.

Lemma rd_stop l i s : rd l i = Stop s -> s = Ub.
Proof. unfold rd; case_if; [destruct (_ !! _) |]; congruence. Qed.

Lemma rd_zdrop l i n : 0 <= n -> 0 <= i -> rd (zdrop n l) i = rd l (n + i).
Proof.
  intros; unfold rd, zdrop.
  rewrite lookup_drop, Z2Nat.inj_add by lia.
  by rewrite !(proj2 (Z.leb_le 0 _)) by lia.
Qed.

Lemma rd_app_l l k i : i < zlen l -> rd (l ++ k) i = rd l i.
Proof.
  unfold rd, zlen; intros; case_if; [|done].
  rewrite lookup_app_l by lia; done.
Qed.

Lemma rd_app_r l k i : zlen l <= i -> rd (l ++ k) i = rd k (i - zlen l).
Proof.
  unfold rd, zlen; intros.
  rewrite !(proj2 (Z.leb_le 0 _)) by lia.
  rewrite lookup_app_r by lia.
  by replace (Z.to_nat i - length l)%nat with (Z.to_nat (i - Z.of_nat (length l))) by lia.
Qed.

Lemma rd_0 l : rd l 0 = match head l with Some x => Done x | None => Stop Ub end.
Proof. by destruct l. Qed.

Lemma slice_done l i n r :
  slice l i n = Done r <->
  0 <= i /\ 0 <= n /\ i + n <= zlen l /\ r = ztake n (zdrop i l).
Proof.
  unfold slice; case_if; split; intros Hr; try congruence.
  - injection Hr as <-; auto.
  - destruct Hr as (_ & _ & _ & ->); done.
  - destruct Hr as (? & ? & ? & ->).
    rewrite !(proj2 (Z.leb_le _ _)) in E by lia; discriminate.
Qed.

Lemma slice_ok l i n :
  0 <= i -> 0 <= n -> i + n <= zlen l -> slice l i n = Done (ztake n (zdrop i l)).
Proof. intros; apply slice_done; auto. Qed.

Lemma slice_mid pre l post : slice (pre ++ l ++ post) (zlen pre) (zlen l) = Done l.
Proof.
  pose proof (zlen_nonneg pre); pose proof (zlen_nonneg l); pose proof (zlen_nonneg post).
  apply slice_done; rewrite !zlen_app; split_and!; [lia..|].
  rewrite zdrop_app_r, Z.sub_diag, zdrop_0, ztake_app_l by lia; by rewrite ztake_all by lia.
Qed.

Lemma slice_stop l i n s : slice l i n = Stop s -> s = Ub.
Proof. unfold slice; case_if; congruence. Qed.

Lemma splice_ok l i k :
  0 <= i -> i + zlen k <= zlen l ->
  splice l i k = Done (ztake i l ++ k ++ zdrop (i + zlen k) l).
Proof. intros; unfold splice; rewrite !(proj2 (Z.leb_le _ _)) by lia; done. Qed.

Lemma splice_stop l i k s : splice l i k = Stop s -> s = Ub.
Proof. unfold splice; case_if; congruence. Qed.

End zlists.

#[export] Hint Resolve zlen_nonneg : fcc.
Create Rewrite HintDb zlen.
#[export] Hint Rewrite @zlen_app @zlen_cons @zlen_nil : zlen.

Lemma signed_wrap_small half z : - half <= z < half -> signed_wrap half z = z.
Proof.
  intros Hz; unfold signed_wrap; destruct (Z_lt_dec z 0).
  - rewrite <- (Z_mod_plus_full z 1), Z.mod_small by lia; rewrite (proj2 (Z.ltb_ge _ _)) by lia; lia.
  - rewrite Z.mod_small by lia; by rewrite (proj2 (Z.ltb_lt _ _)) by lia.
Qed.

Lemma s32_small z : -2147483648 <= z < 2147483648 -> s32 z = z.
Proof. exact (signed_wrap_small 2147483648 z). Qed.

Lemma u32_small z : 0 <= z < 4294967296 -> u32 z = z.
Proof. apply Z.mod_small. Qed.

Lemma u32_range z : 0 <= u32 z < 4294967296.
Proof. apply Z.mod_pos_bound; lia. Qed.

Lemma u64_small z : 0 <= z < 18446744073709551616 -> u64 z = z.
Proof. apply Z.mod_small. Qed.

Lemma u64_range z : 0 <= u64 z < 18446744073709551616.
Proof. apply Z.mod_pos_bound; lia. Qed.

Lemma u16_small z : 0 <= z < 65536 -> u16 z = z.
Proof. apply Z.mod_small. Qed.

Lemma u16_range z : 0 <= u16 z < 65536.
Proof. apply Z.mod_pos_bound; lia. Qed.

Lemma land_ones_bound x n : 0 <= n -> 0 <= Z.land x (Z.ones n) <= Z.ones n.
Proof.
  intros Hn; rewrite Z.land_ones, Z.ones_equiv by done.
  pose proof (Z.mod_pos_bound x (2 ^ n) ltac:(lia)); lia.
Qed.

Lemma rd_byte l i b : is_bytes l -> rd l i = Done b -> 0 <= b < 256.
Proof.
  intros Hl [_ Hb]%rd_done.
  exact (Forall_lookup_1 _ _ _ _ Hl Hb).
Qed.

(** * Reasoning about outcomes

    [wp E m P]: the call [m] returns a value that satisfies [P], or stops in one of
    the ways [E] allows. [overread] allows a read outside a packet only, so that
    [wp overread m P] also says that [m] stays inside all its other objects and that its fuel
    is enough; [never] allows nothing, so that [wp never m P] is total correctness. *)

Definition wp {A} (E : stop -> Prop) (m : outcome A) (P : A -> Prop) : Prop :=
  match m with Done a => P a | Stop e => E e end.

Definition overread (e : stop) : Prop := e = Overread.

Definition never (e : stop) : Prop := False.

Section wp.
Context {A B : Type} (E : stop -> Prop).

Lemma wp_bind (m : outcome A) (f : A -> outcome B) P :
  wp E m (fun a => wp E (f a) P) -> wp E (m ≫= f) P.
Proof. by destruct m. Qed.

Lemma wp_mono (m : outcome A) (P P' : A -> Prop) :
  wp E m P -> (forall a, m = Done a -> P a -> P' a) -> wp E m P'.
Proof. destruct m; cbn; auto. Qed.

Lemma wp_done_inv (m : outcome A) P a : wp E m P -> m = Done a -> P a.
Proof. by intros H ->. Qed.

Lemma wp_not_stop (m : outcome A) P e : wp E m P -> ~ E e -> m <> Stop e.
Proof. by intros H He ->. Qed.

End wp.

Lemma wp_never_done {A} (m : outcome A) P : wp never m P -> exists a, m = Done a /\ P a.
Proof. destruct m; cbn; [eauto | intros []]. Qed.

Lemma wp_overread (l : list Z) i P :
  (forall x, rd l i = Done x -> 0 <= i < zlen l -> P x) -> wp overread (packet_rd l i) P.
Proof.
  intros H; destruct (rd l i) eqn:Er; cbn; [|done].
  apply H; [done | by eapply rd_range_inv].
Qed.

Lemma wp_rd {A} E (l : list A) i P :
  0 <= i < zlen l -> (forall x, rd l i = Done x -> P x) -> wp E (rd l i) P.
Proof. intros Hi H; destruct (rd_in_range l i Hi) as [x Hx]; rewrite Hx; cbn; auto. Qed.

Lemma wp_packet_rd E (l : list Z) i P :
  0 <= i < zlen l -> (forall x, rd l i = Done x -> P x) -> wp E (packet_rd l i) P.
Proof. intros Hi H; destruct (rd_in_range l i Hi) as [x Hx]; rewrite Hx; cbn; auto. Qed.

Lemma packet_rd_over (l : list Z) i : i < 0 \/ zlen l <= i -> packet_rd l i = Stop Overread.
Proof. by intros ->%rd_ub. Qed.

(** One step of a symbolic execution of the goal's call; reads are left to the
    callers' own tactics. *)
Ltac wp_step :=
  match goal with
  | |- wp _ (mbind _ _) _ => apply wp_bind
  | |- wp _ (Done _) _ => cbn [wp]
  | |- wp _ (if ?b then _ else _) _ => let E := fresh "E" in destruct b eqn:E; b2p
  | |- wp overread (packet_rd _ _) _ =>
      apply wp_overread; let x := fresh "b" in let H := fresh "Hb" in intros x H ?
  end.
