(* ===== verification/Interfaces.v ===== *)
(** What the program takes from code outside the repository, as type classes:
    the constants of [streamfs/config.h] and the container [boost::circular_buffer].
    A class gives the operations the sources call, its [Laws] or [Ok]
    companion the documented behaviour the proofs rely on, and the instances at the
    end show the laws can be met and make the model run. *)

From S2P Require Import Prelude.

(** * Constants of streamfs/config.h *)

Class StreamfsConfig := {
  TS_PACKAGE_SIZE : Z;
  BUFFER_CHUNK_SIZE : Z;
}.

(** An MPEG transport stream packet has 188 bytes; a chunk holds at least one and
    its size fits an [int]. *)
Class StreamfsConfigOk (c : StreamfsConfig) : Prop := {
  package_size_188 : TS_PACKAGE_SIZE = 188;
  chunk_holds_package : 188 <= BUFFER_CHUNK_SIZE;
  chunk_size_int : BUFFER_CHUNK_SIZE < 2147483648;
}.

(** * boost::circular_buffer

    [cb_items] lists the elements, oldest ([front()]) first. *)

Class CircularBuffer (cb : Type -> Type) := {
  cb_new : forall {A}, Z -> cb A;
  cb_items : forall {A}, cb A -> list A;
  cb_capacity : forall {A}, cb A -> Z;
  cb_push_back : forall {A}, A -> cb A -> cb A;
  cb_pop_front : forall {A}, cb A -> cb A;
  cb_clear : forall {A}, cb A -> cb A;
}.

(** Pushing on a full buffer overwrites the oldest element; the capacity never
    changes. *)
Class CircularBufferLaws (cb : Type -> Type) `{CircularBuffer cb} : Prop := {
  cb_items_new : forall A n, 0 <= n -> cb_items (cb_new n : cb A) = [];
  cb_capacity_new : forall A n, 0 <= n -> cb_capacity (cb_new n : cb A) = n;
  cb_items_push : forall A (x : A) b, 0 < cb_capacity b ->
    cb_items (cb_push_back x b) =
    (if zlen (cb_items b) <? cb_capacity b then cb_items b else tail (cb_items b)) ++ [x];
  cb_capacity_push : forall A (x : A) b,
    cb_capacity (cb_push_back x b) = cb_capacity b;
  cb_items_pop : forall A (b : cb A), cb_items (cb_pop_front b) = tail (cb_items b);
  cb_capacity_pop : forall A (b : cb A), cb_capacity (cb_pop_front b) = cb_capacity b;
  cb_items_clear : forall A (b : cb A), cb_items (cb_clear b) = [];
  cb_capacity_clear : forall A (b : cb A), cb_capacity (cb_clear b) = cb_capacity b;
}.

(** * boost::lockfree::queue

    [q_items] lists the elements, the next one to be popped first. *)

Class LockfreeQueue (q : Type -> Type) := {
  q_new : forall {A}, q A;
  q_items : forall {A}, q A -> list A;
  q_push : forall {A}, A -> q A -> q A;
  q_pop : forall {A}, q A -> option (A * q A);
}.

Class LockfreeQueueLaws (q : Type -> Type) `{LockfreeQueue q} : Prop := {
  q_items_new : forall A, q_items (q_new : q A) = [];
  q_items_push : forall A (x : A) b, q_items (q_push x b) = q_items b ++ [x];
  q_pop_empty : forall A (b : q A), q_items b = [] -> q_pop b = None;
  q_pop_cons : forall A (x : A) l b, q_items b = x :: l ->
    exists b', q_pop b = Some (x, b') /\ q_items b' = l;
}.

(** * Instances *)

(** A circular buffer as a capacity and the list of its elements. *)
Record list_cb (A : Type) := mk_list_cb { lcb_capacity : Z; lcb_items : list A }.
Arguments mk_list_cb {A} _ _.
Arguments lcb_capacity {A} _.
Arguments lcb_items {A} _.

#[export] Instance list_cb_circular : CircularBuffer list_cb := {
  cb_new A n := mk_list_cb n [];
  cb_items A b := lcb_items b;
  cb_capacity A b := lcb_capacity b;
  cb_push_back A x b :=
    mk_list_cb (lcb_capacity b)
      ((if zlen (lcb_items b) <? lcb_capacity b then lcb_items b
        else tail (lcb_items b)) ++ [x]);
  cb_pop_front A b := mk_list_cb (lcb_capacity b) (tail (lcb_items b));
  cb_clear A b := mk_list_cb (lcb_capacity b) [];
}.

#[export] Instance list_cb_laws : CircularBufferLaws list_cb.
Proof. split; reflexivity. Qed.

#[export] Instance list_queue : LockfreeQueue list := {
  q_new A := [];
  q_items A l := l;
  q_push A x l := l ++ [x];
  q_pop A l := match l with [] => None | x :: l => Some (x, l) end;
}.

#[export] Instance list_queue_laws : LockfreeQueueLaws list.
Proof.
  split; [done|done| |].
  - intros A b E; change (b = []) in E; by subst.
  - intros A x l b E; change (b = x :: l) in E; subst; cbn; eauto.
Qed.

(** Chunks of 1000 bytes: packets straddle chunk boundaries. *)
Definition config1000 : StreamfsConfig :=
  {| TS_PACKAGE_SIZE := 188; BUFFER_CHUNK_SIZE := 1000 |}.

Lemma config1000_ok : StreamfsConfigOk config1000.
Proof. split; cbn; lia. Qed.
