(* ===== verification/TsStream.v ===== *)
(** The transport stream assembler of the PSI parser: class [PSIParser::TSStream]
    of include/StreamParser/PSIParser.h and src/StreamParser/PSIParser.cpp, which
    cuts the chunks the media source delivers into packets of 188 bytes, and the
    abstract byte stream it implements. *)

From S2P Require Import Prelude Interfaces.

(** [std::array<unsigned char, TS_PACKAGE_SIZE>] *)
Abbreviation StreamPacketT := (list Z).

Abbreviation buffer_chunk := (list Z).

Inductive TSDataError := OK | NOT_ENOUGH_DATA | DATA_CC_ERROR.

#[export] Instance TSDataError_eq_dec : EqDecision TSDataError.
Proof. solve_decision. Defined.

Record TSStream (cb : Type -> Type) := mkTSStream {
  mCircBuf : cb buffer_chunk;
  mPointer : Z;
}.
Arguments mkTSStream {cb} _ _.
Arguments mCircBuf {cb} _.
Arguments mPointer {cb} _.

Section TSStream.
Context {cfg : StreamfsConfig} {cb : Type -> Type} {CB : CircularBuffer cb}.

Definition TSStream_new : TSStream cb := mkTSStream (cb_new 2) 0.

Definition needsNewChunk (s : TSStream cb) : bool :=
  zlen (cb_items (mCircBuf s)) <? 2.

Definition insertChunk (s : TSStream cb) (chunk : buffer_chunk) : bool * TSStream cb :=
  if zlen (cb_items (mCircBuf s)) =? 2 then (false, s)
  else (true, mkTSStream (cb_push_back chunk (mCircBuf s)) (mPointer s)).

(** The packet is an out parameter: it keeps its value when there is not enough
    data. *)
Definition getNextPacket (s : TSStream cb) (packet : StreamPacketT)
  : outcome (TSDataError * StreamPacketT * TSStream cb) :=
  let buf := cb_items (mCircBuf s) in
  if (zlen buf =? 0)
     || ((zlen buf =? 1) && (BUFFER_CHUNK_SIZE - mPointer s <? TS_PACKAGE_SIZE))
  then Done (NOT_ENOUGH_DATA, packet, s)
  else
    '(packet, s) ←
      (if TS_PACKAGE_SIZE <=? BUFFER_CHUNK_SIZE - mPointer s then
         chunk0 ← rd buf 0;
         packet ← slice chunk0 (mPointer s) TS_PACKAGE_SIZE;
         let ptr := mPointer s + TS_PACKAGE_SIZE in
         if ptr =? BUFFER_CHUNK_SIZE
         then Done (packet, mkTSStream (cb_pop_front (mCircBuf s)) 0)
         else Done (packet, mkTSStream (mCircBuf s) ptr)
       else
         let firstSeq := BUFFER_CHUNK_SIZE - mPointer s in
         let secondSeq := TS_PACKAGE_SIZE - firstSeq in
         chunk0 ← rd buf 0;
         head ← slice chunk0 (mPointer s) firstSeq;
         chunk1 ← rd buf 1;
         tail ← slice chunk1 0 secondSeq;
         Done (head ++ tail, mkTSStream (cb_pop_front (mCircBuf s)) secondSeq));
    sync ← rd packet 0;
    Done (if negb (sync =? 71) then DATA_CC_ERROR else OK, packet, s).

(** * The byte stream it implements

    [pending s] is what has been inserted and not yet handed out. *)

Definition pending (s : TSStream cb) : list Z :=
  zdrop (mPointer s) (concat (cb_items (mCircBuf s))).

(** The specification of reading a packet from a stream of bytes. *)
Definition next_packet (bytes : list Z) : option (TSDataError * StreamPacketT * list Z) :=
  if zlen bytes <? TS_PACKAGE_SIZE then None
  else
    let packet := ztake TS_PACKAGE_SIZE bytes in
    Some (if decide (head packet = Some 71) then OK else DATA_CC_ERROR,
          packet, zdrop TS_PACKAGE_SIZE bytes).

Record TSStream_ok (s : TSStream cb) : Prop := {
  ts_capacity : cb_capacity (mCircBuf s) = 2;
  ts_size : zlen (cb_items (mCircBuf s)) <= 2;
  ts_chunks : Forall (fun c => zlen c = BUFFER_CHUNK_SIZE) (cb_items (mCircBuf s));
  ts_pointer : 0 <= mPointer s < BUFFER_CHUNK_SIZE;
  ts_empty : cb_items (mCircBuf s) = [] -> mPointer s = 0;
}.

Context {CBL : CircularBufferLaws cb} {cfg_ok : StreamfsConfigOk cfg}.

Lemma TSStream_new_ok : TSStream_ok TSStream_new.
Proof.
  pose proof chunk_holds_package.
  split; cbn; rewrite ?cb_capacity_new, ?cb_items_new, ?zlen_nil by lia; auto; lia.
Qed.

Lemma pending_new : pending TSStream_new = [].
Proof. unfold pending; cbn; rewrite cb_items_new by lia; done. Qed.

(** The three shapes of a well-formed stream. *)
Lemma ts_shape s : TSStream_ok s ->
  (cb_items (mCircBuf s) = [] /\ mPointer s = 0) \/
  (exists c, cb_items (mCircBuf s) = [c] /\ zlen c = BUFFER_CHUNK_SIZE) \/
  (exists c d, cb_items (mCircBuf s) = [c; d] /\
     zlen c = BUFFER_CHUNK_SIZE /\ zlen d = BUFFER_CHUNK_SIZE).
Proof.
  intros [_ Hs Hc _ He].
  destruct (cb_items (mCircBuf s)) as [|c [|d [|e l]]] eqn:Ei.
  - auto.
  - right; left; exists c; apply Forall_cons in Hc as [? _]; auto.
  - right; right; exists c, d; decompose_Forall_hyps; auto.
  - exfalso; autorewrite with zlen in Hs; pose proof (zlen_nonneg l); lia.
Qed.

Lemma pending_length s : TSStream_ok s ->
  zlen (pending s) =
  zlen (cb_items (mCircBuf s)) * BUFFER_CHUNK_SIZE - mPointer s.
Proof.
  intros Hs; pose proof (ts_pointer _ Hs); pose proof chunk_holds_package.
  unfold pending.
  destruct (ts_shape s Hs) as [[-> ->]|[(c & -> & Hc)|(c & d & -> & Hc & Hd)]];
    [done|..]; cbn [concat]; rewrite ?app_nil_r, zlen_zdrop;
    autorewrite with zlen; lia.
Qed.

Lemma insertChunk_ok s chunk :
  TSStream_ok s -> zlen chunk = BUFFER_CHUNK_SIZE -> needsNewChunk s = true ->
  exists s', insertChunk s chunk = (true, s') /\ TSStream_ok s' /\
             pending s' = pending s ++ chunk.
Proof.
  intros Hs Hlen Hn; pose proof (ts_pointer _ Hs); pose proof chunk_holds_package.
  unfold needsNewChunk in Hn; apply Z.ltb_lt in Hn.
  unfold insertChunk; rewrite (proj2 (Z.eqb_neq _ _)) by lia.
  set (s' := mkTSStream _ _); exists s'; split; [done|].
  assert (Hi : cb_items (mCircBuf s') = cb_items (mCircBuf s) ++ [chunk]).
  { cbn; rewrite cb_items_push; rewrite (ts_capacity _ Hs); [|lia].
    by rewrite (proj2 (Z.ltb_lt _ _)) by lia. }
  split.
  - split; rewrite ?Hi.
    + cbn; rewrite cb_capacity_push; apply Hs.
    + autorewrite with zlen; lia.
    + apply Forall_app; split; [apply Hs | by constructor].
    + apply Hs.
    + by destruct (cb_items (mCircBuf s)).
  - unfold pending; rewrite Hi, concat_app; cbn; rewrite app_nil_r.
    destruct (ts_shape s Hs) as [[-> ->]|[(c & -> & Hc)|(c & d & Hcd & _)]];
      [done | | by rewrite Hcd in Hn].
    cbn; rewrite app_nil_r, zdrop_app_l by lia; done.
Qed.

Lemma insertChunk_full s chunk :
  needsNewChunk s = false -> TSStream_ok s -> insertChunk s chunk = (false, s).
Proof.
  unfold needsNewChunk, insertChunk; intros Hn Hs; b2p.
  pose proof (ts_size _ Hs); by rewrite (proj2 (Z.eqb_eq _ _)) by lia.
Qed.

(** The packet of the first chunk alone. *)
Lemma pending_inside s c l :
  cb_items (mCircBuf s) = c :: l -> zlen c = BUFFER_CHUNK_SIZE ->
  0 <= mPointer s -> TS_PACKAGE_SIZE <= BUFFER_CHUNK_SIZE - mPointer s ->
  ztake TS_PACKAGE_SIZE (pending s) = ztake TS_PACKAGE_SIZE (zdrop (mPointer s) c) /\
  zdrop TS_PACKAGE_SIZE (pending s) = zdrop (mPointer s + TS_PACKAGE_SIZE) c ++ concat l.
Proof.
  pose proof package_size_188; intros Hi Hc H0 Hfit.
  unfold pending; rewrite Hi; cbn.
  rewrite zdrop_app_l, ztake_app_l by (rewrite ?zlen_zdrop; lia).
  split; [done|].
  by rewrite zdrop_app_l, zdrop_zdrop by (rewrite ?zlen_zdrop; lia).
Qed.

(** The packet that starts in one chunk and ends in the next. *)
Lemma pending_across s c d :
  cb_items (mCircBuf s) = [c; d] ->
  zlen c = BUFFER_CHUNK_SIZE -> zlen d = BUFFER_CHUNK_SIZE ->
  0 <= mPointer s < BUFFER_CHUNK_SIZE ->
  BUFFER_CHUNK_SIZE - mPointer s < TS_PACKAGE_SIZE ->
  let firstSeq := BUFFER_CHUNK_SIZE - mPointer s in
  let secondSeq := TS_PACKAGE_SIZE - firstSeq in
  ztake TS_PACKAGE_SIZE (pending s) =
    ztake firstSeq (zdrop (mPointer s) c) ++ ztake secondSeq (zdrop 0 d) /\
  zdrop TS_PACKAGE_SIZE (pending s) = zdrop secondSeq d.
Proof.
  pose proof package_size_188; pose proof chunk_holds_package.
  intros Hi Hc Hd Hp Hsmall firstSeq secondSeq.
  assert (Hl : zlen (zdrop (mPointer s) c) = firstSeq) by (rewrite zlen_zdrop; lia).
  unfold pending; rewrite Hi; cbn; rewrite app_nil_r, zdrop_app_l by lia.
  rewrite ztake_app_r, zdrop_app_r, Hl, (ztake_all firstSeq) by lia; done.
Qed.

Lemma sync_read (p : StreamPacketT) : 0 < zlen p -> exists b, rd p 0 = Done b /\
  (if negb (b =? 71) then DATA_CC_ERROR else OK) =
  (if decide (head p = Some 71) then OK else DATA_CC_ERROR).
Proof.
  intros Hp; rewrite rd_0; destruct p as [|b p]; [done|].
  exists b; split; [done|]; cbn.
  destruct (Z.eqb_spec b 71) as [->|Hne]; cbn; case_decide; congruence.
Qed.

Definition sync_state (p : StreamPacketT) : TSDataError :=
  if decide (head p = Some 71) then OK else DATA_CC_ERROR.

Lemma getNextPacket_inside s pkt c l :
  TSStream_ok s -> cb_items (mCircBuf s) = c :: l ->
  TS_PACKAGE_SIZE <= BUFFER_CHUNK_SIZE - mPointer s ->
  exists s', let p := ztake TS_PACKAGE_SIZE (pending s) in
    getNextPacket s pkt = Done (sync_state p, p, s') /\ TSStream_ok s' /\
    pending s' = zdrop TS_PACKAGE_SIZE (pending s).
Proof.
  pose proof package_size_188; pose proof chunk_holds_package.
  intros Hs Hi Hfit; pose proof (ts_pointer _ Hs).
  assert (Hc : zlen c = BUFFER_CHUNK_SIZE).
  { pose proof (ts_chunks _ Hs) as HF; rewrite Hi in HF; by apply Forall_cons in HF as [? _]. }
  assert (Hsz : 0 <= zlen l <= 1).
  { pose proof (ts_size _ Hs) as Hz; rewrite Hi, zlen_cons in Hz.
    pose proof (zlen_nonneg l); lia. }
  destruct (pending_inside s c l) as [Ht Hd]; [done|done|lia|done|].
  assert (Hp : zlen (ztake TS_PACKAGE_SIZE (pending s)) = 188)
    by (rewrite Ht, zlen_ztake; rewrite ?zlen_zdrop; lia).
  destruct (sync_read (ztake TS_PACKAGE_SIZE (pending s))) as (b & Hb & Hsync); [lia|].
  unfold getNextPacket; rewrite Hi; autorewrite with zlen.
  rewrite (proj2 (Z.eqb_neq (1 + zlen l) 0)), (proj2 (Z.ltb_ge _ _)), andb_false_r by lia.
  rewrite (proj2 (Z.leb_le _ _)) by lia; cbn [orb].
  change (rd (c :: l) 0) with (Done c); cbn [mbind outcome_bind].
  rewrite slice_ok, <- Ht by lia; cbn [mbind outcome_bind].
  destruct (mPointer s + TS_PACKAGE_SIZE =? BUFFER_CHUNK_SIZE) eqn:He; b2p;
    cbn [mbind outcome_bind]; rewrite Hb; cbn [mbind outcome_bind]; rewrite Hsync;
    (eexists; split; [done|]).
  - assert (Hi' : cb_items (cb_pop_front (mCircBuf s)) = l) by (by rewrite cb_items_pop, Hi).
    split.
    + split; cbn; rewrite ?Hi', ?cb_capacity_pop; [apply Hs|lia| |lia|done].
      pose proof (ts_chunks _ Hs) as HF; rewrite Hi in HF; by apply Forall_cons in HF as [_ ?].
    + rewrite Hd, He, <- Hc, zdrop_all by lia; unfold pending; cbn; by rewrite Hi', zdrop_0.
  - split.
    + split; cbn; [apply Hs|apply Hs|apply Hs|lia|by rewrite Hi].
    + rewrite Hd; unfold pending; cbn; rewrite Hi; cbn.
      by rewrite zdrop_app_l by lia.
Qed.

Lemma getNextPacket_across s pkt c d :
  TSStream_ok s -> cb_items (mCircBuf s) = [c; d] ->
  zlen c = BUFFER_CHUNK_SIZE -> zlen d = BUFFER_CHUNK_SIZE ->
  BUFFER_CHUNK_SIZE - mPointer s < TS_PACKAGE_SIZE ->
  exists s', let p := ztake TS_PACKAGE_SIZE (pending s) in
    getNextPacket s pkt = Done (sync_state p, p, s') /\ TSStream_ok s' /\
    pending s' = zdrop TS_PACKAGE_SIZE (pending s).
Proof.
  pose proof package_size_188; pose proof chunk_holds_package.
  intros Hs Hi Hc Hd Hsmall; pose proof (ts_pointer _ Hs).
  destruct (pending_across s c d) as [Ht Hr]; [done..|].
  assert (Hp : zlen (ztake TS_PACKAGE_SIZE (pending s)) = 188)
    by (rewrite Ht, zlen_app, !zlen_ztake; rewrite ?zlen_zdrop; lia).
  destruct (sync_read (ztake TS_PACKAGE_SIZE (pending s))) as (b & Hb & Hsync); [lia|].
  unfold getNextPacket; rewrite Hi.
  change (zlen [c; d]) with 2; cbn [Z.eqb Pos.eqb orb andb].
  rewrite (proj2 (Z.leb_gt _ _)) by lia.
  change (rd [c; d] 0) with (Done c); change (rd [c; d] 1) with (Done d).
  cbn [mbind outcome_bind].
  rewrite !slice_ok by lia.
  cbn [mbind outcome_bind]; rewrite <- Ht, Hb; cbn [mbind outcome_bind]; rewrite Hsync.
  eexists; split; [done|]; split.
  - split; cbn; rewrite ?cb_items_pop, ?cb_capacity_pop, ?Hi; cbn;
      [apply Hs|done|by constructor|lia|done].
  - rewrite Hr; unfold pending; cbn; by rewrite cb_items_pop, Hi; cbn; rewrite app_nil_r.
Qed.

Lemma getNextPacket_spec s pkt (Hs : TSStream_ok s) :
  match next_packet (pending s) with
  | None => getNextPacket s pkt = Done (NOT_ENOUGH_DATA, pkt, s)
  | Some (e, p, rest) => exists s',
      getNextPacket s pkt = Done (e, p, s') /\ TSStream_ok s' /\ pending s' = rest
  end.
Proof.
  pose proof package_size_188; pose proof (pending_length s Hs) as Hlen.
  pose proof (ts_pointer _ Hs).
  assert (Hshort : zlen (pending s) < TS_PACKAGE_SIZE <->
    cb_items (mCircBuf s) = [] \/
    zlen (cb_items (mCircBuf s)) = 1 /\ BUFFER_CHUNK_SIZE - mPointer s < TS_PACKAGE_SIZE).
  { pose proof chunk_holds_package.
    destruct (ts_shape s Hs) as [[Hi ->]|[(c & Hi & Hc)|(c & d & Hi & Hc & Hd)]];
      rewrite Hi in *; autorewrite with zlen in *; intuition (try done; lia). }
  unfold next_packet; case_if.
  - unfold getNextPacket; destruct (proj1 Hshort E) as [->|[-> Hs1]]; [done|].
    by rewrite (proj2 (Z.ltb_lt _ _)), orb_true_r by lia.
  - assert (Hgo : exists s', let p := ztake TS_PACKAGE_SIZE (pending s) in
      getNextPacket s pkt = Done (sync_state p, p, s') /\ TSStream_ok s' /\
      pending s' = zdrop TS_PACKAGE_SIZE (pending s)); [|exact Hgo].
    destruct (ts_shape s Hs) as [[Hi _]|[(c & Hi & Hc)|(c & d & Hi & Hc & Hd)]].
    + exfalso; apply (Z.lt_irrefl TS_PACKAGE_SIZE); intuition lia.
    + apply (getNextPacket_inside s pkt c []); auto.
      destruct (Z.le_gt_cases TS_PACKAGE_SIZE (BUFFER_CHUNK_SIZE - mPointer s)); auto.
      exfalso; rewrite Hi in Hshort; change (zlen [c]) with 1 in Hshort; intuition lia.
    + destruct (Z.le_gt_cases TS_PACKAGE_SIZE (BUFFER_CHUNK_SIZE - mPointer s)).
      * by apply (getNextPacket_inside s pkt c [d]).
      * by apply (getNextPacket_across s pkt c d).
Qed.

End TSStream.
