(* ===== verification/Protection.v ===== *)
(** The stream protection record that the parsers publish on the monitored variable
    kDrm0: include/StreamParser/StreamProtectionConfig.h. *)

From S2P Require Import Prelude.

Inductive ConfidenceTypes := RESET | LOW | MID | HIGH.

#[export] Instance ConfidenceTypes_eq_dec : EqDecision ConfidenceTypes.
Proof. solve_decision. Defined.

(** The values of the enumeration. *)
Definition confidence_value (c : ConfidenceTypes) : Z :=
  match c with RESET => 0 | LOW => 1 | MID => 2 | HIGH => 3 end.

Record StreamProtectionConfig := mkStreamProtectionConfig {
  confidence : ConfidenceTypes;
  channelInfo : string;
  ecm : list Z;
  pat : list Z;
  pmt : list Z;
  isClearStream : bool;
}.

#[export] Instance StreamProtectionConfig_eq_dec : EqDecision StreamProtectionConfig.
Proof. solve_decision. Defined.

Definition StreamProtectionConfig_reset (channel : string) : StreamProtectionConfig :=
  mkStreamProtectionConfig RESET channel [] [] [] true.

Definition StreamProtectionConfig_default : StreamProtectionConfig :=
  mkStreamProtectionConfig RESET "" [] [] [] true.
