(* ===== verification/PidInfo.v ===== *)
(** Class [PidInfo] of include/StreamParser/PSIParser.h and
    src/StreamParser/PSIParser.cpp: what the PSI parser knows of one table (PAT,
    PMT or ECM): the packet identifier it travels on, the version last seen and the
    packet that carried it. *)

From S2P Require Import Prelude Interfaces TsStream.

Definition PSI_INVALID_PID : Z := 65535.
Definition PSI_MAX_PID : Z := 8191.

Record PidInfo := mkPidInfo {
  mPid : Z;
  mVersion : Z;
  mPidValid : bool;
  mVersionValid : bool;
  mTsPacket : StreamPacketT;
}.

#[export] Instance PidInfo_eta : Eta PidInfo := fun r =>
  mkPidInfo (mPid r) (mVersion r) (mPidValid r) (mVersionValid r) (mTsPacket r).

#[export] Instance PidInfo_eq_dec : EqDecision PidInfo.
Proof. solve_decision. Defined.

Section PidInfo.
Context {cfg : StreamfsConfig}.
Implicit Types i : PidInfo.

Definition zero_packet : StreamPacketT := replicate (Z.to_nat TS_PACKAGE_SIZE) 0.

Definition PidInfo_new (pid : Z) : PidInfo :=
  mkPidInfo pid 0 (pid <=? PSI_MAX_PID) false zero_packet.

Definition setPid i (pid : Z) : bool * PidInfo :=
  if mPidValid i then (false, i)
  else
    let valid := pid <=? PSI_MAX_PID in
    (valid, i <| mPid := pid |> <| mPidValid := valid |>).

Definition setVer i (ver : Z) : bool * PidInfo :=
  if negb (mPidValid i) then (false, i)
  else (true, i <| mVersion := ver |> <| mVersionValid := true |>).

Definition reset i : PidInfo :=
  mkPidInfo PSI_INVALID_PID 0 false false zero_packet.

Definition isNew i (v : Z) : bool :=
  if negb (mPidValid i) then false
  else if negb (mVersionValid i) then true
  else negb (mVersion i =? v).

Definition isPid i (pid : Z) : bool :=
  if negb (mPidValid i) then false else pid =? mPid i.

Definition getPid i : Z :=
  if negb (mPidValid i) then PSI_INVALID_PID else mPid i.

Definition setPacket i (p : StreamPacketT) : PidInfo := i <| mTsPacket := p |>.

Definition getPmtData i : outcome (option StreamPacketT) :=
  if mPid i =? PSI_INVALID_PID then Done None
  else
    b ← rd (mTsPacket i) 0;
    if negb (b =? 2) then Done None else Done (Some (mTsPacket i)).

Definition getPatData i : outcome (option StreamPacketT) :=
  if mPid i =? PSI_INVALID_PID then Done None
  else
    b ← rd (mTsPacket i) 0;
    if negb (b =? 0) then Done None else Done (Some (mTsPacket i)).

Definition processed i : bool := mVersionValid i.

(** The validity flag says whether the identifier is one of a packet, a version is
    only known for a valid identifier, and the packet is a whole one. *)
Record PidInfo_ok i : Prop := {
  pi_valid : mPidValid i = (mPid i <=? PSI_MAX_PID);
  pi_pid : 0 <= mPid i <= PSI_INVALID_PID;
  pi_version : mVersionValid i = true -> mPidValid i = true;
  pi_packet : zlen (mTsPacket i) = TS_PACKAGE_SIZE;
}.

Context {cfg_ok : StreamfsConfigOk cfg}.

Lemma zlen_zero_packet : zlen zero_packet = TS_PACKAGE_SIZE.
Proof. apply zlen_replicate; rewrite package_size_188; lia. Qed.

Lemma PidInfo_new_ok pid : 0 <= pid <= PSI_INVALID_PID -> PidInfo_ok (PidInfo_new pid).
Proof. intros; split; cbn; auto using zlen_zero_packet; discriminate. Qed.

Lemma reset_ok i : PidInfo_ok (reset i).
Proof. split; cbn; auto using zlen_zero_packet; unfold PSI_INVALID_PID; lia. Qed.

Lemma setPid_ok i pid : PidInfo_ok i -> 0 <= pid <= PSI_INVALID_PID ->
  PidInfo_ok (setPid i pid).2.
Proof.
  intros [Hv Hp Hver Hk] Hpid; unfold setPid; destruct (mPidValid i) eqn:E; cbn.
  - split; congruence || auto.
  - split; cbn; auto; intros Hvv; specialize (Hver Hvv); congruence.
Qed.

Lemma setVer_ok i v : PidInfo_ok i -> PidInfo_ok (setVer i v).2.
Proof.
  intros [Hv Hp Hver Hk]; unfold setVer; destruct (mPidValid i) eqn:E; cbn; split; cbn;
    rewrite ?E; auto.
Qed.

Lemma setPacket_ok i p : PidInfo_ok i -> zlen p = TS_PACKAGE_SIZE -> PidInfo_ok (setPacket i p).
Proof. intros [Hv Hp Hver Hk] Hlen; by split. Qed.

Lemma isNew_setVer i v : mPidValid i = true -> isNew (setVer i v).2 v = false.
Proof. unfold isNew, setVer; intros Hv; rewrite Hv; cbn; by rewrite Hv, Z.eqb_refl. Qed.

Lemma isPid_reset_setPid i pid : 0 <= pid <= PSI_MAX_PID ->
  isPid (setPid (reset i) pid).2 pid = true.
Proof.
  intros; unfold isPid, setPid; cbn.
  rewrite (proj2 (Z.leb_le _ _)) by lia; cbn; apply Z.eqb_refl.
Qed.

End PidInfo.

#[export] Hint Resolve reset_ok setPid_ok setVer_ok setPacket_ok PidInfo_new_ok : fcc.
