(* ===== verification/PsiParser.v ===== *)
(** Class [PSIParser] of include/StreamParser/PSIParser.h and
    src/StreamParser/PSIParser.cpp: the consumer of the stream that finds the program
    tables (PAT, PMT) and the entitlement messages (ECM) in the packets and publishes
    them on the monitored variable kDrm0. This file has the data and the operations;
    the theorems are in the files Psi*. *)

From S2P Require Import Prelude Interfaces Protection TsStream PidInfo.

Inductive ParserActionT :=
| ERROR | IGNORE | DROP | DECRYPT_ODD | DECRYPT_EVEN | NEW_ECM | NEW_ECMT | NEW_PAT_PMT.

#[export] Instance ParserActionT_eq_dec : EqDecision ParserActionT.
Proof. solve_decision. Defined.

Inductive PsiParserState_t :=
| INVALID | NEEDS_PAT | NEEDS_PMT | NEEDS_VMX_PMT | NEEDS_ECM | GOT_ECM | NO_ECM.

#[export] Instance PsiParserState_t_eq_dec : EqDecision PsiParserState_t.
Proof. solve_decision. Defined.

(** Assignments to the monitored variables the parser holds. *)
Inductive psi_event :=
| SetDrm (value : StreamProtectionConfig)
| SetCdmSetupDone (value : bool).

#[export] Instance psi_event_eq_dec : EqDecision psi_event.
Proof. solve_decision. Defined.

Definition CA_DESC_LEN : Z := 6.

(** The members that [mPidInfoMtx] protects, which are all that parsing a packet
    works on and, last, the assignments made to monitored variables, the oldest
    first. *)
Record PsiState := mkPsiState {
  mPat : PidInfo;
  mPmt : PidInfo;
  mEcm : PidInfo;
  mIsClearStream : bool;
  mParserState : PsiParserState_t;
  mOpid : Z;
  mEcmTable : list Z;
  mTempCollectedEcmData : list Z;
  mEcmCollectionInProgress : bool;
  mCollectedEcmDataExpected : Z;
  mCollectedDataLength : Z;
  events : list psi_event;
}.

#[export] Instance PsiState_eta : Eta PsiState := fun r =>
  mkPsiState (mPat r) (mPmt r) (mEcm r) (mIsClearStream r) (mParserState r) (mOpid r)
    (mEcmTable r) (mTempCollectedEcmData r) (mEcmCollectionInProgress r)
    (mCollectedEcmDataExpected r) (mCollectedDataLength r) (events r).

(** The whole object, with the local static [packet] of [processChunk]. The
    thread is modelled by whether it has been started. *)
Record PSIParser (cb q : Type -> Type) := mkPSIParser {
  psi : PsiState;
  mPsiParserRunning : bool;
  mChannel : string;
  mQueue : q buffer_chunk;
  mTsStream : TSStream cb;
  mParserThread : bool;
  mExitParserThread : bool;
  mPacketCounter : Z;
  static_packet : StreamPacketT;
}.
Arguments mkPSIParser {cb q} _ _ _ _ _ _ _ _ _.
Arguments psi {cb q} _.
Arguments mPsiParserRunning {cb q} _.
Arguments mChannel {cb q} _.
Arguments mQueue {cb q} _.
Arguments mTsStream {cb q} _.
Arguments mParserThread {cb q} _.
Arguments mExitParserThread {cb q} _.
Arguments mPacketCounter {cb q} _.
Arguments static_packet {cb q} _.

#[export] Instance PSIParser_eta cb q : Eta (PSIParser cb q) := fun r =>
  mkPSIParser (psi r) (mPsiParserRunning r) (mChannel r) (mQueue r) (mTsStream r)
    (mParserThread r) (mExitParserThread r) (mPacketCounter r) (static_packet r).

(** * Parsing one packet *)

Section PsiState.
Context {cfg : StreamfsConfig}.
Implicit Types s : PsiState.
Implicit Types packet : StreamPacketT.

(** The members as the constructor leaves them; it also assigns kCdm0. *)
Definition PsiState_new : PsiState := {|
  mPat := PidInfo_new 0;
  mPmt := PidInfo_new 0;
  mEcm := PidInfo_new 0;
  mIsClearStream := false;
  mParserState := NEEDS_PAT;
  mOpid := 0;
  mEcmTable := [];
  mTempCollectedEcmData := [];
  mEcmCollectionInProgress := false;
  mCollectedEcmDataExpected := 0;
  mCollectedDataLength := 0;
  events := [SetCdmSetupDone true];
|}.

Definition GET_PID packet : outcome Z :=
  b1 ← packet_rd packet 1;
  b2 ← packet_rd packet 2;
  Done (Z.land (Z.shiftl b1 8 + b2) 8191).

Definition TSC_ISSET packet : outcome bool :=
  b ← packet_rd packet 3; Done (negb (Z.land b 192 =? 0)).

Definition IS_TSC_EVEN packet : outcome bool :=
  b ← packet_rd packet 3; Done (Z.land b 192 =? 128).

(** A 13-bit packet identifier at [i]. *)
Definition read_pid packet (i : Z) : outcome Z :=
  hi ← packet_rd packet i;
  lo ← packet_rd packet (i + 1);
  Done (Z.land (Z.shiftl hi 8 + lo) 8191).

(** The bytes of the packet from the sixth on, copied over the front of [old]. *)
Definition copy_section packet (old : StreamPacketT) : outcome StreamPacketT :=
  src ← slice packet 5 (zlen packet - 5);
  splice old 0 src.

(** [pOut] is not initialised before the copy, so its last five bytes are those of
    [junk]. *)
Definition parsePat s packet (junk : StreamPacketT)
  : outcome (ParserActionT * PsiState) :=
  pid ← GET_PID packet;
  if negb (isPid (mPat s) pid) then Done (ERROR, s)
  else
    b3 ← packet_rd packet 3;
    b4 ← packet_rd packet 4;
    let offs := if Z.land b3 48 =? 48 then b4 + 1 else b4 in
    if 184 <? offs then Done (ERROR, s)
    else
      tableId ← packet_rd packet (offs + 5);
      if negb (tableId =? 0) then Done (ERROR, s)
      else
        vbyte ← packet_rd packet (offs + 10);
        let version := Z.shiftr (Z.land vbyte 62) 1 in
        if isNew (mPat s) version then
          let s := s <| mPmt := reset (mPmt s) |> in
          let s := s <| mEcm := reset (mEcm s) |> in
          let s := s <| mPat := (setVer (mPat s) version).2 |> in
          pgm ← read_pid packet (offs + 13);
          pmtPid ← (if pgm =? 0 then read_pid packet (offs + 17)
                    else read_pid packet (offs + 15));
          let s := s <| mPmt := (setPid (mPmt s) pmtPid).2 |> in
          pOut ← copy_section packet junk;
          Done (IGNORE, s <| mPat := setPacket (mPat s) pOut |>)
        else Done (IGNORE, s).

(** How the loop over the program descriptors ends: with [return IGNORE] from
    inside it, or by running to its end or to [break]. *)
Inductive descriptors_exit :=
| DescriptorsReturn
| DescriptorsDone (descriptorFound : bool) (ecm : PidInfo).

(** The first loop of [parsePmt]: [pos] is [descP] as an index of the packet. *)
Fixpoint descriptors_loop (fuel : nat) packet (opid pos pLen : Z)
    (descriptorFound : bool) (ecm : PidInfo) : outcome descriptors_exit :=
  match fuel with
  | O => Stop OutOfFuel
  | S fuel =>
    if negb (0 <? pLen) then Done (DescriptorsDone descriptorFound ecm)
    else
      len ← packet_rd packet (pos + 1);
      if TS_PACKAGE_SIZE <? len + 2 then Done DescriptorsReturn
      else
        let dtLen := len + 2 in
        tag ← packet_rd packet pos;
        isVmx ← (if tag =? 9 then
                   b2 ← packet_rd packet (pos + 2);
                   if b2 =? 86 then b3 ← packet_rd packet (pos + 3); Done (b3 =? 1)
                   else Done false
                 else Done false);
        accepted ← (if negb isVmx then Done false
                    else if CA_DESC_LEN <? dtLen then
                      let ext_len := dtLen - CA_DESC_LEN in
                      if 2 <=? ext_len then
                        if opid =? 0 then Done true
                        else e1 ← packet_rd packet (pos + CA_DESC_LEN + 1); Done (opid =? e1)
                      else Done false
                    else Done true);
        let descriptorFound := descriptorFound || isVmx in
        if (accepted : bool) then
          ecmPid ← read_pid packet (pos + 4);
          if isPid ecm ecmPid then Done (DescriptorsDone descriptorFound ecm)
          else
            let ecm := (setPid (reset ecm) ecmPid).2 in
            pOut ← copy_section packet packet;
            Done (DescriptorsDone descriptorFound (setPacket ecm pOut))
        else
          descriptors_loop fuel packet opid (pos + dtLen) (u32 (pLen - dtLen))
            descriptorFound ecm
  end.

(** The inner loop over the descriptors of one elementary stream: [base] is
    [streamLoopOffs] as an index, [p] the offset of the descriptors from it. The
    answer also says whether a new ECM identifier was taken. *)
Fixpoint es_info_loop (fuel : nat) packet (junk : StreamPacketT)
    (base p es_info_length desc_offset : Z) (descriptorFound : bool) (ecm : PidInfo)
  : outcome (bool * bool * PidInfo) :=
  match fuel with
  | O => Stop OutOfFuel
  | S fuel =>
    if negb (desc_offset <=? es_info_length - 6) then Done (false, descriptorFound, ecm)
    else
      let desc_idx := u32 (p + desc_offset) in
      tag ← packet_rd packet (base + desc_idx);
      isVmx ← (if tag =? 9 then
                 b2 ← packet_rd packet (base + u32 (desc_idx + 2));
                 if b2 =? 86 then
                   b3 ← packet_rd packet (base + u32 (desc_idx + 3)); Done (b3 =? 1)
                 else Done false
               else Done false);
      let descriptorFound := descriptorFound || isVmx in
      taken ← (if (isVmx : bool) then
                 hi ← packet_rd packet (base + u32 (desc_idx + 4));
                 lo ← packet_rd packet (base + u32 (desc_idx + 5));
                 let ecmPid := Z.land (Z.shiftl hi 8 + lo) 8191 in
                 if isPid ecm ecmPid then Done None
                 else
                   let ecm := (setPid (reset ecm) ecmPid).2 in
                   pOut ← copy_section packet junk;
                   Done (Some (setPacket ecm pOut))
               else Done None);
      match taken with
      | Some ecm => Done (true, descriptorFound, ecm)
      | None =>
        len ← packet_rd packet (base + u32 (desc_idx + 1));
        es_info_loop fuel packet junk base p es_info_length (desc_offset + (len + 2))
          descriptorFound ecm
      end
  end.

(** Descriptors have two bytes or more, and [es_info_length] is below 4096. *)
Definition es_info_fuel : nat := 2048.

(** The second loop of [parsePmt], over the elementary streams. *)
Fixpoint stream_loop (fuel : nat) packet (junk : StreamPacketT) (base p remSectBytes : Z)
    (descriptorFound : bool) (ecm : PidInfo) : outcome (bool * PidInfo) :=
  match fuel with
  | O => Stop OutOfFuel
  | S fuel =>
    if negb (4 <? remSectBytes) then Done (descriptorFound, ecm)
    else
      _ ← packet_rd packet (base + p);
      let p := u32 (p + 1) in
      let p := u32 (p + 2) in
      hi ← packet_rd packet (base + p);
      lo ← packet_rd packet (base + u32 (p + 1));
      let es_info_length := Z.land (Z.shiftl hi 8 + lo) 4095 in
      let p := u32 (p + 2) in
      '(ecmPidSet, descriptorFound, ecm) ←
        es_info_loop es_info_fuel packet junk base p es_info_length 0 descriptorFound ecm;
      if (ecmPidSet : bool) then Done (descriptorFound, ecm)
      else
        stream_loop fuel packet junk base (u32 (p + es_info_length))
          (u32 (remSectBytes - (es_info_length + 5))) descriptorFound ecm
  end.

Definition parsePmt s packet (junk : StreamPacketT)
  : outcome (ParserActionT * PsiState) :=
  pid ← GET_PID packet;
  if negb (isPid (mPmt s) pid) then Done (ERROR, s)
  else
    b3 ← packet_rd packet 3;
    offs ← (if Z.land b3 48 =? 48 then b4 ← packet_rd packet 4; Done (b4 + 1) else Done 0);
    if 184 <? offs then Done (ERROR, s)
    else
      tableId ← packet_rd packet (offs + 5);
      if negb (tableId =? 2) then Done (ERROR, s)
      else
        sl1 ← packet_rd packet (offs + 6);
        sl0 ← packet_rd packet (offs + 7);
        let section_len := Z.land (Z.shiftl sl1 8 + sl0) 4095 in
        dl1 ← packet_rd packet (offs + 15);
        dl0 ← packet_rd packet (offs + 16);
        let descriptorLen := Z.land (Z.shiftl dl1 8 + dl0) 4095 in
        let pLen := descriptorLen in
        if section_len <? pLen then Done (ERROR, s)
        else
          let remSectBytes := u32 (section_len - 9) in
          vbyte ← packet_rd packet (offs + 10);
          let version := Z.shiftr (Z.land vbyte 62) 1 in
          if isNew (mPmt s) version then
            let s := s <| mPmt := (setVer (mPmt s) version).2 |> in
            let remSectBytes := u32 (remSectBytes - pLen) in
            e ← descriptors_loop 200 packet (mOpid s) (offs + 17) pLen false (mEcm s);
            match e with
            | DescriptorsReturn => Done (IGNORE, s)
            | DescriptorsDone descriptorFound ecm =>
              '(descriptorFound, ecm) ←
                stream_loop 200 packet junk (offs + 17 + descriptorLen) 0 remSectBytes
                  descriptorFound ecm;
              let s := s <| mEcm := ecm |> in
              let s := s <| mIsClearStream := negb descriptorFound |> in
              if mIsClearStream s then
                pOut ← copy_section packet packet;
                let s := s <| mPmt := setPacket (mPmt s) pOut |> in
                Done (NEW_PAT_PMT, s <| events := events s ++ [SetCdmSetupDone true] |>)
              else Done (IGNORE, s)
            end
          else Done (ERROR, s).

Definition resetCollectionState s : PsiState :=
  s <| mCollectedDataLength := 0 |> <| mCollectedEcmDataExpected := 0 |>
    <| mTempCollectedEcmData := [] |> <| mEcmCollectionInProgress := false |>.

(** The packet from [i] on starts with the bytes [w], which hold no zero:
    [strncmp] stops at the first difference. *)
Fixpoint bytes_match packet (i : Z) (w : list Z) : outcome bool :=
  match w with
  | [] => Done true
  | c :: w =>
    b ← packet_rd packet i;
    if b =? c then bytes_match packet (i + 1) w else Done false
  end.

(** The characters of VMECM. *)
Definition VMECM : list Z := [86; 77; 69; 67; 77].

Definition collectEcm s packet : outcome (ParserActionT * PsiState) :=
  pid ← GET_PID packet;
  if negb (isPid (mEcm s) pid) then Done (ERROR, s)
  else
    b3 ← packet_rd packet 3;
    a ← (if Z.land b3 48 =? 48 then b4 ← packet_rd packet 4; Done (b4 + 1) else Done 0);
    if 184 <? a then Done (ERROR, s)
    else
      let remainingBytes := TS_PACKAGE_SIZE - (4 + a) in
      let need := u32 (mCollectedEcmDataExpected s - mCollectedDataLength s) in
      vbyte ← rd (mTempCollectedEcmData s) 5;
      let version := Z.shiftr (Z.land vbyte 62) 1 in
      let remainingBytes := if need <? remainingBytes then need else remainingBytes in
      src ← slice packet (4 + a) remainingBytes;
      data ← splice (mTempCollectedEcmData s) (mCollectedDataLength s) src;
      let s := s <| mTempCollectedEcmData := data |>
                 <| mCollectedDataLength := u32 (mCollectedDataLength s + remainingBytes) |> in
      if mCollectedDataLength s =? mCollectedEcmDataExpected s then
        if isNew (mEcm s) version then
          let s := s <| mEcm := (setVer (mEcm s) version).2 |>
                     <| mEcmTable := mTempCollectedEcmData s |> in
          Done (NEW_ECMT, resetCollectionState s)
        else Done (IGNORE, resetCollectionState s)
      else Done (IGNORE, s).

Definition parseEcm s packet : outcome (ParserActionT * PsiState) :=
  pid ← GET_PID packet;
  if negb (isPid (mEcm s) pid) then Done (ERROR, s)
  else if mEcmCollectionInProgress s then collectEcm s packet
  else
    b3 ← packet_rd packet 3;
    a ← (if Z.land b3 48 =? 48 then b4 ← packet_rd packet 4; Done (b4 + 1) else Done 0);
    if 184 <? a then Done (ERROR, s)
    else
      let table := 5 + a in
      let remainingBytes := u32 (TS_PACKAGE_SIZE - (5 + a)) in
      if remainingBytes <? 13 then Done (ERROR, s)
      else
        vbyte ← packet_rd packet (table + 5);
        let version := Z.shiftr (Z.land vbyte 62) 1 in
        tableId ← packet_rd packet table;
        if negb ((tableId =? 128) || (tableId =? 129)) then Done (ERROR, s)
        else
          vm ← bytes_match packet (table + 8) VMECM;
          if negb vm then Done (ERROR, s)
          else
            l1 ← packet_rd packet (table + 1);
            l0 ← packet_rd packet (table + 2);
            let table_len := Z.shiftl (Z.land l1 15) 8 + l0 + 3 in
            let remainingBytes := Z.min table_len remainingBytes in
            src ← slice packet table remainingBytes;
            data ← splice (replicate (Z.to_nat table_len) 0) 0 src;
            let s := s <| mTempCollectedEcmData := data |>
                       <| mEcmCollectionInProgress := true |>
                       <| mCollectedEcmDataExpected := table_len |>
                       <| mCollectedDataLength := remainingBytes |> in
            if mCollectedDataLength s <? mCollectedEcmDataExpected s then Done (IGNORE, s)
            else if isNew (mEcm s) version then
              let s := s <| mEcm := (setVer (mEcm s) version).2 |>
                         <| mEcmTable := mTempCollectedEcmData s |> in
              Done (NEW_ECM, resetCollectionState s)
            else Done (IGNORE, resetCollectionState s).

Definition ParseOther packet : outcome ParserActionT :=
  isset ← TSC_ISSET packet;
  if (isset : bool) then
    even ← IS_TSC_EVEN packet;
    Done (if (even : bool) then DECRYPT_EVEN else DECRYPT_ODD)
  else Done IGNORE.

Definition hasEcmPid s : bool := negb (getPid (mEcm s) =? PSI_INVALID_PID).
Definition hasPmtPid s : bool := negb (getPid (mPmt s) =? PSI_INVALID_PID).

(** The parser state after a PMT packet. *)
Definition state_after_pmt s : PsiState :=
  match mParserState s with
  | NEEDS_PMT | NEEDS_VMX_PMT | NO_ECM =>
    if negb (mIsClearStream s) then
      if hasEcmPid s then s <| mParserState := NEEDS_ECM |>
      else s <| mParserState := NEEDS_VMX_PMT |>
    else s
  | NEEDS_ECM | GOT_ECM =>
    if mIsClearStream s
    then s <| mParserState := NO_ECM |> <| mEcm := reset (mEcm s) |>
    else s
  | INVALID | NEEDS_PAT => s
  end.

Definition parseTsPacket s packet (junk : StreamPacketT)
  : outcome (ParserActionT * PsiState) :=
  pid ← GET_PID packet;
  if isPid (mPat s) pid then
    '(action, s) ← parsePat s packet junk;
    if bool_decide (mParserState s = NEEDS_PAT) && processed (mPat s) && hasPmtPid s
    then Done (action, s <| mParserState := NEEDS_PMT |>)
    else Done (action, s)
  else if isPid (mPmt s) pid then
    '(action, s) ← parsePmt s packet junk;
    if negb (processed (mPmt s)) then Done (action, s)
    else Done (action, state_after_pmt s)
  else if isPid (mEcm s) pid then
    '(action, s) ← parseEcm s packet;
    if bool_decide (mParserState s = NEEDS_PMT) && processed (mEcm s)
    then Done (action, s <| mParserState := GOT_ECM |>)
    else Done (action, s)
  else
    action ← ParseOther packet;
    Done (action, s).

Definition getCurrentEcm s : list Z := mEcmTable s.

Definition getCurrentPmt s : outcome (list Z) :=
  let pidInfo := if mIsClearStream s then mPmt s else mEcm s in
  d ← getPmtData pidInfo;
  Done (match d with Some packet => packet | None => [] end).

Definition getCurrentPat s : outcome (list Z) :=
  d ← getPatData (mPat s);
  Done (match d with Some packet => packet | None => [] end).

(** What [processChunk] does with the answer of [parseTsPacket]: [running] and
    [channel] are the members of these names. *)
Definition handle_action (running : bool) (channel : string) s (action : ParserActionT)
  : outcome (bool * PsiState) :=
  match action with
  | NEW_ECM | NEW_ECMT | NEW_PAT_PMT =>
    pat ← getCurrentPat s;
    pmt ← getCurrentPmt s;
    if running then
      let drm := mkStreamProtectionConfig HIGH channel (getCurrentEcm s) pat pmt
                   (mIsClearStream s) in
      Done (false, s <| events := events s ++ [SetDrm drm] |>)
    else Done (running, s)
  | _ => Done (running, s)
  end.

End PsiState.

(** * The parser object *)

Section PSIParser.
Context {cfg : StreamfsConfig} {cb q : Type -> Type}.
Context {CB : CircularBuffer cb} {Q : LockfreeQueue q}.
Implicit Types s : PSIParser cb q.

Definition PSIParser_new : PSIParser cb q := {|
  psi := PsiState_new;
  mPsiParserRunning := false;
  mChannel := "";
  mQueue := q_new;
  mTsStream := TSStream_new;
  mParserThread := false;
  mExitParserThread := false;
  mPacketCounter := 0;
  static_packet := zero_packet;
|}.

(** The packet loop of [processChunk]; the [k]-th packet finds [junk k] in the
    uninitialised local arrays. *)
Fixpoint packet_loop (fuel : nat) (junk : nat -> StreamPacketT) (k : nat) s
  : outcome (PSIParser cb q) :=
  match fuel with
  | O => Stop OutOfFuel
  | S fuel =>
    '(state, packet, ts) ← getNextPacket (mTsStream s) (static_packet s);
    let s := s <| mTsStream := ts |> <| static_packet := packet |> in
    match state with
    | NOT_ENOUGH_DATA => Done s
    | DATA_CC_ERROR => Done s
    | OK =>
      '(action, st) ← parseTsPacket (psi s) packet (junk k);
      '(running, st) ← handle_action (mPsiParserRunning s) (mChannel s) st action;
      packet_loop fuel junk (S k) (s <| psi := st |> <| mPsiParserRunning := running |>)
    end
  end.

(** Two chunks hold fewer packets than they have bytes. *)
Definition processChunk_fuel : nat := S (Z.to_nat (2 * BUFFER_CHUNK_SIZE)).

Definition processChunk s (array : buffer_chunk) (junk : nat -> StreamPacketT)
  : outcome (PSIParser cb q) :=
  let s := if needsNewChunk (mTsStream s)
           then s <| mTsStream := (insertChunk (mTsStream s) array).2 |> else s in
  packet_loop processChunk_fuel junk 0 s.

(** Popping until the queue is empty. *)
Fixpoint pop_all (fuel : nat) (queue : q buffer_chunk) : outcome (q buffer_chunk) :=
  match fuel with
  | O => Stop OutOfFuel
  | S fuel =>
    match q_pop queue with
    | Some (_, queue) => pop_all fuel queue
    | None => Done queue
    end
  end.

Definition clearQueue s : outcome (PSIParser cb q) :=
  queue ← pop_all (S (length (q_items (mQueue s)))) (mQueue s);
  Done (s <| mQueue := queue |> <| mPacketCounter := 0 |>).

(** [buf] as the channel it belongs to, if known, and its chunk. *)
Definition post s (channel : option string) (chunk : buffer_chunk)
  : outcome (PSIParser cb q) :=
  let s := s <| mParserThread := true |> in
  match channel with
  | None => Done s
  | Some channel =>
    s ← (if decide (channel <> mChannel s) then
           s ← clearQueue s; Done (s <| mChannel := channel |>)
         else Done s);
    if mPsiParserRunning s then Done (s <| mQueue := q_push chunk (mQueue s) |>)
    else Done s
  end.

(** One round of the outer loop of [threadLoop]; with an empty queue the thread
    sleeps and nothing changes. *)
Definition thread_step s (junk : nat -> StreamPacketT) : outcome (PSIParser cb q) :=
  if mExitParserThread s then Done s
  else match q_pop (mQueue s) with
  | None => Done s
  | Some (chunk, queue) =>
    let s := s <| mQueue := queue |> in
    let s := s <| mPacketCounter := u64 (mPacketCounter s + 1) |> in
    processChunk s chunk junk
  end.

Definition notifyConfigurationChanged s (var : string) (value : list Z) : PSIParser cb q :=
  if decide (var = "ecm0")
  then s <| mPsiParserRunning := match value with [] => true | _ => false end |> else s.

Definition onEndOfStream s : PSIParser cb q :=
  let st := psi s in
  s <| psi := st <| events := events st ++ [SetCdmSetupDone false] |> |>.

(** The block of [onOpen] under the lock. *)
Definition onOpen_state (st : PsiState) : PsiState :=
  let st := resetCollectionState st in
  let st := st <| mEcmTable := [] |> in
  let st := st <| mEcm := reset (mEcm st) |> in
  let st := st <| mPmt := reset (mPmt st) |> in
  let st := st <| mPat := reset (mPat st) |> in
  let st := st <| mPat := (setPid (mPat st) 0).2 |> in
  st <| mParserState := NEEDS_PAT |>.

Definition onOpen s : outcome (PSIParser cb q) :=
  s ← clearQueue s;
  Done (s <| psi := onOpen_state (psi s) |>).

(** The destructor sets the flag and joins the thread. *)
Definition PSIParser_destroy s : PSIParser cb q := s <| mExitParserThread := true |>.

End PSIParser.
