(* ===== verification/PsiStream.v ===== *)
(** The packet loop of the PSI parser ([processChunk] of
    src/StreamParser/PSIParser.cpp) implements parsing the packets of the byte
    stream, wherever the chunk boundaries fall. *)

From S2P Require Import Prelude Interfaces Protection TsStream PidInfo PsiParser.

(** * Parsing as a function on a list of packets *)

Section feed.
Context {cfg : StreamfsConfig}.

Definition feed_packet (channel : string) (rs : bool * PsiState) (packet junk : StreamPacketT)
  : outcome (bool * PsiState) :=
  '(action, st) ← parseTsPacket rs.2 packet junk;
  handle_action rs.1 channel st action.

Fixpoint feed (junk : nat -> StreamPacketT) (k : nat) (channel : string)
    (rs : bool * PsiState) (packets : list StreamPacketT) : outcome (bool * PsiState) :=
  match packets with
  | [] => Done rs
  | p :: packets =>
    rs ← feed_packet channel rs p (junk k);
    feed junk (S k) channel rs packets
  end.

Lemma feed_cons junk k channel rs p packets :
  feed junk k channel rs (p :: packets) =
  (rs ← feed_packet channel rs p (junk k); feed junk (S k) channel rs packets).
Proof. done. Qed.

(** The packets of a byte stream up to the first that does not start with the sync
    byte, and the bytes left after them; [n] bounds their number. *)
Fixpoint cut (n : nat) (bytes : list Z) : list StreamPacketT * list Z :=
  match n with
  | O => ([], bytes)
  | S n =>
    match next_packet bytes with
    | Some (OK, p, rest) => let '(ps, r) := cut n rest in (p :: ps, r)
    | Some (_, _, rest) => ([], rest)
    | None => ([], bytes)
    end
  end.

End feed.

Section stream.
Context {cfg : StreamfsConfig} {cfg_ok : StreamfsConfigOk cfg} {cb q : Type -> Type}.
Context {CB : CircularBuffer cb} {CBL : CircularBufferLaws cb} {Q : LockfreeQueue q}.
Implicit Types s : PSIParser cb q.

(** [s] after its assembler has moved on and parsing has given [rs]. *)
Definition advanced s (rs : bool * PsiState) (ts : TSStream cb) (packet : StreamPacketT)
  : PSIParser cb q :=
  s <| psi := rs.2 |> <| mPsiParserRunning := rs.1 |>
    <| mTsStream := ts |> <| static_packet := packet |>.

(** What it means that a run of the object implements a run on packets. *)
Definition implements s (r : outcome (PSIParser cb q)) (spec : outcome (bool * PsiState))
    (rest : list Z) : Prop :=
  match spec with
  | Stop e => r = Stop e
  | Done rs => exists ts p,
      r = Done (advanced s rs ts p) /\ TSStream_ok ts /\ pending ts = rest
  end.

Lemma next_packet_shrinks bytes e p rest :
  next_packet bytes = Some (e, p, rest) -> (length rest < length bytes)%nat.
Proof.
  unfold next_packet; pose proof package_size_188; case_if; [done|].
  intros [= _ _ <-]; unfold zdrop, zlen in *; rewrite length_drop; lia.
Qed.

Lemma packet_loop_implements fuel n junk k s :
  TSStream_ok (mTsStream s) ->
  (length (pending (mTsStream s)) < fuel)%nat ->
  (length (pending (mTsStream s)) < n)%nat ->
  let '(packets, rest) := cut n (pending (mTsStream s)) in
  implements s (packet_loop fuel junk k s)
    (feed junk k (mChannel s) (mPsiParserRunning s, psi s) packets) rest.
Proof.
  revert n k s; induction fuel as [|fuel IH]; intros n k s Hs Hf Hn; [lia|].
  destruct n as [|n]; [lia|].
  pose proof (getNextPacket_spec (mTsStream s) (static_packet s) Hs) as Hg.
  cbn [cut packet_loop].
  destruct (next_packet (pending (mTsStream s))) as [[[e p] rest]|] eqn:En.
  2: { rewrite Hg; cbn [mbind outcome_bind feed implements].
       exists (mTsStream s), (static_packet s); split; [by destruct s | done]. }
  destruct Hg as (ts & -> & Hts & Hp); cbn [mbind outcome_bind].
  destruct e; [|exists ts, p; done|exists ts, p; done].
  pose proof (next_packet_shrinks _ _ _ _ En) as Hsm.
  destruct (cut n rest) as [ps r] eqn:Ec; cbn [feed].
  unfold feed_packet; cbn [psi mPsiParserRunning mChannel fst snd field_update].
  destruct (parseTsPacket (psi s) p (junk k)) as [[a st]|e]; cbn [mbind outcome_bind implements];
    [|done].
  destruct (handle_action (mPsiParserRunning s) (mChannel s) st a) as [[run st']|e];
    cbn [mbind outcome_bind implements]; [|done].
  set (s1 := _ <| mPsiParserRunning := _ |>).
  specialize (IH n (S k) s1 Hts); change (mTsStream s1) with ts in IH.
  rewrite Hp, Ec in IH; apply IH; lia.
Qed.

Lemma processChunk_fuel_enough ts :
  TSStream_ok ts -> (length (pending ts) < processChunk_fuel)%nat.
Proof.
  intros Hts; pose proof (pending_length ts Hts); pose proof (ts_size ts Hts).
  pose proof (ts_pointer ts Hts); unfold processChunk_fuel, zlen in *; nia.
Qed.

Lemma processChunk_implements s (chunk : buffer_chunk) (junk : nat -> StreamPacketT)
    (Hs : TSStream_ok (mTsStream s)) (Hc : zlen chunk = BUFFER_CHUNK_SIZE) :
  let bytes := pending (mTsStream s) ++
               (if needsNewChunk (mTsStream s) then chunk else []) in
  let '(packets, rest) := cut (S (length bytes)) bytes in
  implements s (processChunk s chunk junk)
    (feed junk 0 (mChannel s) (mPsiParserRunning s, psi s) packets) rest.
Proof.
  unfold processChunk.
  destruct (needsNewChunk (mTsStream s)) eqn:En; cbn zeta.
  - destruct (insertChunk_ok _ _ Hs Hc En) as (ts & -> & Hts & <-); cbn [snd].
    pose proof (packet_loop_implements processChunk_fuel (S (length (pending ts))) junk 0
             (s <| mTsStream := ts |>) Hts) as Hl.
    destruct (cut _ _); apply Hl; [|cbn; lia].
    by apply processChunk_fuel_enough.
  - rewrite app_nil_r; apply packet_loop_implements; [done| |lia].
    by apply processChunk_fuel_enough.
Qed.

(** C5. Processing a chunk implements parsing, one after the other, the packets of
    188 bytes of the stream: of the bytes pending from before followed by those of the
    chunk (unless two chunks were still pending), up to the first packet that does not
    start with the sync byte. What parsing them one by one on its own does to the
    tables, the running flag and the monitored variables is what the chunk does, the
    bytes after them stay pending, and the loop ends within its bound. *)
Theorem processChunk_refines s (chunk : buffer_chunk) (junk : nat -> StreamPacketT)
    (Hs : TSStream_ok (mTsStream s)) (Hc : zlen chunk = BUFFER_CHUNK_SIZE) :
  let bytes := pending (mTsStream s) ++
               (if needsNewChunk (mTsStream s) then chunk else []) in
  let '(packets, rest) := cut (S (length bytes)) bytes in
  implements s (processChunk s chunk junk)
    (feed junk 0 (mChannel s) (mPsiParserRunning s, psi s) packets) rest.
Proof. by apply processChunk_implements. Qed.

End stream.
