(* ===== verification/PsiInvariant.v ===== *)
(** What holds of the PSI parser on every input: its loops end, its only way to stop
    is a read outside the packet, and its state stays well formed. *)

From S2P Require Import Prelude Interfaces Protection TsStream PidInfo PsiParser.
From S2P Require Import PsiStream.

Section invariant.
Context {cfg : StreamfsConfig} {cfg_ok : StreamfsConfigOk cfg}.
Implicit Types s : PsiState.
Implicit Types packet : StreamPacketT.

Record is_packet packet : Prop := {
  packet_length : zlen packet = TS_PACKAGE_SIZE;
  packet_bytes : is_bytes packet;
}.

(** An ECM that is being collected has its buffer at the size of the table and at
    least the table header already in it; otherwise there is no buffer. *)
Definition collection_ok s : Prop :=
  if mEcmCollectionInProgress s then
    zlen (mTempCollectedEcmData s) = mCollectedEcmDataExpected s /\
    13 <= mCollectedDataLength s < mCollectedEcmDataExpected s /\
    mCollectedEcmDataExpected s <= 4098
  else
    mTempCollectedEcmData s = [] /\ mCollectedEcmDataExpected s = 0 /\
    mCollectedDataLength s = 0.

Record PsiState_ok s : Prop := {
  psi_pat : PidInfo_ok (mPat s);
  psi_pat_pid : mPid (mPat s) = 0;
  psi_pmt : PidInfo_ok (mPmt s);
  psi_ecm : PidInfo_ok (mEcm s);
  psi_collection : collection_ok s;
}.

Lemma PsiState_new_ok : PsiState_ok PsiState_new.
Proof. split; cbn; auto with fcc; apply PidInfo_new_ok; done. Qed.

Lemma onOpen_state_ok s : PsiState_ok (onOpen_state s).
Proof.
  split.
  - apply (setPid_ok (reset (mPat s)) 0); [apply reset_ok | done].
  - reflexivity.
  - apply (reset_ok (mPmt s)).
  - apply (reset_ok (mEcm s)).
  - unfold collection_ok; cbn; auto.
Qed.

(** The protection data published so far. *)
Definition published s : list StreamProtectionConfig :=
  omap (fun e => match e with SetDrm v => Some v | _ => None end) (events s).

Lemma pid_13_bits x : 0 <= Z.land x 8191 <= PSI_MAX_PID.
Proof. apply (land_ones_bound x 13); lia. Qed.

Lemma len_12_bits x : 0 <= Z.land x 4095 <= 4095.
Proof. apply (land_ones_bound x 12); lia. Qed.

Lemma wp_read_pid packet i (P : Z -> Prop) :
  (forall pid, 0 <= pid <= PSI_MAX_PID -> P pid) -> wp overread (read_pid packet i) P.
Proof.
  intros HP; unfold read_pid; repeat wp_step; apply HP, pid_13_bits.
Qed.

Lemma wp_GET_PID E packet (P : Z -> Prop) : is_packet packet ->
  (forall pid, GET_PID packet = Done pid -> 0 <= pid <= PSI_MAX_PID -> P pid) ->
  wp E (GET_PID packet) P.
Proof.
  intros [Hl Hb] HP; rewrite package_size_188 in Hl.
  destruct (rd_in_range packet 1) as [b1 H1]; [lia|].
  destruct (rd_in_range packet 2) as [b2 H2]; [lia|].
  unfold GET_PID in *; rewrite H1, H2 in *; cbn in *; apply HP; [done|apply pid_13_bits].
Qed.

Lemma copy_section_ok packet old : is_packet packet -> zlen old = TS_PACKAGE_SIZE ->
  exists p, copy_section packet old = Done p /\ zlen p = TS_PACKAGE_SIZE /\
            ztake (TS_PACKAGE_SIZE - 5) p = zdrop 5 packet.
Proof.
  intros [Hl _] Ho; pose proof package_size_188; unfold copy_section.
  rewrite slice_ok, ztake_all by (rewrite ?zlen_zdrop; lia); cbn [mbind outcome_bind].
  assert (Hd : zlen (zdrop 5 packet) = 183) by (rewrite zlen_zdrop; lia).
  rewrite splice_ok by lia; eexists; split; [done|].
  rewrite ztake_0, Hd; cbn [app]; rewrite zlen_app, Hd, zlen_zdrop by lia; split; [lia|].
  rewrite ztake_app_l, ztake_all by lia; done.
Qed.

Lemma wp_copy_section E packet old (P : StreamPacketT -> Prop) :
  is_packet packet -> zlen old = TS_PACKAGE_SIZE ->
  (forall p, zlen p = TS_PACKAGE_SIZE -> P p) -> wp E (copy_section packet old) P.
Proof.
  intros Hp Ho HP; destruct (copy_section_ok packet old Hp Ho) as (p & -> & Hz & _).
  by apply HP.
Qed.

End invariant.

Ltac psi_step :=
  first
    [ match goal with
      | |- wp overread (read_pid _ _) _ =>
          apply wp_read_pid; let p := fresh "pid" in let H := fresh "Hpid" in intros p H
      | |- wp _ (GET_PID _) _ =>
          apply wp_GET_PID;
          [assumption | let p := fresh "pid" in let H := fresh "Hpid" in intros p _ H]
      | |- wp _ (copy_section _ _) _ =>
          apply wp_copy_section;
          [assumption | solve [assumption | apply packet_length; assumption] |
           let p := fresh "p" in let H := fresh "Hp" in intros p H]
      end
    | wp_step ].

Section loops.
Context {cfg : StreamfsConfig} {cfg_ok : StreamfsConfigOk cfg}.
Context (packet junk : StreamPacketT) (Hpk : is_packet packet).
Context (Hjunk : zlen junk = TS_PACKAGE_SIZE).

Lemma read_byte i b : rd packet i = Done b -> 0 <= b < 256.
Proof. apply rd_byte, packet_bytes, Hpk. Qed.

(** A new ECM identifier with the packet it came in. *)
Lemma new_ecm_ok ecm pid p : 0 <= pid <= PSI_MAX_PID -> zlen p = TS_PACKAGE_SIZE ->
  PidInfo_ok (setPacket (setPid (reset ecm) pid).2 p).
Proof.
  intros Hpid Hp; apply setPacket_ok; [apply setPid_ok; [apply reset_ok|] | done].
  unfold PSI_MAX_PID, PSI_INVALID_PID in *; lia.
Qed.

Lemma wp_isVmx tag (i2 i3 : Z) (P : bool -> Prop) : (forall b, P b) ->
  wp overread (if tag =? 9 then
               b2 ← packet_rd packet i2;
               if b2 =? 86 then b3 ← packet_rd packet i3; Done (b3 =? 1) else Done false
             else Done false) P.
Proof. intros HP; repeat psi_step; apply HP. Qed.

(** What the loops do to [descriptorFound] and [mEcm]: the flag is never taken back,
    and [mEcm] changes only when it is set. *)
Definition found_ok (found : bool) (ecm : PidInfo) (found' : bool) (ecm' : PidInfo) : Prop :=
  PidInfo_ok ecm' /\ (found' = false -> found = false /\ ecm' = ecm).

Lemma found_ok_trans found ecm f1 e1 f2 e2 :
  found_ok found ecm f1 e1 -> found_ok f1 e1 f2 e2 -> found_ok found ecm f2 e2.
Proof. intros [_ Ha] [? Hb]; split; [done|]; intros [-> ->]%Hb; auto. Qed.

Lemma found_ok_or found ecm b : PidInfo_ok ecm -> found_ok found ecm (found || b) ecm.
Proof. by intros H; split; [|intros [? _]%orb_false_elim]. Qed.

(** Every round moves two bytes on and reads inside the packet. *)
Lemma descriptors_loop_wp fuel opid pos pLen found ecm :
  PidInfo_ok ecm -> 0 <= pos -> zlen packet - pos < 2 * Z.of_nat fuel ->
  0 < Z.of_nat fuel ->
  wp overread (descriptors_loop fuel packet opid pos pLen found ecm)
    (fun e => match e with
              | DescriptorsReturn => True
              | DescriptorsDone found' ecm' => found_ok found ecm found' ecm'
              end).
Proof.
  revert pos pLen found ecm; induction fuel as [|fuel IH]; intros pos pLen found ecm He Hp Hf H0;
    cbn [descriptors_loop]; [lia|].
  psi_step; [psi_step; by split|].
  psi_step; apply wp_overread; intros len Hlen Hin; apply read_byte in Hlen.
  psi_step; [by psi_step|]; cbv zeta.
  do 2 psi_step.
  apply wp_bind, wp_isVmx; intros vmx.
  apply wp_bind, wp_mono with (P := fun a => a = true -> vmx = true).
  { destruct vmx; repeat psi_step; done. }
  intros accepted _ Hacc; psi_step.
  - rewrite Hacc, orb_true_r by done; do 2 psi_step; psi_step; [psi_step; by split|].
    cbv zeta; do 3 psi_step; by split; [apply new_ecm_ok|].
  - eapply wp_mono; [apply IH; [done|lia..]|].
    intros [|f e] _ Hr; [done|]; eapply found_ok_trans; [by apply found_ok_or|exact Hr].
Qed.

Lemma es_info_loop_wp fuel base p len off found ecm :
  PidInfo_ok ecm -> len - off < 2 * Z.of_nat fuel + 4 -> 0 < Z.of_nat fuel ->
  wp overread (es_info_loop fuel packet junk base p len off found ecm)
    (fun '(_, found', ecm') => found_ok found ecm found' ecm').
Proof.
  revert off found ecm; induction fuel as [|fuel IH]; intros off found ecm He Hf H0;
    cbn [es_info_loop]; [lia|].
  psi_step; [psi_step; by split|]; cbv zeta.
  do 2 psi_step; apply wp_bind, wp_isVmx; intros vmx.
  apply wp_bind, wp_mono with
    (P := fun t => match t with Some e => PidInfo_ok e /\ vmx = true | None => True end).
  { repeat psi_step; try done; split; [apply new_ecm_ok; [apply pid_13_bits|] |]; done. }
  intros [e|] _ Hr.
  - psi_step; destruct Hr as [? ->]; rewrite orb_true_r; by split.
  - psi_step; apply wp_overread; intros n Hn _; apply read_byte in Hn.
    eapply wp_mono; [apply IH; [done|lia..]|].
    intros [[b' f] e] _ Hfe; eapply found_ok_trans; [by apply found_ok_or|exact Hfe].
Qed.

Lemma stream_loop_wp fuel base p rem found ecm :
  PidInfo_ok ecm -> 0 <= base -> 0 <= p -> zlen packet - p < 5 * Z.of_nat fuel ->
  0 < Z.of_nat fuel ->
  wp overread (stream_loop fuel packet junk base p rem found ecm)
    (fun '(found', ecm') => found_ok found ecm found' ecm').
Proof.
  pose proof (packet_length _ Hpk) as Hl; rewrite package_size_188 in Hl.
  revert p rem found ecm; induction fuel as [|fuel IH]; intros p rem found ecm He Hb Hp Hf H0;
    cbn [stream_loop]; [lia|].
  psi_step; [psi_step; by split|].
  psi_step; apply wp_overread; intros _ _ Hin; cbv zeta.
  do 4 psi_step.
  set (len := Z.land _ 4095); assert (Hlen : 0 <= len <= 4095) by apply len_12_bits.
  apply wp_bind; eapply wp_mono; [apply es_info_loop_wp; [done|unfold es_info_fuel; lia..]|].
  intros [[set found'] ecm'] _ He'; psi_step; [by psi_step|].
  rewrite (u32_small (p + 1)), (u32_small (p + 1 + 2)) in * by lia.
  rewrite (u32_small (p + 1 + 2 + 1)), (u32_small (p + 1 + 2 + 2)) in * by lia.
  rewrite (u32_small (_ + len)) by lia.
  eapply wp_mono; [apply IH; [apply He'|done|lia..]|].
  intros [f e] _ Hfe; eapply found_ok_trans; [exact He'|exact Hfe].
Qed.

End loops.

(** * The invariant is preserved *)

Section preservation.
Context {cfg : StreamfsConfig} {cfg_ok : StreamfsConfigOk cfg}.
Implicit Types s : PsiState.

Lemma ok_set_pat s i : PsiState_ok s -> PidInfo_ok i -> mPid i = 0 ->
  PsiState_ok (s <| mPat := i |>).
Proof. by intros [] ??; split. Qed.

Lemma ok_set_pmt s i : PsiState_ok s -> PidInfo_ok i -> PsiState_ok (s <| mPmt := i |>).
Proof. by intros [] ?; split. Qed.

Lemma ok_set_ecm s i : PsiState_ok s -> PidInfo_ok i -> PsiState_ok (s <| mEcm := i |>).
Proof. by intros [] ?; split. Qed.

Lemma ok_set_clear s b : PsiState_ok s -> PsiState_ok (s <| mIsClearStream := b |>).
Proof. by intros []; split. Qed.

Lemma ok_set_state s p : PsiState_ok s -> PsiState_ok (s <| mParserState := p |>).
Proof. by intros []; split. Qed.

Lemma ok_set_table s t : PsiState_ok s -> PsiState_ok (s <| mEcmTable := t |>).
Proof. by intros []; split. Qed.

Lemma ok_set_events s e : PsiState_ok s -> PsiState_ok (s <| events := e |>).
Proof. by intros []; split. Qed.

(** Whatever the collection was. *)
Lemma ok_reset_collection s s' : PsiState_ok s -> mPat s' = mPat s -> mPmt s' = mPmt s ->
  PidInfo_ok (mEcm s') -> PsiState_ok (resetCollectionState s').
Proof.
  intros [] Hpat Hpmt He; split; cbn; rewrite ?Hpat, ?Hpmt; [assumption..|].
  unfold collection_ok; cbn; auto.
Qed.

Lemma mPid_setVer i v : mPid (setVer i v).2 = mPid i.
Proof. unfold setVer; by destruct (mPidValid i). Qed.

Lemma isNew_valid i v : isNew i v = true -> mPidValid i = true.
Proof. unfold isNew; by destruct (mPidValid i). Qed.

Lemma mVersionValid_setVer i v : mPidValid i = true -> mVersionValid (setVer i v).2 = true.
Proof. unfold setVer; by intros ->. Qed.

Lemma wp_getPatData E i (P : option StreamPacketT -> Prop) : PidInfo_ok i ->
  (forall o, P o) -> wp E (getPatData i) P.
Proof.
  intros Hi HP; unfold getPatData; psi_step; [by psi_step|].
  psi_step; apply wp_rd; [rewrite (pi_packet _ Hi), package_size_188; lia|].
  intros b _; destruct (negb _); psi_step; auto.
Qed.

Lemma wp_getPmtData E i (P : option StreamPacketT -> Prop) : PidInfo_ok i ->
  (forall o, P o) -> wp E (getPmtData i) P.
Proof.
  intros Hi HP; unfold getPmtData; psi_step; [by psi_step|].
  psi_step; apply wp_rd; [rewrite (pi_packet _ Hi), package_size_188; lia|].
  intros b _; destruct (negb _); psi_step; auto.
Qed.

(** Publishing reads nothing outside its buffers; it happens when the parser is
    running and stops it. *)
Lemma handle_action_wp E running channel s action : PsiState_ok s ->
  wp E (handle_action running channel s action)
    (fun r => r = (running, s) \/
       exists drm, running = true /\ r = (false, s <| events := events s ++ [SetDrm drm] |>)).
Proof.
  intros Hs; unfold handle_action, getCurrentPat, getCurrentPmt.
  destruct action; try (by psi_step; left);
    (do 2 psi_step; apply wp_getPatData; [apply Hs|intros pat]; psi_step;
     do 2 psi_step; apply wp_getPmtData; [destruct (mIsClearStream s); apply Hs|intros pmt];
     psi_step; psi_step; psi_step; [right; eauto | by left]).
Qed.

Context (packet junk : StreamPacketT) (Hpk : is_packet packet).
Context (Hjunk : zlen junk = TS_PACKAGE_SIZE).

Lemma ok_new_pat s v pid : PsiState_ok s -> 0 <= pid <= PSI_MAX_PID ->
  PsiState_ok (s <| mPmt := reset (mPmt s) |> <| mEcm := reset (mEcm s) |>
                 <| mPat := (setVer (mPat s) v).2 |>
                 <| mPmt := (setPid (reset (mPmt s)) pid).2 |>).
Proof.
  intros Hs Hpid; apply ok_set_pmt; [apply ok_set_pat; [apply ok_set_ecm; [apply ok_set_pmt|]| |]|].
  1: done. 1, 2: apply reset_ok. 1: apply setVer_ok, Hs.
  - rewrite mPid_setVer; apply Hs.
  - apply setPid_ok; [apply reset_ok|]; unfold PSI_MAX_PID, PSI_INVALID_PID in *; lia.
Qed.

(** What a PAT packet changes: nothing, or the version of the PAT, with a valid
    identifier for the PMT and none for the ECM. *)
Definition pat_change s s' : Prop :=
  mParserState s' = mParserState s /\ published s' = published s /\
  (s' = s \/ mVersionValid (mPat s') = true /\ mPidValid (mPmt s') = true /\
             mEcm s' = reset (mEcm s)).

Lemma parsePat_wp s : PsiState_ok s ->
  wp overread (parsePat s packet junk) (fun r => PsiState_ok r.2 /\ pat_change s r.2).
Proof.
  intros Hs; assert (Hsame : PsiState_ok s /\ pat_change s s)
    by (split; [done|repeat split; auto]); unfold parsePat; repeat (psi_step; try exact Hsame).
  all: pose proof (ok_new_pat s (Z.shiftr (Z.land b2 62) 1) pid1 Hs Hpid1) as Hok.
  all: split; [by apply ok_set_pat; [|apply setPacket_ok; [apply Hok|]|apply Hok]|].
  all: split; [done|split; [done|right]]; cbn; split; [|split; [|done]].
  all: try (by apply mVersionValid_setVer; eapply isNew_valid).
  all: unfold PSI_MAX_PID in *; lia.
Qed.

(** What a PMT packet changes: the ECM identifier only together with the version,
    and then the stream is known not to be clear. *)
Definition pmt_change s s' : Prop :=
  mPat s' = mPat s /\ mParserState s' = mParserState s /\ published s' = published s /\
  (mEcm s' = mEcm s \/ mIsClearStream s' = false /\ mVersionValid (mPmt s') = true).

Lemma parsePmt_wp s : PsiState_ok s ->
  wp overread (parsePmt s packet junk) (fun r => PsiState_ok r.2 /\ pmt_change s r.2).
Proof.
  pose proof (packet_length _ Hpk) as Hl; rewrite package_size_188 in Hl.
  intros Hs; assert (Hsame : PsiState_ok s /\ pmt_change s s)
    by (split; [done|repeat split; auto]); unfold parsePmt.
  do 3 psi_step; [by psi_step|].
  do 2 psi_step; psi_step; apply wp_mono with (P := fun offs => 0 <= offs).
  { repeat psi_step; [|lia]; apply (read_byte packet Hpk) in Hb0; lia. }
  intros offs _ Hoffs; psi_step; [by psi_step|].
  do 3 psi_step; [by psi_step|].
  do 8 psi_step; cbv zeta.
  set (dl := Z.land (Z.shiftl b3 8 + b4) 4095).
  assert (Hdl : 0 <= dl <= 4095) by apply len_12_bits.
  psi_step; [by psi_step|].
  do 3 psi_step; [|by psi_step].
  set (s1 := s <| mPmt := _ |>).
  assert (Hs1 : PsiState_ok s1) by (apply ok_set_pmt; [done|apply setVer_ok, Hs]).
  assert (Hv1 : mVersionValid (mPmt s1) = true)
    by (by apply mVersionValid_setVer; eapply isNew_valid).
  psi_step; eapply wp_mono; [apply (descriptors_loop_wp packet Hpk); [apply Hs1|lia..]|].
  intros [|found ecm] _ He; [by psi_step; split; [|repeat split; auto]|].
  psi_step; eapply wp_mono; [apply (stream_loop_wp packet junk Hpk Hjunk); [apply He|lia..]|].
  intros [found' ecm'] _ He'; pose proof (found_ok_trans _ _ _ _ _ _ He He') as [Hok Hfound].
  assert (Hs2 : PsiState_ok (s1 <| mEcm := ecm' |> <| mIsClearStream := negb found' |>))
    by (by apply ok_set_clear, ok_set_ecm).
  psi_step; [do 3 psi_step|psi_step].
  - split; [by apply ok_set_events, ok_set_pmt; [|apply setPacket_ok; [apply Hs2|]]|].
    split; [done|split; [done|split; [|left]]].
    + unfold published; cbn; rewrite omap_app; cbn; apply app_nil_r.
    + apply Hfound; cbn in E4; by b2p.
  - split; [done|]; split; [done|split; [done|split; [done|right]]].
    cbn in E4 |- *; by rewrite E4.
Qed.

(** The offset of the payload. *)
Lemma wp_payload_offset E b (P : Z -> Prop) :
  (forall a, 0 <= a <= 256 -> a = 0 \/ Z.land b 48 = 48 /\ rd packet 4 = Done (a - 1) -> P a) ->
  wp E (if Z.land b 48 =? 48 then b4 ← packet_rd packet 4; Done (b4 + 1) else Done 0) P.
Proof.
  pose proof (packet_length _ Hpk) as Hl; rewrite package_size_188 in Hl.
  intros HP; psi_step; [psi_step; apply wp_packet_rd; [lia|]|psi_step; apply HP; lia].
  intros x Hx; pose proof (read_byte packet Hpk _ _ Hx); psi_step; apply HP; [lia|].
  right; split; [done|]; rewrite Hx; f_equal; lia.
Qed.

(** What an ECM packet leaves alone. *)
Definition ecm_change s s' : Prop :=
  mPat s' = mPat s /\ mPmt s' = mPmt s /\ mParserState s' = mParserState s /\
  published s' = published s /\ mPid (mEcm s') = mPid (mEcm s) /\ mPidValid (mEcm s') = mPidValid (mEcm s) /\
  mIsClearStream s' = mIsClearStream s.

Lemma ecm_change_setVer s s' v : mPat s' = mPat s -> mPmt s' = mPmt s ->
  mParserState s' = mParserState s -> published s' = published s -> mIsClearStream s' = mIsClearStream s ->
  mEcm s' = (setVer (mEcm s) v).2 -> ecm_change s s'.
Proof.
  intros Ha Hb Hc Hd Hf He; do 4 (split; [done|]); rewrite He.
  unfold setVer; destruct (mPidValid (mEcm s)) eqn:Hv; cbn; auto.
Qed.

(** Collecting goes on inside its buffers whatever the packet holds. *)
Lemma collectEcm_wp s : PsiState_ok s -> mEcmCollectionInProgress s = true ->
  wp never (collectEcm s packet) (fun r => PsiState_ok r.2 /\ ecm_change s r.2).
Proof.
  pose proof (packet_length _ Hpk) as Hl; pose proof package_size_188.
  intros Hs Hprog; pose proof (psi_collection _ Hs) as Hc; unfold collection_ok in Hc.
  rewrite Hprog in Hc; destruct Hc as (Hz & Hlen & Hmax); unfold collectEcm.
  do 3 psi_step; [by psi_step|].
  psi_step; apply wp_packet_rd; [lia|]; intros b3 _.
  psi_step; apply wp_payload_offset; intros a Ha _; psi_step; [by psi_step|]; cbv zeta.
  psi_step; apply wp_rd; [lia|]; intros vb _.
  rewrite (u32_small (_ - _)) by lia; set (rem := if _ <? _ then _ else _).
  assert (Hrem : 0 <= rem <= 184 - a /\ mCollectedDataLength s + rem <= mCollectedEcmDataExpected s)
    by (unfold rem; case_if; lia).
  rewrite slice_ok by lia; cbn [mbind outcome_bind].
  set (src := ztake _ _); assert (Hsrc : zlen src = rem)
    by (unfold src; rewrite zlen_ztake; rewrite ?zlen_zdrop; lia).
  rewrite splice_ok by lia; cbn [mbind outcome_bind].
  set (data := _ ++ _ ++ _); assert (Hdata : zlen data = mCollectedEcmDataExpected s).
  { unfold data; rewrite !zlen_app, zlen_ztake, zlen_zdrop; lia. }
  rewrite (u32_small (_ + _)) by lia.
  psi_step; [psi_step; psi_step|psi_step].
  - split; [|by eapply ecm_change_setVer].
    apply (ok_reset_collection s); [done..|apply setVer_ok, Hs].
  - split; [|done]; apply (ok_reset_collection s); [done..|apply Hs].
  - cbn in E1; split; [|done]; destruct Hs; split; [done..|].
    unfold collection_ok; cbn; rewrite Hprog; lia.
Qed.

Lemma wp_bytes_match E i w (P : bool -> Prop) :
  0 <= i -> i + zlen w <= zlen packet -> (forall b, P b) -> wp E (bytes_match packet i w) P.
Proof.
  revert i; induction w as [|c w IH]; intros i Hi Hw HP; cbn [bytes_match]; [by psi_step|].
  rewrite zlen_cons in Hw; pose proof (zlen_nonneg w).
  psi_step; apply wp_packet_rd; [lia|]; intros b _; psi_step; [apply IH; auto; lia | by psi_step].
Qed.

(** The adaptation field fills the packet up to its last byte but one: the check of
    [parseEcm] lets this one length through although no table can follow. *)
Definition adaptation_full : Prop :=
  exists b3, rd packet 3 = Done b3 /\ Z.land b3 48 = 48 /\ rd packet 4 = Done 183.

Lemma parseEcm_wp E s : PsiState_ok s -> (adaptation_full -> E Overread) ->
  wp E (parseEcm s packet) (fun r => PsiState_ok r.2 /\ ecm_change s r.2).
Proof.
  pose proof (packet_length _ Hpk) as Hl; pose proof package_size_188.
  intros Hs Hfull; unfold parseEcm; do 3 psi_step; [by psi_step|].
  psi_step; [by destruct (wp_never_done _ _ (collectEcm_wp s Hs E1)) as (? & -> & ?)|].
  psi_step; apply wp_packet_rd; [lia|]; intros b3 H3.
  psi_step; apply wp_payload_offset; intros a Ha Ha'; psi_step; [by psi_step|]; cbv zeta.
  destruct (decide (a = 184)) as [->|Hne].
  { assert (Hub : E Overread) by (apply Hfull; exists b3; destruct Ha' as [?|[? ?]]; [lia|done]).
    psi_step; [by psi_step|]; psi_step.
    by rewrite packet_rd_over by lia. }
  rewrite u32_small by lia; psi_step; [by psi_step|].
  psi_step; apply wp_packet_rd; [lia|]; intros vb _.
  psi_step; apply wp_packet_rd; [lia|]; intros id _; psi_step; [by psi_step|].
  psi_step; apply wp_bytes_match; [lia|change (zlen VMECM) with 5; lia|].
  intros vm; psi_step; [by psi_step|].
  psi_step; apply wp_packet_rd; [lia|]; intros l1 Hl1; apply (read_byte packet Hpk) in Hl1.
  psi_step; apply wp_packet_rd; [lia|]; intros l0 Hl0; apply (read_byte packet Hpk) in Hl0.
  pose proof (land_ones_bound l1 4 ltac:(lia)) as Hnib; change (Z.ones 4) with 15 in Hnib.
  set (tl := _ + 3); assert (Htl : 3 <= tl <= 4098)
    by (unfold tl; rewrite Z.shiftl_mul_pow2 by lia; lia).
  set (rem := Z.min _ _); rewrite slice_ok by lia; cbn [mbind outcome_bind].
  set (src := ztake _ _); assert (Hsrc : zlen src = rem)
    by (unfold src; rewrite zlen_ztake; rewrite ?zlen_zdrop; lia).
  pose proof (zlen_replicate tl 0 ltac:(lia)).
  rewrite splice_ok by lia; cbn [mbind outcome_bind].
  set (data := _ ++ _ ++ _); assert (Hdata : zlen data = tl).
  { unfold data; rewrite !zlen_app, zlen_ztake, zlen_zdrop; lia. }
  psi_step; [psi_step|psi_step; psi_step].
  - cbn in E6; split; [|done]; destruct Hs; split; [done..|]; unfold collection_ok; cbn; lia.
  - split; [|by eapply ecm_change_setVer].
    apply (ok_reset_collection s); [done..|apply setVer_ok, Hs].
  - split; [|done]; apply (ok_reset_collection s); [done..|apply Hs].
Qed.

Lemma ok_state_after_pmt s : PsiState_ok s -> PsiState_ok (state_after_pmt s).
Proof.
  intros Hs; unfold state_after_pmt.
  destruct (mParserState s); repeat case_if; auto using ok_set_state;
    by apply ok_set_ecm; [apply ok_set_state|apply reset_ok].
Qed.

(** * The states of the parser

    Until the first PMT no packet can be taken for an ECM. *)
Definition no_pid (i : PidInfo) : Prop := forall pid, isPid i pid = true -> pid = 0.

Record progress_ok s : Prop := {
  pg_got : mParserState s <> GOT_ECM;
  pg_pat : mParserState s = NEEDS_PAT ->
    mVersionValid (mPat s) = false /\ no_pid (mPmt s);
  pg_ecm : mParserState s = NEEDS_PAT \/ mParserState s = NEEDS_PMT -> no_pid (mEcm s);
}.

Lemma no_pid_reset i : no_pid (reset i).
Proof. done. Qed.

Lemma isPid_pat s pid : PsiState_ok s -> isPid (mPat s) pid = (pid =? 0).
Proof.
  intros Hs; unfold isPid; rewrite (pi_valid _ (psi_pat _ Hs)), (psi_pat_pid _ Hs); done.
Qed.

Lemma getPid_valid i : PidInfo_ok i -> mPidValid i = true -> getPid i <> PSI_INVALID_PID.
Proof.
  intros Hi Hv; unfold getPid; rewrite Hv; cbn.
  rewrite (pi_valid _ Hi) in Hv; b2p; unfold PSI_MAX_PID, PSI_INVALID_PID in *; lia.
Qed.

Lemma progress_pat s s' : PsiState_ok s' -> progress_ok s -> pat_change s s' ->
  progress_ok (if bool_decide (mParserState s' = NEEDS_PAT) && processed (mPat s') && hasPmtPid s'
               then s' <| mParserState := NEEDS_PMT |> else s').
Proof.
  intros Hs' [Hg Hp He] (Hst & _ & [->|(Hv & Hpmt & Hecm)]).
  - case_if; [|by split]; destruct (Hp H) as [Hv _]; unfold processed in *; congruence.
  - assert (Hn : no_pid (mEcm s')) by (by rewrite Hecm).
    pose proof (getPid_valid _ (psi_pmt _ Hs') Hpmt) as Hpid.
    case_if; [by split|]; split; [by rewrite Hst| |done].
    intros Hneeds; exfalso; revert E; unfold processed, hasPmtPid.
    by rewrite Hneeds, Hv, (proj2 (Z.eqb_neq _ _) Hpid).
Qed.

Lemma progress_pmt s s' pid : progress_ok s -> pmt_change s s' ->
  isPid (mPmt s) pid = true -> pid <> 0 ->
  progress_ok (if negb (processed (mPmt s')) then s' else state_after_pmt s').
Proof.
  intros [Hg Hp He] (Hpat & Hst & _ & Hecm) Hpid H0.
  assert (Hnp : mParserState s <> NEEDS_PAT) by (intros E; by apply H0, (Hp E)).
  assert (Hkeep : mEcm s' = mEcm s -> progress_ok s').
  { intros E; split; rewrite ?Hst, ?E; auto; by intros. }
  case_if; [destruct Hecm as [?|[_ Hv]]; [auto | unfold processed in *; congruence]|].
  unfold state_after_pmt; rewrite Hst.
  destruct (mParserState s) eqn:Es; try done; repeat case_if;
    try (by split; cbn; intuition congruence);
    apply Hkeep; intuition congruence.
Qed.

Lemma parseTsPacket_wp s : PsiState_ok s ->
  wp overread (parseTsPacket s packet junk)
    (fun r => PsiState_ok r.2 /\ published r.2 = published s /\
              (progress_ok s -> progress_ok r.2)).
Proof.
  intros Hs; unfold parseTsPacket; do 3 psi_step.
  - psi_step; eapply wp_mono; [by apply parsePat_wp|]; intros [a s1] _ [Hs1 Hc].
    pose proof (fun Hg => progress_pat s s1 Hs1 Hg Hc) as Hpg; cbn [snd] in *.
    destruct Hc as (_ & Hpub & _).
    psi_step; psi_step; cbn [snd]; auto using ok_set_state.
  - rewrite isPid_pat in E by done; b2p; psi_step; [|psi_step].
    + psi_step; eapply wp_mono; [by apply parsePmt_wp|]; intros [a s1] _ [Hs1 Hc].
      pose proof (fun Hg => progress_pmt s s1 pid Hg Hc E0 E) as Hpg; cbn [snd] in *.
      destruct Hc as (_ & _ & Hpub & _).
      psi_step; psi_step; cbn [snd]; [auto|].
      split; [by apply ok_state_after_pmt|]; split; [|done].
      rewrite <- Hpub; unfold state_after_pmt; by destruct (mParserState s1); repeat case_if.
    + psi_step; eapply wp_mono; [by apply parseEcm_wp|]; intros [a s1] _ [Hs1 Hc]; cbn [snd] in *.
      destruct Hc as (Ha & Hb & Hst & Hpub & Hi & Hv).
      assert (Hpg : progress_ok s -> mParserState s1 <> NEEDS_PMT /\ progress_ok s1).
      { intros [Hg Hp He]; rewrite Hst; assert (Hno : ~ no_pid (mEcm s)) by (intros Hn; by apply E, Hn).
        split; [auto|]; split; rewrite ?Hst, ?Ha, ?Hb; auto; by intros ?%He. }
      psi_step; psi_step; cbn [snd];
        (split; [auto using ok_set_state|split; [done|]]); [by intros [? _]%Hpg | by intros [_ ?]%Hpg].
    + unfold ParseOther, TSC_ISSET, IS_TSC_EVEN; repeat psi_step; done.
Qed.

End preservation.

(** * Runs of packets *)

Section feeding.
Context {cfg : StreamfsConfig} {cfg_ok : StreamfsConfigOk cfg}.

(** What a run of packets does to the running flag and the tables. *)
Record run_ok (rs rs' : bool * PsiState) : Prop := {
  run_state : PsiState_ok rs'.2;
  run_progress : progress_ok rs.2 -> progress_ok rs'.2;
  run_published :
    (rs'.1 = rs.1 /\ published rs'.2 = published rs.2) \/
    (rs.1 = true /\ rs'.1 = false /\
     exists drm, published rs'.2 = published rs.2 ++ [drm]);
}.

Lemma run_ok_refl rs : PsiState_ok rs.2 -> run_ok rs rs.
Proof. split; auto. Qed.

Lemma run_ok_trans r1 r2 r3 : run_ok r1 r2 -> run_ok r2 r3 -> run_ok r1 r3.
Proof.
  intros [_ Hp1 Hr1] [Hs Hp2 Hr2]; split; [done|auto|].
  destruct Hr1 as [[Ha Hb]|(Ha & Hb & drm & Hc)], Hr2 as [[Hd He]|(Hd & He & drm' & Hf)];
    rewrite ?Hd, ?He, ?Hf, ?Ha, ?Hb, ?Hc in *; [auto|right; eauto|right; eauto|congruence].
Qed.

Lemma feed_packet_wp packet junk channel rs :
  is_packet packet -> zlen junk = TS_PACKAGE_SIZE -> PsiState_ok rs.2 ->
  wp overread (feed_packet channel rs packet junk) (run_ok rs).
Proof.
  intros Hp Hj Hs; unfold feed_packet; psi_step.
  eapply wp_mono; [by apply parseTsPacket_wp|]; intros [a s1] _ (Hs1 & Hpub & Hg); cbn in *.
  eapply wp_mono; [by apply handle_action_wp|]; intros r _ [->|(drm & Hr & ->)].
  - split; cbn; auto.
  - split; cbn; [by apply ok_set_events| |].
    + intros [??]%Hg; split; auto.
    + right; split; [done|split; [done|exists drm]].
      unfold published in *; cbn; by rewrite omap_app, Hpub.
Qed.

Lemma feed_wp junk k channel rs packets :
  (forall n, zlen (junk n : StreamPacketT) = TS_PACKAGE_SIZE) ->
  Forall is_packet packets -> PsiState_ok rs.2 ->
  wp overread (feed junk k channel rs packets) (run_ok rs).
Proof.
  intros Hj HP; revert k rs; induction HP as [|p packets Hp HP IH]; intros k rs Hs;
    cbn [feed]; [by apply run_ok_refl|].
  psi_step; eapply wp_mono; [by apply feed_packet_wp|]; intros rs' _ Hs'.
  eapply wp_mono; [apply IH, Hs'|]; intros rs2 _; by apply run_ok_trans.
Qed.

Lemma cut_packets n bytes : is_bytes bytes ->
  Forall is_packet (cut n bytes).1 /\ is_bytes (cut n bytes).2.
Proof.
  pose proof package_size_188.
  revert bytes; induction n as [|n IH]; intros bytes Hb; cbn [cut]; [by split; [constructor|]|].
  unfold next_packet; case_if; [by split; [constructor|]|].
  set (p := ztake _ bytes); set (rest := zdrop _ bytes).
  assert (Hr : is_bytes rest) by (by apply Forall_drop).
  case_decide; [|by split; [constructor|]].
  specialize (IH rest Hr); destruct (cut n rest) as [ps r]; cbn in *.
  split; [constructor|]; try apply IH.
  split; [unfold p; rewrite zlen_ztake; lia | by apply Forall_take].
Qed.

End feeding.
