(* ===== verification/PsiReach.v ===== *)
(** The PSI parser as an object that receives calls: what holds after every sequence
    of calls of the stream processor, of the parser thread and of the configuration
    handler. *)

From S2P Require Import Prelude Interfaces Protection TsStream PidInfo PsiParser PsiStream PsiInvariant.

(** The calls; a round of the thread comes with what the uninitialised arrays of the
    packets it parses hold. *)
Inductive psi_op :=
| Post (channel : option string) (chunk : buffer_chunk)
| ThreadRound (junk : nat -> StreamPacketT)
| Notify (var : string) (value : list Z)
| EndOfStream
| Open
| Destroy.

Section reach.
Context {cfg : StreamfsConfig} {cb q : Type -> Type}.
Context {CB : CircularBuffer cb} {Q : LockfreeQueue q}.
Implicit Types s : PSIParser cb q.

Definition psi_exec s (op : psi_op) : outcome (PSIParser cb q) :=
  match op with
  | Post channel chunk => post s channel chunk
  | ThreadRound junk => thread_step s junk
  | Notify var value => Done (notifyConfigurationChanged s var value)
  | EndOfStream => Done (onEndOfStream s)
  | Open => onOpen s
  | Destroy => Done (PSIParser_destroy s)
  end.

Fixpoint psi_run s (ops : list psi_op) : outcome (PSIParser cb q) :=
  match ops with
  | [] => Done s
  | op :: ops => s ← psi_exec s op; psi_run s ops
  end.

Record is_chunk (c : buffer_chunk) : Prop := {
  chunk_length : zlen c = BUFFER_CHUNK_SIZE;
  chunk_bytes : is_bytes c;
}.

Definition op_ok (op : psi_op) : Prop :=
  match op with
  | Post _ chunk => is_chunk chunk
  | ThreadRound junk => forall n, zlen (junk n) = TS_PACKAGE_SIZE
  | _ => True
  end.

Definition is_notify (op : psi_op) : bool :=
  match op with Notify _ _ => true | _ => false end.

Record PSIParser_ok s : Prop := {
  parser_state : PsiState_ok (psi s);
  parser_progress : progress_ok (psi s);
  parser_stream : TSStream_ok (mTsStream s);
  parser_pending : is_bytes (pending (mTsStream s));
  parser_queue : Forall is_chunk (q_items (mQueue s));
}.

(** Publishing takes the running flag away. *)
Definition publishes_once s s' : Prop :=
  (mPsiParserRunning s' = mPsiParserRunning s /\ published (psi s') = published (psi s)) \/
  (mPsiParserRunning s = true /\ mPsiParserRunning s' = false /\
   exists drm, published (psi s') = published (psi s) ++ [drm]).

Context {cfg_ok : StreamfsConfigOk cfg}.
Context {CBL : CircularBufferLaws cb} {QL : LockfreeQueueLaws q}.

Lemma PSIParser_new_ok : PSIParser_ok PSIParser_new.
Proof.
  split; cbn [PSIParser_new psi mTsStream mQueue].
  - apply PsiState_new_ok.
  - split; [done| |]; [split; [done|] | intros _]; intros pid E; apply Z.eqb_eq, E.
  - apply TSStream_new_ok.
  - rewrite pending_new; constructor.
  - rewrite q_items_new; constructor.
Qed.

Lemma pop_all_ok n (b : q buffer_chunk) : (length (q_items b) < n)%nat ->
  exists b', pop_all n b = Done b' /\ q_items b' = [].
Proof.
  revert b; induction n as [|n IH]; intros b Hn; [lia|]; cbn [pop_all].
  destruct (q_items b) as [|x l] eqn:Hb.
  - rewrite q_pop_empty by done; eauto.
  - destruct (q_pop_cons _ x l b Hb) as (b' & -> & Hl); apply IH; rewrite Hl; cbn in Hn; lia.
Qed.

Lemma clearQueue_ok s : exists queue,
  clearQueue s = Done (s <| mQueue := queue |> <| mPacketCounter := 0 |>) /\ q_items queue = [].
Proof.
  unfold clearQueue; destruct (pop_all_ok (S (length (q_items (mQueue s)))) (mQueue s))
    as (queue & -> & Hq); [lia|]; eauto.
Qed.

Lemma processChunk_wp s chunk junk : PSIParser_ok s -> is_chunk chunk ->
  (forall n, zlen (junk n : StreamPacketT) = TS_PACKAGE_SIZE) ->
  wp overread (processChunk s chunk junk) (fun s' => PSIParser_ok s' /\ publishes_once s s').
Proof.
  intros Hs [Hlen Hb] Hj; pose proof (processChunk_implements s chunk junk
    (parser_stream _ Hs) Hlen) as Hi; cbv zeta in Hi.
  set (bytes := pending _ ++ _) in Hi.
  assert (Hbytes : is_bytes bytes).
  { apply Forall_app; split; [apply Hs|]; by destruct (needsNewChunk _); [|constructor]. }
  pose proof (cut_packets (S (length bytes)) bytes Hbytes) as [Hps Hr].
  destruct (cut _ bytes) as [packets rest].
  pose proof (feed_wp junk 0 (mChannel s) (mPsiParserRunning s, psi s) packets Hj Hps
    (parser_state _ Hs)) as Hf.
  destruct (feed _ _ _ _ _) as [rs|e]; cbn [implements wp] in Hi, Hf; [|by rewrite Hi].
  destruct Hi as (ts & p & -> & Hts & Hpend), Hf as [Hok Hpg Hpub]; cbn [wp].
  split; [|exact Hpub]; split; cbn; [done|apply Hpg, Hs|done|by rewrite Hpend|apply Hs].
Qed.

Lemma ok_set_queue s queue n : PSIParser_ok s -> Forall is_chunk (q_items queue) ->
  PSIParser_ok (s <| mQueue := queue |> <| mPacketCounter := n |>).
Proof. by intros [] ?; split. Qed.

Lemma post_wp s channel chunk : PSIParser_ok s -> is_chunk chunk ->
  wp overread (post s channel chunk) (fun s' => PSIParser_ok s' /\ publishes_once s s').
Proof.
  intros Hs Hc; unfold post; destruct channel as [channel|]; cbn [wp];
    [|split; [by destruct Hs; split | left; done]].
  set (s1 := s <| mParserThread := true |>).
  assert (Hs1 : PSIParser_ok s1) by (by destruct Hs; split).
  apply wp_bind, wp_mono with (P := fun s2 => PSIParser_ok s2 /\
    mPsiParserRunning s2 = mPsiParserRunning s /\ psi s2 = psi s).
  { destruct (decide _); [|done].
    destruct (clearQueue_ok s1) as (queue & -> & Hq); cbn [mbind outcome_bind wp].
    split; [|done]; destruct Hs; split; [assumption..|]; cbn; rewrite Hq; constructor. }
  intros s2 _ (Hs2 & Hr & Hp); psi_step; psi_step.
  - split; [|left; cbn; rewrite Hp, E; auto].
    split; [apply Hs2..|]; cbn; rewrite q_items_push; apply Forall_app; split; [apply Hs2|by constructor].
  - split; [done|left; rewrite Hp, E; auto].
Qed.

Lemma thread_step_wp s junk : PSIParser_ok s ->
  (forall n, zlen (junk n : StreamPacketT) = TS_PACKAGE_SIZE) ->
  wp overread (thread_step s junk) (fun s' => PSIParser_ok s' /\ publishes_once s s').
Proof.
  intros Hs Hj; unfold thread_step; psi_step; [psi_step; split; [done|by left]|].
  pose proof (parser_queue _ Hs) as Hq.
  destruct (q_items (mQueue s)) as [|c l] eqn:Hi.
  - rewrite q_pop_empty by done; split; [done|by left].
  - destruct (q_pop_cons _ c l _ Hi) as (queue & -> & Hl); cbv zeta.
    apply Forall_cons in Hq as [Hc Hq].
    eapply wp_mono; [apply processChunk_wp; [apply ok_set_queue; [|rewrite Hl]|..]; done|].
    intros s' _ [Hs' Hp]; split; [done|exact Hp].
Qed.

Lemma onOpen_wp s : PSIParser_ok s ->
  wp overread (onOpen s) (fun s' => PSIParser_ok s' /\ publishes_once s s').
Proof.
  intros Hs; unfold onOpen; destruct (clearQueue_ok s) as (queue & -> & Hq).
  cbn [mbind outcome_bind wp]; split; [|by left].
  split; cbn; [apply onOpen_state_ok| |apply Hs|apply Hs|rewrite Hq; constructor].
  split; [done|intros _; split; [done|apply no_pid_reset]|intros _; apply no_pid_reset].
Qed.

Lemma psi_exec_wp s op : PSIParser_ok s -> op_ok op ->
  wp overread (psi_exec s op)
    (fun s' => PSIParser_ok s' /\ (is_notify op = false -> publishes_once s s')).
Proof.
  intros Hs Hop; destruct op; cbn [psi_exec is_notify].
  - eapply wp_mono; [by apply post_wp|]; intros s' _ []; auto.
  - eapply wp_mono; [by apply thread_step_wp|]; intros s' _ []; auto.
  - cbn; unfold notifyConfigurationChanged; case_decide; [by destruct Hs|done].
  - cbn; split; [|intros _; left; split; [done|]].
    + destruct Hs as [? [] ???]; split; [by apply ok_set_events|by split|done..].
    + unfold published; cbn; rewrite omap_app; apply app_nil_r.
  - eapply wp_mono; [by apply onOpen_wp|]; intros s' _ []; auto.
  - cbn; split; [by destruct Hs|by left].
Qed.

Lemma psi_run_wp s ops : PSIParser_ok s -> Forall op_ok ops ->
  wp overread (psi_run s ops) PSIParser_ok.
Proof.
  intros Hs HF; revert s Hs; induction HF as [|op ops Ho HF IH]; intros s Hs; cbn [psi_run]; [done|].
  psi_step; eapply wp_mono; [by apply psi_exec_wp|]; intros s' _ [Hs' _]; by apply IH.
Qed.

(** At most one publication, and only by a running parser. *)
Lemma psi_run_publishes s ops : PSIParser_ok s -> Forall op_ok ops ->
  Forall (fun op => is_notify op = false) ops ->
  wp overread (psi_run s ops) (publishes_once s).
Proof.
  intros Hs HF HN; revert s Hs; induction HF as [|op ops Ho HF IH]; intros s Hs; cbn [psi_run].
  - by left.
  - apply Forall_cons in HN as [Hn HN].
    psi_step; eapply wp_mono; [by apply psi_exec_wp|]; intros s1 _ [Hs1 Hp1]; cbv beta.
    eapply wp_mono; [by apply IH|]; intros s2 _ Hp2; specialize (Hp1 Hn).
    destruct Hp1 as [[Ha Hb]|(Ha & Hb & drm & Hc)], Hp2 as [[Hd He]|(Hd & He & drm' & Hf)];
      unfold publishes_once; rewrite ?Hd, ?He, ?Hf, ?Ha, ?Hb, ?Hc in *;
      [auto|right; eauto|right; eauto|congruence].
Qed.

(** C24. Every sequence of calls, from the construction on, leaves the parser well
    formed: identifiers and versions agree, the PAT stays on identifier 0, an ECM being
    collected has its buffer at the size of the table, at most two chunks are pending.
    The only way a call can stop is a read outside a packet; in particular every loop
    ends within its bound. *)
Theorem psi_parser_invariant ops (Hops : Forall op_ok ops) :
  wp overread (psi_run PSIParser_new ops) PSIParser_ok.
Proof. apply psi_run_wp; [apply PSIParser_new_ok | done]. Qed.

(** The parser never reaches the state GOT_ECM, whatever it is sent: the test that
    enters it asks for NEEDS_PMT, and in that state no packet is taken for an ECM. *)
Theorem got_ecm_unreachable ops s (Hops : Forall op_ok ops)
    (Hrun : psi_run PSIParser_new ops = Done s) :
  mParserState (psi s) <> GOT_ECM.
Proof.
  pose proof (psi_run_wp _ ops PSIParser_new_ok Hops) as Hw.
  rewrite Hrun in Hw; apply Hw.
Qed.

(** Between two changes of the configuration the protection data is published at
    most once, only by a parser that was running, and a parser that has published no
    longer runs. *)
Theorem published_once s s' ops (Hs : PSIParser_ok s) (Hops : Forall op_ok ops)
    (Hn : Forall (fun op => is_notify op = false) ops) (Hrun : psi_run s ops = Done s') :
  (published (psi s') = published (psi s) /\ mPsiParserRunning s' = mPsiParserRunning s) \/
  (mPsiParserRunning s = true /\ mPsiParserRunning s' = false /\
   exists drm, published (psi s') = published (psi s) ++ [drm]).
Proof.
  pose proof (psi_run_publishes s ops Hs Hops Hn) as Hw; rewrite Hrun in Hw.
  destruct Hw as [[? ?]|?]; auto.
Qed.

End reach.

(** * What has been assigned stays

    The assignments of the PSI parser to monitored variables are only added to: whatever the
    parser is sent, what it has assigned before stays in front of what it assigns then. *)

(** Whatever stops a computation, [P] holds of its result if there is one. *)
Definition any (e : stop) : Prop := True.

Lemma wp_any {A} (m : outcome A) : wp any m (fun _ => True).
Proof. by destruct m. Qed.

(** Steps over what does not return a state. *)
Ltac any_step :=
  match goal with
  | |- wp any (Done _) _ => cbn [wp]
  | |- wp any (Stop _) _ => exact I
  | |- wp any (_ ≫= _) _ => apply wp_bind; eapply wp_mono; [apply wp_any|intros ? _ _]; cbv beta zeta
  | |- wp any (if ?b then _ else _) _ => destruct b
  | |- wp any (let '(_, _) := ?x in _) _ => destruct x
  | |- wp any (match ?x with _ => _ end) _ => destruct x
  end.

Section events.
Context {cfg : StreamfsConfig} {cb q : Type -> Type} {CB : CircularBuffer cb} {Q : LockfreeQueue q}.
Implicit Types st : PsiState.
Implicit Types s : PSIParser cb q.

Definition grows st st' : Prop := exists l, events st' = events st ++ l.

Lemma grows_same st st' : events st' = events st -> grows st st'.
Proof. intros He; exists []; by rewrite He, app_nil_r. Qed.

Lemma grows_snoc st st' e : events st' = events st ++ [e] -> grows st st'.
Proof. by exists [e]. Qed.

Lemma grows_trans a b c : grows a b -> grows b c -> grows a c.
Proof. intros [l Hl] [k Hk]; exists (l ++ k); by rewrite Hk, Hl, app_assoc. Qed.

Lemma collectEcm_grows st packet : wp any (collectEcm st packet) (fun r => grows st r.2).
Proof. unfold collectEcm; repeat any_step; by apply grows_same. Qed.

Lemma parseEcm_grows st packet : wp any (parseEcm st packet) (fun r => grows st r.2).
Proof.
  unfold parseEcm; any_step; any_step; [any_step; by apply grows_same|].
  destruct (mEcmCollectionInProgress st); [apply collectEcm_grows|repeat any_step; by apply grows_same].
Qed.

Lemma parsePat_grows st packet junk : wp any (parsePat st packet junk) (fun r => grows st r.2).
Proof. unfold parsePat; repeat any_step; by apply grows_same. Qed.

Lemma parsePmt_grows st packet junk : wp any (parsePmt st packet junk) (fun r => grows st r.2).
Proof. unfold parsePmt; repeat any_step; first [by apply grows_same | by eapply grows_snoc]. Qed.

Lemma state_after_pmt_events st : events (state_after_pmt st) = events st.
Proof. unfold state_after_pmt; by repeat case_match. Qed.

Lemma parseTsPacket_grows st packet junk : wp any (parseTsPacket st packet junk) (fun r => grows st r.2).
Proof.
  unfold parseTsPacket; any_step; any_step.
  - apply wp_bind; eapply wp_mono; [apply parsePat_grows|]; intros [act st1] _ H1; repeat any_step; exact H1.
  - any_step; [|any_step].
    + apply wp_bind; eapply wp_mono; [apply parsePmt_grows|]; intros [act st1] _ H1; repeat any_step; [exact H1|].
      eapply grows_trans; [exact H1|]; apply grows_same, state_after_pmt_events.
    + apply wp_bind; eapply wp_mono; [apply parseEcm_grows|]; intros [act st1] _ H1; repeat any_step; exact H1.
    + repeat any_step; by apply grows_same.
Qed.

Lemma handle_action_grows run channel st a : wp any (handle_action run channel st a) (fun r => grows st r.2).
Proof. destruct a; cbn [handle_action]; repeat any_step; first [by apply grows_same | by eapply grows_snoc]. Qed.

Lemma packet_loop_grows fuel junk k s : wp any (packet_loop fuel junk k s) (fun s' => grows (psi s) (psi s')).
Proof.
  revert k s; induction fuel as [|fuel IH]; intros k s; cbn [packet_loop]; [done|].
  any_step; destruct a as [[e p] ts]; destruct e; [|repeat any_step; by apply grows_same..].
  apply wp_bind; eapply wp_mono; [apply parseTsPacket_grows|]; intros [act st1] _ H1.
  apply wp_bind; eapply wp_mono; [apply handle_action_grows|]; intros [run st2] _ H2.
  eapply wp_mono; [apply IH|]; intros s' _ H3.
  eapply grows_trans; [exact H1|]; eapply grows_trans; [exact H2|exact H3].
Qed.

Lemma thread_step_grows s junk : wp any (thread_step s junk) (fun s' => grows (psi s) (psi s')).
Proof.
  unfold thread_step; any_step; [any_step; by apply grows_same|].
  destruct (q_pop (mQueue s)) as [[c queue]|]; [|any_step; by apply grows_same]; unfold processChunk; cbv zeta.
  eapply wp_mono; [apply packet_loop_grows|]; intros s' _ H1; revert H1; by case_if.
Qed.

Lemma post_psi s channel chunk : wp any (post s channel chunk) (fun s' => psi s' = psi s).
Proof.
  unfold post; destruct channel as [channel|]; [|done].
  apply wp_bind, wp_mono with (P := fun s2 => psi s2 = psi s).
  - destruct (decide _); [|done]; unfold clearQueue.
    apply wp_bind, wp_bind; eapply wp_mono; [apply wp_any|]; by intros.
  - intros s2 _ H2; by any_step.
Qed.

End events.
