(* ===== verification/PsiPmt.v ===== *)
(** The program map table: its syntax (ISO/IEC 13818-1, 2.4.4.8, as far as the parser
    uses it), its encoding into a packet, and what [parsePmt] of
    src/StreamParser/PSIParser.cpp gets from an encoded table. *)

From S2P Require Import Prelude Interfaces Protection TsStream PidInfo PsiParser.
From S2P Require Import PsiStream PsiInvariant.

(** * Syntax and encoding *)

Record descriptor := mkDescriptor { d_tag : Z; d_body : list Z }.

Record elementary_stream := mkES {
  es_type : Z;
  es_pid : Z;
  es_descs : list descriptor;
}.

Record program_map := mkPMT {
  pmt_program : Z;
  pmt_version : Z;
  pmt_pcr_pid : Z;
  pmt_descs : list descriptor;
  pmt_streams : list elementary_stream;
  pmt_crc : list Z;
}.

Definition encode_descriptor (d : descriptor) : list Z :=
  d_tag d :: zlen (d_body d) :: d_body d.

Definition encode_descs (ds : list descriptor) : list Z := concat (map encode_descriptor ds).

(** Two bytes, the high one with marker bits. *)
Definition encode_u16 (marker v : Z) : list Z := [marker + v / 256; v mod 256].

Definition encode_es (e : elementary_stream) : list Z :=
  es_type e :: encode_u16 224 (es_pid e) ++
  encode_u16 240 (zlen (encode_descs (es_descs e))) ++ encode_descs (es_descs e).

Definition encode_streams (l : list elementary_stream) : list Z := concat (map encode_es l).

Definition section_length (t : program_map) : Z :=
  9 + zlen (encode_descs (pmt_descs t)) + zlen (encode_streams (pmt_streams t)) + 4.

Definition encode_pmt (t : program_map) : list Z :=
  2 :: encode_u16 176 (section_length t) ++ encode_u16 0 (pmt_program t) ++
  [193 + 2 * pmt_version t; 0; 0] ++ encode_u16 224 (pmt_pcr_pid t) ++
  encode_u16 240 (zlen (encode_descs (pmt_descs t))) ++ encode_descs (pmt_descs t) ++
  encode_streams (pmt_streams t) ++ pmt_crc t.

(** * What the parser looks for

    A conditional access descriptor (tag 9) of the system 0x5601. *)
Definition vmx_pid (d : descriptor) : option Z :=
  match d_body d with
  | c1 :: c0 :: hi :: lo :: _ =>
    if (d_tag d =? 9) && (c1 =? 86) && (c0 =? 1)
    then Some (Z.land (Z.shiftl hi 8 + lo) 8191) else None
  | _ => None
  end.

Definition is_vmx (d : descriptor) : bool := bool_decide (is_Some (vmx_pid d)).

(** A descriptor of the program with private data is taken when the operator in it is
    the one asked for. *)
Definition operator_ok (opid : Z) (d : descriptor) : bool :=
  match d_body d with
  | [_; _; _; _] => true
  | _ :: _ :: _ :: _ :: _ :: o :: _ => (opid =? 0) || (opid =? o)
  | _ => false
  end.

Fixpoint first_some {A B} (f : A -> option B) (l : list A) : option B :=
  match l with
  | [] => None
  | x :: l => match f x with Some y => Some y | None => first_some f l end
  end.

Definition program_ecm (opid : Z) (ds : list descriptor) : option Z :=
  first_some (fun d => if operator_ok opid d then vmx_pid d else None) ds.

(** Among the elementary streams the first identifier that is not the present one. *)
Definition stream_ecm (ecm : PidInfo) (ds : list descriptor) : option Z :=
  first_some (fun d => match vmx_pid d with
                       | Some pid => if isPid ecm pid then None else Some pid
                       | None => None
                       end) ds.

Definition all_es_descs (l : list elementary_stream) : list descriptor :=
  concat (map es_descs l).

Section spec.
Context {cfg : StreamfsConfig}.

(** The section the packet carries, padded with the last bytes of [old]. *)
Definition section_copy (packet old : StreamPacketT) : StreamPacketT :=
  zdrop 5 packet ++ zdrop (TS_PACKAGE_SIZE - 5) old.

Definition new_ecm (ecm : PidInfo) (pid : Z) (packet : StreamPacketT) : PidInfo :=
  setPacket (setPid (reset ecm) pid).2 packet.

Definition after_program (opid : Z) (ds : list descriptor) (ecm : PidInfo) packet : PidInfo :=
  match program_ecm opid ds with
  | Some pid => if isPid ecm pid then ecm else new_ecm ecm pid (section_copy packet packet)
  | None => ecm
  end.

Definition after_streams (ds : list descriptor) (ecm : PidInfo) packet junk : PidInfo :=
  match stream_ecm ecm ds with
  | Some pid => new_ecm ecm pid (section_copy packet junk)
  | None => ecm
  end.

(** The state after a new version of the table. *)
Definition pmt_effect (s : PsiState) (t : program_map) (packet junk : StreamPacketT) : PsiState :=
  let encrypted := existsb is_vmx (pmt_descs t ++ all_es_descs (pmt_streams t)) in
  let ecm := after_streams (all_es_descs (pmt_streams t))
               (after_program (mOpid s) (pmt_descs t) (mEcm s) packet) packet junk in
  let pmt := (setVer (mPmt s) (pmt_version t)).2 in
  let s := s <| mPmt := pmt |> <| mEcm := ecm |> <| mIsClearStream := negb encrypted |> in
  if encrypted then s
  else s <| mPmt := setPacket pmt (section_copy packet packet) |>
         <| events := events s ++ [SetCdmSetupDone true] |>.

End spec.

Record descriptor_ok (d : descriptor) : Prop := {
  d_tag_byte : is_byte (d_tag d);
  d_body_bytes : is_bytes (d_body d);
  d_body_length : zlen (d_body d) < 256;
  d_ca_length : d_tag d = 9 -> 4 <= zlen (d_body d);
}.

Record program_map_ok (t : program_map) : Prop := {
  t_version : 0 <= pmt_version t < 32;
  t_descs : Forall descriptor_ok (pmt_descs t);
  t_streams : Forall (fun e => Forall descriptor_ok (es_descs e)) (pmt_streams t);
  t_crc : zlen (pmt_crc t) = 4;
}.

(** * Reading encoded data *)

Lemma rd_at {A} (l k : list A) pos i : zdrop pos l = k -> 0 <= pos -> 0 <= i ->
  rd l (pos + i) = rd k i.
Proof. intros <- ? ?; symmetry; by apply rd_zdrop. Qed.

Lemma zdrop_cut {A} (l k1 k2 : list A) pos : zdrop pos l = k1 ++ k2 -> 0 <= pos ->
  zdrop (pos + zlen k1) l = k2.
Proof.
  intros H ?; pose proof (zlen_nonneg k1); rewrite <- zdrop_zdrop, H, zdrop_app_r by lia.
  by rewrite Z.sub_diag.
Qed.

Lemma zdrop_length {A} (l k : list A) pos : zdrop pos l = k -> 0 <= pos <= zlen l ->
  zlen l = pos + zlen k.
Proof. intros <- ?; rewrite zlen_zdrop; lia. Qed.

Lemma encode_u16_decode marker v n : 0 <= v < 2 ^ n -> 8 <= n <= 15 ->
  0 <= marker -> marker mod 2 ^ (n - 8) = 0 ->
  Z.land (Z.shiftl (marker + v / 256) 8 + v mod 256) (Z.ones n) = v.
Proof.
  intros Hv Hn Hm Hmod; rewrite Z.land_ones, Z.shiftl_mul_pow2 by lia.
  change (2 ^ 8) with 256.
  apply Z.mod_divide in Hmod as [k ->]; [|lia].
  replace ((k * 2 ^ (n - 8) + v / 256) * 256 + v mod 256) with (v + k * 2 ^ n).
  - rewrite Z.mod_add by lia; by apply Z.mod_small.
  - pose proof (Z.div_mod v 256); rewrite (Z.pow_sub_r 2 n 8) by lia.
    assert (2 ^ n / 2 ^ 8 * 256 = 2 ^ n); [|lia].
    change 256 with (2 ^ 8); rewrite <- Z.pow_sub_r, <- Z.pow_add_r by lia; f_equal; lia.
Qed.

Lemma decode_length marker v : 0 <= v < 4096 -> 0 <= marker -> marker mod 16 = 0 ->
  Z.land (Z.shiftl (marker + v / 256) 8 + v mod 256) 4095 = v.
Proof. intros; apply (encode_u16_decode marker v 12); done || lia. Qed.

Section loops.
Context {cfg : StreamfsConfig} {cfg_ok : StreamfsConfigOk cfg}.
Context (packet junk : StreamPacketT).
Context (Hlen : zlen packet = TS_PACKAGE_SIZE) (Hjunk : zlen junk = TS_PACKAGE_SIZE).

Lemma copy_section_eq old : zlen old = TS_PACKAGE_SIZE ->
  copy_section packet old = Done (section_copy packet old).
Proof.
  intros Ho; pose proof package_size_188; unfold copy_section, section_copy.
  assert (Hd : zlen (zdrop 5 packet) = 183) by (rewrite zlen_zdrop; lia).
  rewrite slice_ok, ztake_all by lia; cbn [read_as mbind outcome_bind].
  rewrite splice_ok, ztake_0, Hd by lia; cbn [app]; do 3 f_equal; lia.
Qed.

(** Reading a descriptor at [pos]. *)
Lemma read_descriptor d rest pos : zdrop pos packet = encode_descriptor d ++ rest ->
  0 <= pos ->
  rd packet pos = Done (d_tag d) /\ rd packet (pos + 1) = Done (zlen (d_body d)) /\
  (forall i, 2 <= i < 2 + zlen (d_body d) -> rd packet (pos + i) = rd (d_body d) (i - 2)).
Proof.
  intros Hd Hp; split; [|split; [|intros i Hi]].
  - rewrite <- (Z.add_0_r pos), (rd_at _ _ _ _ Hd); done || lia.
  - rewrite (rd_at _ _ _ _ Hd); done || lia.
  - rewrite (rd_at _ _ _ _ Hd) by lia; unfold encode_descriptor.
    change ((d_tag d :: zlen (d_body d) :: d_body d) ++ rest)
      with ([d_tag d; zlen (d_body d)] ++ d_body d ++ rest).
    rewrite rd_app_r, rd_app_l; change (zlen [_; _]) with 2; done || lia.
Qed.

(** The test for the system identifier. *)
Lemma read_vmx d rest pos i2 i3 : zdrop pos packet = encode_descriptor d ++ rest ->
  0 <= pos -> descriptor_ok d -> i2 = pos + 2 -> i3 = pos + 3 ->
  (if d_tag d =? 9 then
     b2 ← packet_rd packet i2;
     if b2 =? 86 then b3 ← packet_rd packet i3; Done (b3 =? 1) else Done false
   else Done false) = Done (is_vmx d).
Proof.
  intros Hd Hp Hok -> ->; destruct (read_descriptor d rest pos Hd Hp) as (_ & _ & Hb).
  unfold is_vmx, vmx_pid; case_if.
  - pose proof (d_ca_length _ Hok E).
    rewrite (Hb 2), (Hb 3) by lia.
    destruct (d_body d) as [|c0 [|c1 [|c2 [|c3 l]]]]; autorewrite with zlen in *; try lia.
    change (rd (c0 :: c1 :: c2 :: c3 :: l) (2 - 2)) with (Done c0).
    change (rd (c0 :: c1 :: c2 :: c3 :: l) (3 - 2)) with (Done c1); cbn [read_as mbind outcome_bind].
    by destruct (c0 =? 86), (c1 =? 1).
  - by destruct (d_body d) as [|? [|? [|? [|? ?]]]].
Qed.

Lemma is_vmx_shape d : is_vmx d = true -> exists hi lo tl,
  d_tag d = 9 /\ d_body d = 86 :: 1 :: hi :: lo :: tl /\
  vmx_pid d = Some (Z.land (Z.shiftl hi 8 + lo) 8191).
Proof.
  unfold is_vmx, vmx_pid.
  destruct (d_body d) as [|c1 [|c0 [|hi [|lo tl]]]] eqn:Hb; try done.
  case_if; [|done]; intros _; b2p; subst; naive_solver.
Qed.

(** The operator test of the program loop. *)
Lemma read_operator d rest pos opid : zdrop pos packet = encode_descriptor d ++ rest ->
  0 <= pos -> is_vmx d = true ->
  (let dtLen := zlen (d_body d) + 2 in
   if CA_DESC_LEN <? dtLen then
     let ext_len := dtLen - CA_DESC_LEN in
     if 2 <=? ext_len then
       if opid =? 0 then Done true
       else e1 ← packet_rd packet (pos + CA_DESC_LEN + 1); Done (opid =? e1)
     else Done false
   else Done true) = Done (operator_ok opid d).
Proof.
  intros Hd Hp Hv; destruct (read_descriptor d rest pos Hd Hp) as (_ & _ & Hb).
  apply is_vmx_shape in Hv as (hi & lo & tl & _ & Hbody & _).
  unfold operator_ok, CA_DESC_LEN; cbv zeta; rewrite <- Z.add_assoc; change (6 + 1) with 7.
  rewrite Hbody in *; destruct tl as [|x [|y tl]]; [done|done|].
  pose proof (zlen_nonneg tl); autorewrite with zlen in *.
  rewrite (proj2 (Z.ltb_lt _ _)), (proj2 (Z.leb_le _ _)), Hb by lia.
  change (rd (86 :: 1 :: hi :: lo :: x :: y :: tl) (7 - 2)) with (Done y).
  cbn [read_as mbind outcome_bind]; by destruct (opid =? 0), (opid =? y).
Qed.

Lemma read_vmx_pid d rest pos : zdrop pos packet = encode_descriptor d ++ rest ->
  0 <= pos -> is_vmx d = true ->
  exists pid, vmx_pid d = Some pid /\ 0 <= pid <= PSI_MAX_PID /\
    read_pid packet (pos + 4) = Done pid /\
    exists hi lo, rd packet (pos + 4) = Done hi /\ rd packet (pos + 5) = Done lo /\
                  pid = Z.land (Z.shiftl hi 8 + lo) 8191.
Proof.
  intros Hd Hp Hv; destruct (read_descriptor d rest pos Hd Hp) as (_ & _ & Hb).
  apply is_vmx_shape in Hv as (hi & lo & tl & _ & Hbody & Hpid).
  eexists; split; [exact Hpid|split; [apply pid_13_bits|]].
  pose proof (zlen_nonneg tl); rewrite Hbody in Hb; autorewrite with zlen in Hb.
  pose proof (Hb 4 ltac:(lia)) as H4; pose proof (Hb 5 ltac:(lia)) as H5.
  change (rd _ (4 - 2)) with (Done hi) in H4; change (rd _ (5 - 2)) with (Done lo) in H5.
  unfold read_pid; rewrite <- Z.add_assoc, H4; change (4 + 1) with 5; rewrite H5; eauto 10.
Qed.

Lemma encode_descs_cons d ds : encode_descs (d :: ds) = encode_descriptor d ++ encode_descs ds.
Proof. done. Qed.

Lemma zlen_encode_descriptor d : zlen (encode_descriptor d) = zlen (d_body d) + 2.
Proof. unfold encode_descriptor; autorewrite with zlen; lia. Qed.

(** The loop over the program descriptors. *)
Lemma descriptors_loop_spec fuel opid pos ds rest found ecm :
  Forall descriptor_ok ds -> 0 <= pos -> pos <= zlen packet ->
  zdrop pos packet = encode_descs ds ++ rest -> (length ds < fuel)%nat ->
  descriptors_loop fuel packet opid pos (zlen (encode_descs ds)) found ecm =
  Done (DescriptorsDone (found || existsb is_vmx ds) (after_program opid ds ecm packet)).
Proof.
  pose proof package_size_188.
  intros HF; revert fuel pos found; induction HF as [|d ds Hd HF IH];
    intros fuel pos found Hp Hp' Hz Hf; (destruct fuel as [|fuel]; [cbn in Hf; lia|]);
    cbn [descriptors_loop].
  { by rewrite orb_false_r. }
  rewrite encode_descs_cons in Hz |- *; rewrite <- app_assoc in Hz.
  pose proof (zlen_encode_descriptor d) as He; pose proof (zlen_nonneg (d_body d)).
  pose proof (zlen_nonneg (encode_descs ds)); pose proof (zlen_nonneg rest).
  pose proof (zdrop_length _ _ _ Hz ltac:(lia)) as Hl; autorewrite with zlen in Hl.
  destruct (read_descriptor _ _ _ Hz Hp) as (Ht & Hn & _).
  rewrite zlen_app, (proj2 (Z.ltb_lt 0 _)) by lia; cbn [negb].
  rewrite Hn; cbn [read_as mbind outcome_bind]; rewrite (proj2 (Z.ltb_ge _ _)) by lia.
  rewrite Ht; cbn [read_as mbind outcome_bind]; rewrite (read_vmx d _ pos) by done.
  cbn [read_as mbind outcome_bind existsb]; unfold after_program, program_ecm; cbn [first_some].
  assert (Hnext : zdrop (pos + (zlen (d_body d) + 2)) packet = encode_descs ds ++ rest)
    by (rewrite <- He; by apply zdrop_cut).
  assert (Hgo : descriptors_loop fuel packet opid (pos + (zlen (d_body d) + 2))
      (u32 (zlen (encode_descriptor d) + zlen (encode_descs ds) - (zlen (d_body d) + 2)))
      (found || is_vmx d) ecm =
    Done (DescriptorsDone (found || is_vmx d || existsb is_vmx ds)
            (after_program opid ds ecm packet))).
  { rewrite u32_small by lia; replace (_ + _ - _) with (zlen (encode_descs ds)) by lia.
    apply IH; [lia|lia|done|cbn in Hf; lia]. }
  rewrite <- orb_assoc in Hgo.
  destruct (is_vmx d) eqn:Ev; cbn [negb].
  - destruct (read_vmx_pid _ _ _ Hz Hp Ev) as (pid & Hpid & _ & Hrd & _).
    pose proof (read_operator _ _ _ opid Hz Hp Ev) as Hop; cbv zeta in Hop.
    rewrite Hop; cbn [read_as mbind outcome_bind]; rewrite Hpid.
    destruct (operator_ok opid d); [|exact Hgo].
    rewrite Hrd; cbn [read_as mbind outcome_bind].
    case_if; [done|]; rewrite copy_section_eq by done; done.
  - cbn [read_as mbind outcome_bind]; rewrite Hgo; unfold is_vmx in Ev.
    destruct (vmx_pid d); [done|]; by destruct (operator_ok opid d).
Qed.

(** A descriptor of the system has at least six bytes. *)
Lemma short_no_vmx ecm ds : zlen (encode_descs ds) < 6 ->
  existsb is_vmx ds = false /\ stream_ecm ecm ds = None.
Proof.
  induction ds as [|d ds IH]; [done|]; rewrite encode_descs_cons, zlen_app, zlen_encode_descriptor.
  pose proof (zlen_nonneg (encode_descs ds)); pose proof (zlen_nonneg (d_body d)); intros Hs.
  destruct (is_vmx d) eqn:Ev.
  - apply is_vmx_shape in Ev as (hi & lo & tl & _ & Hb & _).
    pose proof (zlen_nonneg tl); rewrite Hb in Hs; autorewrite with zlen in Hs; lia.
  - destruct IH as [H1 H2]; [lia|]; unfold stream_ecm; cbn; rewrite Ev.
    unfold is_vmx in Ev; by destruct (vmx_pid d).
Qed.

Lemma es_info_loop_spec fuel base p len off ds rest found ecm :
  Forall descriptor_ok ds -> 0 <= base -> 0 <= p -> 0 <= off ->
  base + p + off <= zlen packet ->
  zdrop (base + p + off) packet = encode_descs ds ++ rest ->
  len - off = zlen (encode_descs ds) -> (length ds < fuel)%nat ->
  es_info_loop fuel packet junk base p len off found ecm =
  Done (bool_decide (is_Some (stream_ecm ecm ds)), found || existsb is_vmx ds,
        after_streams ds ecm packet junk).
Proof.
  pose proof package_size_188.
  intros HF Hb0 Hp0; revert fuel off found; induction HF as [|d ds Hd HF IH];
    intros fuel off found Ho Hin Hz Hoff Hf; (destruct fuel as [|fuel]; [cbn in Hf; lia|]);
    cbn [es_info_loop].
  { cbn in Hoff; rewrite zlen_nil in Hoff; rewrite (proj2 (Z.leb_gt _ _)) by lia.
    by rewrite orb_false_r. }
  case_if; [unfold after_streams; by destruct (short_no_vmx ecm (d :: ds)) as [-> ->];
    [lia|rewrite orb_false_r] |].
  rewrite encode_descs_cons in Hz, Hoff; rewrite <- app_assoc in Hz.
  pose proof (zlen_encode_descriptor d) as He; pose proof (zlen_nonneg (d_body d)).
  pose proof (zlen_nonneg (encode_descs ds)); pose proof (zlen_nonneg rest).
  pose proof (zdrop_length _ _ _ Hz ltac:(lia)) as Hl; autorewrite with zlen in Hl, Hoff.
  destruct (read_descriptor _ _ _ Hz ltac:(lia)) as (Ht & Hn & _).
  rewrite (u32_small (p + off)), !u32_small, !Z.add_assoc by lia.
  rewrite Ht; cbn [read_as mbind outcome_bind]; rewrite (read_vmx d _ _ _ _ Hz) by done || lia.
  cbn [read_as mbind outcome_bind existsb].
  assert (Hnext : zdrop (base + p + (off + (zlen (d_body d) + 2))) packet =
      encode_descs ds ++ rest)
    by (rewrite Z.add_assoc, <- He; apply zdrop_cut; [done|lia]).
  assert (Hgo : es_info_loop fuel packet junk base p len (off + (zlen (d_body d) + 2))
      (found || is_vmx d) ecm =
    Done (bool_decide (is_Some (stream_ecm ecm ds)), found || is_vmx d || existsb is_vmx ds,
          after_streams ds ecm packet junk))
    by (apply IH; [lia|lia|done|lia|cbn in Hf; lia]).
  rewrite <- orb_assoc in Hgo; unfold after_streams, stream_ecm in *; cbn [first_some].
  destruct (is_vmx d) eqn:Ev.
  - destruct (read_vmx_pid _ _ _ Hz ltac:(lia) Ev) as (pid & Hpid & _ & _ & hi & lo & Hhi & Hlo & Hpl).
    rewrite Hhi, Hlo; cbn [read_as mbind outcome_bind]; rewrite <- Hpl, Hpid.
    case_if; cbn [read_as mbind outcome_bind]; [rewrite Hn; exact Hgo|].
    by rewrite copy_section_eq by done.
  - cbn [read_as mbind outcome_bind]; rewrite Hn; cbn [read_as mbind outcome_bind]; rewrite Hgo.
    unfold is_vmx in Ev; by destruct (vmx_pid d).
Qed.

Lemma first_some_app {A B} (f : A -> option B) l k :
  first_some f (l ++ k) = match first_some f l with Some y => Some y | None => first_some f k end.
Proof. induction l as [|x l IH]; cbn; [done|]; by destruct (f x). Qed.

Lemma encode_streams_cons e l : encode_streams (e :: l) = encode_es e ++ encode_streams l.
Proof. done. Qed.

Lemma zlen_encode_es e : zlen (encode_es e) = 5 + zlen (encode_descs (es_descs e)).
Proof. unfold encode_es, encode_u16; autorewrite with zlen; lia. Qed.

Lemma length_encode_descs ds : Z.of_nat (length ds) * 2 <= zlen (encode_descs ds).
Proof.
  induction ds as [|d ds IH]; [done|]; rewrite encode_descs_cons, zlen_app, zlen_encode_descriptor.
  pose proof (zlen_nonneg (d_body d)); cbn [length]; lia.
Qed.

Lemma stream_ecm_vmx ecm ds pid : stream_ecm ecm ds = Some pid -> existsb is_vmx ds = true.
Proof.
  unfold stream_ecm; induction ds as [|d ds IH]; [done|]; cbn; unfold is_vmx at 1.
  destruct (vmx_pid d); [done|]; intros Hs; by rewrite IH.
Qed.

(** One round of the loop over the elementary streams. *)
Lemma stream_loop_round fuel base p e rest rem found ecm :
  0 <= base -> 0 <= p -> base + p <= zlen packet -> 4 < rem ->
  zdrop (base + p) packet = encode_es e ++ rest ->
  let n := zlen (encode_descs (es_descs e)) in
  stream_loop (S fuel) packet junk base p rem found ecm =
  ('(ecmPidSet, found, ecm) ← es_info_loop es_info_fuel packet junk base (p + 5) n 0 found ecm;
   if (ecmPidSet : bool) then Done (found, ecm)
   else stream_loop fuel packet junk base (u32 (p + 5 + n)) (u32 (rem - (n + 5))) found ecm).
Proof.
  pose proof package_size_188; intros Hb Hp Hin Hrem Hz n.
  pose proof (zlen_encode_es e) as Hes; fold n in Hes.
  assert (Hn0 : 0 <= n) by apply zlen_nonneg; pose proof (zlen_nonneg rest).
  pose proof (zdrop_length _ _ _ Hz ltac:(lia)) as Hl; autorewrite with zlen in Hl.
  assert (Hhead : exists b1 b2 tl, zdrop (base + p) packet =
      es_type e :: b1 :: b2 :: (240 + n / 256) :: n mod 256 :: tl)
    by (rewrite Hz; do 3 eexists; done).
  destruct Hhead as (b1 & b2 & tl & Hhead).
  assert (Hr : forall i, 0 <= i -> rd packet (base + (p + i)) = rd (zdrop (base + p) packet) i)
    by (intros i Hi; rewrite Z.add_assoc; apply rd_at; done || lia).
  assert (Hty : rd packet (base + p) = Done (es_type e))
    by (rewrite <- (Z.add_0_r (base + p)), (rd_at _ _ _ _ Hhead) by lia; done).
  cbn [stream_loop]; rewrite (proj2 (Z.ltb_lt 4 _)), Hty by lia; cbn [negb]; step_done.
  replace (u32 (u32 (p + 1) + 2)) with (p + 3) by (rewrite (u32_small (p + 1)), u32_small by lia; lia).
  replace (u32 (p + 3 + 1)) with (p + 4) by (rewrite u32_small; lia).
  replace (u32 (p + 3 + 2)) with (p + 5) by (rewrite u32_small; lia).
  rewrite !Hr, Hhead by lia.
  change (rd (_ :: _ :: _ :: ?d :: _) 3) with (Done d).
  change (rd (_ :: _ :: _ :: _ :: ?d :: _) 4) with (Done d); step_done; step_done.
  by rewrite (decode_length 240 n) by (done || lia).
Qed.

(** The loop over the elementary streams. *)
Lemma stream_loop_spec fuel base p l rest found ecm :
  Forall (fun e => Forall descriptor_ok (es_descs e)) l ->
  0 <= base -> 0 <= p -> base + p <= zlen packet ->
  zdrop (base + p) packet = encode_streams l ++ rest -> (length l < fuel)%nat ->
  stream_loop fuel packet junk base p (zlen (encode_streams l) + 4) found ecm =
  Done (found || existsb is_vmx (all_es_descs l), after_streams (all_es_descs l) ecm packet junk).
Proof.
  pose proof package_size_188.
  intros HF Hb0; revert fuel p found; induction HF as [|e l He HF IH];
    intros fuel p found Hp Hin Hz Hf; (destruct fuel as [|fuel]; [cbn in Hf; lia|]).
  { cbn [stream_loop]; by rewrite orb_false_r. }
  rewrite encode_streams_cons in Hz |- *; rewrite <- app_assoc in Hz.
  pose proof (zlen_encode_es e) as Hes; pose proof (zlen_nonneg (encode_streams l)).
  set (ds := es_descs e) in *; pose proof (zlen_nonneg (encode_descs ds)).
  pose proof (zdrop_length _ _ _ Hz ltac:(lia)) as Hl; autorewrite with zlen in Hl.
  pose proof (zlen_nonneg rest); pose proof (length_encode_descs ds).
  assert (Hnext : zdrop (base + p + zlen (encode_es e)) packet = encode_streams l ++ rest)
    by (apply zdrop_cut; [done|lia]).
  rewrite (stream_loop_round _ _ _ e (encode_streams l ++ rest));
    [|done || (rewrite ?zlen_app; lia)..]; fold ds.
  rewrite (es_info_loop_spec _ _ _ _ _ ds (encode_streams l ++ rest)); try done || lia.
  2: { rewrite Z.add_0_r, Z.add_assoc.
       exact (zdrop_cut packet (es_type e :: encode_u16 224 (es_pid e) ++
         encode_u16 240 (zlen (encode_descs ds))) _ (base + p) Hz ltac:(lia)). }
  2: { unfold es_info_fuel; lia. }
  change (all_es_descs (e :: l)) with (ds ++ all_es_descs l).
  rewrite existsb_app; unfold after_streams, stream_ecm; rewrite first_some_app.
  fold (stream_ecm ecm ds) (stream_ecm ecm (all_es_descs l)); cbn [read_as mbind outcome_bind].
  destruct (stream_ecm ecm ds) eqn:Ese; cbn [read_as mbind outcome_bind].
  { by rewrite (stream_ecm_vmx _ _ _ Ese), orb_true_r, orb_true_r. }
  rewrite !u32_small, orb_assoc by (rewrite ?zlen_app; lia).
  replace (zlen (encode_es e ++ _) + 4 - _) with (zlen (encode_streams l) + 4)
    by (rewrite zlen_app; lia).
  apply IH; [lia..| |cbn in Hf; lia].
  by replace (base + _) with (base + p + zlen (encode_es e)) by lia.
Qed.

End loops.

(** * The whole table *)

Section parse.
Context {cfg : StreamfsConfig} {cfg_ok : StreamfsConfigOk cfg}.

(** Where the parser finds the section: after an adaptation field, if there is one. *)
Definition pmt_section_at (packet : StreamPacketT) (t : program_map) (stuffing : list Z) : Prop :=
  exists b3 offs, rd packet 3 = Done b3 /\ 0 <= offs <= 184 /\
    (if Z.land b3 48 =? 48 then rd packet 4 = Done (offs - 1) else offs = 0) /\
    zdrop (offs + 5) packet = encode_pmt t ++ stuffing.

Lemma encode_pmt_head t : exists b2 b3 b4 b5 b6 b7,
  encode_pmt t = 2 :: (176 + section_length t / 256) :: section_length t mod 256 ::
    b2 :: b3 :: (193 + 2 * pmt_version t) :: b4 :: b5 :: b6 :: b7 ::
    (240 + zlen (encode_descs (pmt_descs t)) / 256) ::
    zlen (encode_descs (pmt_descs t)) mod 256 ::
    encode_descs (pmt_descs t) ++ encode_streams (pmt_streams t) ++ pmt_crc t.
Proof. do 6 eexists; reflexivity. Qed.

Lemma version_decode v : 0 <= v < 32 -> Z.shiftr (Z.land (193 + 2 * v) 62) 1 = v.
Proof.
  intros Hv.
  assert (Hall : forallb (fun v => Z.shiftr (Z.land (193 + 2 * v) 62) 1 =? v)
    (map Z.of_nat (seq 0 32)) = true) by reflexivity.
  apply forallb_forall with (x := v) in Hall; [by apply Z.eqb_eq|].
  apply in_map_iff; exists (Z.to_nat v); split; [lia|apply in_seq; lia].
Qed.

Lemma length_encode_streams l : Z.of_nat (length l) * 5 <= zlen (encode_streams l).
Proof.
  induction l as [|e l IH]; [done|]; rewrite encode_streams_cons, zlen_app, zlen_encode_es.
  pose proof (zlen_nonneg (encode_descs (es_descs e))); cbn [length]; lia.
Qed.

Lemma parsePmt_encoded s t packet junk stuffing pid :
  zlen packet = TS_PACKAGE_SIZE -> zlen junk = TS_PACKAGE_SIZE ->
  program_map_ok t -> pmt_section_at packet t stuffing ->
  GET_PID packet = Done pid -> isPid (mPmt s) pid = true ->
  isNew (mPmt s) (pmt_version t) = true ->
  parsePmt s packet junk =
  Done (if mIsClearStream (pmt_effect s t packet junk) then NEW_PAT_PMT else IGNORE,
        pmt_effect s t packet junk).
Proof.
  pose proof package_size_188; intros Hl Hj [Hver Hds Hes Hcrc].
  intros (b3 & offs & H3 & Hoffs & Hoff & Hz) Hget Hpid Hnew.
  unfold parsePmt; rewrite Hget; step_done; rewrite Hpid, H3; cbn [negb]; step_done.
  replace (if _ =? 48 then _ else Done 0) with (Done offs);
    [|case_if; [rewrite Hoff; cbn; f_equal; lia|by subst]].
  step_done; rewrite (proj2 (Z.ltb_ge _ _)) by lia.
  set (sl := section_length t); set (dl := zlen (encode_descs (pmt_descs t))).
  destruct (encode_pmt_head t) as (c2 & c3 & c4 & c5 & c6 & c7 & Hhead); fold sl dl in Hhead.
  assert (Hsizes : 0 <= dl /\ dl <= sl /\ offs + 8 + sl <= 188 /\
    sl - 9 - dl = zlen (encode_streams (pmt_streams t)) + 4 /\
    0 <= zlen (encode_streams (pmt_streams t))).
  { pose proof (zlen_nonneg stuffing); pose proof (zlen_nonneg (encode_descs (pmt_descs t))).
    pose proof (zlen_nonneg (encode_streams (pmt_streams t))).
    pose proof (zlen_zdrop_max (offs + 5) packet ltac:(lia)) as Hzl.
    rewrite Hz, Hhead in Hzl; autorewrite with zlen in Hzl; unfold sl, dl, section_length in *; lia. }
  assert (Hr : forall i, 5 <= i -> rd packet (offs + i) = rd (encode_pmt t ++ stuffing) (i - 5)).
  { intros i Hi; replace (offs + i) with (offs + 5 + (i - 5)) by lia.
    apply rd_at; done || lia. }
  assert (Hdz : zdrop (offs + 17) packet =
    encode_descs (pmt_descs t) ++ encode_streams (pmt_streams t) ++ pmt_crc t ++ stuffing).
  { rewrite Hhead in Hz; cbn [app] in Hz; rewrite <- !app_assoc in Hz.
    replace (offs + 17) with (offs + 5 + 12) by lia.
    exact (zdrop_cut packet (2 :: _ :: _ :: _ :: _ :: _ :: _ :: _ :: _ :: _ :: _ :: [_])
      _ (offs + 5) Hz ltac:(lia)). }
  rewrite !Hr by lia; clear Hr; rewrite Hhead; cbn [app].
  change (rd (?a :: _) (5 - 5)) with (Done a).
  change (rd (_ :: ?a :: _) (6 - 5)) with (Done a).
  change (rd (_ :: _ :: ?a :: _) (7 - 5)) with (Done a).
  change (rd (_ :: _ :: _ :: _ :: _ :: ?a :: _) (10 - 5)) with (Done a).
  change (rd (_ :: _ :: _ :: _ :: _ :: _ :: _ :: _ :: _ :: _ :: ?a :: _) (15 - 5)) with (Done a).
  change (rd (_ :: _ :: _ :: _ :: _ :: _ :: _ :: _ :: _ :: _ :: _ :: ?a :: _) (16 - 5))
    with (Done a).
  repeat step_done; cbn [Z.eqb Pos.eqb negb]; repeat step_done; cbv zeta.
  rewrite (decode_length 176 sl), (decode_length 240 dl), version_decode, Hnew by (done || lia).
  replace (u32 (u32 (sl - 9) - dl)) with (zlen (encode_streams (pmt_streams t)) + 4)
    by (rewrite (u32_small (sl - 9)), u32_small; lia).
  rewrite (proj2 (Z.ltb_ge _ _)) by lia.
  change (mOpid (s <| mPmt := _ |>)) with (mOpid s); change (mEcm (s <| mPmt := _ |>)) with (mEcm s).
  pose proof (length_encode_descs (pmt_descs t)); pose proof (length_encode_streams (pmt_streams t)).
  assert (Hsz : zdrop (offs + 17 + dl + 0) packet =
    encode_streams (pmt_streams t) ++ pmt_crc t ++ stuffing)
    by (rewrite Z.add_0_r; apply zdrop_cut; [done|lia]).
  rewrite (descriptors_loop_spec packet Hl _ _ _ (pmt_descs t)
    (encode_streams (pmt_streams t) ++ pmt_crc t ++ stuffing)) by (done || lia).
  step_done; cbv iota.
  rewrite (stream_loop_spec packet junk Hl Hj _ _ _ (pmt_streams t) (pmt_crc t ++ stuffing))
    by (done || lia).
  step_done; unfold pmt_effect; rewrite existsb_app; cbn [orb].
  destruct (existsb is_vmx (pmt_descs t) || existsb is_vmx (all_es_descs (pmt_streams t)));
    [done|].
  change (mIsClearStream (_ <| mIsClearStream := negb false |>)) with true; cbv iota.
  rewrite copy_section_eq by done; by step_done.
Qed.

(** C7. A new version of any encoded PMT that fits its packet is read exactly: its version
    is recorded; the ECM identifier becomes that of the first Verimatrix descriptor of the
    program accepted for the operator, then that of the first one of the elementary streams
    that differs; the stream is clear exactly when no descriptor of the table is a
    Verimatrix one, and then the answer is NEW_PAT_PMT, the section is stored and kCdm0 is
    set. *)
Theorem parsePmt_correct s t packet junk stuffing pid
    (Hl : zlen packet = TS_PACKAGE_SIZE) (Hj : zlen junk = TS_PACKAGE_SIZE)
    (Ht : program_map_ok t) (Hat : pmt_section_at packet t stuffing)
    (Hget : GET_PID packet = Done pid) (Hpid : isPid (mPmt s) pid = true)
    (Hnew : isNew (mPmt s) (pmt_version t) = true) :
  parsePmt s packet junk =
  Done (if existsb is_vmx (pmt_descs t ++ all_es_descs (pmt_streams t))
        then IGNORE else NEW_PAT_PMT, pmt_effect s t packet junk).
Proof.
  rewrite (parsePmt_encoded s t packet junk stuffing pid) by done; do 2 f_equal.
  unfold pmt_effect; by destruct (existsb _ _).
Qed.

End parse.
