(* ===== verification/PsiPat.v ===== *)
(** The program association table: its encoding and what [parsePat] of
    src/StreamParser/PSIParser.cpp gets from an encoded table. *)

From S2P Require Import Prelude Interfaces Protection TsStream PidInfo PsiParser.
From S2P Require Import PsiStream PsiInvariant PsiPmt.

(** The programs are pairs of a program number and a packet identifier. *)
Record program_association := mkPAT {
  pat_tsid : Z;
  pat_version : Z;
  pat_programs : list (Z * Z);
  pat_crc : list Z;
}.

Definition encode_program (p : Z * Z) : list Z := encode_u16 0 p.1 ++ encode_u16 224 p.2.

Definition encode_pat (t : program_association) : list Z :=
  0 :: encode_u16 176 (9 + 4 * zlen (pat_programs t)) ++ encode_u16 0 (pat_tsid t) ++
  [193 + 2 * pat_version t; 0; 0] ++ concat (map encode_program (pat_programs t)) ++ pat_crc t.

Section pat.
Context {cfg : StreamfsConfig} {cfg_ok : StreamfsConfigOk cfg}.
Implicit Types s : PsiState.
Implicit Types packet : StreamPacketT.

(** Where [parsePat] looks for the section. *)
Definition pat_section_at packet (t : program_association) (stuffing : list Z) : Prop :=
  exists b3 b4 offs, rd packet 3 = Done b3 /\ rd packet 4 = Done b4 /\ 0 <= offs <= 184 /\
    offs = (if Z.land b3 48 =? 48 then b4 + 1 else b4) /\
    zdrop (offs + 5) packet = encode_pat t ++ stuffing.

Definition pat_effect s (t : program_association) (pmtPid : Z) packet (junk : StreamPacketT)
  : PsiState :=
  s <| mPmt := (setPid (reset (mPmt s)) pmtPid).2 |> <| mEcm := reset (mEcm s) |>
    <| mPat := setPacket (setVer (mPat s) (pat_version t)).2 (section_copy packet junk) |>.

(** What the parser reads as the identifier of the PMT: the one of the first program
    or, when that is number 0, the number of the second. *)
Definition parsed_pmt_pid (programs : list (Z * Z)) : option Z :=
  match programs with
  | (n, pid) :: rest =>
    if n mod 8192 =? 0 then
      match rest with (n2, _) :: _ => Some (n2 mod 8192) | [] => None end
    else Some pid
  | [] => None
  end.

Definition programs_ok (l : list (Z * Z)) : Prop :=
  Forall (fun p => 0 <= p.1 < 65536 /\ 0 <= p.2 < 8192) l.

Lemma decode_pid13 v : 0 <= v < 8192 ->
  Z.land (Z.shiftl (224 + v / 256) 8 + v mod 256) 8191 = v.
Proof. intros; apply (encode_u16_decode 224 v 13); done || lia. Qed.

Lemma decode_number13 v : 0 <= v < 65536 ->
  Z.land (Z.shiftl (0 + v / 256) 8 + v mod 256) 8191 = v mod 8192.
Proof.
  intros Hv; change 8191 with (Z.ones 13); rewrite Z.land_ones, Z.shiftl_mul_pow2 by lia.
  pose proof (Z.div_mod v 256 ltac:(lia)); change (2 ^ 8) with 256; change (2 ^ 13) with 8192.
  f_equal; lia.
Qed.

Lemma read_pid_at packet pos hi lo rest : zdrop pos packet = hi :: lo :: rest -> 0 <= pos ->
  read_pid packet pos = Done (Z.land (Z.shiftl hi 8 + lo) 8191).
Proof.
  intros Hz Hp; unfold read_pid; rewrite (rd_at _ _ _ _ Hz), <- (Z.add_0_r pos) by lia.
  by rewrite (rd_at _ _ _ _ Hz) by lia.
Qed.

(** The identifier the parser takes from the table. *)
Lemma read_pmt_pid packet t stuffing offs pmtPid :
  zdrop (offs + 5) packet = encode_pat t ++ stuffing -> 0 <= offs ->
  programs_ok (pat_programs t) -> parsed_pmt_pid (pat_programs t) = Some pmtPid ->
  exists pgm, read_pid packet (offs + 13) = Done pgm /\
    (if pgm =? 0 then read_pid packet (offs + 17) else read_pid packet (offs + 15)) = Done pmtPid.
Proof.
  intros Hz Ho Hp Hpid; unfold encode_pat, encode_u16 in Hz; cbn [app] in Hz.
  destruct (pat_programs t) as [|[n pid1] rest]; [done|].
  apply Forall_cons in Hp as [[Hn Hp1] Hp]; cbn [fst snd] in *.
  apply (zdrop_cut packet (_ :: _ :: _ :: _ :: _ :: _ :: _ :: [_])) in Hz; [|lia].
  cbn [map concat encode_program encode_u16 app fst snd] in Hz.
  change (zlen [_; _; _; _; _; _; _; _]) with 8 in Hz.
  replace (offs + 5 + 8) with (offs + 13) in Hz by lia.
  rewrite (read_pid_at _ _ _ _ _ Hz), decode_number13 by lia.
  eexists; split; [done|]; cbn [parsed_pmt_pid] in Hpid.
  apply (zdrop_cut packet [_; _]) in Hz; [|lia]; change (zlen [_; _]) with 2 in Hz.
  replace (offs + 13 + 2) with (offs + 15) in Hz by lia.
  case_if; [|injection Hpid as <-; by rewrite (read_pid_at _ _ _ _ _ Hz), decode_pid13 by lia].
  destruct rest as [|[n2 pid2] rest]; [done|]; injection Hpid as <-.
  apply Forall_cons in Hp as [[Hn2 _] _]; cbn [map concat encode_program encode_u16 app fst snd] in *.
  apply (zdrop_cut packet [_; _]) in Hz; [|lia]; change (zlen [_; _]) with 2 in Hz.
  replace (offs + 15 + 2) with (offs + 17) in Hz by lia.
  by rewrite (read_pid_at _ _ _ _ _ Hz), decode_number13 by lia.
Qed.

Lemma parsePat_effect s t packet junk stuffing pid pmtPid :
  zlen packet = TS_PACKAGE_SIZE -> zlen junk = TS_PACKAGE_SIZE ->
  pat_section_at packet t stuffing -> programs_ok (pat_programs t) ->
  0 <= pat_version t < 32 -> parsed_pmt_pid (pat_programs t) = Some pmtPid ->
  GET_PID packet = Done pid -> isPid (mPat s) pid = true ->
  isNew (mPat s) (pat_version t) = true ->
  parsePat s packet junk = Done (IGNORE, pat_effect s t pmtPid packet junk).
Proof.
  pose proof package_size_188; intros Hl Hj (b3 & b4 & offs & H3 & H4 & Ho & Hoffs & Hz) Hp Hv Hpid.
  intros Hget His Hnew; unfold parsePat; rewrite Hget; step_done; rewrite His, H3; cbn [negb].
  step_done; rewrite H4; step_done; rewrite <- Hoffs; cbv zeta.
  rewrite (proj2 (Z.ltb_ge _ _)) by lia.
  destruct (read_pmt_pid _ _ _ _ _ Hz ltac:(lia) Hp Hpid) as (pgm & Hpgm & Hchosen).
  assert (H5 : rd packet (offs + 5) = Done 0)
    by (rewrite <- (Z.add_0_r (offs + 5)), (rd_at _ _ _ _ Hz) by lia; done).
  assert (H10 : rd packet (offs + 10) = Done (193 + 2 * pat_version t)).
  { replace (offs + 10) with (offs + 5 + 5) by lia; rewrite (rd_at _ _ _ _ Hz) by lia; done. }
  rewrite H5; step_done; cbn [Z.eqb negb]; rewrite H10; step_done.
  rewrite version_decode, Hnew, Hpgm by lia; step_done; rewrite Hchosen; step_done.
  rewrite copy_section_eq by done; step_done; done.
Qed.

(** A new version of an encoded PAT whose first program has a number that is not 0
    gives the PMT the identifier of that program, forgets the ECM, and records the version
    and the section. *)
Theorem parsePat_first_program s t packet junk stuffing n pmtPid rest
    (Hl : zlen packet = TS_PACKAGE_SIZE) (Hj : zlen junk = TS_PACKAGE_SIZE)
    (Hat : pat_section_at packet t stuffing) (Hok : programs_ok (pat_programs t))
    (Hv : 0 <= pat_version t < 32) (Hget : GET_PID packet = Done 0)
    (Hpat : isPid (mPat s) 0 = true) (Hnew : isNew (mPat s) (pat_version t) = true)
    (Hprog : pat_programs t = (n, pmtPid) :: rest) (Hn : n mod 8192 <> 0) :
  exists s', parsePat s packet junk = Done (IGNORE, s') /\
    isPid (mPmt s') pmtPid = true /\ mPidValid (mEcm s') = false /\
    isNew (mPat s') (pat_version t) = false /\
    mTsPacket (mPat s') = section_copy packet junk.
Proof.
  assert (Hpid : parsed_pmt_pid (pat_programs t) = Some pmtPid)
    by (rewrite Hprog; cbn; by rewrite (proj2 (Z.eqb_neq _ _) Hn)).
  exists (pat_effect s t pmtPid packet junk); split; [by eapply parsePat_effect|].
  pose proof Hok as Hr; rewrite Hprog in Hr; apply Forall_cons in Hr as [[_ Hr] _]; cbn in Hr.
  split; [apply isPid_reset_setPid; unfold PSI_MAX_PID; lia|split; [done|split; [|done]]].
  apply (isNew_setVer (mPat s)); by eapply isNew_valid.
Qed.

(** When the first entry of the PAT is the network entry (program number 0), the
    identifier given to the PMT is the program NUMBER of the second entry, not its packet
    identifier. *)
Theorem parsePat_network_entry s t packet junk stuffing netPid n2 pid2 rest
    (Hl : zlen packet = TS_PACKAGE_SIZE) (Hj : zlen junk = TS_PACKAGE_SIZE)
    (Hat : pat_section_at packet t stuffing) (Hok : programs_ok (pat_programs t))
    (Hv : 0 <= pat_version t < 32) (Hget : GET_PID packet = Done 0)
    (Hpat : isPid (mPat s) 0 = true) (Hnew : isNew (mPat s) (pat_version t) = true)
    (Hprog : pat_programs t = (0, netPid) :: (n2, pid2) :: rest) :
  exists s', parsePat s packet junk = Done (IGNORE, s') /\ mPid (mPmt s') = n2 mod 8192.
Proof.
  assert (Hpid : parsed_pmt_pid (pat_programs t) = Some (n2 mod 8192)) by (by rewrite Hprog).
  exists (pat_effect s t (n2 mod 8192) packet junk); split; [by eapply parsePat_effect|done].
Qed.

(** A PAT packet without adaptation field whose pointer field is 183 or 184 passes the
    test on the offset and makes [parsePat] read outside the packet. *)
Theorem parsePat_out_of_bounds s packet junk b3 b4 (Hp : is_packet packet)
    (Hget : GET_PID packet = Done 0) (Hpat : isPid (mPat s) 0 = true)
    (H3 : rd packet 3 = Done b3) (Hf : Z.land b3 48 <> 48)
    (H4 : rd packet 4 = Done b4) (Hb : 183 <= b4 <= 184) :
  parsePat s packet junk = Stop Overread.
Proof.
  pose proof (packet_length _ Hp) as Hl; rewrite package_size_188 in Hl.
  unfold parsePat; rewrite Hget; step_done; rewrite Hpat, H3; cbn [negb]; step_done.
  rewrite H4; step_done; rewrite (proj2 (Z.eqb_neq _ _) Hf); cbv zeta.
  rewrite (proj2 (Z.ltb_ge _ _)) by lia.
  rewrite (packet_rd_over packet (b4 + 5)) by lia; done.
Qed.

End pat.
