(* ===== verification/PsiEcm.v ===== *)
(** Entitlement messages: [parseEcm] and [collectEcm] of
    src/StreamParser/PSIParser.cpp put an ECM table together that was cut over any
    number of packets. *)

From S2P Require Import Prelude Interfaces Protection TsStream PidInfo PsiParser.
From S2P Require Import PsiStream PsiInvariant PsiPmt.

(** An ECM table of the system: identifier 0x80 or 0x81, the length of what follows
    in twelve bits, a version in the sixth byte and the letters VMECM from the ninth
    byte on. *)
Record ecm_table_ok (table : list Z) : Prop := {
  ecm_bytes : is_bytes table;
  ecm_id : rd table 0 = Done 128 \/ rd table 0 = Done 129;
  ecm_length : exists l1 l0, rd table 1 = Done l1 /\ rd table 2 = Done l0 /\
    zlen table = Z.shiftl (Z.land l1 15) 8 + l0 + 3;
  ecm_magic : ztake 5 (zdrop 8 table) = VMECM;
}.

Definition ecm_version (table : list Z) : Z :=
  match rd table 5 with Done b => Z.shiftr (Z.land b 62) 1 | Stop _ => 0 end.

Lemma ecm_table_length table : ecm_table_ok table -> 13 <= zlen table <= 4098.
Proof.
  intros [Hb _ (l1 & l0 & H1 & H2 & Hl) Hm]; split.
  - assert (Hz : zlen (ztake 5 (zdrop 8 table)) = 5) by (by rewrite Hm).
    unfold zlen, ztake, zdrop in *; rewrite length_take, length_drop in Hz; lia.
  - apply rd_byte in H1, H2; try done.
    pose proof (land_ones_bound l1 4 ltac:(lia)) as Hn; change (Z.ones 4) with 15 in Hn.
    rewrite Hl, Z.shiftl_mul_pow2 by lia; lia.
Qed.

Section ecm.
Context {cfg : StreamfsConfig} {cfg_ok : StreamfsConfigOk cfg}.
Implicit Types s : PsiState.
Implicit Types packet : StreamPacketT.

(** The size of the adaptation field with its length byte. *)
Definition adaptation packet (a : Z) : Prop :=
  exists b3, rd packet 3 = Done b3 /\ 0 <= a <= 184 /\
    (if Z.land b3 48 =? 48 then rd packet 4 = Done (a - 1) else a = 0).

(** A packet on the ECM identifier whose payload from [i] on is [data]. *)
Record ecm_packet (ecm : PidInfo) packet (i : Z) (data : list Z) : Prop := {
  ep_pid : exists pid, GET_PID packet = Done pid /\ isPid ecm pid = true;
  ep_length : zlen packet = TS_PACKAGE_SIZE;
  ep_data : exists a, adaptation packet a /\ zdrop (i + a) packet = data;
}.

(** The state while the first [n] bytes of [table] are there. *)
Record collecting s (table : list Z) (n : Z) : Prop := {
  col_progress : mEcmCollectionInProgress s = true;
  col_data : mTempCollectedEcmData s = ztake n table ++ replicate (Z.to_nat (zlen table - n)) 0;
  col_expected : mCollectedEcmDataExpected s = zlen table;
  col_length : mCollectedDataLength s = n;
  col_range : 13 <= n < zlen table;
}.

(** The state after the whole table: a new version is taken, a repeated one is not. *)
Definition ecm_taken s (table : list Z) : PsiState :=
  resetCollectionState
    (if isNew (mEcm s) (ecm_version table)
     then s <| mEcm := (setVer (mEcm s) (ecm_version table)).2 |> <| mEcmTable := table |>
     else s).

(** Two states that differ in the table being collected only. *)
Definition same_tables s s' : Prop := resetCollectionState s = resetCollectionState s'.

Lemma ecm_taken_same s s' table : same_tables s s' -> ecm_taken s table = ecm_taken s' table.
Proof.
  destruct s, s'; unfold same_tables, ecm_taken, resetCollectionState; cbn.
  intros [=]; subst; by destruct (isNew _ _).
Qed.

Lemma payload_offset_done b3 packet a :
  (if Z.land b3 48 =? 48 then rd packet 4 = Done (a - 1) else a = 0) ->
  (if Z.land b3 48 =? 48 then b4 ← packet_rd packet 4; Done (b4 + 1) else Done 0) = Done a.
Proof. case_if; [intros ->; cbn; f_equal; lia | by intros ->]. Qed.

Lemma bytes_match_done packet w i data : zdrop i packet = w ++ data -> 0 <= i ->
  bytes_match packet i w = Done true.
Proof.
  revert i; induction w as [|c w IH]; intros i Hz Hi; [done|]; cbn [bytes_match].
  rewrite <- (Z.add_0_r i), (rd_at _ _ _ _ Hz) by lia.
  change (rd ((c :: w) ++ data) 0) with (Done c); step_done; rewrite Z.eqb_refl, Z.add_0_r.
  apply IH; [|lia]; by apply (zdrop_cut packet [c]).
Qed.

(** The first packet of a table, as far as it is read before copying. *)
Lemma parseEcm_head s packet data table tail n :
  ecm_packet (mEcm s) packet 5 data -> ecm_table_ok table ->
  mEcmCollectionInProgress s = false ->
  n = Z.min (zlen table) (zlen data) -> 13 <= n -> ztake n data = ztake n table ->
  tail = replicate (Z.to_nat (zlen table - n)) 0 ->
  parseEcm s packet =
  let s := s <| mTempCollectedEcmData := ztake n table ++ tail |>
             <| mEcmCollectionInProgress := true |>
             <| mCollectedEcmDataExpected := zlen table |>
             <| mCollectedDataLength := n |> in
  if n <? zlen table then Done (IGNORE, s)
  else if isNew (mEcm s) (ecm_version table) then
    Done (NEW_ECM, resetCollectionState
      (s <| mEcm := (setVer (mEcm s) (ecm_version table)).2 |>
         <| mEcmTable := ztake n table ++ tail |>))
  else Done (IGNORE, resetCollectionState s).
Proof.
  intros [(pid & Hget & Hpid) Hl (a & (b3 & H3 & Ha & Hadapt) & Hz)] Ht Hprog Hn H13 Hpre ->.
  pose proof package_size_188; pose proof (ecm_table_length _ Ht) as Htl.
  destruct Ht as [Hb Hid (l1 & l0 & H1 & H2 & Htlen) Hm].
  pose proof (zlen_zdrop_max (5 + a) packet ltac:(lia)) as Hd; rewrite Hz in Hd.
  assert (Hr : forall i, 0 <= i < 13 -> rd packet (5 + a + i) = rd table i).
  { intros i Hi; rewrite (rd_at _ _ _ _ Hz) by lia.
    rewrite <- (ztake_zdrop n data), <- (ztake_zdrop n table), Hpre.
    by rewrite !rd_app_l by (rewrite zlen_ztake; lia). }
  unfold parseEcm; rewrite Hget; step_done; rewrite Hpid, Hprog, H3; cbn [negb]; step_done.
  rewrite (payload_offset_done _ _ _ Hadapt); step_done.
  rewrite (proj2 (Z.ltb_ge 184 a)) by lia; cbv zeta.
  assert (H0 : rd packet (5 + a) = rd table 0) by (rewrite <- Hr, Z.add_0_r by lia; done).
  assert (Hmatch : bytes_match packet (5 + a + 8) VMECM = Done true).
  { apply (bytes_match_done _ _ _ (zdrop 5 (zdrop 8 data))); [|lia].
    rewrite <- Hm, <- (ztake_slice_eq n 8 5 data table), ztake_zdrop by (done || lia).
    by rewrite <- zdrop_zdrop, Hz by lia. }
  destruct (rd_in_range table 5) as [vb Hvb]; [lia|].
  assert (Hver : ecm_version table = Z.shiftr (Z.land vb 62) 1) by (unfold ecm_version; by rewrite Hvb).
  rewrite u32_small, (proj2 (Z.ltb_ge _ 13)), Hmatch, H0, !Hr, Hvb, H1, H2 by lia; step_done.
  assert (Hid' : exists id, rd table 0 = Done id /\ (id =? 128) || (id =? 129) = true)
    by (destruct Hid as [Hi|Hi]; eexists; (split; [exact Hi|done])).
  destruct Hid' as (id & -> & Hid'); step_done; rewrite Hid'; cbn [negb]; do 3 step_done; cbn [negb].
  rewrite <- Htlen; replace (Z.min _ _) with n by lia.
  rewrite slice_ok by lia; step_done; rewrite Hz, Hpre.
  pose proof (zlen_replicate (zlen table) 0 ltac:(lia)).
  rewrite splice_ok by (rewrite ?zlen_ztake; lia); step_done.
  rewrite ztake_0, zlen_ztake, Z.add_0_l, zdrop_replicate, Hver by lia; cbn [app].
  done.
Qed.

(** A first packet that holds a whole table. *)
Lemma parseEcm_whole s packet data table :
  ecm_packet (mEcm s) packet 5 data -> ecm_table_ok table ->
  mEcmCollectionInProgress s = false ->
  zlen table <= zlen data -> ztake (zlen table) data = table ->
  parseEcm s packet =
  Done (if isNew (mEcm s) (ecm_version table) then NEW_ECM else IGNORE, ecm_taken s table).
Proof.
  intros Hp Ht Hprog Hlen Hpre; pose proof (ecm_table_length _ Ht).
  rewrite (parseEcm_head s packet data table [] (zlen table)); try done.
  - cbv zeta; rewrite Z.ltb_irrefl, app_nil_r, (ztake_all (zlen table)) by lia.
    unfold ecm_taken; cbn [mEcm field_update]; by destruct (isNew _ _).
  - lia.
  - lia.
  - by rewrite Hpre, ztake_all by lia.
  - by rewrite Z.sub_diag.
Qed.

(** A first packet that holds the front of a table. *)
Lemma parseEcm_start s packet data table rest :
  ecm_packet (mEcm s) packet 5 data -> ecm_table_ok table ->
  mEcmCollectionInProgress s = false ->
  table = data ++ rest -> rest <> [] -> 13 <= zlen data ->
  exists s', parseEcm s packet = Done (IGNORE, s') /\ collecting s' table (zlen data) /\
             same_tables s' s.
Proof.
  intros Hp Ht Hprog -> Hrest H13.
  assert (0 < zlen rest) by (destruct rest; [done|]; rewrite zlen_cons; pose proof (zlen_nonneg rest); lia).
  rewrite (parseEcm_head s packet data (data ++ rest)
    (replicate (Z.to_nat (zlen (data ++ rest) - zlen data)) 0) (zlen data) Hp Ht Hprog);
    [|rewrite ?zlen_app; lia|done|by rewrite ztake_app_l|done].
  cbv zeta; rewrite (proj2 (Z.ltb_lt _ _)) by (rewrite zlen_app; lia).
  eexists; split; [done|split; [|done]].
  split; cbn; try done; rewrite zlen_app; lia.
Qed.

(** A further packet: what [collectEcm] does with it. *)
Lemma collectEcm_step s packet data table n m :
  ecm_packet (mEcm s) packet 4 data -> collecting s table n -> ecm_table_ok table ->
  m = Z.min (zlen table - n) (zlen data) -> ztake m data = ztake m (zdrop n table) ->
  parseEcm s packet =
  let s' := s <| mTempCollectedEcmData :=
                   ztake (n + m) table ++ replicate (Z.to_nat (zlen table - (n + m))) 0 |>
              <| mCollectedDataLength := n + m |> in
  if n + m =? zlen table then
    if isNew (mEcm s) (ecm_version table) then
      Done (NEW_ECMT, resetCollectionState
        (s' <| mEcm := (setVer (mEcm s) (ecm_version table)).2 |>
            <| mEcmTable := mTempCollectedEcmData s' |>))
    else Done (IGNORE, resetCollectionState s')
  else Done (IGNORE, s').
Proof.
  intros [(pid & Hget & Hpid) Hl (a & (b3 & H3 & Ha & Hadapt) & Hz)] [Hc1 Hc2 Hc3 Hc4 Hc5] Ht Hm Hpre.
  pose proof package_size_188; pose proof (ecm_table_length _ Ht) as Htl.
  pose proof (zlen_zdrop_max (4 + a) packet ltac:(lia)) as Hd; rewrite Hz in Hd.
  pose proof (zlen_nonneg data).
  destruct (rd_in_range table 5) as [vb Hvb]; [lia|].
  assert (Hver : ecm_version table = Z.shiftr (Z.land vb 62) 1) by (unfold ecm_version; by rewrite Hvb).
  assert (Htake : zlen (ztake n table) = n) by (rewrite zlen_ztake; lia).
  assert (Hvb' : rd (mTempCollectedEcmData s) 5 = Done vb).
  { rewrite Hc2, rd_app_l by lia; rewrite <- (ztake_zdrop n table), rd_app_l in Hvb by lia; done. }
  unfold parseEcm; rewrite Hget; step_done; rewrite Hpid, Hc1; cbn [negb].
  unfold collectEcm; rewrite Hget; step_done; rewrite Hpid, H3; cbn [negb]; step_done.
  rewrite (payload_offset_done _ _ _ Hadapt); step_done.
  rewrite (proj2 (Z.ltb_ge 184 a)) by lia; rewrite Hvb'; step_done; cbv zeta.
  rewrite Hc3, Hc4, (u32_small (_ - _)) by lia.
  replace (if _ <? _ then _ else _) with m by (case_if; lia).
  rewrite slice_ok by lia; step_done; rewrite Hz, Hpre.
  assert (Hsrc : zlen (ztake m (zdrop n table)) = m) by (rewrite zlen_ztake; rewrite ?zlen_zdrop; lia).
  assert (Htemp : zlen (mTempCollectedEcmData s) = zlen table)
    by (rewrite Hc2, zlen_app, Htake, zlen_replicate; lia).
  rewrite splice_ok by lia; step_done; rewrite Hsrc, (u32_small (n + m)), <- Hver by lia.
  assert (Hdata : ztake n (mTempCollectedEcmData s) ++ ztake m (zdrop n table) ++
      zdrop (n + m) (mTempCollectedEcmData s) =
    ztake (n + m) table ++ replicate (Z.to_nat (zlen table - (n + m))) 0).
  { rewrite Hc2, ztake_app_l, ztake_ztake, zdrop_app_r, zdrop_replicate, ztake_add, Htake, <- app_assoc by lia.
    do 3 f_equal; f_equal; lia. }
  rewrite Hdata.
  change (mCollectedDataLength (_ <| mCollectedDataLength := n + m |>)) with (n + m).
  change (mCollectedEcmDataExpected (_ <| mCollectedDataLength := n + m |>))
    with (mCollectedEcmDataExpected s); by rewrite Hc3.
Qed.

Lemma collectEcm_more s packet data table n rest :
  ecm_packet (mEcm s) packet 4 data -> collecting s table n -> ecm_table_ok table ->
  zdrop n table = data ++ rest -> rest <> [] ->
  exists s', parseEcm s packet = Done (IGNORE, s') /\ collecting s' table (n + zlen data) /\
             zdrop (n + zlen data) table = rest /\ same_tables s' s /\ mEcm s' = mEcm s.
Proof.
  intros Hp Hc Ht Hz Hrest; destruct Hc as [Hc1 Hc2 Hc3 Hc4 Hc5] eqn:EHc; clear EHc.
  assert (0 < zlen rest)
    by (destruct rest; [done|]; rewrite zlen_cons; pose proof (zlen_nonneg rest); lia).
  pose proof (zlen_nonneg data); pose proof (zlen_zdrop n table ltac:(lia)) as Hlen.
  rewrite Hz, zlen_app in Hlen.
  rewrite (collectEcm_step s packet data table n (zlen data) Hp Hc Ht);
    [|lia|by rewrite Hz, ztake_app_l, !ztake_all by lia].
  cbv zeta; rewrite (proj2 (Z.eqb_neq _ _)) by lia.
  eexists; split; [done|split; [|split; [by apply zdrop_cut; [|lia]|done]]].
  split; try done; cbn; lia.
Qed.

Lemma collectEcm_last s packet data table n :
  ecm_packet (mEcm s) packet 4 data -> collecting s table n -> ecm_table_ok table ->
  zlen (zdrop n table) <= zlen data -> ztake (zlen (zdrop n table)) data = zdrop n table ->
  parseEcm s packet =
  Done (if isNew (mEcm s) (ecm_version table) then NEW_ECMT else IGNORE, ecm_taken s table).
Proof.
  intros Hp Hc Ht Hlen Hpre; destruct Hc as [Hc1 Hc2 Hc3 Hc4 Hc5] eqn:EHc; clear EHc.
  rewrite zlen_zdrop in Hlen, Hpre by lia.
  rewrite (collectEcm_step s packet data table n (zlen table - n) Hp Hc Ht);
    [|lia|by rewrite Hpre, ztake_all by (rewrite zlen_zdrop; lia)].
  replace (n + (zlen table - n)) with (zlen table) by lia.
  cbv zeta; rewrite Z.eqb_refl, Z.sub_diag, app_nil_r, ztake_all by lia.
  unfold ecm_taken; by destruct (isNew _ _).
Qed.

(** * Tables over several packets *)

(** The packets after the first carry the rest of a table: all but the last are
    full of it, the last may go on with stuffing. *)
Fixpoint carries_rest (ecm : PidInfo) (packets : list StreamPacketT) (rest : list Z) : Prop :=
  match packets with
  | [] => False
  | [p] => exists data, ecm_packet ecm p 4 data /\
      zlen rest <= zlen data /\ ztake (zlen rest) data = rest
  | p :: packets => exists data rest', ecm_packet ecm p 4 data /\
      rest = data ++ rest' /\ rest' <> [] /\ carries_rest ecm packets rest'
  end.

Definition carries (ecm : PidInfo) (first : StreamPacketT) (others : list StreamPacketT)
    (table : list Z) : Prop :=
  exists data, ecm_packet ecm first 5 data /\
    match others with
    | [] => zlen table <= zlen data /\ ztake (zlen table) data = table
    | _ => exists rest, table = data ++ rest /\ rest <> [] /\ 13 <= zlen data /\
             carries_rest ecm others rest
    end.

Fixpoint parseEcms s (packets : list StreamPacketT) : outcome (list ParserActionT * PsiState) :=
  match packets with
  | [] => Done ([], s)
  | p :: packets =>
    '(a, s) ← parseEcm s p;
    '(l, s) ← parseEcms s packets;
    Done (a :: l, s)
  end.

Lemma parseEcms_cons s p packets :
  parseEcms s (p :: packets) =
  ('(a, s) ← parseEcm s p; '(l, s) ← parseEcms s packets; Done (a :: l, s)).
Proof. done. Qed.

Lemma parseEcms_rest s packets table n :
  collecting s table n -> ecm_table_ok table ->
  carries_rest (mEcm s) packets (zdrop n table) ->
  parseEcms s packets =
  Done (replicate (pred (length packets)) IGNORE ++
        [if isNew (mEcm s) (ecm_version table) then NEW_ECMT else IGNORE], ecm_taken s table).
Proof.
  revert s n; induction packets as [|p packets IH]; intros s n Hc Ht; [done|].
  destruct packets as [|p' packets]; cbn [carries_rest].
  - intros (data & Hp & Hlen & Hpre); cbn [parseEcms].
    by rewrite (collectEcm_last s p data table n Hp Hc Ht Hlen Hpre).
  - intros (data & rest & Hp & Hz & Hrest & Hcar).
    destruct (collectEcm_more s p data table n rest Hp Hc Ht Hz Hrest)
      as (s' & Hs' & Hc' & Hz' & Hsame & Hecm).
    rewrite parseEcms_cons, Hs'; step_done.
    rewrite (IH s' (n + zlen data) Hc' Ht) by (by rewrite Hz', Hecm).
    by rewrite Hecm, (ecm_taken_same _ _ _ Hsame).
Qed.

Lemma parseEcms_table s first others table :
  ecm_table_ok table -> mEcmCollectionInProgress s = false ->
  carries (mEcm s) first others table ->
  parseEcms s (first :: others) =
  Done (replicate (length others) IGNORE ++
        [if isNew (mEcm s) (ecm_version table)
         then match others with [] => NEW_ECM | _ => NEW_ECMT end else IGNORE],
        ecm_taken s table).
Proof.
  intros Ht Hprog (data & Hp & Hcar); rewrite parseEcms_cons; destruct others as [|p others].
  - by rewrite (parseEcm_whole s first data table Hp Ht Hprog) by apply Hcar.
  - destruct Hcar as (rest & Htab & Hrest & H13 & Hcar).
    destruct (parseEcm_start s first data table rest Hp Ht Hprog Htab Hrest H13)
      as (s' & -> & Hc & Hsame).
    step_done.
    assert (Hecm : mEcm s' = mEcm s) by (exact (f_equal mEcm Hsame)).
    rewrite (parseEcms_rest s' (p :: others) table (zlen data) Hc Ht).
    + by rewrite Hecm, (ecm_taken_same _ _ _ Hsame).
    + rewrite Hecm, Htab, zdrop_app_r, Z.sub_diag by lia; exact Hcar.
Qed.

(** C8. An ECM table cut over any number of packets, with or without adaptation fields
    and with stuffing after its end, is put together byte for byte: all packets but the
    last are answered IGNORE, the last with NEW_ECM (one packet) or NEW_ECMT (several)
    when the version is new, in which case the table and its version are stored, and with
    IGNORE when it is not. Collecting is over afterwards. *)
Theorem ecm_reassembly s first others table
    (Ht : ecm_table_ok table) (Hprog : mEcmCollectionInProgress s = false)
    (Hcar : carries (mEcm s) first others table) :
  exists s',
    parseEcms s (first :: others) =
      Done (replicate (length others) IGNORE ++
            [if isNew (mEcm s) (ecm_version table)
             then match others with [] => NEW_ECM | _ => NEW_ECMT end else IGNORE], s') /\
    mEcmTable s' = (if isNew (mEcm s) (ecm_version table) then table else mEcmTable s) /\
    (mPidValid (mEcm s) = true -> isNew (mEcm s') (ecm_version table) = false) /\
    mEcmCollectionInProgress s' = false /\ mTempCollectedEcmData s' = [].
Proof.
  exists (ecm_taken s table); rewrite (parseEcms_table s first others table) by done; unfold ecm_taken.
  destruct (isNew _ _) eqn:Hnew; repeat split; try done.
  by intros Hv; cbn; apply isNew_setVer.
Qed.

(** On a well-formed parser that is not in the middle of a table, an ECM packet makes
    [parseEcm] read outside the packet exactly when its adaptation field fills the packet
    up to the last byte but one: the unsigned difference that should catch this wraps
    around. In the middle of a table no packet does. *)
Theorem parseEcm_out_of_bounds s packet pid (Hs : PsiState_ok s) (Hp : is_packet packet)
    (Hget : GET_PID packet = Done pid) (Hpid : isPid (mEcm s) pid = true) :
  parseEcm s packet = Stop Overread <->
  adaptation_full packet /\ mEcmCollectionInProgress s = false.
Proof.
  split.
  - intros Hub; destruct (mEcmCollectionInProgress s) eqn:Hprog.
    + pose proof (collectEcm_wp packet Hp s Hs Hprog) as Hw; exfalso; revert Hw.
      unfold parseEcm in Hub; rewrite Hget, bind_Done, Hpid, Hprog in Hub; cbn [negb] in Hub.
      by rewrite Hub.
    + split; [|done].
      pose proof (parseEcm_wp packet Hp (fun _ => adaptation_full packet) s Hs (fun H => H)) as Hw.
      by rewrite Hub in Hw.
  - intros [(b3 & H3 & Hf & H4) Hprog].
    pose proof (packet_length _ Hp) as Hl; rewrite package_size_188 in Hl.
    unfold parseEcm; rewrite Hget; step_done; rewrite Hpid, Hprog, H3; cbn [negb]; step_done.
    rewrite Hf, H4, package_size_188; cbn [Z.eqb Pos.eqb]; step_done; step_done.
    change (183 + 1) with 184; cbv zeta; change (184 <? 184) with false.
    change (u32 (188 - (5 + 184)) <? 13) with false; cbv iota.
    rewrite (packet_rd_over packet (5 + 184 + 5)) by lia; done.
Qed.

End ecm.
