(* ===== verification/PsiChannel.v ===== *)
(** A channel from its first packets to the published protection data: the PAT, the
    PMT and the ECM together, through [parseTsPacket] and [processChunk] of
    src/StreamParser/PSIParser.cpp. *)

From S2P Require Import Prelude Interfaces Protection TsStream PidInfo PsiParser.
From S2P Require Import PsiStream PsiInvariant PsiPmt PsiPat PsiEcm.

Section channel.
Context {cfg : StreamfsConfig} {cfg_ok : StreamfsConfigOk cfg}.
Implicit Types s : PsiState.
Implicit Types packet junk : StreamPacketT.

(** A packet that starts a section: no adaptation field and a zero pointer. *)
Record section_packet packet (pid : Z) (section : list Z) : Prop := {
  sp_packet : is_packet packet;
  sp_pid : GET_PID packet = Done pid;
  sp_flags : exists b3, rd packet 3 = Done b3 /\ Z.land b3 48 <> 48;
  sp_pointer : rd packet 4 = Done 0;
  sp_section : exists stuffing, zdrop 5 packet = section ++ stuffing;
}.

(** The identifier the ECM is expected on, for a table read by a parser that knew
    none. *)
Definition announced_ecm (opid : Z) (t : program_map) : option Z :=
  let p := program_ecm opid (pmt_descs t) in
  match first_some (fun d => match vmx_pid d with
                             | Some pid => if bool_decide (p = Some pid) then None else Some pid
                             | None => None
                             end) (all_es_descs (pmt_streams t)) with
  | Some pid => Some pid
  | None => p
  end.

Lemma isPid_new_ecm ecm pid pid' packet : 0 <= pid <= PSI_MAX_PID ->
  isPid (new_ecm ecm pid packet) pid' = (pid' =? pid).
Proof.
  intros Hp; unfold isPid, new_ecm, setPid; cbn.
  by rewrite (proj2 (Z.leb_le _ _)) by lia.
Qed.

Lemma vmx_pid_range d pid : vmx_pid d = Some pid -> 0 <= pid <= PSI_MAX_PID.
Proof.
  unfold vmx_pid; repeat case_match; try done; intros [= <-]; apply pid_13_bits.
Qed.

Lemma first_some_in {A B} (f : A -> option B) l y :
  first_some f l = Some y -> exists x, In x l /\ f x = Some y.
Proof.
  induction l as [|x l IH]; [done|]; cbn; destruct (f x) eqn:E.
  - intros [= <-]; eauto.
  - intros Hl; destruct (IH Hl) as (x' & Hx & Hf); eauto.
Qed.

Lemma first_some_ext {A B} (f g : A -> option B) l :
  (forall x, f x = g x) -> first_some f l = first_some g l.
Proof. intros Hfg; induction l as [|x l IH]; cbn; [done|]; by rewrite Hfg, IH. Qed.

Lemma program_ecm_range opid ds pid : program_ecm opid ds = Some pid -> 0 <= pid <= PSI_MAX_PID.
Proof.
  intros (d & _ & Hd)%first_some_in; destruct (operator_ok opid d); [|done].
  by eapply vmx_pid_range.
Qed.

(** What the parser knows of the ECM after such a table. *)
Lemma announced_effect s t packet junk pid :
  mPidValid (mEcm s) = false -> announced_ecm (mOpid s) t = Some pid ->
  zlen packet = TS_PACKAGE_SIZE -> zlen junk = TS_PACKAGE_SIZE ->
  existsb is_vmx (pmt_descs t ++ all_es_descs (pmt_streams t)) = true /\
  0 <= pid <= PSI_MAX_PID /\
  exists ecm old, mEcm (pmt_effect s t packet junk) = new_ecm ecm pid (section_copy packet old) /\
                  zlen old = TS_PACKAGE_SIZE /\ (old = packet \/ old = junk).
Proof.
  intros Hinv Hann Hl Hj; unfold announced_ecm in Hann.
  set (ecm1 := after_program (mOpid s) (pmt_descs t) (mEcm s) packet).
  assert (Hecm1 : forall pid', isPid ecm1 pid' =
    bool_decide (program_ecm (mOpid s) (pmt_descs t) = Some pid')).
  { intros pid'; unfold ecm1, after_program.
    destruct (program_ecm (mOpid s) (pmt_descs t)) as [p1|] eqn:Hp1.
    - assert (Hno : isPid (mEcm s) p1 = false) by (unfold isPid; by rewrite Hinv).
      rewrite Hno, isPid_new_ecm by (by eapply program_ecm_range).
      destruct (Z.eqb_spec pid' p1) as [->|]; case_bool_decide; congruence.
    - unfold isPid; rewrite Hinv; done. }
  assert (Hse : stream_ecm ecm1 (all_es_descs (pmt_streams t)) =
    first_some (fun d => match vmx_pid d with
      | Some pid => if bool_decide (program_ecm (mOpid s) (pmt_descs t) = Some pid)
                    then None else Some pid
      | None => None end) (all_es_descs (pmt_streams t))).
  { apply first_some_ext; intros d; destruct (vmx_pid d); [|done]; by rewrite Hecm1. }
  rewrite <- Hse in Hann.
  assert (Heff : mEcm (pmt_effect s t packet junk) =
    after_streams (all_es_descs (pmt_streams t)) ecm1 packet junk)
    by (unfold pmt_effect; by destruct (existsb _ _)).
  rewrite Heff, existsb_app; unfold after_streams.
  destruct (stream_ecm ecm1 _) as [p2|] eqn:Hp2.
  - injection Hann as ->; split; [by rewrite (stream_ecm_vmx _ _ _ Hp2), orb_true_r|].
    apply first_some_in in Hp2 as (d & _ & Hd); destruct (vmx_pid d) eqn:Hv; [|done].
    split; [destruct (isPid _ _); [done|injection Hd as <-; by eapply vmx_pid_range]|eauto 10].
  - split; [|split; [by eapply program_ecm_range|]].
    + apply first_some_in in Hann as (d & Hin & Hd).
      rewrite (proj2 (existsb_exists is_vmx (pmt_descs t))); [done|]; exists d; split; [done|].
      unfold is_vmx; destruct (operator_ok _ _); [|done]; by rewrite Hd.
    + unfold ecm1, after_program; rewrite Hann.
      assert (Hno : isPid (mEcm s) pid = false) by (unfold isPid; by rewrite Hinv).
      rewrite Hno; eauto 10.
Qed.

(** * One packet at a time *)

Lemma section_packet_pat packet t : section_packet packet 0 (encode_pat t) ->
  exists stuffing, pat_section_at packet t stuffing.
Proof.
  intros [_ _ (b3 & H3 & Hf) H4 (stuffing & Hz)]; exists stuffing, b3, 0, 0.
  rewrite (proj2 (Z.eqb_neq _ _) Hf); repeat split; done || lia.
Qed.

Lemma section_packet_pmt packet pid t : section_packet packet pid (encode_pmt t) ->
  exists stuffing, pmt_section_at packet t stuffing.
Proof.
  intros [_ _ (b3 & H3 & Hf) H4 (stuffing & Hz)]; exists stuffing, b3, 0.
  rewrite (proj2 (Z.eqb_neq _ _) Hf); repeat split; done || lia.
Qed.

(** The copy kept of a section starts with its table identifier. *)
Lemma section_copy_head packet pid b section old :
  section_packet packet pid (b :: section) -> rd (section_copy packet old) 0 = Done b.
Proof. intros [_ _ _ _ (stuffing & Hz)]; unfold section_copy; by rewrite Hz. Qed.

Lemma feed_pat channel run s t packet junk pmtPid :
  PsiState_ok s -> mParserState s = NEEDS_PAT -> isNew (mPat s) (pat_version t) = true ->
  section_packet packet 0 (encode_pat t) -> zlen junk = TS_PACKAGE_SIZE ->
  programs_ok (pat_programs t) -> 0 <= pat_version t < 32 ->
  parsed_pmt_pid (pat_programs t) = Some pmtPid -> 0 <= pmtPid <= PSI_MAX_PID ->
  feed_packet channel (run, s) packet junk =
  Done (run, (pat_effect s t pmtPid packet junk) <| mParserState := NEEDS_PMT |>).
Proof.
  intros Hs Hst Hnew Hp Hj Hprog Hv Hpid Hr.
  destruct (section_packet_pat _ _ Hp) as (stuffing & Hat).
  assert (His : isPid (mPat s) 0 = true) by (by rewrite isPid_pat).
  unfold feed_packet, parseTsPacket; cbn [fst snd].
  rewrite (sp_pid _ _ _ Hp); step_done; rewrite His.
  rewrite (parsePat_effect s t packet junk stuffing 0 pmtPid); try done;
    [|apply packet_length, Hp|apply Hp].
  step_done; set (s' := pat_effect s t pmtPid packet junk).
  assert (H1 : mParserState s' = NEEDS_PAT) by done.
  assert (H2 : processed (mPat s') = true)
    by (unfold processed; apply mVersionValid_setVer; by eapply isNew_valid).
  assert (H3 : getPid (mPmt s') = pmtPid).
  { unfold s', getPid, pat_effect, setPid; cbn; by rewrite (proj2 (Z.leb_le _ _)) by lia. }
  rewrite H1, H2; unfold hasPmtPid; rewrite H3, (proj2 (Z.eqb_neq _ _)); [done|].
  unfold PSI_MAX_PID, PSI_INVALID_PID in *; lia.
Qed.

Lemma pmt_effect_clear s t packet junk :
  mIsClearStream (pmt_effect s t packet junk) =
  negb (existsb is_vmx (pmt_descs t ++ all_es_descs (pmt_streams t))).
Proof. unfold pmt_effect; by destruct (existsb _ _). Qed.

Lemma parse_pmt_packet s t packet junk pmtPid :
  isPid (mPat s) pmtPid = false -> isPid (mPmt s) pmtPid = true ->
  isNew (mPmt s) (pmt_version t) = true ->
  section_packet packet pmtPid (encode_pmt t) -> zlen junk = TS_PACKAGE_SIZE ->
  program_map_ok t ->
  parseTsPacket s packet junk =
  Done (if mIsClearStream (pmt_effect s t packet junk) then NEW_PAT_PMT else IGNORE,
        state_after_pmt (pmt_effect s t packet junk)).
Proof.
  intros Hpat Hpmt Hnew Hp Hj Hok; destruct (section_packet_pmt _ _ _ Hp) as (stuffing & Hat).
  unfold parseTsPacket; rewrite (sp_pid _ _ _ Hp); step_done; rewrite Hpat, Hpmt.
  rewrite (parsePmt_encoded s t packet junk stuffing pmtPid); try done;
    [|apply packet_length, Hp|apply Hp].
  step_done; assert (Hproc : processed (mPmt (pmt_effect s t packet junk)) = true).
  { pose proof (mVersionValid_setVer _ (pmt_version t) (isNew_valid _ _ Hnew)) as Hv.
    unfold processed, pmt_effect; destruct (existsb _ _); exact Hv. }
  by rewrite Hproc.
Qed.

Lemma feed_pmt channel run s t packet junk pmtPid ecmPid :
  mPidValid (mEcm s) = false -> mParserState s = NEEDS_PMT ->
  isPid (mPat s) pmtPid = false -> isPid (mPmt s) pmtPid = true ->
  isNew (mPmt s) (pmt_version t) = true ->
  section_packet packet pmtPid (encode_pmt t) -> zlen junk = TS_PACKAGE_SIZE ->
  program_map_ok t -> announced_ecm (mOpid s) t = Some ecmPid ->
  feed_packet channel (run, s) packet junk =
  Done (run, (pmt_effect s t packet junk) <| mParserState := NEEDS_ECM |>).
Proof.
  intros Hinv Hst Hpat Hpmt Hnew Hp Hj Hok Hann.
  destruct (announced_effect s t packet junk ecmPid Hinv Hann)
    as (Henc & Hr & ecm & old & Hecm & _); [apply packet_length, Hp|done|].
  unfold feed_packet; cbn [fst snd]; rewrite (parse_pmt_packet s t packet junk pmtPid) by done.
  step_done; rewrite pmt_effect_clear, Henc; cbn [negb handle_action].
  assert (Hst' : mParserState (pmt_effect s t packet junk) = NEEDS_PMT)
    by (unfold pmt_effect; by rewrite Henc).
  unfold state_after_pmt, hasEcmPid, getPid; rewrite Hst', pmt_effect_clear, Henc, Hecm.
  unfold new_ecm, setPid; cbn [setPacket reset mPidValid mPid field_update snd negb].
  rewrite (proj2 (Z.leb_le _ _)) by lia; cbn [negb].
  rewrite (proj2 (Z.eqb_neq _ _)); [done|]; unfold PSI_MAX_PID, PSI_INVALID_PID in *; lia.
Qed.

(** The parser waits for the ECM on an identifier of its own. *)
Record waits_for_ecm s (pid : Z) : Prop := {
  we_ok : PsiState_ok s;
  we_state : mParserState s = NEEDS_ECM;
  we_pat : isPid (mPat s) pid = false;
  we_pmt : isPid (mPmt s) pid = false;
  we_ecm : isPid (mEcm s) pid = true;
}.

Lemma parse_ecm_packet s s' packet junk pid action :
  waits_for_ecm s pid -> is_packet packet -> GET_PID packet = Done pid ->
  parseEcm s packet = Done (action, s') ->
  parseTsPacket s packet junk = Done (action, s') /\ waits_for_ecm s' pid /\ ecm_change s s'.
Proof.
  intros [Hs Hst Hpat Hpmt Hecm] Hp Hget Hparse.
  pose proof (parseEcm_wp packet Hp overread s Hs (fun _ => eq_refl)) as Hw.
  rewrite Hparse in Hw; destruct Hw as [Hs' Hch]; split; [|split; [|exact Hch]];
    destruct Hch as (Ha & Hb & Hc & _ & Hd & He & _); cbn [snd] in *;
    [|split; rewrite ?Ha, ?Hb; try done; [congruence|unfold isPid in *; by rewrite Hd, He]].
  unfold parseTsPacket; rewrite Hget; step_done; rewrite Hpat, Hpmt, Hecm, Hparse; step_done.
  by rewrite Hc, Hst.
Qed.

(** * The whole channel *)

Lemma published_onOpen s : published (onOpen_state s) = published s.
Proof. done. Qed.

Lemma getPatData_copy i packet pid section old : section_packet packet pid (0 :: section) ->
  mTsPacket i = section_copy packet old -> mPid i <> PSI_INVALID_PID ->
  getPatData i = Done (Some (section_copy packet old)).
Proof.
  intros Hp Ht Hpid; unfold getPatData; rewrite (proj2 (Z.eqb_neq _ _) Hpid), Ht.
  by rewrite (section_copy_head _ _ _ _ _ Hp).
Qed.

Lemma getPmtData_copy i packet pid section old : section_packet packet pid (2 :: section) ->
  mTsPacket i = section_copy packet old -> mPid i <> PSI_INVALID_PID ->
  getPmtData i = Done (Some (section_copy packet old)).
Proof.
  intros Hp Ht Hpid; unfold getPmtData; rewrite (proj2 (Z.eqb_neq _ _) Hpid), Ht.
  by rewrite (section_copy_head _ _ _ _ _ Hp).
Qed.

(** The hypotheses on the tables of a channel. *)
Record channel_tables (patPacket pmtPacket : StreamPacketT) (pat : program_association)
    (pmt : program_map) (pmtPid : Z) : Prop := {
  ct_pat : section_packet patPacket 0 (encode_pat pat);
  ct_pat_version : 0 <= pat_version pat < 32;
  ct_programs : programs_ok (pat_programs pat);
  ct_pmt_pid : parsed_pmt_pid (pat_programs pat) = Some pmtPid;
  ct_pid_range : 0 < pmtPid <= PSI_MAX_PID;
  ct_pmt : section_packet pmtPacket pmtPid (encode_pmt pmt);
  ct_pmt_ok : program_map_ok pmt;
}.

(** The state after the PAT, as far as what follows needs it. *)
Lemma feed_channel_pat channel run s junk patPacket pmtPacket pat pmt pmtPid :
  channel_tables patPacket pmtPacket pat pmt pmtPid -> zlen junk = TS_PACKAGE_SIZE ->
  exists s1, feed_packet channel (run, onOpen_state s) patPacket junk = Done (run, s1) /\
    PsiState_ok s1 /\ mParserState s1 = NEEDS_PMT /\ mPidValid (mEcm s1) = false /\
    isPid (mPat s1) pmtPid = false /\ (forall p, isPid (mPmt s1) p = (p =? pmtPid)) /\
    isNew (mPmt s1) (pmt_version pmt) = true /\ mOpid s1 = mOpid s /\
    mEcmTable s1 = [] /\ mEcmCollectionInProgress s1 = false /\ published s1 = published s /\
    mTsPacket (mPat s1) = section_copy patPacket junk /\ isNew (mPat s1) (pat_version pat) = false.
Proof.
  intros [Hpat Hv Hprog Hpid Hr Hpmt Hok] Hj; pose proof (onOpen_state_ok s) as Hs.
  assert (Hnew : isNew (mPat (onOpen_state s)) (pat_version pat) = true) by done.
  pose proof (feed_pat channel run (onOpen_state s) pat patPacket junk pmtPid Hs eq_refl Hnew
    Hpat Hj Hprog Hv Hpid ltac:(lia)) as Hfeed.
  pose proof (feed_packet_wp patPacket junk channel (run, onOpen_state s)
    (sp_packet _ _ _ Hpat) Hj Hs) as Hw; rewrite Hfeed in Hw; pose proof (run_state _ _ Hw) as Hs1.
  eexists; split; [exact Hfeed|split; [exact Hs1|]].
  assert (Hvalid : (pmtPid <=? PSI_MAX_PID) = true) by (apply Z.leb_le; lia).
  assert (Hset : (setPid (reset (mPmt (onOpen_state s))) pmtPid).2 =
    mkPidInfo pmtPid 0 true false zero_packet) by (unfold setPid; cbn; by rewrite Hvalid).
  split; [done|split; [done|split]].
  { rewrite isPid_pat by exact Hs1; apply Z.eqb_neq; lia. }
  unfold pat_effect; rewrite Hset; do 7 (split; [done|]).
  apply (isNew_setVer (mPat (onOpen_state s))); by eapply isNew_valid.
Qed.

Lemma published_snoc s e : published (s <| events := events s ++ [SetDrm e] |>) = published s ++ [e].
Proof. unfold published; cbn; by rewrite omap_app. Qed.

Lemma pmt_effect_pat s t packet junk : mPat (pmt_effect s t packet junk) = mPat s.
Proof. unfold pmt_effect; by destruct (existsb _ _). Qed.

Lemma pmt_effect_published s t packet junk :
  published (pmt_effect s t packet junk) = published s.
Proof.
  unfold pmt_effect, published; destruct (existsb _ _); cbn; [done|].
  by rewrite omap_app, app_nil_r.
Qed.

Lemma isPid_setVer i v pid : isPid (setVer i v).2 pid = isPid i pid.
Proof. unfold setVer, isPid; destruct (mPidValid i) eqn:E; cbn; by rewrite ?E. Qed.

(** The state after the PMT of an encrypted channel. *)
Lemma feed_channel_pmt channel run s1 junk patPacket pmtPacket pat pmt pmtPid ecmPid :
  channel_tables patPacket pmtPacket pat pmt pmtPid -> zlen junk = TS_PACKAGE_SIZE ->
  PsiState_ok s1 -> mParserState s1 = NEEDS_PMT -> mPidValid (mEcm s1) = false ->
  isPid (mPat s1) pmtPid = false -> (forall p, isPid (mPmt s1) p = (p =? pmtPid)) ->
  isNew (mPmt s1) (pmt_version pmt) = true -> announced_ecm (mOpid s1) pmt = Some ecmPid ->
  ecmPid <> 0 -> ecmPid <> pmtPid ->
  exists s2 old, feed_packet channel (run, s1) pmtPacket junk = Done (run, s2) /\
    waits_for_ecm s2 ecmPid /\ (forall v, isNew (mEcm s2) v = true) /\
    mIsClearStream s2 = false /\ mPat s2 = mPat s1 /\ published s2 = published s1 /\
    mEcmCollectionInProgress s2 = mEcmCollectionInProgress s1 /\
    mTsPacket (mEcm s2) = section_copy pmtPacket old /\ (old = pmtPacket \/ old = junk) /\
    (forall p, isPid (mPmt s2) p = (p =? pmtPid)) /\ (forall p, isPid (mEcm s2) p = (p =? ecmPid)) /\
    isNew (mPmt s2) (pmt_version pmt) = false.
Proof.
  intros [_ _ _ _ _ Hpmt Hok] Hj Hs Hst Hinv Hpat Hisp Hnew Hann H0 Hne.
  destruct (announced_effect s1 pmt pmtPacket junk ecmPid Hinv Hann)
    as (Henc & Hr & ecm & old & Hecm & _ & Hold); [apply packet_length, Hpmt|done|].
  pose proof (feed_pmt channel run s1 pmt pmtPacket junk pmtPid ecmPid Hinv Hst Hpat
    ltac:(rewrite Hisp; apply Z.eqb_refl) Hnew Hpmt Hj Hok Hann) as Hfeed.
  pose proof (feed_packet_wp pmtPacket junk channel (run, s1)
    (sp_packet _ _ _ Hpmt) Hj Hs) as Hw; rewrite Hfeed in Hw; pose proof (run_state _ _ Hw) as Hs2.
  eexists _, old; split; [exact Hfeed|].
  set (s2 := pmt_effect s1 pmt pmtPacket junk) in *; cbn [snd] in Hs2.
  assert (Hmpmt : forall p, isPid (mPmt s2) p = (p =? pmtPid)).
  { intros p; unfold s2, pmt_effect; rewrite Henc; cbn [mPmt field_update].
    by rewrite isPid_setVer, Hisp. }
  split; [split|]; cbn [mParserState mPat mPmt mEcm field_update]; try done.
  - rewrite (isPid_pat _ _ Hs2); by apply Z.eqb_neq.
  - rewrite Hmpmt; by apply Z.eqb_neq.
  - rewrite Hecm, isPid_new_ecm by done; apply Z.eqb_refl.
  - cbn [mEcm field_update]; split.
    { intros v; rewrite Hecm; unfold isNew, new_ecm, setPid; cbn.
      by rewrite (proj2 (Z.leb_le _ _)) by lia. }
    split; [unfold s2; cbn; rewrite pmt_effect_clear; by rewrite Henc|].
    split; [apply pmt_effect_pat|split; [apply pmt_effect_published|]].
    split; [unfold s2, pmt_effect; by rewrite Henc|split; [|split; [done|split; [exact Hmpmt|split]]]].
    + rewrite Hecm; unfold new_ecm; done.
    + intros p; rewrite Hecm; by apply isPid_new_ecm.
    + unfold s2, pmt_effect; rewrite Henc; apply (isNew_setVer (mPmt s1)); by eapply isNew_valid.
Qed.

(** Taking the table of the ECM changes none of what is published with it. *)
Lemma ecm_taken_tables s table : isNew (mEcm s) (ecm_version table) = true ->
  let s' := ecm_taken s table in
  mEcmTable s' = table /\ mPat s' = mPat s /\ mIsClearStream s' = mIsClearStream s /\
  published s' = published s /\ mTsPacket (mEcm s') = mTsPacket (mEcm s) /\
  mPid (mEcm s') = mPid (mEcm s).
Proof.
  intros Hnew s'; unfold s', ecm_taken; rewrite Hnew; repeat split; try done.
  - cbn; unfold setVer; by destruct (mPidValid (mEcm s)).
  - cbn; apply mPid_setVer.
Qed.

Lemma isPid_range i pid : PidInfo_ok i -> isPid i pid = true -> mPid i <> PSI_INVALID_PID.
Proof.
  intros Hi; unfold isPid; destruct (mPidValid i) eqn:E; [|done]; intros _.
  rewrite (pi_valid _ Hi) in E; b2p; unfold PSI_MAX_PID, PSI_INVALID_PID in *; lia.
Qed.

(** After the channel is opened, the packets of its PAT and of a PMT without any
    Verimatrix descriptor publish the protection data of a clear stream: confidence HIGH,
    the channel, no ECM, the sections of the PAT and of the PMT, clear; and the parser
    stops running. *)
Theorem clear_channel_published s (junk : nat -> StreamPacketT) channel patPacket pmtPacket
    pat pmt pmtPid
    (Hj : forall n, zlen (junk n) = TS_PACKAGE_SIZE)
    (Htables : channel_tables patPacket pmtPacket pat pmt pmtPid)
    (Hclear : existsb is_vmx (pmt_descs pmt ++ all_es_descs (pmt_streams pmt)) = false) :
  exists s',
    feed junk 0 channel (true, onOpen_state s) [patPacket; pmtPacket] = Done (false, s') /\
    published s' = published s ++
      [mkStreamProtectionConfig HIGH channel [] (section_copy patPacket (junk 0%nat))
         (section_copy pmtPacket pmtPacket) true].
Proof.
  destruct (feed_channel_pat channel true s (junk 0%nat) patPacket pmtPacket pat pmt pmtPid
    Htables (Hj _)) as (s1 & Hf1 & Hs1 & Hst1 & Hinv1 & Hpat1 & Hpmt1 & Hnew1 & Hop1 & Htab1 & Hcol1
      & Hpub1 & Hcopy1 & _).
  destruct Htables as [Hp0 _ _ _ Hr Hp2 Hok].
  assert (Hisp : isPid (mPmt s1) pmtPid = true) by (rewrite Hpmt1; apply Z.eqb_refl).
  pose proof (parse_pmt_packet s1 pmt pmtPacket (junk 1%nat) pmtPid Hpat1 Hisp Hnew1 Hp2 (Hj _) Hok)
    as Hparse; set (s2 := pmt_effect s1 pmt pmtPacket (junk 1%nat)) in *.
  assert (Hc2 : mIsClearStream s2 = true) by (unfold s2; by rewrite pmt_effect_clear, Hclear).
  assert (Hst2 : mParserState s2 = NEEDS_PMT) by (unfold s2, pmt_effect; by rewrite Hclear).
  assert (Hafter : state_after_pmt s2 = s2) by (unfold state_after_pmt; by rewrite Hst2, Hc2).
  rewrite Hc2, Hafter in Hparse.
  assert (Hpatdata : getCurrentPat s2 = Done (section_copy patPacket (junk 0%nat))).
  { unfold getCurrentPat, s2; rewrite (getPatData_copy _ patPacket 0 _ (junk 0%nat) Hp0); [done|..];
      rewrite pmt_effect_pat; [done|]; rewrite (psi_pat_pid _ Hs1); done. }
  assert (Hpmtdata : getCurrentPmt s2 = Done (section_copy pmtPacket pmtPacket)).
  { unfold getCurrentPmt; rewrite Hc2; cbv zeta; unfold s2, pmt_effect; rewrite Hclear.
    rewrite (getPmtData_copy _ pmtPacket pmtPid _ pmtPacket Hp2); [done|done|].
    cbn; rewrite mPid_setVer; eapply isPid_range; [apply Hs1|exact Hisp]. }
  assert (Htab2 : mEcmTable s2 = []) by (unfold s2, pmt_effect; by rewrite Hclear).
  assert (Hpub2 : published s2 = published s1) by apply pmt_effect_published.
  eexists; rewrite feed_cons, Hf1; step_done; rewrite feed_cons; unfold feed_packet; cbn [fst snd].
  rewrite Hparse; step_done; unfold handle_action; rewrite Hpatdata; step_done; rewrite Hpmtdata.
  step_done; unfold getCurrentEcm; rewrite Htab2, Hc2; step_done; cbn [feed].
  split; [done|]; by rewrite published_snoc, Hpub2, Hpub1.
Qed.

End channel.
