(* ===== verification/PsiPadding.v ===== *)
(** A channel as it comes on the wire: the packets of the PAT, the PMT and the ECM are found
    among those of the other streams and among repetitions of the tables, in
    [parseTsPacket] and [processChunk] of src/StreamParser/PSIParser.cpp. *)

From S2P Require Import Prelude Interfaces Protection TsStream PidInfo PsiParser.
From S2P Require Import PsiStream PsiInvariant PsiPmt PsiPat PsiEcm PsiChannel.

Section padding.
Context {cfg : StreamfsConfig} {cfg_ok : StreamfsConfigOk cfg}.
Implicit Types s : PsiState.
Implicit Types p : StreamPacketT.

(** * Packets without effect *)

Definition quiet (a : ParserActionT) : bool :=
  match a with NEW_ECM | NEW_ECMT | NEW_PAT_PMT => false | _ => true end.

Definition neutral s p : Prop := exists a, quiet a = true /\ forall junk, parseTsPacket s p junk = Done (a, s).

Lemma feed_neutral junk k channel run s packets : Forall (neutral s) packets ->
  feed junk k channel (run, s) packets = Done (run, s).
Proof.
  intros HF; revert k; induction HF as [|p packets (a & Ha & Hp) HF IH]; intros k; [done|].
  rewrite feed_cons; unfold feed_packet; cbn [fst snd]; rewrite Hp; step_done; destruct a; try done; cbn [handle_action]; step_done; apply IH.
Qed.

Lemma feed_app junk k channel rs ps qs :
  feed junk k channel rs (ps ++ qs) =
  (rs ← feed junk k channel rs ps; feed junk (k + length ps) channel rs qs).
Proof.
  revert k rs; induction ps as [|p ps IH]; intros k rs; cbn [app length].
  - by rewrite Nat.add_0_r.
  - rewrite !feed_cons; destruct (feed_packet channel rs p (junk k)) as [rs'|]; [|done]; step_done.
    by rewrite IH, Nat.add_succ_r.
Qed.

(** A packet of a stream the parser does not look at. *)
Lemma unknown_neutral s p pid : is_packet p -> GET_PID p = Done pid ->
  isPid (mPat s) pid = false -> isPid (mPmt s) pid = false -> isPid (mEcm s) pid = false -> neutral s p.
Proof.
  intros [Hl _] Hget H1 H2 H3; pose proof package_size_188.
  destruct (rd_in_range p 3) as [b Hb]; [lia|].
  exists (if negb (Z.land b 192 =? 0) then if Z.land b 192 =? 128 then DECRYPT_EVEN else DECRYPT_ODD else IGNORE).
  split; [by repeat case_if|]; intros junk; unfold parseTsPacket, ParseOther, TSC_ISSET, IS_TSC_EVEN.
  rewrite Hget; step_done; rewrite H1, H2, H3, Hb; repeat step_done.
  destruct (Z.land b 192 =? 0); cbn [negb]; repeat step_done; done.
Qed.

Lemma section_byte p pid section i b : section_packet p pid section -> 0 <= i ->
  rd section i = Done b -> rd p (5 + i) = Done b.
Proof.
  intros [_ _ _ _ (stuffing & Hz)] Hi Hb; rewrite (rd_at _ _ _ _ Hz) by lia.
  by rewrite rd_app_l by (by eapply rd_range_inv).
Qed.

(** A PAT of the version that is known. *)
Lemma repeated_pat s t p : isPid (mPat s) 0 = true -> mParserState s <> NEEDS_PAT ->
  section_packet p 0 (encode_pat t) -> 0 <= pat_version t < 32 -> isNew (mPat s) (pat_version t) = false ->
  neutral s p.
Proof.
  intros Hpat Hst Hp Hv Hnew; exists IGNORE; split; [done|]; intros junk.
  assert (H5 : rd p 5 = Done 0) by (by apply (section_byte _ _ _ 0 _ Hp)).
  assert (H10 : rd p 10 = Done (193 + 2 * pat_version t)) by (by apply (section_byte _ _ _ 5 _ Hp)).
  destruct Hp as [_ Hget (b3 & H3 & Hf) H4 _].
  unfold parseTsPacket, parsePat; rewrite Hget; repeat step_done; rewrite Hpat.
  cbn [negb]; rewrite H3; step_done; rewrite H4; step_done; rewrite (proj2 (Z.eqb_neq _ _) Hf); cbv zeta.
  change (184 <? 0) with false; cbv iota; change (0 + 5) with 5; change (0 + 10) with 10; rewrite H5; step_done; cbn [Z.eqb negb]; rewrite H10; step_done.
  rewrite version_decode, Hnew by lia; step_done; by rewrite (bool_decide_eq_false_2 _ Hst).
Qed.

(** A PMT of the version that is known. *)
Lemma repeated_pmt s t p pmtPid : isPid (mPat s) pmtPid = false -> isPid (mPmt s) pmtPid = true ->
  state_after_pmt s = s -> section_packet p pmtPid (encode_pmt t) -> 0 <= pmt_version t < 32 ->
  isNew (mPmt s) (pmt_version t) = false -> neutral s p.
Proof.
  intros Hpat Hpmt Hst Hp Hv Hnew; exists ERROR; split; [done|]; intros junk.
  assert (H10 : rd p 10 = Done (193 + 2 * pmt_version t)) by (by apply (section_byte _ _ _ 5 _ Hp)).
  destruct Hp as [[Hl _] Hget (b3 & H3 & Hf) H4 _]; pose proof package_size_188.
  destruct (rd_in_range p 5) as [b5 H5], (rd_in_range p 6) as [b6 H6], (rd_in_range p 7) as [b7 H7],
    (rd_in_range p 15) as [b15 H15], (rd_in_range p 16) as [b16 H16]; try lia.
  unfold parseTsPacket, parsePmt; rewrite Hget; repeat step_done; rewrite Hpat, Hpmt.
  cbn [negb]; rewrite H3; step_done; rewrite (proj2 (Z.eqb_neq _ _) Hf); step_done.
  change (184 <? 0) with false; cbv iota; change (0 + 5) with 5; change (0 + 10) with 10; rewrite H5; step_done.
  change (0 + 6) with 6; change (0 + 7) with 7; change (0 + 15) with 15; change (0 + 16) with 16.
  rewrite H6, H7, H15, H16, H10; repeat step_done; rewrite version_decode, Hnew by lia.
  destruct (negb (b5 =? 2)); [|destruct (_ <? _)]; step_done; rewrite Hst; by destruct (negb _).
Qed.
(** * The packets of the ECM *)

Definition on_pid (pid : Z) p : bool :=
  match GET_PID p with Done pid' => pid' =? pid | Stop _ => false end.

Lemma on_pid_true pid p : on_pid pid p = true <-> GET_PID p = Done pid.
Proof.
  unfold on_pid; destruct (GET_PID p) as [pid'|]; split; try done.
  - by intros ->%Z.eqb_eq.
  - intros [= ->]; apply Z.eqb_refl.
Qed.

Section tables.
Context (pat : program_association) (pmt : program_map) (pmtPid ecmPid : Z).

(** What may come before the PAT is found, between it and the PMT, and after both. *)
Definition before_pat p : Prop := is_packet p /\ GET_PID p <> Done 0.

Definition before_pmt p : Prop := is_packet p /\
  (GET_PID p <> Done 0 /\ GET_PID p <> Done pmtPid \/ section_packet p 0 (encode_pat pat)).

Definition after_pmt p : Prop := is_packet p /\
  (GET_PID p <> Done 0 /\ GET_PID p <> Done pmtPid /\ GET_PID p <> Done ecmPid \/
   section_packet p 0 (encode_pat pat) \/ section_packet p pmtPid (encode_pmt pmt)).

(** The parser knows both tables and waits for the ECM. *)
Record knows_tables s : Prop := {
  kt_waits : waits_for_ecm s ecmPid;
  kt_pat : isNew (mPat s) (pat_version pat) = false;
  kt_pmt : isNew (mPmt s) (pmt_version pmt) = false;
  kt_pmt_pid : forall pid, isPid (mPmt s) pid = (pid =? pmtPid);
  kt_ecm_pid : forall pid, isPid (mEcm s) pid = (pid =? ecmPid);
  kt_clear : mIsClearStream s = false;
}.

Context (Hpatv : 0 <= pat_version pat < 32) (Hpmtv : 0 <= pmt_version pmt < 32) (Hpmt0 : pmtPid <> 0).

Lemma packet_pid p : is_packet p -> exists pid, GET_PID p = Done pid.
Proof.
  intros [Hl _]; pose proof package_size_188; unfold GET_PID.
  destruct (rd_in_range p 1) as [b1 ->], (rd_in_range p 2) as [b2 H2]; try lia; step_done; rewrite H2; step_done; eauto.
Qed.

Lemma after_pmt_neutral s p : knows_tables s -> after_pmt p -> neutral s p.
Proof.
  intros [[Hs Hst _ _ _] Hpat Hpmt Hpp Hep Hc] [Hp [(H0 & Hn & He)|[Hr|Hr]]].
  - destruct (packet_pid p Hp) as [pid Hget]; rewrite Hget in *.
    apply (unknown_neutral s p pid Hp Hget); rewrite ?isPid_pat, ?Hpp, ?Hep by done; apply Z.eqb_neq; congruence.
  - apply (repeated_pat s pat p); try done; [by rewrite isPid_pat|by rewrite Hst].
  - apply (repeated_pmt s pmt p pmtPid); try done; rewrite ?isPid_pat, ?Hpp by done;
      [by apply Z.eqb_neq|by apply Z.eqb_refl|].
    unfold state_after_pmt; by rewrite Hst, Hc.
Qed.

Lemma knows_tables_events s e : knows_tables s -> knows_tables (s <| events := e |>).
Proof. intros [[Hs ? ? ? ?] ? ? ? ? ?]; split; [|done..]; split; [by apply ok_set_events|done..]. Qed.

Lemma handled_knows run channel s a r : knows_tables s -> handle_action run channel s a = Done r -> knows_tables r.2.
Proof.
  intros Hs; destruct a; cbn [handle_action]; try (by intros [= <-]);
    intros (x & _ & (y & _ & Hr)%bind_done_inv)%bind_done_inv; revert Hr;
    destruct run; intros [= <-]; try done; by apply knows_tables_events.
Qed.

Definition after_tables p : Prop := is_packet p /\ GET_PID p = Done ecmPid \/ after_pmt p.

Lemma after_pmt_off p : after_pmt p -> ecmPid <> 0 -> ecmPid <> pmtPid -> on_pid ecmPid p = false.
Proof.
  intros [Hp Hr] H0 Hne; destruct (on_pid ecmPid p) eqn:E; [|done]; apply on_pid_true in E.
  destruct Hr as [(_ & _ & He)|[Hr|Hr]]; [done|pose proof (sp_pid _ _ _ Hr); congruence..].
Qed.

(** The packets of the ECM give what they give on their own. *)
Lemma feed_ecms junk k channel run s s' packets action (H0 : ecmPid <> 0) (Hne : ecmPid <> pmtPid) :
  knows_tables s -> Forall after_tables packets -> filter (fun p => on_pid ecmPid p) packets <> [] ->
  parseEcms s (filter (fun p => on_pid ecmPid p) packets) =
    Done (replicate (pred (length (filter (fun p => on_pid ecmPid p) packets))) IGNORE ++ [action], s') ->
  feed junk k channel (run, s) packets = handle_action run channel s' action.
Proof.
  intros Hs HF; revert k s Hs; induction HF as [|p packets [[Hp Hget]|Hp] HF IH]; intros k s Hs Hn Hecms; [done|..].
  - rewrite filter_cons_True in Hecms by (by rewrite (proj2 (on_pid_true ecmPid p) Hget)).
    rewrite parseEcms_cons in Hecms; destruct (parseEcm s p) as [[a s1]|] eqn:Ep; [revert Hecms; step_done|discriminate Hecms].
    destruct (parseEcms s1 _) as [[l s2]|] eqn:El; [step_done|done]; intros Hecms.
    destruct (parse_ecm_packet s s1 p (junk k) ecmPid a (kt_waits _ Hs) Hp Hget Ep) as (Hparse & Hw1 & Hch).
    assert (Hs1 : knows_tables s1).
    { destruct Hs as [_ ? ? Hpp Hep ?], Hch as (Ha & Hb & Hc & _ & Hd & He & Hf).
      split; rewrite ?Ha, ?Hb, ?Hf; try done; intros pid; rewrite <- Hep; unfold isPid; by rewrite Hd, He. }
    rewrite feed_cons; unfold feed_packet; cbn [fst snd]; rewrite Hparse; step_done.
    destruct (filter _ packets) as [|p' ecms] eqn:Ef.
    + cbn in El; injection El as <- <-; injection Hecms as -> ->.
      destruct (handle_action run channel s' action) as [r|] eqn:Eh; [step_done|done].
      pose proof (handled_knows _ _ _ _ _ Hs1 Eh) as Hr; destruct r as [run' s3]; apply feed_neutral.
      apply Forall_forall; intros x Hx; rewrite Forall_forall in HF; destruct (HF x Hx) as [[Hx1 Hx2]|Hx1];
        [|by apply after_pmt_neutral].
      assert (Hin : x ∈ filter (fun p => on_pid ecmPid p) packets)
        by (apply list_elem_of_filter; split; [by rewrite (proj2 (on_pid_true ecmPid x) Hx2)|done]).
      rewrite Ef in Hin; by apply elem_of_nil in Hin.
    + cbn [length pred replicate app] in Hecms; injection Hecms as -> -> ->; cbn [handle_action]; step_done.
      apply IH; [done|done|exact El].
  - pose proof (after_pmt_off p Hp H0 Hne) as Hoff.
    rewrite filter_cons_False in Hn by (rewrite Hoff; intros []).
    rewrite filter_cons_False in Hecms by (rewrite Hoff; intros []).
    destruct (after_pmt_neutral s p Hs Hp) as (a & Ha & Hparse).
    rewrite feed_cons; unfold feed_packet; cbn [fst snd]; rewrite Hparse; step_done.
    destruct a; try done; cbn [handle_action]; step_done; by apply IH.
Qed.

End tables.

(** * The whole channel *)

(** The packets of an encrypted channel: the tables [patPacket] and [pmtPacket], then the
    packets of the ECM [table], among others. *)
Inductive encrypted_channel (opid : Z) (patPacket pmtPacket : StreamPacketT) (table : list Z)
  : list StreamPacketT -> Prop :=
| EncryptedChannel pre0 pre1 rest first others pat pmt pmtPid ecmPid :
  channel_tables patPacket pmtPacket pat pmt pmtPid ->
  announced_ecm opid pmt = Some ecmPid -> ecmPid <> 0 -> ecmPid <> pmtPid -> ecm_table_ok table ->
  Forall before_pat pre0 -> Forall (before_pmt pat pmtPid) pre1 ->
  Forall (after_tables pat pmt pmtPid ecmPid) rest ->
  filter (fun p => on_pid ecmPid p) rest = first :: others ->
  (forall ecm, isPid ecm ecmPid = true -> carries ecm first others table) ->
  encrypted_channel opid patPacket pmtPacket table (pre0 ++ patPacket :: pre1 ++ pmtPacket :: rest).

Lemma before_pat_neutral s p : before_pat p -> neutral (onOpen_state s) p.
Proof.
  intros [Hp H0]; destruct (packet_pid p Hp) as [pid Hget]; rewrite Hget in H0.
  apply (unknown_neutral _ p pid Hp Hget); [|done..].
  rewrite isPid_pat by apply onOpen_state_ok; apply Z.eqb_neq; congruence.
Qed.

Lemma before_pmt_neutral pat pmtPid s p : before_pmt pat pmtPid p -> PsiState_ok s ->
  mParserState s = NEEDS_PMT -> mPidValid (mEcm s) = false -> (forall pid, isPid (mPmt s) pid = (pid =? pmtPid)) ->
  0 <= pat_version pat < 32 -> isNew (mPat s) (pat_version pat) = false -> neutral s p.
Proof.
  intros [Hp Hr] Hs Hst He Hpp Hv Hnew; destruct Hr as [[H0 Hn]|Hr].
  - destruct (packet_pid p Hp) as [pid Hget]; rewrite Hget in *; apply (unknown_neutral _ p pid Hp Hget).
    + rewrite isPid_pat by done; apply Z.eqb_neq; congruence.
    + rewrite Hpp; apply Z.eqb_neq; congruence.
    + unfold isPid; by rewrite He.
  - apply (repeated_pat s pat p); try done; [by rewrite isPid_pat|by rewrite Hst].
Qed.

(** The last packet of the ECM publishes what has been read. *)
Lemma feed_publishes (junk : nat -> StreamPacketT) k channel s packets first others table pat pmt pmtPid ecmPid
    patPacket pmtPacket oldPat oldPmt :
  knows_tables pat pmt pmtPid ecmPid s -> channel_tables patPacket pmtPacket pat pmt pmtPid ->
  ecmPid <> 0 -> ecmPid <> pmtPid -> Forall (after_tables pat pmt pmtPid ecmPid) packets ->
  filter (fun p => on_pid ecmPid p) packets = first :: others ->
  ecm_table_ok table -> carries (mEcm s) first others table -> mEcmCollectionInProgress s = false ->
  (forall v, isNew (mEcm s) v = true) ->
  mTsPacket (mPat s) = section_copy patPacket oldPat -> mTsPacket (mEcm s) = section_copy pmtPacket oldPmt ->
  exists s', feed junk k channel (true, s) packets = Done (false, s') /\
    published s' = published s ++
      [mkStreamProtectionConfig HIGH channel table (section_copy patPacket oldPat) (section_copy pmtPacket oldPmt) false].
Proof.
  intros Hkn Htables H0 Hne HF Hf Ht Hcar Hcol Hnew Hcopy1 Hcopy2.
  pose proof (parseEcms_table s first others table Ht Hcol Hcar) as Hparse; rewrite Hnew, <- Hf in Hparse.
  destruct (ecm_taken_tables s table (Hnew _)) as (Ha & Hb & Hc & Hd & He & Hg).
  set (s3 := ecm_taken s table) in *; pose proof (kt_clear _ _ _ _ _ Hkn) as Hclear; rewrite Hclear in Hc.
  destruct Htables as [Hp0 Hv _ _ Hr Hp2 Hok], (kt_waits _ _ _ _ _ Hkn) as [Hs _ _ _ Hecm].
  erewrite (feed_ecms pat pmt pmtPid ecmPid Hv (t_version _ Hok) ltac:(lia) _ _ _ _ s s3 _ _ H0 Hne Hkn HF);
    [|by rewrite Hf|by rewrite Hparse, Hf].
  assert (Hpatdata : getCurrentPat s3 = Done (section_copy patPacket oldPat)).
  { unfold getCurrentPat; rewrite (getPatData_copy _ patPacket 0 _ oldPat Hp0); [done|by rewrite Hb|].
    by rewrite Hb, (psi_pat_pid _ Hs). }
  assert (Hpmtdata : getCurrentPmt s3 = Done (section_copy pmtPacket oldPmt)).
  { unfold getCurrentPmt; rewrite Hc; cbv zeta.
    rewrite (getPmtData_copy _ pmtPacket pmtPid _ oldPmt Hp2); [done|by rewrite He|].
    rewrite Hg; by eapply isPid_range; [apply Hs|]. }
  exists (s3 <| events := events s3 ++ [SetDrm (mkStreamProtectionConfig HIGH channel table
    (section_copy patPacket oldPat) (section_copy pmtPacket oldPmt) false)] |>).
  split; [|by rewrite published_snoc, Hd].
  destruct others; unfold handle_action; rewrite Hpatdata; step_done; rewrite Hpmtdata; step_done;
    unfold getCurrentEcm; by rewrite Ha, Hc.
Qed.

Lemma encrypted_channel_fed s (junk : nat -> StreamPacketT) channel stream patPacket pmtPacket table :
  encrypted_channel (mOpid s) patPacket pmtPacket table stream ->
  (forall n, zlen (junk n) = TS_PACKAGE_SIZE) ->
  exists s' i old,
    feed junk 0 channel (true, onOpen_state s) stream = Done (false, s') /\
    published s' = published s ++
      [mkStreamProtectionConfig HIGH channel table (section_copy patPacket (junk i))
         (section_copy pmtPacket old) false] /\
    (old = pmtPacket \/ exists j, old = junk j).
Proof.
  intros [pre0 pre1 rest first others pat pmt pmtPid ecmPid Htables Hann H0 Hne Ht H1 H2 H3 Hf Hcar] Hj.
  set (i := length pre0); set (j := (S i + length pre1)%nat).
  destruct (feed_channel_pat channel true s (junk i) patPacket pmtPacket pat pmt pmtPid
    Htables (Hj _)) as (s1 & Hf1 & Hs1 & Hst1 & Hinv1 & Hpat1 & Hpmt1 & Hnew1 & Hop1 & _ & Hcol1
      & Hpub1 & Hcopy1 & Hold1).
  rewrite <- Hop1 in Hann.
  destruct (feed_channel_pmt channel true s1 (junk j) patPacket pmtPacket pat pmt pmtPid ecmPid)
    as (s2 & old & Hf2 & Hw2 & Hnew2 & Hclear2 & Hmpat2 & Hpub2 & Hcol2 & Hcopy2 & Hold & Hpp2 & Hep2 & Hold2); auto.
  rewrite Hcol1 in Hcol2; rewrite <- Hmpat2 in Hcopy1; pose proof (ct_pat_version _ _ _ _ _ Htables) as Hv.
  assert (Hkn : knows_tables pat pmt pmtPid ecmPid s2) by (by split; rewrite ?Hmpat2).
  destruct (feed_publishes junk (S j) channel s2 rest first others table pat pmt pmtPid ecmPid patPacket
    pmtPacket (junk i) old) as (s3 & Hf3 & Hpub3); try done; [by apply Hcar, Hw2|].
  exists s3, i, old; split; [|split; [by rewrite Hpub3, Hpub2, Hpub1|destruct Hold; eauto]].
  rewrite feed_app, feed_neutral by (eapply Forall_impl; [exact H1|]; intros; by apply before_pat_neutral).
  step_done; change (0 + length pre0)%nat with i; rewrite feed_cons, Hf1; step_done.
  rewrite feed_app, feed_neutral by (eapply Forall_impl; [exact H2|]; intros; by eapply before_pmt_neutral).
  step_done; rewrite feed_cons; fold j; rewrite Hf2; by step_done.
Qed.

(** C4. After the channel is opened, a running parser that reads the packets of an encrypted
    channel, with the tables and any number of packets of the ECM among packets of other
    streams and repetitions of the tables, publishes the protection data once: confidence HIGH,
    the channel, exactly the bytes of the ECM table, the sections of the PAT and of the PMT, not
    clear; and it stops running. The last five bytes of the published sections are those an
    uninitialised array happened to hold. *)
Theorem encrypted_channel_published s (junk : nat -> StreamPacketT) channel stream patPacket pmtPacket table :
  encrypted_channel (mOpid s) patPacket pmtPacket table stream ->
  (forall n, zlen (junk n) = TS_PACKAGE_SIZE) ->
  exists s' i old,
    feed junk 0 channel (true, onOpen_state s) stream = Done (false, s') /\
    published s' = published s ++
      [mkStreamProtectionConfig HIGH channel table (section_copy patPacket (junk i))
         (section_copy pmtPacket old) false] /\
    (old = pmtPacket \/ exists j, old = junk j).
Proof. apply encrypted_channel_fed. Qed.

End padding.
