(* ===== verification/PsiThread.v ===== *)
(** The PSI parser between two threads: the stream processor posts chunks into the queue and
    the thread of the parser takes them out ([post] and [threadLoop] of
    src/StreamParser/PSIParser.cpp). Whatever the order of the two, what is published is what
    reading the packets one after the other publishes. *)

From S2P Require Import Prelude Interfaces Protection TsStream PidInfo PsiParser.
From S2P Require Import PsiStream PsiInvariant PsiReach PsiPmt PsiChannel PsiPadding.

Section thread.
Context {cfg : StreamfsConfig} {cfg_ok : StreamfsConfigOk cfg} {cb q : Type -> Type}.
Context {CB : CircularBuffer cb} {CBL : CircularBufferLaws cb} {Q : LockfreeQueue q} {QL : LockfreeQueueLaws q}.
Implicit Types s : PSIParser cb q.
Implicit Types st : PsiState.
Implicit Types junk : nat -> StreamPacketT.

(** * Packets and their junk *)

Definition junk_ok junk : Prop := forall n, is_packet (junk n).

(** [a] for the first [m] packets, [b] for those behind them. *)
Definition junk_app (m : nat) (a b : nat -> StreamPacketT) : nat -> StreamPacketT :=
  fun n => if (n <? m)%nat then a n else b (n - m)%nat.

Lemma junk_app_ok m a b : junk_ok a -> junk_ok b -> junk_ok (junk_app m a b).
Proof. intros Ha Hb n; unfold junk_app; by destruct (_ <? _)%nat. Qed.

Lemma feed_ext a b k k' channel rs ps : (forall n, (n < length ps)%nat -> a (k + n)%nat = b (k' + n)%nat) ->
  feed a k channel rs ps = feed b k' channel rs ps.
Proof.
  revert k k' rs; induction ps as [|p ps IH]; intros k k' rs Hn; [done|].
  rewrite !feed_cons; specialize (Hn 0%nat ltac:(cbn; lia)) as H0; rewrite !Nat.add_0_r in H0; rewrite H0.
  destruct (feed_packet _ _ _ _) as [rs'|]; [step_done|done]; apply IH; intros n Hl.
  specialize (Hn (S n) ltac:(cbn; lia)); by rewrite !Nat.add_succ_r in Hn.
Qed.

Lemma feed_junk_app a b channel rs ps qs :
  feed (junk_app (length ps) a b) 0 channel rs (ps ++ qs) =
  (rs ← feed a 0 channel rs ps; feed b 0 channel rs qs).
Proof.
  rewrite feed_app, (feed_ext _ a 0 0).
  - destruct (feed a 0 channel rs ps); [step_done|done]; apply feed_ext; intros n _.
    unfold junk_app; rewrite (proj2 (Nat.ltb_ge _ _)) by lia; f_equal; lia.
  - intros n Hn; unfold junk_app; by rewrite (proj2 (Nat.ltb_lt _ _)) by lia.
Qed.

(** * Chunks of a stream of packets *)

Definition synced (p : StreamPacketT) : Prop := is_packet p /\ head p = Some 71.

Lemma cut_aligned n bytes ps tail more :
  Forall synced ps -> zlen tail < TS_PACKAGE_SIZE -> bytes ++ more = concat ps ++ tail -> (length bytes < n)%nat ->
  exists j rest, cut n bytes = (take j ps, rest) /\ (j <= length ps)%nat /\
    bytes = concat (take j ps) ++ rest /\ zlen rest < TS_PACKAGE_SIZE.
Proof.
  intros HF Ht; revert bytes n; induction HF as [|p ps [[Hl Hb] Hh] HF IH]; intros bytes n He Hn.
  - exists 0%nat, bytes; cbn in *; destruct n as [|n]; [lia|]; cbn [cut]; unfold next_packet.
    assert (zlen bytes <= zlen tail) by (rewrite <- He, zlen_app; pose proof (zlen_nonneg more); lia).
    rewrite (proj2 (Z.ltb_lt _ _)) by lia; repeat split; lia || done.
  - destruct n as [|n]; [lia|]; cbn [cut]; unfold next_packet; case_if; b2p.
    + exists 0%nat, bytes; cbn; repeat split; lia || done.
    + assert (Hp : exists bytes', bytes = p ++ bytes').
      { exists (zdrop TS_PACKAGE_SIZE bytes); rewrite <- (ztake_zdrop TS_PACKAGE_SIZE bytes) at 1; f_equal.
        cbn [concat] in He; rewrite <- app_assoc in He.
        assert (E2 : ztake TS_PACKAGE_SIZE (bytes ++ more) = p) by (by rewrite He, <- Hl, ztake_app_l, ztake_all by lia).
        by rewrite ztake_app_l in E2 by lia. }
      destruct Hp as [bytes' ->]; cbn [concat] in He; rewrite <- !app_assoc in He; apply app_inv_head in He.
      rewrite <- Hl, ztake_app_l, ztake_all, zdrop_app_r, Z.sub_diag, zdrop_0, (decide_True _ _ Hh) by lia.
      destruct (IH bytes' n He) as (j & rest & Hc & Hj & Hb' & Hr).
      { rewrite length_app in Hn; unfold zlen in Hl; pose proof package_size_188; lia. }
      exists (S j), rest; rewrite Hc; cbn; split_and!; [done|lia|by rewrite Hb', app_assoc|by rewrite Hl].
Qed.

Lemma short_needs_chunk ts : TSStream_ok ts -> zlen (pending ts) < TS_PACKAGE_SIZE -> needsNewChunk ts = true.
Proof.
  intros Hs Hp; rewrite pending_length in Hp by done; pose proof package_size_188; pose proof chunk_holds_package.
  pose proof (ts_pointer _ Hs); unfold needsNewChunk; apply Z.ltb_lt; nia.
Qed.

(** * Interleavings *)

Section runs.
Context (channel : string) (stream : list StreamPacketT) (tail : list Z) (st0 : PsiState).
Context (Hsync : Forall synced stream) (Htail : zlen tail < TS_PACKAGE_SIZE) (Hst0 : PsiState_ok st0).
Context (Hfeed : forall junk, junk_ok junk -> exists r, feed junk 0 channel (true, st0) stream = Done r).

(** What the two threads do: post a chunk of the channel, or one round. *)
Definition stream_op (op : psi_op) : Prop :=
  match op with
  | Post c chunk => c = Some channel /\ zlen chunk = BUFFER_CHUNK_SIZE
  | ThreadRound junk => junk_ok junk
  | _ => False
  end.

Definition posted (ops : list psi_op) : list buffer_chunk :=
  omap (fun op => match op with Post _ chunk => Some chunk | _ => None end) ops.

(** Where the parser is when [sent] has been posted: it has read the packets of [done], holds
    the bytes behind them and has [queued] to come; [dropped] came when it had stopped running. *)
Inductive follows s (sent : list buffer_chunk) : Prop :=
| Follows done queued dropped junk m :
  sent = done ++ queued ++ dropped -> (mPsiParserRunning s = true -> dropped = []) ->
  q_items (mQueue s) = queued -> Forall (fun c => zlen c = BUFFER_CHUNK_SIZE) queued ->
  junk_ok junk -> (m <= length stream)%nat ->
  feed junk 0 channel (true, st0) (take m stream) = Done (mPsiParserRunning s, psi s) ->
  TSStream_ok (mTsStream s) -> concat (take m stream) ++ pending (mTsStream s) = concat done ->
  zlen (pending (mTsStream s)) < TS_PACKAGE_SIZE ->
  mExitParserThread s = false -> (mChannel s = channel \/ sent = []) ->
  follows s sent.

Lemma feed_keeps junk k rs ps rs' : junk_ok junk -> Forall synced ps -> PsiState_ok rs.2 ->
  feed junk k channel rs ps = Done rs' -> run_ok rs rs'.
Proof.
  intros Hj HF Hs Hf; pose proof (feed_wp junk k channel rs ps (fun n => packet_length _ (Hj n))) as Hw.
  rewrite Hf in Hw; apply Hw; [|done]; by eapply Forall_impl; [exact HF|]; intros ? [].
Qed.

Lemma follows_post s sent chunk : follows s sent -> zlen chunk = BUFFER_CHUNK_SIZE ->
  exists s', post s (Some channel) chunk = Done s' /\ follows s' (sent ++ [chunk]).
Proof.
  intros [done queued dropped junk m -> Hrun Hq Hqs Hj Hm Hf Hts Hp Hl Hx Hc] Hchunk; unfold post.
  set (s1 := s <| mParserThread := true |>).
  assert (H2 : exists queue n, q_items queue = queued /\
    (if decide (channel <> mChannel s1) then s2 ← clearQueue s1; Done (s2 <| mChannel := channel |>) else Done s1) =
    Done (s1 <| mQueue := queue |> <| mPacketCounter := n |> <| mChannel := channel |>)).
  { destruct (decide _) as [Hne|He].
    - destruct Hc as [Hc|(_ & (-> & _)%app_nil)%app_nil]; [by destruct Hne|].
      destruct (clearQueue_ok s1) as (queue & -> & Hempty); step_done; eauto.
    - apply dec_stable in He; exists (mQueue s), (mPacketCounter s); split; [done|].
      change (mChannel s1) with (mChannel s) in He; subst channel; by destruct s. }
  destruct H2 as (queue & n & Hqueue & ->); step_done.
  set (s2 := _ <| mChannel := channel |>); change (mPsiParserRunning s2) with (mPsiParserRunning s).
  destruct (mPsiParserRunning s) eqn:Er.
  - eexists; split; [done|]; apply (Follows _ _ done (queued ++ [chunk]) [] junk m); try done.
    + by rewrite (Hrun eq_refl), !app_nil_r, <- app_assoc.
    + cbn; by rewrite q_items_push, Hqueue.
    + apply Forall_app; by repeat constructor.
    + by rewrite Hf, <- Er.
    + by left.
  - eexists; split; [done|]; apply (Follows _ _ done queued (dropped ++ [chunk]) junk m); try done.
    + by rewrite <- !app_assoc.
    + cbn; by rewrite Er.
    + by rewrite Hf, <- Er.
    + by left.
Qed.

(** Reading on from where a part of the packets has been read. *)
Lemma feed_extend junk0 junk m j rs0 : junk_ok junk0 -> junk_ok junk ->
  feed junk0 0 channel (true, st0) (take m stream) = Done rs0 ->
  exists rs, feed junk 0 channel rs0 (take j (drop m stream)) = Done rs /\
    feed (junk_app (length (take m stream)) junk0 junk) 0 channel (true, st0) (take (m + j) stream) = Done rs /\
    (rs.1 = true -> rs0.1 = true).
Proof.
  intros Hj0 Hj Hf; set (junk1 := junk_app _ _ _); set (ps := take j (drop m stream)).
  assert (Hf1 : feed junk1 0 channel (true, st0) (take (m + j) stream) = feed junk 0 channel rs0 ps).
  { rewrite <- take_take_drop; unfold junk1; by rewrite feed_junk_app, Hf. }
  destruct (Hfeed junk1) as [r Hfull]; [by apply junk_app_ok|].
  rewrite <- (take_drop (m + j) stream), feed_app, Hf1 in Hfull.
  destruct (feed junk 0 channel rs0 ps) as [rs|] eqn:Eps; [|discriminate Hfull].
  exists rs; split; [done|split; [done|]]; intros Hrs.
  assert (Hk0 : run_ok (true, st0) rs0) by (eapply feed_keeps; [exact Hj0|by apply Forall_take|exact Hst0|exact Hf]).
  assert (Hk : run_ok rs0 rs) by (eapply feed_keeps; [exact Hj|by apply Forall_take, Forall_drop|apply Hk0|exact Eps]).
  destruct (run_published _ _ Hk) as [[Ha _]|(Ha & _)]; [by rewrite <- Ha|done].
Qed.

Lemma follows_round s sent more junk : junk_ok junk -> concat sent ++ more = concat stream ++ tail ->
  follows s sent -> exists s', thread_step s junk = Done s' /\ follows s' sent /\
    q_items (mQueue s') = list.tail (q_items (mQueue s)).
Proof.
  intros Hj Hall Hs; pose proof Hs as [done queued dropped junk0 m -> Hrun Hq Hqs Hj0 Hm Hf Hts Hp Hl Hx Hc].
  unfold thread_step; rewrite Hx; destruct queued as [|c queued]; [rewrite q_pop_empty by done; exists s; by rewrite Hq|].
  destruct (q_pop_cons _ c queued _ Hq) as (queue & -> & Hqueue); cbv zeta.
  apply Forall_cons in Hqs as [Hc1 Hqs]; destruct Hc as [Hc|Hc]; [|by destruct done].
  set (s1 := s <| mQueue := queue |> <| mPacketCounter := _ |>).
  pose proof (processChunk_implements s1 c junk Hts Hc1) as Hi; cbv zeta in Hi.
  change (mTsStream s1) with (mTsStream s) in Hi; rewrite short_needs_chunk in Hi by done.
  set (bytes := pending (mTsStream s) ++ c) in Hi.
  destruct (cut_aligned (S (length bytes)) bytes (drop m stream) tail (concat (queued ++ dropped) ++ more))
    as (j & rest & Hcut & Hjl & Hb & Hr); [by apply Forall_drop|done| |lia|].
  { apply (app_inv_head (concat (take m stream))); unfold bytes; rewrite !app_assoc, Hp, <- concat_app, take_drop, <- Hall.
    rewrite !concat_app; cbn [concat]; by rewrite <- !app_assoc. }
  rewrite Hcut in Hi; rewrite length_drop in Hjl; change (mChannel s1) with (mChannel s) in Hi; rewrite Hc in Hi.
  change (mPsiParserRunning s1, psi s1) with (mPsiParserRunning s, psi s) in Hi.
  destruct (feed_extend junk0 junk m j _ Hj0 Hj Hf) as (rs & Hps & Hf1 & Hrs); rewrite Hps in Hi.
  destruct Hi as (ts & p & -> & Hts' & Hpend); eexists; split; [done|]; split; [|by rewrite Hq].
  apply (Follows _ _ (done ++ [c]) queued dropped (junk_app (length (take m stream)) junk0 junk) (m + j)); try done.
  - by rewrite <- !app_assoc.
  - intros Hrun1; by apply Hrun, Hrs.
  - by apply junk_app_ok.
  - lia.
  - by rewrite Hf1; destruct rs.
  - cbn; rewrite Hpend, <- take_take_drop, !concat_app, <- !app_assoc, <- Hb; unfold bytes.
    by rewrite app_assoc, Hp; cbn; rewrite app_nil_r.
  - cbn; by rewrite Hpend.
  - by left.
Qed.

Lemma follows_run ops s sent more : Forall stream_op ops -> follows s sent ->
  concat (sent ++ posted ops) ++ more = concat stream ++ tail ->
  exists s', psi_run s ops = Done s' /\ follows s' (sent ++ posted ops).
Proof.
  intros HF; revert s sent; induction HF as [|op ops Hop HF IH]; intros s sent Hs Hall.
  - exists s; by rewrite app_nil_r.
  - cbn [psi_run]; destruct op as [c chunk|junk| | | |]; try done; cbn [psi_exec posted omap list_omap] in *.
    + destruct Hop as [-> Hl], (follows_post s sent chunk Hs Hl) as (s1 & -> & H1); step_done.
      destruct (IH s1 (sent ++ [chunk]) H1) as (s' & Hr & Hs'); [by rewrite <- app_assoc|].
      exists s'; split; [done|]; by rewrite <- app_assoc in Hs'.
    + destruct (follows_round s sent (concat (posted ops) ++ more) junk Hop) as (s1 & -> & H1 & _); [|done|step_done].
      * by rewrite app_assoc, <- concat_app.
      * by apply IH.
Qed.

Lemma zlen_packets ps : Forall synced ps -> zlen (concat ps) = TS_PACKAGE_SIZE * Z.of_nat (length ps).
Proof.
  induction 1 as [|p ps [[Hl _] _] _ IH]; [cbn; by rewrite Z.mul_0_r|].
  cbn [concat length]; rewrite zlen_app, IH, Hl; lia.
Qed.

(** When everything has been posted and the queue is empty, what is published is what the
    packets on their own publish. *)
Lemma follows_end s sent : follows s sent -> concat sent = concat stream ++ tail -> q_items (mQueue s) = [] ->
  exists junk r, junk_ok junk /\ feed junk 0 channel (true, st0) stream = Done r /\ published (psi s) = published r.2.
Proof.
  intros [done queued dropped junk m -> Hrun Hq Hqs Hj Hm Hf Hts Hp Hl Hx Hc] Hall Hempty.
  rewrite Hempty in Hq; subst queued; destruct (Hfeed junk Hj) as [r Hr]; exists junk, r; split; [done|split; [done|]].
  assert (Hk : run_ok (true, st0) (mPsiParserRunning s, psi s))
    by (eapply feed_keeps; [exact Hj|by apply Forall_take|exact Hst0|exact Hf]).
  pose proof Hr as Hd; rewrite <- (take_drop m stream), feed_app, Hf in Hd; revert Hd; step_done; intros Hd.
  destruct (mPsiParserRunning s) eqn:Er.
  - rewrite (Hrun eq_refl), !app_nil_r in Hall; rewrite <- Hp in Hall.
    pose proof (f_equal zlen Hall) as Hz; rewrite !zlen_app, !zlen_packets, length_take in Hz by (by try apply Forall_take).
    pose proof package_size_188; pose proof (zlen_nonneg tail); pose proof (zlen_nonneg (pending (mTsStream s))).
    assert (m = length stream) as -> by nia.
    rewrite drop_all in Hd; by injection Hd as <-.
  - pose proof (feed_keeps _ _ _ _ _ Hj (Forall_drop _ m _ Hsync) (run_state _ _ Hk) Hd) as Hk2.
    by destruct (run_published _ _ Hk2) as [[_ ->]|(? & _)].
Qed.

(** A parser that waits for the first chunk of a channel. *)
Record ready s : Prop := {
  rd_queue : q_items (mQueue s) = [];
  rd_running : mPsiParserRunning s = true;
  rd_stream : TSStream_ok (mTsStream s);
  rd_pending : pending (mTsStream s) = [];
  rd_exit : mExitParserThread s = false;
}.

Lemma follows_start s : ready s -> psi s = st0 -> follows s [].
Proof.
  intros [Hq Hr Hts Hp Hx] Hst; apply (Follows _ _ [] [] [] (fun _ => zero_packet) 0); try done.
  - intros n; split; [apply zlen_zero_packet|by apply Forall_replicate].
  - lia.
  - by rewrite Hr, Hst, take_0.
  - rewrite Hp, zlen_nil, package_size_188; lia.
  - by right.
Qed.

End runs.

(** * An encrypted channel *)

(** [table] is what is published of the section in [packet]: all bytes of the packet behind the
    pointer, and five more. *)
Definition copy_of (packet table : list Z) : Prop := is_bytes table /\ ztake (zlen table - 5) table = zdrop 5 packet.

Lemma section_copy_of packet old : is_packet packet -> is_packet old -> copy_of packet (section_copy packet old).
Proof.
  intros [Hl Hb] [Hol Hob]; pose proof package_size_188; split.
  - apply Forall_app; split; by apply Forall_drop.
  - unfold section_copy; rewrite zlen_app, !zlen_zdrop by lia.
    rewrite ztake_app_l, ztake_all by (rewrite zlen_zdrop; lia); done.
Qed.

Section encrypted.
Context (channel : string) (patPacket pmtPacket : StreamPacketT) (table : list Z) (stream : list StreamPacketT).
Context (tail : list Z) (st : PsiState) (Hch : encrypted_channel (mOpid st) patPacket pmtPacket table stream).
Context (Hsync : Forall synced stream) (Htail : zlen tail < TS_PACKAGE_SIZE).

Lemma encrypted_feeds junk : junk_ok junk -> exists r, feed junk 0 channel (true, onOpen_state st) stream = Done r.
Proof.
  intros Hj; destruct (encrypted_channel_fed st junk channel stream _ _ _ Hch (fun n => packet_length _ (Hj n)))
    as (s' & _ & _ & Hf & _); eauto.
Qed.

Lemma encrypted_run s ops : ready s -> psi s = onOpen_state st -> Forall (stream_op channel) ops ->
  concat (posted ops) = concat stream ++ tail ->
  exists s', psi_run s ops = Done s' /\ follows channel stream (onOpen_state st) s' (posted ops).
Proof.
  intros Hs Hst Hops Hall.
  apply (follows_run channel stream tail (onOpen_state st) Hsync Htail (onOpen_state_ok st) encrypted_feeds ops s [] []).
  - done.
  - by apply follows_start.
  - by rewrite app_nil_r.
Qed.

(** The queue is empty: the protection data has been published, once. *)
Lemma encrypted_end s' sent : follows channel stream (onOpen_state st) s' sent -> concat sent = concat stream ++ tail ->
  q_items (mQueue s') = [] ->
  exists pat pmt, copy_of patPacket pat /\ copy_of pmtPacket pmt /\
    published (psi s') = published st ++ [mkStreamProtectionConfig HIGH channel table pat pmt false].
Proof.
  intros Hf Hall Hempty.
  destruct (follows_end channel stream tail (onOpen_state st) Hsync (onOpen_state_ok st) encrypted_feeds s' sent Hf Hall Hempty)
    as (junk & r & Hj & Hr & ->).
  destruct (encrypted_channel_fed st junk channel stream _ _ _ Hch (fun n => packet_length _ (Hj n)))
    as (st' & i & old & Hf' & Hpub & Hold).
  rewrite Hr in Hf'; injection Hf' as ->; cbn [snd]; rewrite Hpub.
  assert (Hpk : is_packet patPacket /\ is_packet pmtPacket)
    by (destruct Hch; match goal with T : channel_tables _ _ _ _ _ |- _ => destruct T end; split; by eapply sp_packet).
  exists (section_copy patPacket (junk i)), (section_copy pmtPacket old); split_and!; [| |done].
  - apply section_copy_of; [apply Hpk|apply Hj].
  - apply section_copy_of; [apply Hpk|]; destruct Hold as [->|[j ->]]; [apply Hpk|apply Hj].
Qed.

(** Rounds of the thread empty the queue. *)
Lemma rounds_drain rounds s sent : Forall junk_ok rounds -> follows channel stream (onOpen_state st) s sent ->
  concat sent = concat stream ++ tail ->
  exists s', psi_run s (map ThreadRound rounds) = Done s' /\ follows channel stream (onOpen_state st) s' sent /\
    (length (q_items (mQueue s')) = length (q_items (mQueue s)) - length rounds)%nat.
Proof.
  intros HF; revert s; induction HF as [|junk rounds Hj _ IH]; intros s Hf Hall; cbn [map psi_run length psi_exec].
  - exists s; split_and!; [done|done|lia].
  - destruct (follows_round channel stream tail (onOpen_state st) Hsync Htail (onOpen_state_ok st) encrypted_feeds s sent [] junk Hj)
      as (s1 & -> & Hf1 & Hq); [by rewrite app_nil_r|done|]; step_done.
    destruct (IH s1 Hf1 Hall) as (s' & Hr & Hf' & Hl); exists s'; split_and!; [done|done|].
    rewrite Hl, Hq; destruct (q_items (mQueue s)); cbn; lia.
Qed.

End encrypted.

Lemma psi_run_app s ops1 ops2 : psi_run s (ops1 ++ ops2) = (s ← psi_run s ops1; psi_run s ops2).
Proof.
  revert s; induction ops1 as [|op ops1 IH]; intros s; cbn [app psi_run]; [by rewrite bind_Done|].
  destruct (psi_exec s op) as [s1|e]; [rewrite !bind_Done; apply IH|done].
Qed.

(** C6. A channel has been opened and no part of a packet waits in the parser. The stream of an
    encrypted channel is posted chunk by chunk, wherever the chunks end, while the thread of the
    parser makes rounds, in every interleaving of the two; then the thread makes at least as many
    rounds as there were chunks. No call fails, the queue is empty, and exactly one configuration
    has been published: that of the channel, with confidence HIGH, not clear, with the bytes of
    the ECM table and the sections of the PAT and the PMT. *)
Theorem threads_publish channel patPacket pmtPacket table stream tail st s ops rounds :
  encrypted_channel (mOpid st) patPacket pmtPacket table stream -> Forall synced stream ->
  zlen tail < TS_PACKAGE_SIZE -> ready s -> psi s = onOpen_state st ->
  Forall (stream_op channel) ops -> concat (posted ops) = concat stream ++ tail ->
  Forall junk_ok rounds -> (length (posted ops) <= length rounds)%nat ->
  exists s' pat pmt, psi_run s (ops ++ map ThreadRound rounds) = Done s' /\ q_items (mQueue s') = [] /\
    published (psi s') = published st ++ [mkStreamProtectionConfig HIGH channel table pat pmt false] /\
    copy_of patPacket pat /\ copy_of pmtPacket pmt.
Proof.
  intros Hch Hsync Htail Hs Hst Hops Hall Hrounds Hlen.
  destruct (encrypted_run channel _ _ _ _ _ st Hch Hsync Htail s ops Hs Hst Hops Hall) as (s1 & Hr1 & Hf1).
  destruct (rounds_drain channel _ _ _ _ _ st Hch Hsync Htail rounds s1 _ Hrounds Hf1 Hall) as (s' & Hr & Hf & Hq).
  assert (Hempty : q_items (mQueue s') = []).
  { apply nil_length_inv; rewrite Hq; destruct Hf1 as [? queued ? ? ? Hsent _ Hqi]; rewrite Hqi.
    rewrite Hsent, !length_app in Hlen; lia. }
  destruct (encrypted_end channel _ _ _ _ _ st Hch Hsync s' _ Hf Hall Hempty) as (pat & pmt & Hpat & Hpmt & Hpub).
  exists s', pat, pmt; split_and!; try done; by rewrite psi_run_app, Hr1, bind_Done.
Qed.

End thread.
