(* ===== verification/PsiExamples.v ===== *)
(** Concrete channels, with the tables that test/psi_tests.cpp expects of its recorded
    streams: the parser runs on them, and the theorems about the PSI parser are applied
    to them. *)

From S2P Require Import Prelude Interfaces Protection TsStream PidInfo PsiParser.
From S2P Require Import PsiStream PsiInvariant PsiReach PsiPmt PsiPat PsiEcm PsiChannel PsiPadding.

#[local] Existing Instances config1000 config1000_ok.

(** A packet of 188 bytes on [pid] with [payload], filled up with 0xFF. *)
Definition sample_packet (pid : Z) (payload : list Z) : StreamPacketT :=
  let head := [71; 64 + pid / 256; pid mod 256; 16] in
  head ++ payload ++ replicate (Z.to_nat (184 - zlen payload)) 255.

(** * The encrypted channel *)

Definition sample_pat : program_association :=
  mkPAT 213 2 [(2200, 100)] [187; 136; 113; 121].

Definition sample_pmt : program_map :=
  mkPMT 2200 3 101 [mkDescriptor 101 [1]]
    [mkES 27 101 [mkDescriptor 14 [192; 53; 182]; mkDescriptor 9 [86; 1; 224; 102]];
     mkES 15 201 [mkDescriptor 10 [100; 97; 110; 0]; mkDescriptor 124 [88; 128; 3];
                  mkDescriptor 14 [192; 0; 240]; mkDescriptor 9 [86; 1; 224; 102]]]
    [234; 206; 244; 20].

Definition sample_ecm : list Z :=
  [128; 176; 105; 86; 1; 229; 0; 0; 86; 77; 69; 67; 77; 2; 0; 2; 0; 0; 34; 0; 33; 43; 141;
   128; 86; 81; 96; 54; 186; 78; 255; 72; 193; 153; 185; 72; 199; 248; 224; 194; 160; 164;
   245; 105; 245; 173; 143; 88; 165; 34; 63; 141; 187; 132; 219; 202; 228; 56; 239; 44;
   220; 163; 221; 23; 140; 194; 157; 54; 115; 240; 65; 242; 56; 7; 131; 32; 143; 198; 169;
   61; 109; 241; 222; 51; 66; 234; 111; 158; 65; 81; 73; 165; 21; 37; 69; 137; 74; 201; 52;
   219; 211; 45; 94; 113; 65; 57; 129; 235].

Definition sample_pat_packet : StreamPacketT := sample_packet 0 (0 :: encode_pat sample_pat).
Definition sample_pmt_packet : StreamPacketT := sample_packet 100 (0 :: encode_pmt sample_pmt).
Definition sample_ecm_packet : StreamPacketT := sample_packet 102 (0 :: sample_ecm).

(** * The clear channel *)

Definition clear_pat : program_association :=
  mkPAT 161 2 [(1470, 480)] [83; 35; 44; 234].

Definition clear_pmt : program_map :=
  mkPMT 1470 2 1000 []
    [mkES 36 1000 [mkDescriptor 56 [1; 96; 0; 0; 0; 176; 0; 0; 0; 0; 0; 93; 159; 31; 31]];
     mkES 15 2000 [mkDescriptor 80 [240; 0; 0; 0; 0; 0]];
     mkES 6 3000 [mkDescriptor 86 [100; 97; 110; 9; 0]]]
    [127; 8; 94; 92].

Definition clear_pat_packet : StreamPacketT := sample_packet 0 (0 :: encode_pat clear_pat).
Definition clear_pmt_packet : StreamPacketT := sample_packet 480 (0 :: encode_pmt clear_pmt).

Lemma encode_sample_pat : encode_pat sample_pat =
  [0; 176; 13; 0; 213; 197; 0; 0; 8; 152; 224; 100; 187; 136; 113; 121].
Proof. reflexivity. Qed.

Lemma encode_sample_pmt : encode_pmt sample_pmt =
  [2; 176; 59; 8; 152; 199; 0; 0; 224; 101; 240; 3; 101; 1; 1; 27; 224; 101; 240; 11; 14;
   3; 192; 53; 182; 9; 4; 86; 1; 224; 102; 15; 224; 201; 240; 22; 10; 4; 100; 97; 110; 0;
   124; 3; 88; 128; 3; 14; 3; 192; 0; 240; 9; 4; 86; 1; 224; 102; 234; 206; 244; 20].
Proof. reflexivity. Qed.

Lemma encode_clear_pmt : encode_pmt clear_pmt =
  [2; 176; 60; 5; 190; 197; 0; 0; 227; 232; 240; 0; 36; 227; 232; 240; 17; 56; 15; 1; 96;
   0; 0; 0; 176; 0; 0; 0; 0; 0; 93; 159; 31; 31; 15; 231; 208; 240; 8; 80; 6; 240; 0; 0; 0;
   0; 0; 6; 235; 184; 240; 7; 86; 5; 100; 97; 110; 9; 0; 127; 8; 94; 92].
Proof. reflexivity. Qed.

(** * Witnesses *)

Definition sample_junk (k : nat) : StreamPacketT := zero_packet.

Lemma sample_junk_length k : zlen (sample_junk k) = TS_PACKAGE_SIZE.
Proof. reflexivity. Defined.

Lemma sample_is_packet p : zlen p = 188 -> bool_decide (is_bytes p) = true -> is_packet p.
Proof. intros Hl Hb; split; [exact Hl | by apply (bool_decide_eq_true (is_bytes p))]. Qed.

Lemma sample_section p pid section stuffing :
  zlen p = 188 -> bool_decide (is_bytes p) = true -> GET_PID p = Done pid ->
  rd p 3 = Done 16 -> rd p 4 = Done 0 -> zdrop 5 p = section ++ stuffing ->
  section_packet p pid section.
Proof.
  intros Hl Hb Hg H3 H4 Hz; split; [by apply sample_is_packet|done| |done|by exists stuffing].
  exists 16; split; [done|discriminate].
Qed.

Lemma sample_program_map_ok : program_map_ok sample_pmt.
Proof.
  split; [cbn; lia| | |done]; repeat constructor; cbn; lia || (intros; lia || done).
Qed.

Lemma clear_program_map_ok : program_map_ok clear_pmt.
Proof.
  split; [cbn; lia| | |done]; repeat constructor; cbn; lia || (intros; lia || done).
Qed.

Lemma sample_tables : channel_tables sample_pat_packet sample_pmt_packet sample_pat sample_pmt 100.
Proof.
  split; [|cbn; lia|repeat constructor; cbn; lia|done|unfold PSI_MAX_PID; lia| |
    apply sample_program_map_ok].
  - apply (sample_section _ _ _ (zdrop 21 sample_pat_packet)); vm_compute; reflexivity.
  - apply (sample_section _ _ _ (zdrop 67 sample_pmt_packet)); vm_compute; reflexivity.
Qed.

Lemma clear_tables : channel_tables clear_pat_packet clear_pmt_packet clear_pat clear_pmt 480.
Proof.
  split; [|cbn; lia|repeat constructor; cbn; lia|done|unfold PSI_MAX_PID; lia| |
    apply clear_program_map_ok].
  - apply (sample_section _ _ _ (zdrop 21 clear_pat_packet)); vm_compute; reflexivity.
  - apply (sample_section _ _ _ (zdrop 68 clear_pmt_packet)); vm_compute; reflexivity.
Qed.

Lemma sample_ecm_ok : ecm_table_ok sample_ecm.
Proof.
  split; [apply (bool_decide_eq_true (is_bytes _)); by vm_compute|by left| |done].
  exists 176, 105; repeat split.
Qed.

Lemma sample_ecm_carried ecm : isPid ecm 102 = true -> carries ecm sample_ecm_packet [] sample_ecm.
Proof.
  intros He; exists (zdrop 5 sample_ecm_packet); split.
  - split; [by exists 102|done|]; exists 0; split; [|done].
    exists 16; repeat split; done || lia.
  - by vm_compute.
Qed.

(** The tables and the ECM among packets of other streams and repeated tables. *)
Definition video_packet : StreamPacketT := sample_packet 101 [1; 2; 3].
Definition stuffing_packet : StreamPacketT := sample_packet 8191 [].

Definition sample_stream : list StreamPacketT :=
  [stuffing_packet; sample_pat_packet; video_packet; sample_pat_packet; sample_pmt_packet; video_packet;
   sample_pmt_packet; sample_ecm_packet; sample_pat_packet; stuffing_packet].

Lemma sample_channel : encrypted_channel 0 sample_pat_packet sample_pmt_packet sample_ecm sample_stream.
Proof.
  pose proof (ct_pat _ _ _ _ _ sample_tables) as Hpat; pose proof (ct_pmt _ _ _ _ _ sample_tables) as Hpmt.
  assert (Hvideo : is_packet video_packet) by (by apply sample_is_packet).
  assert (Hnull : is_packet stuffing_packet) by (by apply sample_is_packet).
  apply (EncryptedChannel 0 _ _ sample_ecm [stuffing_packet] [video_packet; sample_pat_packet]
    [video_packet; sample_pmt_packet; sample_ecm_packet; sample_pat_packet; stuffing_packet]
    sample_ecm_packet [] sample_pat sample_pmt 100 102).
  - apply sample_tables.
  - reflexivity.
  - discriminate.
  - discriminate.
  - apply sample_ecm_ok.
  - constructor; [|constructor]; by split.
  - apply Forall_cons_2; [by split; [|left]|apply Forall_cons_2; [by split; [apply Hpat|right]|constructor]].
  - apply Forall_cons_2; [|apply Forall_cons_2; [|apply Forall_cons_2; [|apply Forall_cons_2; [|apply Forall_cons_2; [|constructor]]]]].
    + right; split; [done|by left].
    + right; split; [apply Hpmt|by right; right].
    + left; split; [by apply sample_is_packet|done].
    + right; split; [apply Hpat|by right; left].
    + right; split; [done|by left].
  - reflexivity.
  - apply sample_ecm_carried.
Qed.

Lemma encrypted_channel_published_witness : exists s' i old,
  feed sample_junk 0 "239.0.0.1" (true, onOpen_state PsiState_new) sample_stream = Done (false, s') /\
  published s' =
    [mkStreamProtectionConfig HIGH "239.0.0.1" sample_ecm
       (section_copy sample_pat_packet (sample_junk i)) (section_copy sample_pmt_packet old) false] /\
  (old = sample_pmt_packet \/ exists j, old = sample_junk j).
Proof.
  apply (encrypted_channel_published PsiState_new sample_junk "239.0.0.1" sample_stream);
    [exact sample_channel|exact sample_junk_length].
Defined.

Lemma clear_channel_published_witness : exists s',
  feed sample_junk 0 "239.0.0.2" (true, onOpen_state PsiState_new)
    [clear_pat_packet; clear_pmt_packet] = Done (false, s') /\
  published s' =
    [mkStreamProtectionConfig HIGH "239.0.0.2" [] (section_copy clear_pat_packet zero_packet)
       (section_copy clear_pmt_packet clear_pmt_packet) true].
Proof.
  apply (clear_channel_published PsiState_new sample_junk "239.0.0.2" clear_pat_packet
    clear_pmt_packet clear_pat clear_pmt 480).
  - intros k; apply sample_junk_length.
  - apply clear_tables.
  - reflexivity.
Defined.

(** A chunk of 1000 bytes: the channel, a packet of another stream, and the front of a
    packet that ends in the next chunk. *)
Definition sample_chunk : buffer_chunk :=
  ztake 1000 (sample_pat_packet ++ sample_pmt_packet ++ sample_ecm_packet ++
              sample_packet 101 [] ++ sample_packet 201 [] ++ sample_packet 101 []).

Definition sample_parser : PSIParser list_cb list :=
  PSIParser_new <| mPsiParserRunning := true |> <| mChannel := "239.0.0.1" |>.

Lemma sample_parser_ok : PSIParser_ok sample_parser.
Proof.
  destruct (PSIParser_new_ok (cb := list_cb) (q := list)) as [H1 H2 H3 H4 H5]; by split.
Qed.

Lemma sample_chunk_ok : is_chunk sample_chunk.
Proof.
  split; [by vm_compute|]; apply (bool_decide_eq_true (is_bytes _)); by vm_compute.
Qed.

Lemma processChunk_refines_witness :
  let '(packets, rest) := cut 1001 sample_chunk in
  length packets = 5%nat /\ zlen rest = 60 /\
  implements sample_parser (processChunk sample_parser sample_chunk sample_junk)
    (feed sample_junk 0 "239.0.0.1" (true, PsiState_new) packets) rest.
Proof.
  pose proof (processChunk_refines sample_parser sample_chunk sample_junk
    (parser_stream _ sample_parser_ok) (chunk_length _ sample_chunk_ok)) as H.
  change (needsNewChunk (mTsStream sample_parser)) with true in H.
  change (pending (mTsStream sample_parser)) with (@nil Z) in H; cbn [app] in H.
  replace (S (length sample_chunk)) with 1001%nat in H by (vm_compute; reflexivity).
  destruct (cut 1001 sample_chunk) as [packets rest] eqn:Ec.
  vm_compute in Ec; injection Ec as <- <-; split; [reflexivity|split; [reflexivity|exact H]].
Defined.

Definition sample_ops : list psi_op :=
  [Notify "ecm0" []; Open; Post (Some "239.0.0.1") sample_chunk; ThreadRound sample_junk;
   EndOfStream].

Ltac sample_ops_tac :=
  repeat first [ apply Forall_nil_2 | apply Forall_cons_2 ];
  first [ exact I | apply sample_chunk_ok | intros ?; apply sample_junk_length ].

Lemma sample_ops_ok : Forall op_ok sample_ops.
Proof. sample_ops_tac. Qed.

Lemma psi_parser_invariant_witness :
  wp overread (psi_run (PSIParser_new : PSIParser list_cb list) sample_ops) PSIParser_ok.
Proof. apply (psi_parser_invariant sample_ops sample_ops_ok). Defined.

Definition sample_final : PSIParser list_cb list :=
  match psi_run PSIParser_new sample_ops with Done s => s | Stop _ => PSIParser_new end.

Lemma got_ecm_unreachable_witness :
  psi_run PSIParser_new sample_ops = Done sample_final /\
  mParserState (psi sample_final) <> GOT_ECM.
Proof.
  assert (H : psi_run PSIParser_new sample_ops = Done sample_final)
    by (vm_compute; reflexivity).
  split; [exact H|apply (got_ecm_unreachable sample_ops sample_final sample_ops_ok H)].
Defined.

Definition sample_round : list psi_op :=
  [Open; Post (Some "239.0.0.1") sample_chunk; ThreadRound sample_junk].

Definition sample_published : PSIParser list_cb list :=
  match psi_run sample_parser sample_round with Done s => s | Stop _ => PSIParser_new end.

Lemma published_once_witness :
  psi_run sample_parser sample_round = Done sample_published /\
  length (published (psi sample_published)) = 1%nat /\
  ((published (psi sample_published) = published (psi sample_parser) /\
    mPsiParserRunning sample_published = mPsiParserRunning sample_parser) \/
   (mPsiParserRunning sample_parser = true /\ mPsiParserRunning sample_published = false /\
    exists drm, published (psi sample_published) = published (psi sample_parser) ++ [drm])).
Proof.
  assert (H : psi_run sample_parser sample_round = Done sample_published)
    by (vm_compute; reflexivity).
  split; [exact H|split; [vm_compute; reflexivity|]].
  apply (published_once sample_parser sample_published sample_round sample_parser_ok).
  - sample_ops_tac.
  - repeat constructor.
  - exact H.
Defined.

(** A table of 300 bytes over two packets. *)
Definition long_ecm : list Z :=
  [128; 1; 41; 86; 1; 229; 0; 0; 86; 77; 69; 67; 77] ++ replicate 287 7.

Definition long_ecm_first : StreamPacketT := sample_packet 102 (0 :: ztake 183 long_ecm).
Definition long_ecm_second : StreamPacketT := sample_packet 102 (zdrop 183 long_ecm).

Definition waiting_state : PsiState :=
  PsiState_new <| mEcm := mkPidInfo 102 0 true false zero_packet |>.

Lemma waiting_state_ok : PsiState_ok waiting_state.
Proof.
  apply ok_set_ecm; [apply PsiState_new_ok|].
  split; [reflexivity|cbn; unfold PSI_INVALID_PID; lia|done|reflexivity].
Qed.

Lemma ecm_reassembly_witness : exists s',
  parseEcms waiting_state [long_ecm_first; long_ecm_second] = Done ([IGNORE; NEW_ECMT], s') /\
  mEcmTable s' = long_ecm /\
  (mPidValid (mEcm waiting_state) = true -> isNew (mEcm s') (ecm_version long_ecm) = false) /\
  mEcmCollectionInProgress s' = false /\ mTempCollectedEcmData s' = [].
Proof.
  apply (ecm_reassembly waiting_state long_ecm_first [long_ecm_second] long_ecm).
  - split; [apply (bool_decide_eq_true (is_bytes _)); by vm_compute|by left| |reflexivity].
    exists 1, 41; repeat split.
  - reflexivity.
  - exists (ztake 183 long_ecm); split.
    + split; [by exists 102|reflexivity|]; exists 0; split; [|by vm_compute].
      exists 16; repeat split; done || lia.
    + exists (zdrop 183 long_ecm); repeat split; try (by vm_compute).
      exists (zdrop 4 long_ecm_second); split; [|by vm_compute].
      split; [by exists 102|reflexivity|]; exists 0; split; [|reflexivity].
      exists 16; repeat split; done || lia.
Defined.

(** A packet whose adaptation field has 183 bytes. *)
Definition full_packet : StreamPacketT := [71; 64; 102; 48; 183] ++ replicate 183 0.

Lemma parseEcm_out_of_bounds_witness : parseEcm waiting_state full_packet = Stop Overread.
Proof.
  apply (parseEcm_out_of_bounds waiting_state full_packet 102).
  - apply waiting_state_ok.
  - apply sample_is_packet; vm_compute; reflexivity.
  - reflexivity.
  - reflexivity.
  - split; [exists 48; repeat split|reflexivity].
Defined.

Lemma parsePat_first_program_witness : exists s',
  parsePat PsiState_new sample_pat_packet zero_packet = Done (IGNORE, s') /\
  isPid (mPmt s') 100 = true /\ mPidValid (mEcm s') = false /\
  isNew (mPat s') 2 = false /\ mTsPacket (mPat s') = section_copy sample_pat_packet zero_packet.
Proof.
  apply (parsePat_first_program PsiState_new sample_pat sample_pat_packet zero_packet
    (zdrop 21 sample_pat_packet) 2200 100 []); try reflexivity; try discriminate.
  - exists 16, 0, 0; repeat split; lia.
  - repeat constructor; cbn; lia.
  - cbn; lia.
Defined.

(** A PAT with the network entry first: the PMT of program 2200 is on 100. *)
Definition network_pat : program_association :=
  mkPAT 213 2 [(0, 16); (2200, 100)] [1; 2; 3; 4].

Definition network_pat_packet : StreamPacketT := sample_packet 0 (0 :: encode_pat network_pat).

Lemma parsePat_network_entry_witness : exists s',
  parsePat PsiState_new network_pat_packet zero_packet = Done (IGNORE, s') /\
  mPid (mPmt s') = 2200.
Proof.
  apply (parsePat_network_entry PsiState_new network_pat network_pat_packet zero_packet
    (zdrop 25 network_pat_packet) 16 2200 100 []); try reflexivity.
  - exists 16, 0, 0; repeat split; lia.
  - repeat constructor; cbn; lia.
  - cbn; lia.
Defined.

(** A PAT packet whose pointer field is 183. *)
Definition far_pat_packet : StreamPacketT := [71; 64; 0; 16; 183] ++ replicate 183 0.

Lemma parsePat_out_of_bounds_witness :
  parsePat PsiState_new far_pat_packet zero_packet = Stop Overread.
Proof.
  apply (parsePat_out_of_bounds PsiState_new far_pat_packet zero_packet 16 183);
    try reflexivity; try discriminate; [|lia].
  apply sample_is_packet; vm_compute; reflexivity.
Defined.

Definition knows_pmt : PsiState :=
  PsiState_new <| mPmt := mkPidInfo 100 0 true false zero_packet |>.

Lemma parsePmt_correct_witness :
  parsePmt knows_pmt sample_pmt_packet zero_packet =
  Done (IGNORE, pmt_effect knows_pmt sample_pmt sample_pmt_packet zero_packet) /\
  isPid (mEcm (pmt_effect knows_pmt sample_pmt sample_pmt_packet zero_packet)) 102 = true.
Proof.
  split; [|vm_compute; reflexivity].
  apply (parsePmt_correct knows_pmt sample_pmt sample_pmt_packet zero_packet
    (zdrop 67 sample_pmt_packet) 100); try reflexivity.
  - apply sample_program_map_ok.
  - exists 16, 0; repeat split; done || lia.
Defined.
