(* ===== verification/Floats.v ===== *)
(** The [float] and [double] arithmetic of the sources, through the executable IEEE 754
    operations of the Standard Library: binary32 has a significand of 24 bits and
    exponents up to 128, binary64 of 53 bits and up to 1024; every operation rounds to
    nearest, ties to even. *)

From Corelib Require Import SpecFloat.
From S2P Require Import Prelude.

Definition f32_of_Z (z : Z) : spec_float := binary_normalize 24 128 z 0 false.
Definition f64_of_Z (z : Z) : spec_float := binary_normalize 53 1024 z 0 false.

Definition f32_of_f64 (f : spec_float) : spec_float :=
  match f with
  | S754_finite s m e => binary_normalize 24 128 (if s then Z.neg m else Z.pos m) e s
  | _ => f
  end.

Definition f32_add : spec_float -> spec_float -> spec_float := SFadd 24 128.
Definition f32_mul : spec_float -> spec_float -> spec_float := SFmul 24 128.
Definition f32_div : spec_float -> spec_float -> spec_float := SFdiv 24 128.
Definition f64_mul : spec_float -> spec_float -> spec_float := SFmul 53 1024.
Definition f64_div : spec_float -> spec_float -> spec_float := SFdiv 53 1024.

(** The integral part of [m * 2 ^ e]. *)
Definition truncate (m : positive) (e : Z) : Z :=
  if 0 <=? e then Z.shiftl (Z.pos m) e else Z.shiftr (Z.pos m) (- e).

(** Conversion to [uint64_t] drops the fraction; a value whose integral part the type
    cannot hold is undefined behaviour. *)
Definition u64_of_float (f : spec_float) : outcome Z :=
  match f with
  | S754_zero _ => Done 0
  | S754_finite s m e =>
    let t := truncate m e in
    if t =? 0 then Done 0
    else if s then Stop Ub
    else if t <? 18446744073709551616 then Done t else Stop Ub
  | _ => Stop Ub
  end.

(** Conversion to [int64_t]. *)
Definition s64_of_float (f : spec_float) : outcome Z :=
  match f with
  | S754_zero _ => Done 0
  | S754_finite s m e =>
    let t := if s then - truncate m e else truncate m e in
    if (-9223372036854775808 <=? t) && (t <? 9223372036854775808) then Done t else Stop Ub
  | _ => Stop Ub
  end.

Lemma truncate_nonneg m e : 0 <= truncate m e.
Proof.
  unfold truncate; case_if; [apply Z.shiftl_nonneg | apply Z.shiftr_nonneg]; lia.
Qed.

Lemma u64_of_float_range f z : u64_of_float f = Done z -> 0 <= z < 18446744073709551616.
Proof.
  destruct f as [| | |s m e]; cbn; try done; [intros [= <-]; lia|].
  pose proof (truncate_nonneg m e); repeat case_if; try done; intros [= <-]; lia.
Qed.

Lemma u64_of_float_stop f e : u64_of_float f = Stop e -> e = Ub.
Proof. destruct f; cbn; repeat case_if; congruence. Qed.

(** * Conversions that lose nothing *)

Lemma digits2_pos_log2 p : Z.pos (digits2_pos p) = Z.log2 (Z.pos p) + 1.
Proof.
  induction p as [p IH|p IH|]; cbn [digits2_pos]; rewrite ?Pos2Z.inj_succ, ?IH; [..|done].
  - change (Z.pos p~1) with (2 * Z.pos p + 1); rewrite Z.log2_succ_double by lia; lia.
  - change (Z.pos p~0) with (2 * Z.pos p); rewrite Z.log2_double by lia; lia.
Qed.

Lemma shr_1_half r : 0 <= shr_m r -> shr_m (shr_1 r) = shr_m r / 2 /\ 0 <= shr_m (shr_1 r).
Proof.
  destruct r as [[|[p|p|]|p] b1 b2]; cbn [shr_m shr_1]; intros; split; try done.
  - apply (Z.div_unique _ _ _ 1); lia.
  - apply (Z.div_unique _ _ _ 0); lia.
Qed.

Lemma shr_iter p r : 0 <= shr_m r ->
  shr_m (SpecFloat.iter_pos shr_1 p r) = shr_m r / 2 ^ Z.pos p /\ 0 <= shr_m (SpecFloat.iter_pos shr_1 p r).
Proof.
  revert r; induction p as [p IH|p IH|]; intros r Hr; cbn [SpecFloat.iter_pos]; [| |by apply shr_1_half].
  - destruct (shr_1_half r Hr) as [E1 H1], (IH _ H1) as [E2 H2], (IH _ H2) as [E3 H3]; split; [|done].
    rewrite E3, E2, E1, !Z.div_div by lia; f_equal.
    change (Z.pos p~1) with (2 * Z.pos p + 1); replace (2 * Z.pos p + 1) with (1 + Z.pos p + Z.pos p) by lia.
    rewrite !Z.pow_add_r by lia; lia.
  - destruct (IH _ Hr) as [E1 H1], (IH _ H1) as [E2 H2]; split; [|done].
    rewrite E2, E1, Z.div_div by lia; f_equal.
    change (Z.pos p~0) with (2 * Z.pos p); replace (2 * Z.pos p) with (Z.pos p + Z.pos p) by lia.
    by rewrite Z.pow_add_r by lia.
Qed.

(** Rounding a significand of at least 53 bits first drops those behind the 53rd. *)
Lemma shr_fexp_drops m e l : 2 ^ 52 <= m -> -1074 <= e + (Z.log2 m - 52) ->
  exists r, shr_fexp 53 1024 m e l = (r, e + (Z.log2 m - 52)) /\ shr_m r = m / 2 ^ (Z.log2 m - 52).
Proof.
  intros Hm He; assert (Hl : 52 <= Z.log2 m) by (apply Z.log2_le_pow2 in Hm; lia).
  unfold shr_fexp; assert (Zdigits2 m = Z.log2 m + 1) as -> by (destruct m; [lia|apply digits2_pos_log2|lia]).
  unfold fexp, emin; replace (_ - e) with (Z.log2 m - 52) by lia.
  assert (Hr : shr_m (shr_record_of_loc m l) = m) by (by destruct l as [|[]]).
  destruct (Z.log2 m - 52) as [|p|p] eqn:E; [|..|lia]; cbn [shr].
  - exists (shr_record_of_loc m l); by rewrite Hr, Z.add_0_r, Z.div_1_r.
  - eexists; split; [done|]; destruct (shr_iter p (shr_record_of_loc m l)) as [-> _]; [lia|]; by rewrite Hr.
Qed.

Lemma round_near m l : m <= round_nearest_even m l <= m + 1.
Proof. destruct l as [|[]]; cbn; repeat case_if; lia. Qed.

Lemma truncate_pow m e : e < 0 -> truncate m e = Z.pos m / 2 ^ (- e).
Proof. intros; unfold truncate; rewrite (proj2 (Z.leb_gt 0 e)), Z.shiftr_div_pow2 by lia; done. Qed.

(** The integral part of a rounded number is that of the number, when the number is not so near
    to the next integer that the last place of the significand reaches it. *)
Lemma round_truncates m e l N :
  2 ^ 52 <= m -> -1074 <= e + (Z.log2 m - 52) < 0 -> 0 <= N < 2 ^ 64 ->
  N * 2 ^ (- e) <= m -> m + 2 ^ (Z.log2 m - 52) < (N + 1) * 2 ^ (- e) ->
  u64_of_float (binary_round_aux 53 1024 false m e l) = Done N.
Proof.
  intros Hm He HN Hlo Hhi; assert (Hl : 52 <= Z.log2 m) by (apply Z.log2_le_pow2 in Hm; lia).
  unfold binary_round_aux; destruct (shr_fexp_drops m e l Hm) as (r & -> & Hr); [lia|].
  destruct (Z.log2_spec m) as [Hm1 Hm2]; [lia|].
  set (n := Z.log2 m - 52) in *; set (e1 := e + n) in *; set (b := round_nearest_even _ _).
  pose proof (round_near (shr_m r) (loc_of_shr_record r)) as Hb; fold b in Hb; rewrite Hr in Hb.
  replace (Z.log2 m) with (52 + n) in Hm1, Hm2 by lia.
  replace (- e) with (- e1 + n) in Hlo, Hhi by lia; rewrite Z.pow_add_r in Hlo, Hhi by lia.
  rewrite <- Z.add_succ_l in Hm2; rewrite Z.pow_add_r in Hm1, Hm2 by lia.
  pose proof (Z.pow_pos_nonneg 2 n); pose proof (Z.pow_pos_nonneg 2 (- e1)).
  pose proof (Z.div_mod m (2 ^ n)); pose proof (Z.mod_pos_bound m (2 ^ n)); set (a := m / 2 ^ n) in *.
  assert (Ha : 2 ^ 52 <= a < 2 ^ 53) by (change (Z.succ 52) with 53 in *; nia).
  assert (HbN : b / 2 ^ (- e1) = N) by (symmetry; apply (Z.div_unique b _ N (b - N * 2 ^ (- e1))); nia).
  destruct (shr_fexp_drops b e1 loc_Exact) as (r2 & -> & Hr2); [lia| |].
  { pose proof (Z.log2_le_mono (2 ^ 52) b); rewrite Z.log2_pow2 in * by lia; lia. }
  assert (Hcase : Z.log2 b = 52 /\ shr_m r2 = b \/ Z.log2 b = 53 /\ b = 2 ^ 53 /\ shr_m r2 = 2 ^ 52).
  { destruct (decide (b < 2 ^ 53)).
    - left; assert (E : Z.log2 b = 52) by (apply Z.log2_unique; lia).
      split; [done|]; by rewrite Hr2, E, Z.div_1_r.
    - right; assert (b = 2 ^ 53) as E by lia; by rewrite Hr2, E. }
  assert (Hfin : forall p e2, truncate p e2 = N -> u64_of_float (S754_finite false p e2) = Done N).
  { intros p e2 Ht; cbn; rewrite Ht; repeat case_if; b2p; (congruence || lia). }
  destruct Hcase as [[-> Er]|(-> & Eb & Er)]; rewrite Er.
  - destruct b as [|p|p]; [lia| |lia]; rewrite (proj2 (Z.leb_le _ _)) by lia.
    apply Hfin; rewrite Z.add_0_r, truncate_pow by lia; done.
  - cbn [Z.pow Z.pow_pos Pos.iter Z.mul Pos.mul]; rewrite (proj2 (Z.leb_le _ _)) by lia; apply Hfin.
    rewrite <- HbN, Eb; unfold truncate; case_if.
    + assert (e1 = -1) as -> by lia; done.
    + rewrite Z.shiftr_div_pow2 by lia; replace (- e1) with (1 + - (e1 + 1)) by lia.
      rewrite Z.pow_add_r, <- Z.div_div by lia; done.
Qed.

(** An integer of up to 53 bits is a [double], normalised. *)
Lemma f64_of_Z_exact z : 0 < z < 2 ^ 53 -> exists m,
  f64_of_Z z = S754_finite false m (Z.log2 z - 52) /\ Z.pos m = z * 2 ^ (52 - Z.log2 z).
Proof.
  intros Hz; destruct z as [|p|p]; [lia| |lia]; unfold f64_of_Z, binary_normalize, binary_round.
  destruct (Z.log2_spec (Z.pos p)) as [H1 H2]; [lia|].
  assert (Hl : 0 <= Z.log2 (Z.pos p) <= 52).
  { split; [apply Z.log2_nonneg|]; assert (Z.log2 (Z.pos p) < 53) by (apply Z.log2_lt_pow2; lia); lia. }
  rewrite digits2_pos_log2; unfold fexp, emin; set (k := Z.log2 (Z.pos p)) in *.
  replace (Z.max _ _) with (k - 52) by lia.
  assert (Hs : exists m, shl_align p 0 (k - 52) = (m, k - 52) /\ Z.pos m = Z.pos p * 2 ^ (52 - k)).
  { unfold shl_align; destruct (k - 52 - 0) as [|d|d] eqn:E; [|lia|].
    - exists p; replace (k - 52) with 0 by lia; replace (52 - k) with 0 by lia; split; [done|lia].
    - eexists; split; [done|]; replace (52 - k) with (Z.pos d) by lia.
      clear; induction d using Pos.peano_ind; [cbn; lia|].
      rewrite Pos.iter_succ, Pos2Z.inj_succ, Z.pow_succ_r, Pos2Z.inj_xO, IHd by lia; lia. }
  destruct Hs as (m & -> & Hm); exists m; split; [|done]; unfold binary_round_aux.
  assert (Hm2 : 2 ^ 52 <= Z.pos m < 2 ^ 53).
  { rewrite Hm; replace 52 with (k + (52 - k)) at 1 by lia.
    replace (2 ^ 53) with (2 ^ (Z.succ k) * 2 ^ (52 - k)) by (rewrite <- Z.pow_add_r by lia; f_equal; lia).
    rewrite Z.pow_add_r by lia; pose proof (Z.pow_pos_nonneg 2 (52 - k)); nia. }
  assert (E : Z.log2 (Z.pos m) = 52) by (apply Z.log2_unique; lia).
  unfold shr_fexp; assert (Zdigits2 (Z.pos m) = 53) as -> by (cbn; rewrite digits2_pos_log2; lia).
  unfold fexp, emin; replace (Z.max _ _ - _) with 0 by lia; cbn [shr shr_record_of_loc loc_of_shr_record shr_m round_nearest_even].
  assert (Zdigits2 (Z.pos m) = 53) as -> by (cbn; rewrite digits2_pos_log2; lia).
  replace (Z.max _ _ - _) with 0 by lia; cbn [shr shr_m].
  by rewrite (proj2 (Z.leb_le _ _)) by lia.
Qed.

Lemma f64_1000 : f64_of_Z 1000 = S754_finite false 8796093022208000 (-43).
Proof. by vm_compute. Qed.

Lemma log2_53 m : 2 ^ 52 <= m < 2 ^ 53 -> Zdigits2 m = 53.
Proof. intros; destruct m as [|p|p]; [lia| |lia]; cbn; by rewrite digits2_pos_log2, (Z.log2_unique _ 52) by lia. Qed.

(** [(uint64_t)(z / 1e3)] and [(uint64_t)(z * 1e3)]. *)
Lemma f64_div_1000 z : 0 <= z < 2 ^ 50 -> u64_of_float (f64_div (f64_of_Z z) (f64_of_Z 1000)) = Done (z / 1000).
Proof.
  intros Hz; destruct (decide (z = 0)) as [->|Hnz]; [by vm_compute|].
  destruct (f64_of_Z_exact z) as (m & -> & Hm); [lia|]; rewrite f64_1000.
  destruct (Z.log2_spec z) as [H1 H2]; [lia|]; pose proof (Z.log2_nonneg z).
  assert (Hk : Z.log2 z < 50) by (apply Z.log2_lt_pow2; lia); set (k := Z.log2 z) in *.
  assert (Hm2 : 2 ^ 52 <= Z.pos m < 2 ^ 53).
  { replace (2 ^ 52) with (2 ^ k * 2 ^ (52 - k)) by (rewrite <- Z.pow_add_r by lia; f_equal; lia).
    replace (2 ^ 53) with (2 ^ Z.succ k * 2 ^ (52 - k)) by (rewrite <- Z.pow_add_r by lia; f_equal; lia).
    pose proof (Z.pow_pos_nonneg 2 (52 - k)); nia. }
  unfold f64_div, SFdiv, SFdiv_core_binary; rewrite (log2_53 (Z.pos m)), (log2_53 8796093022208000) by (done || lia).
  unfold fexp, emin; replace (Z.min _ _) with (k - 62) by lia.
  replace (k - 52 - -43 - (k - 62)) with 53 by lia; rewrite Z.shiftl_mul_pow2 by lia.
  pose proof (Z.div_mod (Z.pos m * 2 ^ 53) 8796093022208000) as Hd; pose proof (Z.mod_pos_bound (Z.pos m * 2 ^ 53) 8796093022208000) as Hr.
  unfold Z.div, Z.modulo in Hd, Hr; destruct (Z.div_eucl _ _) as [q r]; cbn [xorb].
  set (P := 2 ^ (62 - k)).
  assert (HP : 2 ^ (52 - k) * 1024 = P) by (change 1024 with (2 ^ 10); unfold P; rewrite <- Z.pow_add_r by lia; f_equal; lia).
  assert (HkP : 2 ^ k * P = 2 ^ 62) by (unfold P; rewrite <- Z.pow_add_r by lia; f_equal; lia).
  assert (HP2 : 2 ^ 13 <= P) by (unfold P; apply Z.pow_le_mono_r; lia).
  pose proof (Z.div_mod z 1000); pose proof (Z.mod_pos_bound z 1000); set (N := z / 1000) in *.
  rewrite Z.pow_succ_r in H2 by lia.
  assert (Hq : 1000 * q <= z * P < 1000 * q + 1000) by lia.
  assert (Hq2 : 2 ^ 52 <= q < 2 ^ 54) by nia.
  assert (Hl : 52 <= Z.log2 q <= 53).
  { split; [apply Z.log2_le_pow2; lia|]; assert (Z.log2 q < 54) by (apply Z.log2_lt_pow2; lia); lia. }
  assert (Hn : 1 <= 2 ^ (Z.log2 q - 52) <= 2) by (assert (Z.log2 q = 52 \/ Z.log2 q = 53) as [-> | ->] by lia; cbn; lia).
  apply round_truncates; [lia|lia|nia|..]; replace (- (k - 62)) with (62 - k) by lia; fold P; nia.
Qed.

Lemma f64_mul_1000 z : 0 <= z < 2 ^ 42 -> u64_of_float (f64_mul (f64_of_Z z) (f64_of_Z 1000)) = Done (z * 1000).
Proof.
  intros Hz; destruct (decide (z = 0)) as [->|Hnz]; [by vm_compute|].
  destruct (f64_of_Z_exact z) as (m & -> & Hm); [lia|]; rewrite f64_1000.
  pose proof (Z.log2_nonneg z); assert (Hk : Z.log2 z < 42) by (apply Z.log2_lt_pow2; lia); set (k := Z.log2 z) in *.
  unfold f64_mul, SFmul; cbn [xorb]; rewrite Pos2Z.inj_mul, Hm.
  assert (E : z * 2 ^ (52 - k) * 8796093022208000 = z * 1000 * 2 ^ (95 - k)).
  { change 8796093022208000 with (1000 * 2 ^ 43); replace (95 - k) with (52 - k + 43) by lia; rewrite Z.pow_add_r by lia; lia. }
  rewrite E; assert (Hl : Z.log2 (z * 1000 * 2 ^ (95 - k)) = Z.log2 (z * 1000) + (95 - k)) by (rewrite Z.log2_mul_pow2 by lia; lia).
  assert (Hl2 : Z.log2 (z * 1000) < 52) by (apply Z.log2_lt_pow2; lia).
  pose proof (Z.log2_nonneg (z * 1000)); pose proof (Z.pow_lt_mono_r 2 (Z.log2 (z * 1000) + 43 - k) (95 - k)).
  assert (Hk2 : 2 ^ 53 <= 2 ^ (95 - k)) by (apply Z.pow_le_mono_r; lia).
  apply round_truncates; rewrite ?Hl; replace (- (k - 52 + -43)) with (95 - k) by lia; [nia|lia|lia|lia|].
  replace (Z.log2 (z * 1000) + (95 - k) - 52) with (Z.log2 (z * 1000) + 43 - k) by lia; nia.
Qed.
