(* ===== verification/UpperBound.v ===== *)
(** [std::upper_bound] over a range of an indexed container: the bisection of the
    standard library, and its equivalence with the linear search it promises. *)

From S2P Require Import Prelude.

Lemma half_bound len : 0 < len -> 0 <= Z.shiftr len 1 < len.
Proof.
  intros; rewrite Z.shiftr_div_pow2 by lia; change (2 ^ 1) with 2.
  split; [apply Z.div_pos | apply Z.div_lt]; lia.
Qed.

Section upper_bound.
Context {A : Type} (before : A -> bool).
Implicit Types l : list A.

(** [before x] is [value < x], the comparison [upper_bound] makes; the range starts at
    [first] and has [len] elements. *)
Fixpoint upper_bound_loop (fuel : nat) l (first len : Z) : outcome Z :=
  match fuel with
  | O => Stop OutOfFuel
  | S fuel =>
    if 0 <? len then
      let half := Z.shiftr len 1 in
      let middle := first + half in
      x ← rd l middle;
      if before x then upper_bound_loop fuel l first half
      else upper_bound_loop fuel l (middle + 1) (len - half - 1)
    else Done first
  end.

Definition upper_bound l (first last : Z) : outcome Z :=
  upper_bound_loop (S (Z.to_nat (last - first))) l first (last - first).

(** The linear search: the first position of the range whose element [before] accepts,
    or its end. *)
Fixpoint first_before (fuel : nat) l (i last : Z) : Z :=
  match fuel with
  | O => i
  | S fuel =>
    if i <? last then
      match rd l i with
      | Done x => if before x then i else first_before fuel l (i + 1) last
      | Stop _ => i
      end
    else last
  end.

Definition linear_bound l (first last : Z) : Z :=
  first_before (Z.to_nat (last - first)) l first last.

(** The range is partitioned: once [before] accepts, it accepts everything after. *)
Definition partitioned l (first last : Z) : Prop :=
  forall i j x y, first <= i -> i <= j -> j < last ->
    rd l i = Done x -> rd l j = Done y -> before x = true -> before y = true.

Lemma partitioned_sub l first last first' last' : partitioned l first last ->
  first <= first' -> last' <= last -> partitioned l first' last'.
Proof. intros Hp ?? i j x y ???; apply Hp; lia. Qed.

(** What both searches find. *)
Record is_bound l (first last r : Z) : Prop := {
  ib_range : first <= r <= last;
  ib_below : forall i x, first <= i < r -> rd l i = Done x -> before x = false;
  ib_above : forall i x, r <= i < last -> rd l i = Done x -> before x = true;
}.

Lemma upper_bound_loop_ok fuel l first len last0 last :
  0 <= first -> 0 <= len -> last = first + len -> last <= zlen l -> last <= last0 ->
  (Z.to_nat len < fuel)%nat -> partitioned l first last ->
  exists r, upper_bound_loop fuel l first len = Done r /\ is_bound l first last r.
Proof.
  revert first len last; induction fuel as [|fuel IH]; intros first len last Hf Hl -> Hz H0 Hfu Hp;
    [lia|]; cbn [upper_bound_loop].
  case_if; [|exists first; split; [done|split; [lia|intros; lia..]]].
  pose proof (half_bound len ltac:(lia)) as Hh.
  set (half := Z.shiftr len 1) in *; destruct (rd_in_range l (first + half)) as [x Hx]; [lia|].
  rewrite Hx; cbn [mbind outcome_bind].
  destruct (before x) eqn:Hb.
  - destruct (IH first half (first + half)) as (r & -> & [Hr Hlow Hup]); [lia..| |].
    { eapply partitioned_sub; [exact Hp|lia..]. }
    exists r; split; [done|]; split; [lia|done|].
    intros i y Hi Hy; destruct (Z.lt_ge_cases i (first + half)); [apply (Hup i); [lia|done]|].
    apply (Hp (first + half) i x y); try done; lia.
  - destruct (IH (first + half + 1) (len - half - 1) (first + len)) as (r & -> & [Hr Hlow Hup]); [lia..| |].
    { eapply partitioned_sub; [exact Hp|lia..]. }
    exists r; split; [done|]; split; [lia| |done].
    intros i y Hi Hy; destruct (Z.lt_ge_cases i (first + half + 1)); [|apply (Hlow i); [lia|done]].
    destruct (before y) eqn:Hyb; [|done].
    rewrite <- Hb; symmetry; apply (Hp i (first + half) y x); try done; lia.
Qed.

Lemma upper_bound_ok l first last :
  0 <= first <= last -> last <= zlen l -> partitioned l first last ->
  exists r, upper_bound l first last = Done r /\ is_bound l first last r.
Proof. intros; apply (upper_bound_loop_ok _ _ _ _ last); auto; lia. Qed.

Lemma first_before_bound n l i last : 0 <= i <= last -> last <= zlen l ->
  n = Z.to_nat (last - i) -> partitioned l i last -> is_bound l i last (first_before n l i last).
Proof.
  revert i; induction n as [|n IH]; intros i Hi Hl Hn Hp; cbn [first_before].
  { split; [lia|intros; lia..]. }
  rewrite (proj2 (Z.ltb_lt _ _)) by lia.
  destruct (rd_in_range l i) as [x Hx]; [lia|]; rewrite Hx; destruct (before x) eqn:Hb.
  - split; [lia|intros; lia|]; intros j y Hj Hy; apply (Hp i j x y); try done; lia.
  - destruct (IH (i + 1)) as [Hr Hlow Hup]; [lia..|eapply partitioned_sub; [exact Hp|lia..]|].
    split; [lia| |done]; intros j y Hj Hy.
    destruct (Z.eq_dec j i) as [->|]; [congruence|apply (Hlow j); [lia|done]].
Qed.

Lemma is_bound_unique l first last r r' : 0 <= first -> last <= zlen l ->
  is_bound l first last r -> is_bound l first last r' -> r = r'.
Proof.
  intros Hf Hl [Hr Hlow Hup] [Hr' Hlow' Hup'].
  destruct (Z.lt_trichotomy r r') as [Hlt|[->|Hlt]]; [|done|].
  - destruct (rd_in_range l r) as [x Hx]; [lia|].
    specialize (Hlow' r x ltac:(lia) Hx); rewrite (Hup r x ltac:(lia) Hx) in Hlow'; done.
  - destruct (rd_in_range l r') as [x Hx]; [lia|].
    specialize (Hlow r' x ltac:(lia) Hx); rewrite (Hup' r' x ltac:(lia) Hx) in Hlow; done.
Qed.

(** The bisection finds what the linear search finds. *)
Lemma upper_bound_linear l first last :
  0 <= first <= last -> last <= zlen l -> partitioned l first last ->
  upper_bound l first last = Done (linear_bound l first last).
Proof.
  intros Hf Hl Hp; destruct (upper_bound_ok l first last Hf Hl Hp) as (r & -> & Hr); f_equal.
  eapply is_bound_unique; [| |exact Hr|]; [lia|done|].
  by apply first_before_bound.
Qed.

(** On any range, partitioned or not, the bisection ends and stays inside it. *)
Lemma upper_bound_total l first last : 0 <= first <= last -> last <= zlen l ->
  exists r, upper_bound l first last = Done r /\ first <= r <= last.
Proof.
  intros Hf Hl; unfold upper_bound.
  assert (Hgo : forall fuel f len, first <= f -> 0 <= len -> f + len <= last ->
    (Z.to_nat len < fuel)%nat ->
    exists r, upper_bound_loop fuel l f len = Done r /\ f <= r <= f + len).
  { induction fuel as [|fuel IH]; intros f len H1 H2 H3 H4; [lia|]; cbn [upper_bound_loop].
    case_if; [|exists f; split; [done|lia]].
    pose proof (half_bound len ltac:(lia)) as Hh.
    set (half := Z.shiftr len 1) in *; destruct (rd_in_range l (f + half)) as [x Hx]; [lia|].
    rewrite Hx; cbn [mbind outcome_bind]; destruct (before x).
    - destruct (IH f half) as (r & -> & Hr); [lia..|]; exists r; split; [done|lia].
    - destruct (IH (f + half + 1) (len - half - 1)) as (r & -> & Hr); [lia..|].
      exists r; split; [done|lia]. }
  destruct (Hgo (S (Z.to_nat (last - first))) first (last - first)) as (r & -> & Hr); [lia..|].
  exists r; split; [done|lia].
Qed.

End upper_bound.
