(* ===== verification/BufferIndexer.v ===== *)
(** Class [BufferIndexer] of include/StreamParser/BufferIndexer.h and
    src/StreamParser/BufferIndexer.cpp: the index of the time shift buffer, which maps
    seek times to byte offsets and back. *)

From Corelib Require Import SpecFloat.
From S2P Require Import Prelude Interfaces Floats UpperBound.

Inductive BuffErr := BUF_OK | BUF_OUT_OF_RANGE | BUF_EMPTY.

#[export] Instance BuffErr_eq_dec : EqDecision BuffErr.
Proof. solve_decision. Defined.

(** Time in microseconds and accumulated buffer size. *)
Definition index_pair : Type := Z * Z.

Record BufferIndexer (cb : Type -> Type) := mkBufferIndexer {
  mSamplingRatio : Z;
  mBufferCount : Z;
  mTsbSize : Z;
  mBufInd : cb index_pair;
  mLastByteOffsetFromTimeUs : index_pair;
  mLastTimeUsFromByteOffset : index_pair;
}.
Arguments mkBufferIndexer {cb} _ _ _ _ _ _.
Arguments mSamplingRatio {cb} _.
Arguments mBufferCount {cb} _.
Arguments mTsbSize {cb} _.
Arguments mBufInd {cb} _.
Arguments mLastByteOffsetFromTimeUs {cb} _.
Arguments mLastTimeUsFromByteOffset {cb} _.

#[export] Instance BufferIndexer_eta cb : Eta (BufferIndexer cb) := fun r =>
  mkBufferIndexer (mSamplingRatio r) (mBufferCount r) (mTsbSize r) (mBufInd r)
    (mLastByteOffsetFromTimeUs r) (mLastTimeUsFromByteOffset r).

Definition byteOffsetSearch (target : Z) (current : index_pair) : bool := target <? current.1.
Definition timeSearch (target : Z) (current : index_pair) : bool := target <? current.2.

Section BufferIndexer.
Context {cb : Type -> Type} {CB : CircularBuffer cb}.
Implicit Types s : BufferIndexer cb.

(** Dividing by a sampling ratio of 0 is undefined. *)
Definition BufferIndexer_new (tsbSize tailSize samplingRatio : Z) : outcome (BufferIndexer cb) :=
  if samplingRatio =? 0 then Stop Ub
  else Done {|
    mSamplingRatio := samplingRatio;
    mBufferCount := 0;
    mTsbSize := u64 (tsbSize - tailSize) / samplingRatio;
    mBufInd := cb_new (tsbSize / samplingRatio);
    mLastByteOffsetFromTimeUs := (0, 0);
    mLastTimeUsFromByteOffset := (0, 0);
  |}.

Definition items s : list index_pair := cb_items (mBufInd s).
Definition size s : Z := zlen (items s).

(** [front()] and [back()] of an empty buffer are undefined. *)
Definition front s : outcome index_pair := rd (items s) 0.
Definition back s : outcome index_pair := rd (items s) (size s - 1).

Definition getIndexSize s : Z :=
  let actualSize := size s in
  if mTsbSize s <? actualSize then mTsbSize s else actualSize.

Definition getFrontIndex s : Z := size s - getIndexSize s.

Definition getFront s : outcome index_pair := rd (items s) (size s - getIndexSize s).

(** [currentTime] is what the clock reads. *)
Definition registerBufferCount s (currentTime bufferCount : Z)
  : outcome (bool * Z * BufferIndexer cb) :=
  if mSamplingRatio s =? 0 then Stop Ub
  else
    let sample := mBufferCount s mod mSamplingRatio s =? 0 in
    let s := s <| mBufferCount := u64 (mBufferCount s + 1) |> in
    if sample then
      let s := s <| mBufInd := cb_push_back (currentTime, bufferCount) (mBufInd s) |> in
      Done (true, size s, s)
    else Done (false, size s, s).

(** The index of the sample for [time], interpolated between the samples [i - 1] and
    [i]: [float gradient = 1.0 / (int64_t)(t1 - t0)], then [i + gradient * (float)dt]. *)
Definition interpolate_index (i t1 t0 dt : Z) : outcome Z :=
  let gradient := f32_of_f64 (f64_div (f64_of_Z 1) (f64_of_Z (s64 (u64 (t1 - t0))))) in
  u64_of_float (f32_add (f32_of_Z i) (f32_mul gradient (f32_of_Z (u64 dt)))).

(** The time that has passed since sample [i - 1] for [d] bytes more:
    [(uint64_t)(gradient * (float)d)]. *)
Definition interpolate_time (t1 t0 b1 b0 d : Z) : outcome Z :=
  let gradient := f32_div (f32_of_Z (u64 (t1 - t0))) (f32_of_Z (u64 (b1 - b0))) in
  u64_of_float (f32_mul gradient (f32_of_Z (u64 d))).

(** [byteOffset] is an out parameter, left alone on some of the error returns. *)
Definition getByteOffsetFromTimeUs s (time byteOffset : Z)
  : outcome (BuffErr * Z * BufferIndexer cb) :=
  if size s =? 0 then Done (BUF_EMPTY, byteOffset, s)
  else if time =? (mLastByteOffsetFromTimeUs s).1 then
    Done (BUF_OK, (mLastByteOffsetFromTimeUs s).2, s)
  else if time =? 0 then
    Done (BUF_OK, 0, s <| mLastByteOffsetFromTimeUs := (0, 0) |>)
  else
    f ← getFront s;
    b ← back s;
    if b.1 <? u64 (f.1 + time) then
      let byteOffset := u64 (b.2 - f.2) in
      Done (BUF_OUT_OF_RANGE, byteOffset, s <| mLastByteOffsetFromTimeUs := (time, byteOffset) |>)
    else
      let timeTarget := u64 (b.1 - time) in
      it ← upper_bound (byteOffsetSearch timeTarget) (items s) (getFrontIndex s) (size s);
      if it =? size s then Done (BUF_OUT_OF_RANGE, byteOffset, s)
      else
        prev ← rd (items s) (it - 1);
        cur ← rd (items s) it;
        index ← interpolate_index it prev.1 cur.1 (time - u64 (b.1 - cur.1));
        at_index ← rd (items s) index;
        let byteOffset := u64 (b.2 - at_index.2) in
        Done (BUF_OK, byteOffset, s <| mLastByteOffsetFromTimeUs := (time, byteOffset) |>).

Definition getTimeUsFromByteOffset s (byteOffset time : Z)
  : outcome (BuffErr * Z * BufferIndexer cb) :=
  if size s =? 0 then Done (BUF_EMPTY, time, s)
  else if byteOffset =? (mLastTimeUsFromByteOffset s).1 then
    Done (BUF_OK, (mLastTimeUsFromByteOffset s).2, s)
  else if byteOffset =? 0 then
    Done (BUF_OK, 0, s <| mLastTimeUsFromByteOffset := (0, 0) |>)
  else
    f ← getFront s;
    b ← back s;
    if b.2 <? u64 (f.2 + byteOffset) then
      let time := u64 (b.1 - f.1) in
      Done (BUF_OUT_OF_RANGE, time, s <| mLastTimeUsFromByteOffset := (byteOffset, time) |>)
    else
      let targetOffset := u64 (b.2 - byteOffset) in
      it ← upper_bound (timeSearch targetOffset) (items s) (getFrontIndex s) (size s);
      if it =? size s then Done (BUF_OUT_OF_RANGE, time, s)
      else
        prev ← rd (items s) (it - 1);
        cur ← rd (items s) it;
        dt ← interpolate_time cur.1 prev.1 cur.2 prev.2 (targetOffset - prev.2);
        let absTime := u64 (prev.1 + dt) in
        let time := u64 (b.1 - absTime) in
        Done (BUF_OK, time, s <| mLastTimeUsFromByteOffset := (byteOffset, time) |>).

Definition getTimestampUsForByteIndex s (byteIndex time : Z) : outcome (BuffErr * Z) :=
  if size s =? 0 then Done (BUF_EMPTY, time)
  else
    f ← front s;
    if byteIndex <=? f.2 then
      Done (if byteIndex <? f.2 then BUF_OUT_OF_RANGE else BUF_OK, f.1)
    else
      b ← back s;
      if b.2 <=? byteIndex then
        Done (if b.2 <? byteIndex then BUF_OUT_OF_RANGE else BUF_OK, b.1)
      else
        it ← upper_bound (timeSearch byteIndex) (items s) 0 (size s);
        if it =? size s then Done (BUF_OUT_OF_RANGE, time)
        else
          prev ← rd (items s) (it - 1);
          cur ← rd (items s) it;
          dt ← interpolate_time cur.1 prev.1 cur.2 prev.2 (byteIndex - prev.2);
          Done (BUF_OK, u64 (prev.1 + dt)).

Definition getIndexSizeInTimeUs s : outcome Z :=
  if size s =? 0 then Done 0
  else b ← back s; f ← getFront s; Done (u64 (b.1 - f.1)).

Definition getIndexSizeInBytes s : outcome Z :=
  if size s =? 0 then Done 0
  else b ← back s; f ← getFront s; Done (u64 (b.2 - f.2)).

Definition getBufferCapacity s : Z := mTsbSize s.

Definition BufferIndexer_clear s : BufferIndexer cb :=
  s <| mBufferCount := 0 |> <| mBufInd := cb_clear (mBufInd s) |>.

End BufferIndexer.
