(* ===== verification/IndexerProps.v ===== *)
(** Theorems on the buffer indexer: what it holds after any number of registrations, and
    what its queries answer. *)

From S2P Require Import Prelude Interfaces Floats UpperBound BufferIndexer.

Definition u64_max : Z := 18446744073709551616.

(** Samples in the order of time and of bytes. *)
Definition ordered (l : list index_pair) : Prop :=
  forall i j x y, 0 <= i <= j -> rd l i = Done x -> rd l j = Done y -> x.1 <= y.1 /\ x.2 <= y.2.

Definition sample_ok (x : index_pair) : Prop := 0 <= x.1 < u64_max /\ 0 <= x.2 < u64_max.

(** The last [n] elements. *)
Definition lastn {A} (n : Z) (l : list A) : list A := zdrop (zlen l - n) l.

(** Every [ratio]-th element, the first of them when [k] is a multiple of [ratio]. *)
Fixpoint sampled {A} (ratio k : Z) (l : list A) : list A :=
  match l with
  | [] => []
  | x :: l => (if k mod ratio =? 0 then [x] else []) ++ sampled ratio (k + 1) l
  end.

Lemma zdrop_neg {A} n (l : list A) : n <= 0 -> zdrop n l = l.
Proof. intros; unfold zdrop; by replace (Z.to_nat n) with 0%nat by lia. Qed.

Lemma lastn_all {A} n (l : list A) : zlen l <= n -> lastn n l = l.
Proof. intros; apply zdrop_neg; lia. Qed.

Lemma zlen_lastn {A} n (l : list A) : 0 <= n -> zlen (lastn n l) = Z.min n (zlen l).
Proof. unfold lastn, zlen, zdrop; rewrite length_drop; lia. Qed.

Lemma lastn_lastn_app {A} n (l k : list A) : 0 <= n -> lastn n (lastn n l ++ k) = lastn n (l ++ k).
Proof.
  intros; destruct (Z.le_gt_cases (zlen l) n); [by rewrite (lastn_all n l) by lia|].
  pose proof (zlen_nonneg k); unfold lastn; rewrite !zlen_app, zlen_zdrop by lia.
  replace (zlen l - (zlen l - n) + zlen k - n) with (zlen k) by lia.
  replace (zlen l + zlen k - n) with (zlen l - n + zlen k) by lia.
  by rewrite <- (zdrop_zdrop _ _ (l ++ k)), (zdrop_app_l _ l k) by lia.
Qed.

Section props.
Context {cb : Type -> Type} {CB : CircularBuffer cb} {CBL : CircularBufferLaws cb}.
Implicit Types s : BufferIndexer cb.

Record indexer_ok s : Prop := {
  ix_ratio : 0 < mSamplingRatio s;
  ix_capacity : 0 < cb_capacity (mBufInd s);
  ix_tsb : 0 < mTsbSize s;
  ix_size : size s <= cb_capacity (mBufInd s);
  ix_ordered : ordered (items s);
  ix_samples : Forall sample_ok (items s);
}.

(** * Registrations *)

Fixpoint register_all s (log : list index_pair) : outcome (BufferIndexer cb) :=
  match log with
  | [] => Done s
  | (t, c) :: log => '(_, _, s) ← registerBufferCount s t c; register_all s log
  end.

Lemma items_push s x : 0 < cb_capacity (mBufInd s) -> size s <= cb_capacity (mBufInd s) ->
  cb_items (cb_push_back x (mBufInd s)) = lastn (cb_capacity (mBufInd s)) (items s ++ [x]).
Proof.
  intros Hc Hs; rewrite cb_items_push by lia; unfold size, items in *; case_if.
  - by rewrite lastn_all by (rewrite zlen_app; change (zlen [x]) with 1; lia).
  - unfold lastn; rewrite zlen_app; change (zlen [x]) with 1.
    replace (_ + 1 - _) with 1 by lia.
    destruct (cb_items (mBufInd s)) as [|y l]; [autorewrite with zlen in *; lia|done].
Qed.

Lemma register_step s t c : 0 < mSamplingRatio s -> 0 < cb_capacity (mBufInd s) ->
  size s <= cb_capacity (mBufInd s) -> 0 <= mBufferCount s < u64_max - 1 ->
  exists b n s', registerBufferCount s t c = Done (b, n, s') /\
    b = (mBufferCount s mod mSamplingRatio s =? 0) /\ n = size s' /\
    items s' = lastn (cb_capacity (mBufInd s))
                 (items s ++ (if mBufferCount s mod mSamplingRatio s =? 0 then [(t, c)] else [])) /\
    mSamplingRatio s' = mSamplingRatio s /\ mTsbSize s' = mTsbSize s /\
    cb_capacity (mBufInd s') = cb_capacity (mBufInd s) /\ mBufferCount s' = mBufferCount s + 1.
Proof.
  intros Hr Hc Hs Hn; unfold registerBufferCount, u64_max in *.
  rewrite (proj2 (Z.eqb_neq _ 0)) by lia; cbv zeta.
  destruct (mBufferCount s mod mSamplingRatio s =? 0);
    (eexists _, _, _; split; [done|]); cbn; rewrite u64_small by lia; repeat split; try done.
  - unfold items; cbn; by apply items_push.
  - apply cb_capacity_push.
  - rewrite app_nil_r, lastn_all; [done|exact Hs].
Qed.

(** After any number of registrations the indexer holds exactly the last samples, as
    many as its capacity: of the registrations every [mSamplingRatio]-th one, the first of
    them right away. *)
Theorem register_all_items s log (Hr : 0 < mSamplingRatio s) (Hc : 0 < cb_capacity (mBufInd s))
    (Hs : size s <= cb_capacity (mBufInd s)) (Hn : 0 <= mBufferCount s)
    (Hlen : mBufferCount s + zlen log < u64_max) :
  exists s', register_all s log = Done s' /\
    items s' = lastn (cb_capacity (mBufInd s))
                 (items s ++ sampled (mSamplingRatio s) (mBufferCount s) log) /\
    mBufferCount s' = mBufferCount s + zlen log.
Proof.
  revert s Hr Hc Hs Hn Hlen; induction log as [|[t c] log IH]; intros s Hr Hc Hs Hn Hlen;
    cbn [register_all sampled].
  { exists s; rewrite app_nil_r, lastn_all, zlen_nil by exact Hs; split; [done|split; [done|lia]]. }
  rewrite zlen_cons in Hlen; pose proof (zlen_nonneg log).
  destruct (register_step s t c Hr Hc Hs ltac:(lia))
    as (b & n & s1 & -> & _ & _ & Hi & Hr1 & _ & Hc1 & Hn1); cbn [mbind outcome_bind].
  destruct (IH s1) as (s' & -> & Hi' & Hn').
  - by rewrite Hr1.
  - by rewrite Hc1.
  - rewrite Hc1; unfold size; rewrite Hi, zlen_lastn by lia; lia.
  - lia.
  - lia.
  - exists s'; split; [done|]; split; [|rewrite zlen_cons; lia].
    rewrite Hi', Hi, Hr1, Hc1, Hn1, lastn_lastn_app, app_assoc by lia; done.
Qed.

Lemma ordered_lastn n l : ordered l -> ordered (lastn n l).
Proof.
  intros Ho i j x y Hij; unfold lastn.
  destruct (Z.le_gt_cases 0 (zlen l - n)) as [Hn|Hn].
  - rewrite !rd_zdrop by lia; apply Ho; lia.
  - rewrite zdrop_neg by lia; by apply Ho.
Qed.

Lemma ordered_snoc l t c : ordered l ->
  (forall b, rd l (zlen l - 1) = Done b -> b.1 <= t /\ b.2 <= c) -> ordered (l ++ [(t, c)]).
Proof.
  intros Ho Hb i j x y Hij Hx Hy.
  pose proof (rd_range_inv _ _ _ Hx) as Hi; pose proof (rd_range_inv _ _ _ Hy) as Hj.
  rewrite zlen_app in Hi, Hj; change (zlen [(t, c)]) with 1 in *.
  destruct (Z.lt_ge_cases j (zlen l)).
  - rewrite !rd_app_l in * by lia; by eapply (Ho i j).
  - rewrite rd_app_r in Hy by lia; replace (j - zlen l) with 0 in Hy by lia; injection Hy as <-.
    destruct (Z.lt_ge_cases i (zlen l)).
    + rewrite rd_app_l in Hx by lia; destruct (rd_in_range l (zlen l - 1)) as [b Hl]; [lia|].
      destruct (Ho i (zlen l - 1) x b ltac:(lia) Hx Hl); destruct (Hb b Hl); cbn; lia.
    + rewrite rd_app_r in Hx by lia; replace (i - zlen l) with 0 in Hx by lia.
      injection Hx as <-; cbn; lia.
Qed.

Lemma Forall_lastn {A} (P : A -> Prop) n l : Forall P l -> Forall P (lastn n l).
Proof. apply Forall_drop. Qed.

(** Registering a sample that is not older keeps the indexer well formed. *)
Lemma register_ok s t c b n s' : indexer_ok s -> sample_ok (t, c) ->
  (forall x, back s = Done x -> x.1 <= t /\ x.2 <= c) -> 0 <= mBufferCount s < u64_max - 1 ->
  registerBufferCount s t c = Done (b, n, s') -> indexer_ok s'.
Proof.
  intros [Hr Hc Ht Hs Ho Hf] Hx Hb Hn Hreg.
  destruct (register_step s t c Hr Hc Hs Hn)
    as (b1 & n1 & s1 & Hreg1 & _ & _ & Hi & Hr1 & Ht1 & Hc1 & _).
  rewrite Hreg in Hreg1; injection Hreg1 as <- <- <-.
  split; rewrite ?Hr1, ?Ht1, ?Hc1; try done.
  - unfold size; rewrite Hi, zlen_lastn by lia; lia.
  - rewrite Hi; apply ordered_lastn; case_if; [by apply ordered_snoc|by rewrite app_nil_r].
  - rewrite Hi; apply Forall_lastn, Forall_app; split; [done|]; case_if; [by apply Forall_singleton|constructor].
Qed.

(** * Queries *)

Lemma ordered_partitioned_bytes l target first last : 0 <= first ->
  ordered l -> partitioned (timeSearch target) l first last.
Proof.
  intros Hf Ho i j x y Hi Hij Hj Hx Hy; unfold timeSearch; rewrite !Z.ltb_lt; intros Ht.
  destruct (Ho i j x y ltac:(lia) Hx Hy); lia.
Qed.

Lemma ordered_partitioned_time l target first last : 0 <= first ->
  ordered l -> partitioned (byteOffsetSearch target) l first last.
Proof.
  intros Hf Ho i j x y Hi Hij Hj Hx Hy; unfold byteOffsetSearch; rewrite !Z.ltb_lt; intros Ht.
  destruct (Ho i j x y ltac:(lia) Hx Hy); lia.
Qed.

(** The window the queries work on. *)
Lemma front_index_range s : indexer_ok s -> 0 < size s ->
  getFrontIndex s = Z.max 0 (size s - mTsbSize s) /\ 0 <= getFrontIndex s < size s.
Proof. intros Hs Hz; pose proof (ix_tsb _ Hs); unfold getFrontIndex, getIndexSize; case_if; lia. Qed.

(** The sample around a value, between the end points of a window. *)
Lemma bound_inside (before : index_pair -> bool) l first last f b r : 0 <= first < last ->
  last = zlen l -> is_bound before l first last r ->
  rd l first = Done f -> before f = false -> rd l (last - 1) = Done b -> before b = true ->
  first < r < last /\
  exists prev cur, rd l (r - 1) = Done prev /\ rd l r = Done cur /\
    before prev = false /\ before cur = true.
Proof.
  intros Hf -> [Hr Hlow Hup] Hrf Hbf Hrb Hbb.
  assert (Hr' : first < r < zlen l).
  { destruct (Z.eq_dec r first) as [->|]; [rewrite (Hup first f) in Hbf; done || lia|].
    destruct (Z.eq_dec r (zlen l)) as [->|]; [|lia].
    rewrite (Hlow (zlen l - 1) b) in Hbb; done || lia. }
  split; [done|].
  destruct (rd_in_range l (r - 1)) as [prev Hp]; [lia|]; destruct (rd_in_range l r) as [cur Hc]; [lia|].
  exists prev, cur; repeat split; try done; [apply (Hlow (r - 1))|apply (Hup r)]; done || lia.
Qed.

Lemma sample_range s i x : indexer_ok s -> rd (items s) i = Done x -> sample_ok x.
Proof. intros Hs [_ Hx]%rd_done; exact (Forall_lookup_1 _ _ _ _ (ix_samples _ Hs) Hx). Qed.

(** The timestamp of a byte position: before the oldest sample it is that sample's
    time (out of range, or exact), after the newest that one's; in between the search finds
    the two neighbouring samples the position lies between, and the time is the older one's
    plus the interpolated part. No access is outside the buffer. *)
Theorem getTimestampUsForByteIndex_correct s byteIndex time f b
    (Hs : indexer_ok s) (Hf : front s = Done f) (Hb : back s = Done b) :
  (byteIndex < f.2 -> getTimestampUsForByteIndex s byteIndex time = Done (BUF_OUT_OF_RANGE, f.1)) /\
  (byteIndex = f.2 -> getTimestampUsForByteIndex s byteIndex time = Done (BUF_OK, f.1)) /\
  (f.2 < byteIndex -> b.2 < byteIndex ->
     getTimestampUsForByteIndex s byteIndex time = Done (BUF_OUT_OF_RANGE, b.1)) /\
  (f.2 < byteIndex -> b.2 = byteIndex ->
     getTimestampUsForByteIndex s byteIndex time = Done (BUF_OK, b.1)) /\
  (f.2 < byteIndex < b.2 -> exists i prev cur,
     0 < i < size s /\ rd (items s) (i - 1) = Done prev /\ rd (items s) i = Done cur /\
     prev.2 <= byteIndex < cur.2 /\
     getTimestampUsForByteIndex s byteIndex time =
       (dt ← interpolate_time cur.1 prev.1 cur.2 prev.2 (byteIndex - prev.2);
        Done (BUF_OK, u64 (prev.1 + dt)))).
Proof.
  assert (Hz : 0 < size s) by (apply rd_range_inv in Hf; unfold size; lia).
  unfold getTimestampUsForByteIndex; rewrite (proj2 (Z.eqb_neq _ 0)), Hf by lia; step_done.
  split; [|split; [|split; [|split]]]; intros H1.
  - by rewrite (proj2 (Z.leb_le _ _)), (proj2 (Z.ltb_lt _ _)) by lia.
  - by rewrite (proj2 (Z.leb_le _ _)), (proj2 (Z.ltb_ge _ _)) by lia.
  - intros H2; rewrite (proj2 (Z.leb_gt _ _)), Hb by lia; step_done.
    by rewrite (proj2 (Z.leb_le _ _)), (proj2 (Z.ltb_lt _ _)) by lia.
  - intros H2; rewrite (proj2 (Z.leb_gt _ _)), Hb by lia; step_done.
    by rewrite (proj2 (Z.leb_le _ _)), (proj2 (Z.ltb_ge _ _)) by lia.
  - rewrite (proj2 (Z.leb_gt _ _)), Hb by lia; step_done; rewrite (proj2 (Z.leb_gt _ _)) by lia.
    destruct (upper_bound_ok (timeSearch byteIndex) (items s) 0 (size s)) as (r & -> & Hr);
      [lia|unfold size; lia|apply ordered_partitioned_bytes, Hs; lia|]; step_done.
    destruct (bound_inside (timeSearch byteIndex) (items s) 0 (size s) f b r
      (conj (Z.le_refl 0) Hz) eq_refl Hr Hf)
      as (Hin & prev & cur & Hp & Hc & Hbp & Hbc);
      [unfold timeSearch; apply Z.ltb_ge; lia|exact Hb|unfold timeSearch; apply Z.ltb_lt; lia|].
    unfold timeSearch in Hbp, Hbc; b2p.
    exists r, prev, cur; repeat split; try done; try lia.
    rewrite (proj2 (Z.eqb_neq _ _)), Hp by lia; step_done; rewrite Hc; by step_done.
Qed.

(** The end points of the window. *)
Lemma window_ends s : indexer_ok s -> 0 < size s -> exists f b,
  getFront s = Done f /\ back s = Done b /\ sample_ok f /\ sample_ok b /\
  f.1 <= b.1 /\ f.2 <= b.2 /\ rd (items s) (getFrontIndex s) = Done f /\
  rd (items s) (size s - 1) = Done b.
Proof.
  intros Hs Hz; destruct (front_index_range s Hs Hz) as [_ Hfi].
  destruct (rd_in_range (items s) (getFrontIndex s)) as [f Hf]; [unfold size in *; lia|].
  destruct (rd_in_range (items s) (size s - 1)) as [b Hb]; [unfold size in *; lia|].
  assert (Hord : 0 <= getFrontIndex s <= size s - 1) by lia.
  destruct (ix_ordered _ Hs (getFrontIndex s) (size s - 1) f b Hord Hf Hb).
  exists f, b; repeat split; try done; eapply sample_range; eauto.
Qed.

(** The sizes reported are those of the window: what the newest sample has on the
    oldest one of the last [mTsbSize], in time and in bytes, without wrap-around; the tail
    the buffer keeps beyond the window does not count. *)
Theorem index_size_correct s (Hs : indexer_ok s) (Hz : 0 < size s) : exists f b,
  rd (items s) (Z.max 0 (size s - mTsbSize s)) = Done f /\ rd (items s) (size s - 1) = Done b /\
  getIndexSizeInTimeUs s = Done (b.1 - f.1) /\ getIndexSizeInBytes s = Done (b.2 - f.2) /\
  0 <= b.1 - f.1 /\ 0 <= b.2 - f.2.
Proof.
  destruct (window_ends s Hs Hz) as (f & b & Hf & Hb & [Hf1 Hf2] & [Hb1 Hb2] & H1 & H2 & Hrf & Hrb).
  destruct (front_index_range s Hs Hz) as [<- _]; unfold u64_max in *.
  exists f, b; unfold getIndexSizeInTimeUs, getIndexSizeInBytes.
  rewrite (proj2 (Z.eqb_neq _ 0)), Hb by lia; step_done; step_done; rewrite Hf; repeat step_done.
  rewrite !u64_small by lia; repeat split; done || lia.
Qed.

Lemma getByteOffsetFromTimeUs_search s time old
    (Hs : indexer_ok s) (Hz : 0 < size s) (Ht : 0 < time < u64_max / 2)
    (Hyoung : forall b, back s = Done b -> b.1 < u64_max / 2)
    (Hlast : time <> (mLastByteOffsetFromTimeUs s).1) :
  exists f b, getFront s = Done f /\ back s = Done b /\
  (b.1 < f.1 + time ->
     getByteOffsetFromTimeUs s time old =
       Done (BUF_OUT_OF_RANGE, b.2 - f.2,
             s <| mLastByteOffsetFromTimeUs := (time, b.2 - f.2) |>)) /\
  (f.1 + time <= b.1 -> exists i prev cur,
     getFrontIndex s < i < size s /\
     rd (items s) (i - 1) = Done prev /\ rd (items s) i = Done cur /\
     prev.1 <= b.1 - time < cur.1 /\
     getByteOffsetFromTimeUs s time old =
       (index ← interpolate_index i prev.1 cur.1 (time - (b.1 - cur.1));
        x ← rd (items s) index;
        Done (BUF_OK, u64 (b.2 - x.2),
              s <| mLastByteOffsetFromTimeUs := (time, u64 (b.2 - x.2)) |>))).
Proof.
  destruct (window_ends s Hs Hz) as (f & b & Hf & Hb & [Hf1 Hf2] & [Hb1 Hb2] & H1 & H2 & Hrf & Hrb).
  specialize (Hyoung b Hb); unfold u64_max in *.
  change (18446744073709551616 / 2) with 9223372036854775808 in *.
  exists f, b; split; [done|split; [done|]].
  unfold getByteOffsetFromTimeUs; rewrite (proj2 (Z.eqb_neq (size s) 0)) by lia.
  rewrite (proj2 (Z.eqb_neq _ _) Hlast), (proj2 (Z.eqb_neq time 0)), Hf by lia; step_done.
  rewrite Hb; step_done; rewrite (u64_small (f.1 + time)) by lia; split; intros Hr.
  - by rewrite (proj2 (Z.ltb_lt _ _)), (u64_small (b.2 - f.2)) by lia.
  - rewrite (proj2 (Z.ltb_ge _ _)), (u64_small (b.1 - time)) by lia; cbv zeta.
    destruct (front_index_range s Hs Hz) as [_ Hfi].
    destruct (upper_bound_ok (byteOffsetSearch (b.1 - time)) (items s) (getFrontIndex s) (size s))
      as (r & -> & Hbound); [lia|unfold size; lia|apply ordered_partitioned_time, Hs; lia|]; step_done.
    destruct (bound_inside (byteOffsetSearch (b.1 - time)) (items s) (getFrontIndex s) (size s)
      f b r Hfi eq_refl Hbound Hrf) as (Hin & prev & cur & Hp & Hc & Hbp & Hbc);
      [unfold byteOffsetSearch; apply Z.ltb_ge; lia|exact Hrb|
       unfold byteOffsetSearch; apply Z.ltb_lt; lia|].
    unfold byteOffsetSearch in Hbp, Hbc; b2p.
    assert (Hord : 0 <= r <= size s - 1) by lia.
    destruct (ix_ordered _ Hs r (size s - 1) cur b Hord Hc Hrb) as [Hcb _].
    pose proof (sample_range s r cur Hs Hc) as [Hcur _]; unfold u64_max in Hcur.
    exists r, prev, cur; repeat split; try done; try lia.
    rewrite (proj2 (Z.eqb_neq _ _)), Hp by lia; step_done; rewrite Hc; step_done.
    by rewrite (u64_small (b.1 - cur.1)) by lia.
Qed.

(** C20. The seek offset of a time that is not the remembered one: 0 for the live point;
    the whole window, out of range, when the time is longer than the window; otherwise the
    search finds the two neighbouring samples of the window around the time sought, and the
    offset is the distance in bytes from the newest sample to the sample at the interpolated
    position. Only the interpolated position could leave the buffer. *)
Theorem getByteOffsetFromTimeUs_correct s time old
    (Hs : indexer_ok s) (Hz : 0 < size s) (Ht : 0 < time < u64_max / 2)
    (Hyoung : forall b, back s = Done b -> b.1 < u64_max / 2)
    (Hlast : time <> (mLastByteOffsetFromTimeUs s).1) :
  exists f b, getFront s = Done f /\ back s = Done b /\
  (b.1 < f.1 + time ->
     getByteOffsetFromTimeUs s time old =
       Done (BUF_OUT_OF_RANGE, b.2 - f.2,
             s <| mLastByteOffsetFromTimeUs := (time, b.2 - f.2) |>)) /\
  (f.1 + time <= b.1 -> exists i prev cur,
     getFrontIndex s < i < size s /\
     rd (items s) (i - 1) = Done prev /\ rd (items s) i = Done cur /\
     prev.1 <= b.1 - time < cur.1 /\
     getByteOffsetFromTimeUs s time old =
       (index ← interpolate_index i prev.1 cur.1 (time - (b.1 - cur.1));
        x ← rd (items s) index;
        Done (BUF_OK, u64 (b.2 - x.2),
              s <| mLastByteOffsetFromTimeUs := (time, u64 (b.2 - x.2)) |>))).
Proof. by apply getByteOffsetFromTimeUs_search. Qed.

(** C21. The seek time of a byte offset that is not the remembered one: 0 for the live point;
    the whole window, out of range, for an offset beyond it; otherwise the search finds the
    two neighbouring samples of the window the position lies between, and the time is
    interpolated between theirs. No access is outside the buffer. *)
Theorem getTimeUsFromByteOffset_correct s byteOffset old
    (Hs : indexer_ok s) (Hz : 0 < size s) (Ht : 0 < byteOffset < u64_max / 2)
    (Hsmall : forall b, back s = Done b -> b.2 < u64_max / 2)
    (Hlast : byteOffset <> (mLastTimeUsFromByteOffset s).1) :
  exists f b, getFront s = Done f /\ back s = Done b /\
  (b.2 < f.2 + byteOffset ->
     getTimeUsFromByteOffset s byteOffset old =
       Done (BUF_OUT_OF_RANGE, b.1 - f.1,
             s <| mLastTimeUsFromByteOffset := (byteOffset, b.1 - f.1) |>)) /\
  (f.2 + byteOffset <= b.2 -> exists i prev cur,
     getFrontIndex s < i < size s /\
     rd (items s) (i - 1) = Done prev /\ rd (items s) i = Done cur /\
     prev.2 <= b.2 - byteOffset < cur.2 /\
     getTimeUsFromByteOffset s byteOffset old =
       (dt ← interpolate_time cur.1 prev.1 cur.2 prev.2 (b.2 - byteOffset - prev.2);
        let time := u64 (b.1 - u64 (prev.1 + dt)) in
        Done (BUF_OK, time, s <| mLastTimeUsFromByteOffset := (byteOffset, time) |>))).
Proof.
  destruct (window_ends s Hs Hz) as (f & b & Hf & Hb & [Hf1 Hf2] & [Hb1 Hb2] & H1 & H2 & Hrf & Hrb).
  specialize (Hsmall b Hb); unfold u64_max in *.
  change (18446744073709551616 / 2) with 9223372036854775808 in *.
  exists f, b; split; [done|split; [done|]].
  unfold getTimeUsFromByteOffset; rewrite (proj2 (Z.eqb_neq (size s) 0)) by lia.
  rewrite (proj2 (Z.eqb_neq _ _) Hlast), (proj2 (Z.eqb_neq byteOffset 0)), Hf by lia; step_done.
  rewrite Hb; step_done; rewrite (u64_small (f.2 + byteOffset)) by lia; split; intros Hr.
  - by rewrite (proj2 (Z.ltb_lt _ _)), (u64_small (b.1 - f.1)) by lia.
  - rewrite (proj2 (Z.ltb_ge _ _)), (u64_small (b.2 - byteOffset)) by lia; cbv zeta.
    destruct (front_index_range s Hs Hz) as [_ Hfi].
    destruct (upper_bound_ok (timeSearch (b.2 - byteOffset)) (items s) (getFrontIndex s) (size s))
      as (r & -> & Hbound); [lia|unfold size; lia|apply ordered_partitioned_bytes, Hs; lia|]; step_done.
    destruct (bound_inside (timeSearch (b.2 - byteOffset)) (items s) (getFrontIndex s) (size s)
      f b r Hfi eq_refl Hbound Hrf) as (Hin & prev & cur & Hp & Hc & Hbp & Hbc);
      [unfold timeSearch; apply Z.ltb_ge; lia|exact Hrb|unfold timeSearch; apply Z.ltb_lt; lia|].
    unfold timeSearch in Hbp, Hbc; b2p.
    exists r, prev, cur; repeat split; try done; try lia.
    rewrite (proj2 (Z.eqb_neq _ _)), Hp by lia; step_done; rewrite Hc; by step_done.
Qed.

(** An answer out of range is remembered without its error: asking for the same time
    again gives the same offset with BUF_OK. *)
Theorem out_of_range_forgotten s s' time old old' offset
    (Hz : 0 < size s) (Ht : time <> (mLastByteOffsetFromTimeUs s).1) (H0 : time <> 0)
    (Hfirst : getByteOffsetFromTimeUs s time old = Done (BUF_OUT_OF_RANGE, offset, s'))
    (Hchanged : s' <> s) :
  getByteOffsetFromTimeUs s' time old' = Done (BUF_OK, offset, s').
Proof.
  unfold getByteOffsetFromTimeUs in Hfirst; rewrite (proj2 (Z.eqb_neq (size s) 0)) in Hfirst by lia.
  rewrite (proj2 (Z.eqb_neq _ _) Ht), (proj2 (Z.eqb_neq _ _) H0) in Hfirst.
  destruct (getFront s) as [f|]; [|done]; rewrite bind_Done in Hfirst.
  destruct (back s) as [b|]; [|done]; rewrite bind_Done in Hfirst; cbv zeta in Hfirst.
  case_match.
  - injection Hfirst as <- <-; unfold getByteOffsetFromTimeUs.
    change (size (_ <| mLastByteOffsetFromTimeUs := _ |>)) with (size s).
    by rewrite (proj2 (Z.eqb_neq (size s) 0)), Z.eqb_refl by lia.
  - repeat (apply bind_done_inv in Hfirst as (? & _ & Hfirst); case_match || idtac); congruence.
Qed.

(** [clear] keeps the remembered answers: with a single sample registered after it, the
    time of the last question is still answered with the offset into the old contents, and
    with BUF_OK, although the window has no bytes. *)
Theorem clear_keeps_answers s t c time offset old
    (Hr : 0 < mSamplingRatio s) (Hc : 0 < cb_capacity (mBufInd s))
    (Hlast : mLastByteOffsetFromTimeUs s = (time, offset)) (Htsb : 0 < mTsbSize s) :
  exists s', registerBufferCount (BufferIndexer_clear s) t c = Done (true, 1, s') /\
    getIndexSizeInBytes s' = Done 0 /\
    getByteOffsetFromTimeUs s' time old = Done (BUF_OK, offset, s').
Proof.
  unfold registerBufferCount; cbn [BufferIndexer_clear mSamplingRatio mBufferCount field_update].
  rewrite (proj2 (Z.eqb_neq _ 0)), Z.mod_0_l by lia; cbn [Z.eqb].
  set (s' := _ <| mBufInd := _ |>).
  assert (Hi : items s' = [(t, c)]).
  { unfold items, s'; cbn; rewrite cb_items_push, cb_items_clear, zlen_nil by (by rewrite cb_capacity_clear).
    by case_if. }
  assert (Hsz : size s' = 1) by (unfold size; by rewrite Hi).
  exists s'; rewrite Hsz; split; [done|].
  assert (Hback : back s' = Done (t, c)) by (unfold back; by rewrite Hsz, Hi).
  assert (Hfront : getFront s' = Done (t, c)).
  { unfold getFront, getIndexSize; rewrite Hsz, Hi; change (mTsbSize s') with (mTsbSize s).
    by rewrite (proj2 (Z.ltb_ge _ _)) by lia. }
  unfold getIndexSizeInBytes, getByteOffsetFromTimeUs; rewrite Hsz, Hback, Hfront.
  cbn [Z.eqb Pos.eqb]; repeat step_done; change (mLastByteOffsetFromTimeUs s')
    with (mLastByteOffsetFromTimeUs s); rewrite Hlast, Z.sub_diag; cbn [fst snd].
  by rewrite Z.eqb_refl.
Qed.

End props.

(** * Examples

    A buffer index with three samples, and the theorems on the index at it. *)

Definition three : BufferIndexer list_cb :=
  mkBufferIndexer 1 3 2 (mk_list_cb 4 [(100, 1000); (200, 2000); (300, 3000)]) (0, 0) (0, 0).

(** [ordered], decided. *)
Fixpoint ordered_b (l : list index_pair) : bool :=
  match l with
  | [] => true
  | x :: l => forallb (fun y => (x.1 <=? y.1) && (x.2 <=? y.2)) l && ordered_b l
  end.

Lemma ordered_b_sound l : ordered_b l = true -> ordered l.
Proof.
  intros H i j x y Hij [_ Hx]%rd_done [_ Hy]%rd_done; assert (Hn : (Z.to_nat i <= Z.to_nat j)%nat) by lia.
  clear Hij; revert H Hx Hy Hn; generalize (Z.to_nat i) as m, (Z.to_nat j) as n; clear i j.
  induction l as [|z l IH]; [done|]; intros m n H Hx Hy Hn; cbn [ordered_b] in H.
  apply andb_prop in H as [Hz Hl]; destruct n as [|n]; [assert (m = 0%nat) as -> by lia; simplify_eq/=; lia|].
  destruct m as [|m]; [|eapply (IH m n Hl); [done|done|lia]]; simplify_eq/=.
  rewrite forallb_forall in Hz; specialize (Hz y (proj1 (list_elem_of_In _ _) (list_elem_of_lookup_2 _ _ _ Hy))); b2p; lia.
Qed.

Lemma three_ok : indexer_ok three.
Proof.
  split; [reflexivity|reflexivity|reflexivity|vm_compute; discriminate|by apply ordered_b_sound|].
  repeat (apply Forall_cons_2; [unfold sample_ok, u64_max; cbn; lia|]); apply Forall_nil_2.
Qed.

Lemma register_all_items_witness : exists s',
  register_all three [(400, 4000); (500, 5000)] = Done s' /\
  items s' = lastn 4 (items three ++ sampled 1 3 [(400, 4000); (500, 5000)]) /\
  mBufferCount s' = 5.
Proof.
  destruct (register_all_items three [(400, 4000); (500, 5000)]) as (s' & H1 & H2 & H3);
    [reflexivity|reflexivity|vm_compute; discriminate|vm_compute; discriminate|reflexivity|].
  exists s'; auto.
Defined.

Lemma getTimestampUsForByteIndex_correct_witness :
  getTimestampUsForByteIndex three 500 0 = Done (BUF_OUT_OF_RANGE, 100).
Proof.
  apply (getTimestampUsForByteIndex_correct three 500 0 (100, 1000) (300, 3000)); [exact three_ok|..];
    vm_compute; reflexivity.
Defined.

Lemma index_size_correct_witness : exists f b,
  rd (items three) 1 = Done f /\ rd (items three) 2 = Done b /\
  getIndexSizeInTimeUs three = Done (b.1 - f.1) /\ getIndexSizeInBytes three = Done (b.2 - f.2) /\
  0 <= b.1 - f.1 /\ 0 <= b.2 - f.2.
Proof.
  destruct (index_size_correct three) as (f & b & H); [exact three_ok|reflexivity|].
  exists f, b; exact H.
Defined.

Lemma getByteOffsetFromTimeUs_correct_witness : exists f b,
  getFront three = Done f /\ back three = Done b /\
  (b.1 < f.1 + 150 -> getByteOffsetFromTimeUs three 150 0 =
     Done (BUF_OUT_OF_RANGE, b.2 - f.2, three <| mLastByteOffsetFromTimeUs := (150, b.2 - f.2) |>)).
Proof.
  destruct (getByteOffsetFromTimeUs_correct three 150 0) as (f & b & Hf & Hb & Hout & _);
    [exact three_ok|vm_compute; reflexivity|split; vm_compute; reflexivity| |discriminate|].
  - intros b Hb; injection Hb as <-; vm_compute; reflexivity.
  - exists f, b; auto.
Defined.

Lemma getTimeUsFromByteOffset_correct_witness : exists f b,
  getFront three = Done f /\ back three = Done b /\
  (b.2 < f.2 + 1500 -> getTimeUsFromByteOffset three 1500 0 =
     Done (BUF_OUT_OF_RANGE, b.1 - f.1, three <| mLastTimeUsFromByteOffset := (1500, b.1 - f.1) |>)).
Proof.
  destruct (getTimeUsFromByteOffset_correct three 1500 0) as (f & b & Hf & Hb & Hout & _);
    [exact three_ok|vm_compute; reflexivity|split; vm_compute; reflexivity| |discriminate|].
  - intros b Hb; injection Hb as <-; vm_compute; reflexivity.
  - exists f, b; auto.
Defined.

Lemma out_of_range_forgotten_witness :
  getByteOffsetFromTimeUs (three <| mLastByteOffsetFromTimeUs := (150, 1000) |>) 150 7 =
    Done (BUF_OK, 1000, three <| mLastByteOffsetFromTimeUs := (150, 1000) |>).
Proof.
  apply (out_of_range_forgotten three _ 150 0 7 1000);
    [vm_compute; reflexivity|discriminate|discriminate|vm_compute; reflexivity|discriminate].
Defined.

Lemma clear_keeps_answers_witness : exists s',
  registerBufferCount (BufferIndexer_clear (three <| mLastByteOffsetFromTimeUs := (150, 1000) |>))
    900 9000 = Done (true, 1, s') /\
  getIndexSizeInBytes s' = Done 0 /\
  getByteOffsetFromTimeUs s' 150 0 = Done (BUF_OK, 1000, s').
Proof.
  apply (clear_keeps_answers (three <| mLastByteOffsetFromTimeUs := (150, 1000) |>) 900 9000 150 1000 0);
    vm_compute; reflexivity.
Defined.
