(* ===== verification/TimeInterval.v ===== *)
(** Class [TimeIntervalMonitor] of include/utils/TimeIntervalMonitor.h and
    src/TimeIntervalMonitor.cpp, which adds up the lengths of time intervals, and class
    [TimeStampCorrector] of src/TimeStampCorrector.cpp. *)

From S2P Require Import Prelude.

(** * TimeIntervalMonitor

    Time points are in nanoseconds, as the clock gives them; [mDeltaTime] is in
    microseconds. *)

Record TimeIntervalMonitor := mkTimeIntervalMonitor {
  mRunning : bool;
  mInitTime : Z;
  mLastTime : Z;
  mDeltaTime : Z;
}.

#[export] Instance TimeIntervalMonitor_eta : Eta TimeIntervalMonitor := fun r =>
  mkTimeIntervalMonitor (mRunning r) (mInitTime r) (mLastTime r) (mDeltaTime r).

(** [duration_cast<microseconds>] drops the fraction. *)
Definition to_microseconds (ns : Z) : Z := Z.quot ns 1000.

(** [now] is what the clock reads in the call. *)
Definition TimeIntervalMonitor_reset (now : Z) : TimeIntervalMonitor :=
  mkTimeIntervalMonitor false now now (to_microseconds (now - now)).

Definition stopTimeInterval (s : TimeIntervalMonitor) : TimeIntervalMonitor :=
  s <| mRunning := false |>.

Definition updateTimeInterval (s : TimeIntervalMonitor) (now : Z) : TimeIntervalMonitor :=
  if negb (mRunning s) then
    let s := s <| mDeltaTime := mDeltaTime s + to_microseconds (mLastTime s - mInitTime s) |> in
    let s := s <| mInitTime := now |> in
    let s := s <| mLastTime := mInitTime s |> in
    s <| mRunning := true |>
  else s <| mLastTime := now |>.

Definition getAccumulatedTimeInMicroSeconds (s : TimeIntervalMonitor) : Z :=
  u64 (mDeltaTime s + to_microseconds (mLastTime s - mInitTime s)).

(** * What it promises

    The intervals are what lies between the first and the last update of a run of
    updates; a stop closes an interval. *)

Inductive interval_op := Update (now : Z) | StopInterval.

Definition interval_step (s : TimeIntervalMonitor) (op : interval_op) : TimeIntervalMonitor :=
  match op with
  | Update now => updateTimeInterval s now
  | StopInterval => stopTimeInterval s
  end.

(** The open interval, if any, and the closed ones. *)
Definition intervals_step (st : option (Z * Z) * list (Z * Z)) (op : interval_op)
  : option (Z * Z) * list (Z * Z) :=
  let '(current, closed) := st in
  match op, current with
  | Update now, None => (Some (now, now), closed)
  | Update now, Some (first, _) => (Some (first, now), closed)
  | StopInterval, None => (None, closed)
  | StopInterval, Some i => (None, i :: closed)
  end.

Definition interval_length (i : Z * Z) : Z := to_microseconds (i.2 - i.1).

Definition total_length (st : option (Z * Z) * list (Z * Z)) : Z :=
  match st.1 with Some i => interval_length i | None => 0 end +
  foldr Z.add 0 (map interval_length st.2).

(** The monitor keeps an interval that has been stopped in its two time points until
    the next update. *)
Definition represents (s : TimeIntervalMonitor) (st : option (Z * Z) * list (Z * Z)) : Prop :=
  let held := to_microseconds (mLastTime s - mInitTime s) in
  let closed := foldr Z.add 0 (map interval_length st.2) in
  if mRunning s then st.1 = Some (mInitTime s, mLastTime s) /\ mDeltaTime s = closed
  else st.1 = None /\ mDeltaTime s + held = closed.

Lemma represents_step s st op : represents s st ->
  represents (interval_step s op) (intervals_step st op).
Proof.
  destruct s as [run ini last delta], st as [cur closed]; unfold represents; cbn.
  destruct run, op as [now|]; cbn; intros [-> Hd]; cbn;
    unfold interval_length at 1; cbn; split; done || lia.
Qed.

Lemma represents_total s st : represents s st ->
  mDeltaTime s + to_microseconds (mLastTime s - mInitTime s) = total_length st.
Proof.
  unfold represents, total_length; destruct (mRunning s); intros [-> <-]; [|lia].
  unfold interval_length; cbn; lia.
Qed.

(** After a reset and any sequence of updates and stops, the accumulated time is the
    sum of the lengths of all intervals, the closed ones and the open one, each from its
    first to its last update and counted in whole microseconds. *)
Theorem accumulated_time_correct now ops :
  getAccumulatedTimeInMicroSeconds (fold_left interval_step ops (TimeIntervalMonitor_reset now)) =
  u64 (total_length (fold_left intervals_step ops (None, []))).
Proof.
  assert (Hgo : forall s st, represents s st ->
    represents (fold_left interval_step ops s) (fold_left intervals_step ops st)).
  { induction ops as [|op ops IH]; intros s st Hr; cbn; [done|]; by apply IH, represents_step. }
  unfold getAccumulatedTimeInMicroSeconds.
  erewrite represents_total; [done|]; apply Hgo; unfold represents; cbn.
  by rewrite Z.sub_diag.
Qed.

(** * TimeStampCorrector *)

Definition NTP_CORRECTION_THLD : Z := 1000000000.

(** [current_time] is what [time] returns, cut to 32 bits, and [uptime] what [getUptime]
    returns, a [long]. *)
Definition correctTimeStamp (current_time uptime t : Z) : Z :=
  if NTP_CORRECTION_THLD <? u32 (current_time - t)
  then u32 (current_time - uptime + t) else t.

(** [sysinfo] answers with an error code or the uptime. *)
Definition getUptime (sysinfo : Z + Z) : Z :=
  match sysinfo with inl _ => 0 | inr uptime => uptime end.

(** A timestamp taken before the clock was set, that is a count of seconds since the
    start of the system, is moved to the time scale of the clock: the result lies as far
    before the current time as the uptime was ahead of the count. A timestamp of the last
    thousand million seconds is left as it is. *)
Theorem correctTimeStamp_correct current_time uptime t
    (Hc : 0 <= current_time < 4294967296) (Ht : 0 <= t <= uptime) (Hu : uptime <= current_time) :
  correctTimeStamp current_time uptime t =
  if NTP_CORRECTION_THLD <? current_time - t then current_time - (uptime - t) else t.
Proof.
  unfold correctTimeStamp; rewrite (u32_small (current_time - t)) by lia.
  case_if; [rewrite u32_small by lia; lia|done].
Qed.

Lemma correctTimeStamp_correct_witness :
  correctTimeStamp 1700000000 5000 1200 =
  if NTP_CORRECTION_THLD <? 1700000000 - 1200 then 1700000000 - (5000 - 1200) else 1200.
Proof. apply (correctTimeStamp_correct 1700000000 5000 1200); lia. Defined.
