(* ===== verification/Watchdog.v ===== *)
(** The timers with threads of their own: class [TimeoutWatchdog] of
    include/utils/TimeoutWatchdog.h and src/TimeoutWatchdog.cpp and class
    [CyclicEventTimer] of include/utils/CyclicEventTimer.h, as transition systems in which
    the steps of the thread interleave with the calls of other threads; and the queue of
    class [ConstDelayDefHandler] of src/ConstDelayDefHandler.cpp.

    A call of another thread is one step, and so is what the thread does between two points
    where it waits or looks at a shared flag. Waits do not wake up spuriously. A wait with
    a predicate ends as soon as the predicate holds. *)

From S2P Require Import Prelude.

(** * TimeoutWatchdog *)

Inductive StateType := CLEAR | RUNNING | STOPPED | EXPIRED.

#[export] Instance StateType_eq_dec : EqDecision StateType.
Proof. solve_decision. Defined.

(** Where the thread is: before the first wait, at the head of the inner loop, in the
    timed wait, after it (with the value of its predicate), and decided to expire. *)
Inductive watchdog_pc := AtStart | AtLoop | InTimedWait | Woken (status : bool) | Expiring | Finished.

#[export] Instance watchdog_pc_eq_dec : EqDecision watchdog_pc.
Proof. solve_decision. Defined.

(** [calls] are the arguments [mFunc] has been called with, the oldest first; [starts]
    counts the calls of [start] that had an effect. *)
Record TimeoutWatchdog := mkTimeoutWatchdog {
  mState : StateType;
  mClear : bool;
  mStop : bool;
  mExit : bool;
  mNotified : bool;
  thread_pc : watchdog_pc;
  calls : list bool;
  starts : nat;
}.

#[export] Instance TimeoutWatchdog_eta : Eta TimeoutWatchdog := fun r =>
  mkTimeoutWatchdog (mState r) (mClear r) (mStop r) (mExit r) (mNotified r) (thread_pc r)
    (calls r) (starts r).

Definition TimeoutWatchdog_new : TimeoutWatchdog :=
  mkTimeoutWatchdog CLEAR true true false false AtStart [] 0.

Definition watchdog_restart (s : TimeoutWatchdog) : TimeoutWatchdog := s <| mNotified := true |>.

Definition watchdog_clear (s : TimeoutWatchdog) : TimeoutWatchdog :=
  let s := s <| mState := CLEAR |> <| mStop := true |> <| mClear := true |> in
  watchdog_restart s.

Definition watchdog_start (s : TimeoutWatchdog) : TimeoutWatchdog :=
  if mStop s then
    s <| mState := RUNNING |> <| mClear := false |> <| mStop := false |>
      <| starts := S (starts s) |>
  else s.

Definition watchdog_stop (s : TimeoutWatchdog) : TimeoutWatchdog :=
  if negb (mStop s) then
    s <| mState := STOPPED |> <| mStop := true |> <| calls := calls s ++ [false] |>
  else s.

Definition getState (s : TimeoutWatchdog) : StateType := mState s.

Definition watchdog_destroy (s : TimeoutWatchdog) : TimeoutWatchdog :=
  watchdog_clear (s <| mExit := true |>).

(** One step of [threadLoop], if it can take one. The timed wait ends when it is notified
    or when the time is over; both give the value of its predicate. *)
Definition watchdog_thread (s : TimeoutWatchdog) : option TimeoutWatchdog :=
  match thread_pc s with
  | AtStart => if negb (mStop s) || mExit s then Some (s <| thread_pc := AtLoop |>) else None
  | AtLoop =>
    if negb (mStop s) && negb (mExit s) then Some (s <| thread_pc := InTimedWait |>)
    else if negb (mExit s) then Some (s <| thread_pc := AtStart |>)
    else Some (s <| thread_pc := Finished |>)
  | InTimedWait => Some (s <| thread_pc := Woken (mNotified s) |>)
  | Woken status =>
    let s := s <| mNotified := false |> in
    if negb status && negb (mStop s) then Some (s <| thread_pc := Expiring |>)
    else Some (s <| thread_pc := AtLoop |>)
  | Expiring =>
    Some (s <| mState := EXPIRED |> <| mStop := true |> <| calls := calls s ++ [true] |>
            <| thread_pc := AtLoop |>)
  | Finished => None
  end.

Inductive watchdog_step : TimeoutWatchdog -> TimeoutWatchdog -> Prop :=
| ws_start s : watchdog_step s (watchdog_start s)
| ws_stop s : watchdog_step s (watchdog_stop s)
| ws_clear s : watchdog_step s (watchdog_clear s)
| ws_restart s : watchdog_step s (watchdog_restart s)
| ws_destroy s : watchdog_step s (watchdog_destroy s)
| ws_thread s s' : watchdog_thread s = Some s' -> watchdog_step s s'.

Definition count_true (l : list bool) : nat := length (filter (fun b => b = true) l).
Arguments count_true : simpl never.

Lemma count_true_snoc l b : count_true (l ++ [b]) = (count_true l + if b then 1 else 0)%nat.
Proof. unfold count_true; rewrite filter_app, length_app; by destruct b. Qed.

(** A start that is still to expire is either running or about to expire. *)
Definition start_pending (s : TimeoutWatchdog) : nat :=
  if match thread_pc s with Expiring => true | _ => false end || negb (mStop s) then 1 else 0.

Definition expiry_bounded (s : TimeoutWatchdog) : Prop :=
  (count_true (calls s) + start_pending s <= starts s)%nat.

Lemma expiry_bounded_step s s' : watchdog_step s s' -> expiry_bounded s -> expiry_bounded s'.
Proof.
  unfold expiry_bounded, start_pending; intros [t|t|t|t|t|t t' Ht].
  - unfold watchdog_start; destruct (mStop t) eqn:E; cbn; rewrite ?E, ?orb_true_r; [|done].
    destruct (thread_pc t); cbn; lia.
  - unfold watchdog_stop; destruct (mStop t) eqn:E; cbn; rewrite ?E; [done|].
    rewrite count_true_snoc; destruct (thread_pc t); cbn; lia.
  - cbn; destruct (mStop t), (thread_pc t); cbn; lia.
  - done.
  - cbn; destruct (mStop t), (thread_pc t); cbn; lia.
  - unfold watchdog_thread in Ht; destruct t as [st cl sp ex no pc ca n]; cbn in *.
    destruct pc as [| | |status| |]; cbn in *; repeat case_match; simplify_eq; cbn in *;
      rewrite ?count_true_snoc; cbn; try lia; repeat case_match; b2p; subst; cbn in *; done || lia.
Qed.

(** However the thread and the callers interleave, the watchdog reports an expiry at
    most once for every start that had an effect. *)
Theorem watchdog_expires_once s (Hreach : rtc watchdog_step TimeoutWatchdog_new s) :
  (count_true (calls s) <= starts s)%nat.
Proof.
  assert (Hb : expiry_bounded s); [|unfold expiry_bounded in Hb; lia].
  revert s Hreach; apply (rtc_ind_r expiry_bounded); [exact (le_n 0)|].
  intros s s' _ Hstep; by apply expiry_bounded_step.
Qed.

Lemma watchdog_expires_once_witness : exists s,
  rtc watchdog_step TimeoutWatchdog_new s /\ calls s = [true] /\
  (count_true (calls s) <= starts s)%nat.
Proof.
  eexists; split; [|split; [|apply watchdog_expires_once]].
  - eapply rtc_l; [apply ws_start|]; do 5 (eapply rtc_l; [apply ws_thread; reflexivity|]).
    apply rtc_refl.
  - reflexivity.
  - eapply rtc_l; [apply ws_start|]; do 5 (eapply rtc_l; [apply ws_thread; reflexivity|]).
    apply rtc_refl.
Defined.

(** [n] steps of the thread alone. *)
Fixpoint thread_alone (n : nat) (s : TimeoutWatchdog) : option TimeoutWatchdog :=
  match n with
  | O => Some s
  | S n => match watchdog_thread s with Some s => thread_alone n s | None => None end
  end.

(** A watchdog that is started and then left alone expires: the thread, waiting for the
    start, gets in at most eight steps of its own to the state in which the expiry has been
    reported, whether or not an old notification is still set. *)
Theorem watchdog_expires s (Hpc : thread_pc s = AtStart) (Hstop : mStop s = true)
    (Hexit : mExit s = false) :
  exists n s', (n <= 8)%nat /\ thread_alone n (watchdog_start s) = Some s' /\
    calls s' = calls s ++ [true] /\ getState s' = EXPIRED /\ mStop s' = true.
Proof.
  destruct s as [st cl sp ex no pc ca k]; cbn in *; subst.
  pose (s' := mkTimeoutWatchdog EXPIRED false true false false AtLoop (ca ++ [true]) (S k)).
  destruct no; [exists 8%nat, s'|exists 5%nat, s']; (split; [lia|]);
    (split; [vm_compute; reflexivity|done]).
Qed.

Lemma watchdog_expires_witness : exists n s', (n <= 8)%nat /\
  thread_alone n (watchdog_start (watchdog_restart TimeoutWatchdog_new)) = Some s' /\
  calls s' = [true] /\ getState s' = EXPIRED /\ mStop s' = true.
Proof. apply (watchdog_expires (watchdog_restart TimeoutWatchdog_new)); reflexivity. Defined.

(** * CyclicEventTimer *)

(** Where the thread is: before it takes the mutex to wait, in the wait, in the loop, in
    the closure, asleep between two calls of it. *)
Inductive timer_pc := BeforeWait | InWait | AtTest | InClosure | Asleep | TimerFinished.

Record CyclicEventTimer := mkCyclicEventTimer {
  timer_mStop : bool;
  timer_mExit : bool;
  mPeriodMilliseconds : Z;
  timer_at : timer_pc;
  invocations : nat;
}.

#[export] Instance CyclicEventTimer_eta : Eta CyclicEventTimer := fun r =>
  mkCyclicEventTimer (timer_mStop r) (timer_mExit r) (mPeriodMilliseconds r) (timer_at r)
    (invocations r).

Definition CyclicEventTimer_new : CyclicEventTimer :=
  mkCyclicEventTimer true false 0 BeforeWait 0.

Definition setPeriodInMilliseconds (s : CyclicEventTimer) (time : Z) : CyclicEventTimer :=
  s <| mPeriodMilliseconds := u16 time |>.

(** [notify_one] wakes the thread if it is in the wait, and is lost otherwise. *)
Definition timer_notify (s : CyclicEventTimer) : CyclicEventTimer :=
  match timer_at s with InWait => s <| timer_at := AtTest |> | _ => s end.

(** The closure the program gives is never empty. *)
Definition timer_start (s : CyclicEventTimer) : bool * CyclicEventTimer :=
  if timer_mStop s && negb (mPeriodMilliseconds s =? 0)
  then (true, timer_notify (s <| timer_mStop := false |>))
  else (false, s).

Definition timer_stop (s : CyclicEventTimer) : CyclicEventTimer :=
  timer_notify (s <| timer_mStop := true |>).

Definition timer_destroy (s : CyclicEventTimer) : CyclicEventTimer :=
  timer_stop (s <| timer_mExit := true |>).

(** One step of [threadLoop]; [result] is what the closure returns when it is in it. A
    thread in the wait takes no step of its own. *)
Definition timer_thread (s : CyclicEventTimer) (result : bool) : option CyclicEventTimer :=
  match timer_at s with
  | BeforeWait => Some (s <| timer_at := InWait |>)
  | InWait => None
  | AtTest =>
    if negb (timer_mExit s) && negb (timer_mStop s)
    then Some (s <| timer_at := InClosure |> <| invocations := S (invocations s) |>)
    else if negb (timer_mExit s) then Some (s <| timer_at := BeforeWait |>)
    else Some (s <| timer_at := TimerFinished |>)
  | InClosure =>
    if result then
      let s := s <| timer_mStop := true |> in
      if negb (timer_mExit s) then Some (s <| timer_at := BeforeWait |>)
      else Some (s <| timer_at := TimerFinished |>)
    else Some (s <| timer_at := Asleep |>)
  | Asleep => Some (s <| timer_at := AtTest |>)
  | TimerFinished => None
  end.

(** What [start] and the thread can do, without any [stop]. *)
Inductive timer_step_nostop : CyclicEventTimer -> CyclicEventTimer -> Prop :=
| ts_start s : timer_step_nostop s (timer_start s).2
| ts_thread s s' result : timer_thread s result = Some s' -> timer_step_nostop s s'.

(** A start that is made while the thread is on its way into the wait is lost: the
    timer counts as started, and from then on, however often it is started again, the
    closure is never called until somebody stops it. *)
Theorem cyclic_start_lost s s' (Hpc : timer_at s = BeforeWait) (Hstop : timer_mStop s = true)
    (Hperiod : mPeriodMilliseconds s <> 0)
    (Hrun : rtc timer_step_nostop (timer_start s).2 s') :
  (timer_start s).1 = true /\ invocations s' = invocations s /\ (timer_start s').1 = false.
Proof.
  assert (Hst : timer_start s = (true, s <| timer_mStop := false |>)).
  { unfold timer_start, timer_notify; rewrite Hstop, (proj2 (Z.eqb_neq _ _) Hperiod); cbn.
    by rewrite Hpc. }
  rewrite Hst in *; cbn [fst snd] in *.
  assert (Hinv : (timer_at s' = BeforeWait \/ timer_at s' = InWait) /\ timer_mStop s' = false /\
    invocations s' = invocations s).
  { revert s' Hrun; apply (rtc_ind_r (fun t => (timer_at t = BeforeWait \/ timer_at t = InWait) /\
      timer_mStop t = false /\ invocations t = invocations s)); [by auto|].
    intros t t' _ Hstep (Hat & Hs & Hi); destruct Hstep as [t|t t' r Ht].
    - unfold timer_start; by rewrite Hs.
    - unfold timer_thread in Ht; destruct Hat as [E|E]; rewrite E in Ht; [|done].
      injection Ht as <-; cbn; auto. }
  destruct Hinv as (_ & Hs & Hi); split; [done|split; [done|]].
  unfold timer_start; by rewrite Hs.
Qed.

Lemma cyclic_start_lost_witness : exists s s',
  rtc timer_step_nostop (timer_start s).2 s' /\
  (timer_start s).1 = true /\ invocations s' = invocations s /\ (timer_start s').1 = false.
Proof.
  exists (setPeriodInMilliseconds CyclicEventTimer_new 350),
    ((setPeriodInMilliseconds CyclicEventTimer_new 350) <| timer_mStop := false |>
       <| timer_at := InWait |>).
  assert (Hrun : rtc timer_step_nostop
      (timer_start (setPeriodInMilliseconds CyclicEventTimer_new 350)).2
      ((setPeriodInMilliseconds CyclicEventTimer_new 350) <| timer_mStop := false |>
         <| timer_at := InWait |>))
    by (eapply rtc_l; [apply (ts_thread _ _ false); reflexivity | apply rtc_refl]).
  split; [exact Hrun|]; apply cyclic_start_lost; [reflexivity|reflexivity|discriminate|exact Hrun].
Defined.

(** Every step, with [stop] and the destruction. *)
Inductive timer_step : CyclicEventTimer -> CyclicEventTimer -> Prop :=
| tm_nostop s s' : timer_step_nostop s s' -> timer_step s s'
| tm_stop s : timer_step s (timer_stop s)
| tm_destroy s : timer_step s (timer_destroy s).

(** * ConstDelayDefHandler *)

Inductive DefferSignalTypes := DATA_RECEIVED | NETWORK_FAILURE | GENERIC_FAILURE | CLOSED.

#[export] Instance DefferSignalTypes_eq_dec : EqDecision DefferSignalTypes.
Proof. solve_decision. Defined.

Definition MAX_ERROR_COUNT : Z := 10.

Record ConstDelayDefHandler := mkConstDelayDefHandler {
  mWaitTimeMs : Z;
  mSignalQ : list DefferSignalTypes;
  mLastReadMs : Z;
}.

#[export] Instance ConstDelayDefHandler_eta : Eta ConstDelayDefHandler := fun r =>
  mkConstDelayDefHandler (mWaitTimeMs r) (mSignalQ r) (mLastReadMs r).

Definition ConstDelayDefHandler_new (timeMs : Z) : ConstDelayDefHandler :=
  mkConstDelayDefHandler timeMs [] 0.

Definition pop_signal (s : ConstDelayDefHandler) : DefferSignalTypes * ConstDelayDefHandler :=
  match mSignalQ s with
  | res :: q => (res, s <| mSignalQ := q |>)
  | [] => (DATA_RECEIVED, s)
  end.

(** [now] is the clock in milliseconds, [timed_out] how the wait on the condition ends. *)
Definition waitSignal (s : ConstDelayDefHandler) (now : Z) (timed_out : bool)
  : DefferSignalTypes * ConstDelayDefHandler :=
  if now - mLastReadMs s <? mWaitTimeMs s then pop_signal s
  else if timed_out then (GENERIC_FAILURE, s)
  else pop_signal s.

Definition defer_signal (s : ConstDelayDefHandler) (now : Z) (signal : DefferSignalTypes)
  : ConstDelayDefHandler :=
  let s := s <| mLastReadMs := now |> in
  if bool_decide (signal <> DATA_RECEIVED) && (zlen (mSignalQ s) <? MAX_ERROR_COUNT)
  then s <| mSignalQ := mSignalQ s ++ [signal] |> else s.

(** Signals that come at [now], one after the other. *)
Definition signal_all (s : ConstDelayDefHandler) (now : Z) (l : list DefferSignalTypes)
  : ConstDelayDefHandler := fold_left (fun s x => defer_signal s now x) l s.

(** [n] waits, none of which times out. *)
Fixpoint wait_all (s : ConstDelayDefHandler) (now : Z) (n : nat) : list DefferSignalTypes :=
  match n with
  | O => []
  | S n => let '(r, s) := waitSignal s now false in r :: wait_all s now n
  end.

Lemma signal_all_queue now l s :
  mSignalQ (signal_all s now l) =
  mSignalQ s ++ take (10 - length (mSignalQ s)) (filter (fun x => x <> DATA_RECEIVED) l).
Proof.
  revert s; induction l as [|x l IH]; intros s; [cbn; by rewrite take_nil, app_nil_r|].
  change (signal_all s now (x :: l)) with (signal_all (defer_signal s now x) now l).
  rewrite IH, filter_cons; unfold defer_signal, MAX_ERROR_COUNT, zlen.
  destruct s as [w q r]; cbn [mSignalQ field_update].
  destruct (decide (x <> DATA_RECEIVED)) as [Hx|Hx];
    [rewrite bool_decide_true by done|by rewrite bool_decide_false by done].
  cbn [andb]; case_if; cbn -[filter Nat.sub].
  - rewrite <- app_assoc, length_app; cbn [length].
    by replace (10 - length q)%nat with (S (10 - (length q + 1))) by lia.
  - by replace (10 - length q)%nat with 0%nat by lia.
Qed.

Lemma wait_all_queue s now n : (n <= length (mSignalQ s))%nat ->
  wait_all s now n = take n (mSignalQ s).
Proof.
  revert s; induction n as [|n IH]; intros s Hn; cbn; [done|].
  unfold waitSignal, pop_signal; destruct s as [w [|x q] r]; cbn in *; [lia|].
  case_if; f_equal; apply IH; cbn; lia.
Qed.

(** Errors that are signalled reach the reader in the order they were signalled, the
    first ten of them; data signals are not queued. *)
Theorem defer_fifo now timeMs l
    (Hmax : (length (filter (fun x => x <> DATA_RECEIVED) l) <= 10)%nat) :
  let errors := filter (fun x => x <> DATA_RECEIVED) l in
  wait_all (signal_all (ConstDelayDefHandler_new timeMs) now l) now (length errors) = errors.
Proof.
  cbn zeta; assert (Hq := signal_all_queue now l (ConstDelayDefHandler_new timeMs)).
  cbn [ConstDelayDefHandler_new mSignalQ length] in Hq.
  rewrite Nat.sub_0_r, app_nil_l, take_ge in Hq by done.
  rewrite wait_all_queue, Hq by (rewrite Hq; done); by apply take_ge.
Qed.

Lemma defer_fifo_witness :
  wait_all (signal_all (ConstDelayDefHandler_new 500) 7
    [NETWORK_FAILURE; DATA_RECEIVED; CLOSED]) 7 2 = [NETWORK_FAILURE; CLOSED].
Proof.
  apply (defer_fifo 7 500 [NETWORK_FAILURE; DATA_RECEIVED; CLOSED]); vm_compute; lia.
Defined.
