(* ===== verification/TimeShift.v ===== *)
(** Class [TimeShiftBufferConsumer] of include/TimeShiftBufferConsumer.h and
    src/StreamParser/TimeShiftBufferConsumer.cpp with class [HandleContext] of
    include/HandleContext.h: the consumer that feeds the time shift buffer, and seeking,
    pausing and trick play in it. The ring buffer of the streamfs library is an interface. *)

From Corelib Require Import SpecFloat.
From stdpp Require Import pretty.
From S2P Require Import Prelude Interfaces Floats UpperBound BufferIndexer TimeInterval Watchdog.

(** * The ring buffer of streamfs *)

(** A [ByteBufferPool] together with the [BufferProducer] that feeds it. *)
Class RingBuffer (pool : Type) := {
  queueBuffer : list Z -> pool -> pool;
  getTotalBufferCount : pool -> Z;
  readRandomAccess : Z -> Z -> pool -> list Z * pool;
  enableReadThrottling : bool -> pool -> pool;
  clearToLastRead : pool -> pool;
  abortAllOperations : pool -> pool;
}.

(** The count is that of all the buffers queued, and a read gives no more than it is asked
    for. *)
Class RingBufferLaws (pool : Type) `{RingBuffer pool} : Prop := {
  count_queue : forall b p, getTotalBufferCount (queueBuffer b p) = u64 (getTotalBufferCount p + 1);
  count_read : forall n o p, getTotalBufferCount (readRandomAccess n o p).2 = getTotalBufferCount p;
  count_throttling : forall b p, getTotalBufferCount (enableReadThrottling b p) = getTotalBufferCount p;
  count_clear : forall p, getTotalBufferCount (clearToLastRead p) = getTotalBufferCount p;
  read_size : forall n o p, 0 <= n -> zlen (readRandomAccess n o p).1 <= n;
}.

(** * The player's state and the handles *)

Inductive PlayerState := UNDEF | READY | PLAYING | PAUSED.

#[export] Instance PlayerState_eq_dec : EqDecision PlayerState.
Proof. solve_decision. Defined.

Record HandleContext := mkHandleContext { mReadOffset : Z }.

Definition getCurrentReadOffset (c : HandleContext) : Z := mReadOffset c.
Definition incReadOffset (c : HandleContext) (increment : Z) : HandleContext :=
  mkHandleContext (u64 (mReadOffset c + increment)).
Definition initReadOffset (readOffset : Z) : HandleContext := mkHandleContext readOffset.

(** [std::map::begin]: the entry with the least key. *)
Definition map_begin (h : gmap Z HandleContext) : option (Z * HandleContext) :=
  map_fold (fun k c least =>
    match least with
    | Some (k', c') => if k <? k' then Some (k, c) else Some (k', c')
    | None => Some (k, c)
    end) None h.

(** * Constants *)

Definition TSB_SIZE_SEC : Z := 1.
Definition BUFFER_CHUNK_CBR_PERIOD_USEC : Z := 12655.
Definition BUFFER_POOL_TAIL_SIZE : Z := 100.
Definition BUFFER_SAMPLING_RATIO : Z := 4.
Definition TRICK_PLAY_RATE_MS : Z := 350.

(** A [double]: [((0.5 + TSB_SIZE_SEC) * 1e6 / BUFFER_CHUNK_CBR_PERIOD_USEC) + BUFFER_POOL_TAIL_SIZE]. *)
Definition BUFFER_POOL_SIZE : spec_float :=
  SFadd 53 1024
    (f64_div (f64_mul (SFadd 53 1024 (f64_div (f64_of_Z 1) (f64_of_Z 2)) (f64_of_Z TSB_SIZE_SEC))
                (f64_of_Z 1000000))
       (f64_of_Z BUFFER_CHUNK_CBR_PERIOD_USEC))
    (f64_of_Z BUFFER_POOL_TAIL_SIZE).

(** An integer divided, or multiplied, by [1e3]. *)
Definition div_1e3 (z : Z) : spec_float := f64_div (f64_of_Z z) (f64_of_Z 1000).
Definition mul_1e3 (z : Z) : spec_float := f64_mul (f64_of_Z z) (f64_of_Z 1000).

(** The variables the class writes, with the values it writes to them. *)
Inductive tsb_variable := kFlush0 | kTrickPlay0.

#[export] Instance tsb_variable_eq_dec : EqDecision tsb_variable.
Proof. solve_decision. Defined.

(** * The consumer *)

Record TimeShiftBufferConsumer (cb : Type -> Type) (pool : Type) := mkTimeShift {
  mSeekByteOffset : Z;
  mIsStreaming : bool;
  mIsPaused : bool;
  mPlayerState : PlayerState;
  mTrickPlaySpeed : Z;
  mRingBufferPool : pool;
  mBufIndexer : BufferIndexer cb;
  mBufferReadWatchdog : TimeoutWatchdog;
  mTrickPlayTimer : CyclicEventTimer;
  mHandles : gmap Z HandleContext;
  mPauseTimeMonitor : TimeIntervalMonitor;
  writes : list (tsb_variable * string);
}.
Arguments mkTimeShift {cb pool} _ _ _ _ _ _ _ _ _ _ _ _.
Arguments mSeekByteOffset {cb pool} _.
Arguments mIsStreaming {cb pool} _.
Arguments mIsPaused {cb pool} _.
Arguments mPlayerState {cb pool} _.
Arguments mTrickPlaySpeed {cb pool} _.
Arguments mRingBufferPool {cb pool} _.
Arguments mBufIndexer {cb pool} _.
Arguments mBufferReadWatchdog {cb pool} _.
Arguments mTrickPlayTimer {cb pool} _.
Arguments mHandles {cb pool} _.
Arguments mPauseTimeMonitor {cb pool} _.
Arguments writes {cb pool} _.

#[export] Instance TimeShift_eta cb pool : Eta (TimeShiftBufferConsumer cb pool) := fun r =>
  mkTimeShift (mSeekByteOffset r) (mIsStreaming r) (mIsPaused r) (mPlayerState r)
    (mTrickPlaySpeed r) (mRingBufferPool r) (mBufIndexer r) (mBufferReadWatchdog r)
    (mTrickPlayTimer r) (mHandles r) (mPauseTimeMonitor r) (writes r).

Section TimeShift.
Context {cfg : StreamfsConfig} {cb : Type -> Type} {CB : CircularBuffer cb}.
Context {pool : Type} {RB : RingBuffer pool}.
Implicit Types s : TimeShiftBufferConsumer cb pool.

(** [p] is the ring buffer [allocateBufferQueue] makes, [now] the clock when the pause
    monitor is made. *)
Definition TimeShift_new (p : pool) (now : Z) : outcome (TimeShiftBufferConsumer cb pool) :=
  n ← u64_of_float BUFFER_POOL_SIZE;
  indexer ← BufferIndexer_new n BUFFER_POOL_TAIL_SIZE BUFFER_SAMPLING_RATIO;
  Done (mkTimeShift 0 false false UNDEF 1 p indexer TimeoutWatchdog_new
          (setPeriodInMilliseconds CyclicEventTimer_new TRICK_PLAY_RATE_MS) ∅
          (TimeIntervalMonitor_reset now) []).

(** Runs an operation of the watchdog; its callback stores its argument in [mIsPaused]. *)
Definition with_watchdog s (f : TimeoutWatchdog -> TimeoutWatchdog) : TimeShiftBufferConsumer cb pool :=
  let w := f (mBufferReadWatchdog s) in
  let called := drop (length (calls (mBufferReadWatchdog s))) (calls w) in
  s <| mBufferReadWatchdog := w |> <| mIsPaused := default (mIsPaused s) (list.last called) |>.

Definition getTotalBufferByteCount s : Z :=
  u64 (getTotalBufferCount (mRingBufferPool s) * BUFFER_CHUNK_SIZE).

Definition updateTrickPlayFile s : TimeShiftBufferConsumer cb pool :=
  s <| writes := writes s ++ [(kTrickPlay0, pretty (mTrickPlaySpeed s))] |>.

(** The part of [post] for a player that is paused and does not read: [mHandles.begin()] of
    an empty map must not be dereferenced. *)
Definition post_paused s (now : Z) : outcome (TimeShiftBufferConsumer cb pool) :=
  let livePos := getTotalBufferByteCount s in
  match map_begin (mHandles s) with
  | None => Stop Ub
  | Some (k, ctx) =>
    let actualPos := getCurrentReadOffset ctx in
    let '(deltaBytes, monitor) :=
      if actualPos <? livePos
      then (livePos - actualPos, stopTimeInterval (mPauseTimeMonitor s))
      else (0, updateTimeInterval (mPauseTimeMonitor s) now) in
    let s := s <| mPauseTimeMonitor := monitor |>
               <| mHandles := <[k := incReadOffset ctx deltaBytes]> (mHandles s) |>
               <| mSeekByteOffset := u64 (mSeekByteOffset s + deltaBytes) |> in
    maxSize ← getIndexSizeInBytes (mBufIndexer s);
    Done (if maxSize <? mSeekByteOffset s then s <| mSeekByteOffset := maxSize |> else s)
  end.

(** [t] and [now] are the clock, in microseconds and in nanoseconds. *)
Definition TimeShift_post s (chunk : list Z) (t now : Z) : outcome (TimeShiftBufferConsumer cb pool) :=
  if negb (mIsStreaming s) then Done s
  else
    let s := s <| mRingBufferPool := queueBuffer chunk (mRingBufferPool s) |> in
    '(registered, n, indexer) ←
      registerBufferCount (mBufIndexer s) t (getTotalBufferByteCount s);
    let s := s <| mBufIndexer := indexer |> in
    if bool_decide (mPlayerState s = PAUSED) then
      let s := if registered && (n =? 1) then with_watchdog s watchdog_start else s in
      if mIsPaused s then post_paused s now
      else Done (s <| mPauseTimeMonitor := updateTimeInterval (mPauseTimeMonitor s) now |>)
    else Done s.

Definition setTrickPlaySpeed s (speed : Z) : bool * TimeShiftBufferConsumer cb pool :=
  if negb (speed =? 0) && negb (speed =? mTrickPlaySpeed s) then
    let s := s <| mTrickPlaySpeed := speed |>
               <| mTrickPlayTimer := (timer_start (mTrickPlayTimer s)).2 |> in
    (true, updateTrickPlayFile s)
  else (false, s).

Definition getTrickPlaySpeed s : Z := mTrickPlaySpeed s.

(** [initReadOffset] on every handle. *)
Definition init_handles s (bufferSize : Z) : TimeShiftBufferConsumer cb pool :=
  s <| mHandles := (fun _ => initReadOffset bufferSize) <$> mHandles s |>.

Definition setSeekTime s (seekTime now : Z) : outcome (bool * TimeShiftBufferConsumer cb pool) :=
  sizeUs ← getIndexSizeInTimeUs (mBufIndexer s);
  maxSeekTime ← u64_of_float (div_1e3 sizeUs);
  let seekTime := if maxSeekTime <? u64 seekTime then s64 maxSeekTime else seekTime in
  time ← u64_of_float (mul_1e3 seekTime);
  '(err, byteOffset, indexer) ← getByteOffsetFromTimeUs (mBufIndexer s) time 0;
  let s := s <| mBufIndexer := indexer |> in
  match err with
  | BUF_OK =>
    let s := s <| mSeekByteOffset := byteOffset |> in
    let s := with_watchdog s watchdog_clear in
    let s := s <| mPauseTimeMonitor := TimeIntervalMonitor_reset now |> in
    let s := init_handles s (getTotalBufferByteCount s) in
    let s := if bool_decide (mPlayerState s = PAUSED) then with_watchdog s watchdog_start else s in
    Done (true, s)
  | BUF_OUT_OF_RANGE | BUF_EMPTY => Done (false, s)
  end.

Definition getTimestampUsForCurrentByteReadIndex s : outcome Z :=
  match map_begin (mHandles s) with
  | None => Stop Ub
  | Some (_, ctx) =>
    let actualPos := u64 (getCurrentReadOffset ctx - mSeekByteOffset s) in
    '(_, time) ← getTimestampUsForByteIndex (mBufIndexer s) actualPos 0;
    Done time
  end.

Definition getSeekTime s : outcome (Z * TimeShiftBufferConsumer cb pool) :=
  '(_, seekTime, indexer) ← getTimeUsFromByteOffset (mBufIndexer s) (mSeekByteOffset s) 0;
  let s := s <| mBufIndexer := indexer |> in
  let seekTime := u64 (seekTime + getAccumulatedTimeInMicroSeconds (mPauseTimeMonitor s)) in
  r ← s64_of_float (div_1e3 seekTime);
  Done (r, s).

Definition getMaxSeekTime s : outcome Z :=
  sizeUs ← getIndexSizeInTimeUs (mBufIndexer s);
  s64_of_float (div_1e3 sizeUs).

(** The seek position trick play aims at, the speed after that and whether it stops. *)
Definition trick_play_target (speed currentSeek maxSeek : Z) : Z * Z * bool :=
  if speed =? 1 then (currentSeek, speed, true)
  else
    let deltaSeek := TRICK_PLAY_RATE_MS * speed in
    if deltaSeek <? 0 then
      let newSeek := currentSeek - deltaSeek + TRICK_PLAY_RATE_MS in
      if newSeek <? maxSeek then (newSeek, speed, false) else (newSeek, 1, true)
    else
      let newSeek := currentSeek - deltaSeek - TRICK_PLAY_RATE_MS in
      if 0 <? newSeek then (newSeek, speed, false) else (0, 1, true).

(** [getMaxSeekTime] is read only to rewind; it changes nothing. *)
Definition updateTrickPlayPosition s (now : Z) : outcome (bool * TimeShiftBufferConsumer cb pool) :=
  '(currentSeek, s) ← getSeekTime s;
  maxSeek ← (if TRICK_PLAY_RATE_MS * mTrickPlaySpeed s <? 0 then getMaxSeekTime s else Done 0);
  let '(newSeek, speed, stopTrickPlay) := trick_play_target (mTrickPlaySpeed s) currentSeek maxSeek in
  let s := s <| mTrickPlaySpeed := speed |>
             <| mRingBufferPool := enableReadThrottling stopTrickPlay (mRingBufferPool s) |> in
  '(_, s) ← setSeekTime s newSeek now;
  let s := s <| writes := writes s ++ [(kFlush0, "seek change"%string)] |> in
  let s := if mTrickPlaySpeed s =? 1 then updateTrickPlayFile s else s in
  Done (stopTrickPlay, s).

Definition setPlayerState s (state : PlayerState) : outcome (TimeShiftBufferConsumer cb pool) :=
  match state with
  | PLAYING =>
    let s := with_watchdog s watchdog_stop in
    Done (s <| mPauseTimeMonitor := stopTimeInterval (mPauseTimeMonitor s) |>
            <| mIsPaused := false |> <| mPlayerState := PLAYING |>)
  | PAUSED =>
    n ← getIndexSizeInBytes (mBufIndexer s);
    let s := if negb (n =? 0) then with_watchdog s watchdog_start else s in
    Done (s <| mPlayerState := PAUSED |>)
  | UNDEF | READY => Done s
  end.

Definition getPlayerState s : PlayerState := mPlayerState s.

Definition readData s (handle size : Z) : list Z * TimeShiftBufferConsumer cb pool :=
  let s := match mHandles s !! handle with
           | Some _ => s
           | None => s <| mHandles := <[handle := initReadOffset (getTotalBufferByteCount s)]> (mHandles s) |>
           end in
  let hCtx := default (mkHandleContext 0) (mHandles s !! handle) in
  let bufferPoolOffset := u64 (getCurrentReadOffset hCtx - mSeekByteOffset s) in
  let '(data, p) := readRandomAccess size bufferPoolOffset (mRingBufferPool s) in
  let s := s <| mRingBufferPool := p |> in
  let s := if 0 <? zlen data
           then s <| mHandles := <[handle := incReadOffset hCtx (zlen data)]> (mHandles s) |> else s in
  let s := if bool_decide (mPlayerState s = PAUSED) then with_watchdog s watchdog_restart else s in
  (data, s).

Definition TimeShift_reset s (now : Z) : TimeShiftBufferConsumer cb pool :=
  let s := if negb (mSeekByteOffset s =? 0) then init_handles s (getTotalBufferByteCount s) else s in
  let s := s <| mSeekByteOffset := 0 |> <| mTrickPlaySpeed := 1 |> in
  let s := updateTrickPlayFile s in
  let s := s <| mRingBufferPool := enableReadThrottling true (mRingBufferPool s) |>
             <| mTrickPlayTimer := timer_stop (mTrickPlayTimer s) |>
             <| mBufIndexer := BufferIndexer_clear (mBufIndexer s) |> in
  let s := with_watchdog s watchdog_clear in
  s <| mPauseTimeMonitor := TimeIntervalMonitor_reset now |> <| mIsPaused := false |>.

Definition TimeShift_onEndOfStream s (now : Z) : TimeShiftBufferConsumer cb pool :=
  let s := s <| mIsStreaming := false |> in
  let s := s <| mRingBufferPool := clearToLastRead (mRingBufferPool s) |> in
  TimeShift_reset s now.

Definition TimeShift_onOpen s : TimeShiftBufferConsumer cb pool := s <| mIsStreaming := true |>.

Definition release s (handle : Z) : TimeShiftBufferConsumer cb pool :=
  s <| mHandles := delete handle (mHandles s) |>.

Definition interruptReads s : TimeShiftBufferConsumer cb pool :=
  s <| mRingBufferPool := abortAllOperations (mRingBufferPool s) |>.

Definition getSeekOffset s : Z := s64 (mSeekByteOffset s).

Definition getActualBufferByteSize s : outcome Z := getIndexSizeInBytes (mBufIndexer s).

Definition getBufferCapacityByteSize s : Z :=
  u64 ((getBufferCapacity (mBufIndexer s) - 1) * BUFFER_CHUNK_SIZE * BUFFER_SAMPLING_RATIO).

(** A step of the watchdog's thread. *)
Definition watchdog_runs s : option (TimeShiftBufferConsumer cb pool) :=
  match watchdog_thread (mBufferReadWatchdog s) with
  | Some w => Some (with_watchdog s (fun _ => w))
  | None => None
  end.

(** A step of the trick play timer's thread, whose closure is [updateTrickPlayPosition]. *)
Definition trick_play_runs s (now : Z) : outcome (option (TimeShiftBufferConsumer cb pool)) :=
  match timer_at (mTrickPlayTimer s) with
  | InClosure =>
    '(r, s) ← updateTrickPlayPosition s now;
    Done (match timer_thread (mTrickPlayTimer s) r with
          | Some t => Some (s <| mTrickPlayTimer := t |>)
          | None => None
          end)
  | _ => Done (match timer_thread (mTrickPlayTimer s) false with
               | Some t => Some (s <| mTrickPlayTimer := t |>)
               | None => None
               end)
  end.

End TimeShift.
