(* ===== verification/TimeShiftProps.v ===== *)
(** Theorems on the time shift buffer: where in the stream the player reads, and how
    posting, pausing, seeking, trick play and the end of the stream move that position. *)

From S2P Require Import Prelude Interfaces Floats UpperBound BufferIndexer IndexerProps TimeInterval Watchdog TimeShift.

(** * Wrapping arithmetic *)

Lemma u64_sub_l a b : u64 (u64 a - b) = u64 (a - b).
Proof. unfold u64; by rewrite Zminus_mod_idemp_l. Qed.

Lemma u64_sub_r a b : u64 (a - u64 b) = u64 (a - b).
Proof. unfold u64; by rewrite Zminus_mod_idemp_r. Qed.

Lemma u64_add_l a b : u64 (u64 a + b) = u64 (a + b).
Proof. unfold u64; by rewrite Zplus_mod_idemp_l. Qed.

Section props.
Context {cfg : StreamfsConfig} {cb : Type -> Type} {CB : CircularBuffer cb}.
Context {pool : Type} {RB : RingBuffer pool}.
Implicit Types s : TimeShiftBufferConsumer cb pool.

(** Where in the stream, in bytes from its beginning, the handle reads next; a handle
    without a context starts behind the live point by the seek offset. *)
Definition read_position s (h : Z) : Z :=
  u64 (match mHandles s !! h with
       | Some ctx => getCurrentReadOffset ctx
       | None => getTotalBufferByteCount s
       end - mSeekByteOffset s).

(** * What the operations leave alone *)

Lemma with_watchdog_handles s f : mHandles (with_watchdog s f) = mHandles s.
Proof. done. Qed.

Lemma with_watchdog_seek s f : mSeekByteOffset (with_watchdog s f) = mSeekByteOffset s.
Proof. done. Qed.

Lemma start_keeps_paused s : mIsPaused (with_watchdog s watchdog_start) = mIsPaused s.
Proof.
  unfold with_watchdog, watchdog_start; cbn; destruct (mStop _); cbn; by rewrite drop_all.
Qed.

(** * Reading *)

(** Where the handle reads, before the seek offset is taken off. *)
Definition read_offset s (h : Z) : Z :=
  match mHandles s !! h with Some ctx => getCurrentReadOffset ctx | None => getTotalBufferByteCount s end.

(** What a read changes. *)
Lemma readData_spec s h size : exists o, let '(data, s') := readData s h size in
  readRandomAccess size (read_position s h) (mRingBufferPool s) = (data, mRingBufferPool s') /\
  mHandles s' = <[h := mkHandleContext o]> (mHandles s) /\
  o = (if 0 <? zlen data then u64 (read_offset s h + zlen data) else read_offset s h) /\
  mSeekByteOffset s' = mSeekByteOffset s /\ mIsStreaming s' = mIsStreaming s /\ mBufIndexer s' = mBufIndexer s.
Proof.
  unfold readData; set (t := match mHandles s !! h with Some _ => s | None => _ end).
  assert (Ht : mHandles t = <[h := mkHandleContext (read_offset s h)]> (mHandles s) /\
    mSeekByteOffset t = mSeekByteOffset s /\ mRingBufferPool t = mRingBufferPool s /\
    mIsStreaming t = mIsStreaming s /\ mBufIndexer t = mBufIndexer s).
  { unfold t, read_offset; destruct (mHandles s !! h) as [[c]|] eqn:E; [|done].
    cbn; split; [by rewrite insert_id|done]. }
  clearbody t; destruct Ht as (Hh & Hseek & Hpool & Hst & Hix); rewrite Hh, lookup_insert_eq; cbn [default from_option id].
  rewrite Hseek, Hpool; change (getCurrentReadOffset (mkHandleContext ?x)) with x.
  change (u64 (read_offset s h - mSeekByteOffset s)) with (read_position s h).
  destruct (readRandomAccess size (read_position s h) (mRingBufferPool s)) as [data p'].
  exists (if 0 <? zlen data then u64 (read_offset s h + zlen data) else read_offset s h).
  destruct (0 <? zlen data); destruct (bool_decide _); cbn; rewrite Hh, ?insert_insert_eq; by split_and!.
Qed.

(** A read takes its bytes from the handle's position and moves the position of this
    handle, and of no other one that is open, by the number of bytes it got. *)
Theorem readData_correct s h size :
  exists p', readRandomAccess size (read_position s h) (mRingBufferPool s) =
      ((readData s h size).1, p') /\
    mRingBufferPool (readData s h size).2 = p' /\
    read_position (readData s h size).2 h =
      u64 (read_position s h + zlen (readData s h size).1) /\
    (forall h', h' <> h -> is_Some (mHandles s !! h') ->
      read_position (readData s h size).2 h' = read_position s h').
Proof.
  destruct (readData_spec s h size) as [o Ho]; destruct (readData s h size) as [data s'].
  destruct Ho as (Hr & Hh & -> & Hs & _); exists (mRingBufferPool s'); split_and!; try done; cbn [fst snd].
  - unfold read_position; rewrite Hh, Hs, lookup_insert_eq; fold (read_offset s h); cbn; case_if.
    + rewrite u64_sub_l, u64_add_l; f_equal; lia.
    + assert (zlen data = 0) as -> by (pose proof (zlen_nonneg data); lia).
      rewrite Z.add_0_r; symmetry; apply u64_small, u64_range.
  - intros h' Hne [c Hc]; unfold read_position; by rewrite Hh, Hs, lookup_insert_ne, Hc.
Qed.

(** * Posting *)

(** The bytes a reader that stopped at [actualPos] has fallen behind. *)
Definition fallen_behind s (ctx : HandleContext) : Z :=
  if getCurrentReadOffset ctx <? getTotalBufferByteCount s
  then getTotalBufferByteCount s - getCurrentReadOffset ctx else 0.

Lemma post_paused_inv s now s' : post_paused s now = Done s' ->
  exists k ctx maxSize, map_begin (mHandles s) = Some (k, ctx) /\
    getIndexSizeInBytes (mBufIndexer s) = Done maxSize /\
    mBufIndexer s' = mBufIndexer s /\ mRingBufferPool s' = mRingBufferPool s /\
    mHandles s' = <[k := incReadOffset ctx (fallen_behind s ctx)]> (mHandles s) /\
    mSeekByteOffset s' = Z.min maxSize (u64 (mSeekByteOffset s + fallen_behind s ctx)).
Proof.
  unfold post_paused; destruct (map_begin (mHandles s)) as [[k ctx]|] eqn:Hb; [|done].
  cbv zeta; rewrite (surjective_pairing (if getCurrentReadOffset ctx <? _ then _ else _)).
  replace (if getCurrentReadOffset ctx <? getTotalBufferByteCount s
           then (getTotalBufferByteCount s - getCurrentReadOffset ctx, stopTimeInterval (mPauseTimeMonitor s))
           else (0, updateTimeInterval (mPauseTimeMonitor s) now)).1
    with (fallen_behind s ctx) by (unfold fallen_behind; by case_if).
  cbv beta iota; intros (maxSize & Hmax & Hs)%bind_done_inv.
  exists k, ctx, maxSize; split; [done|split; [exact Hmax|]].
  injection Hs as <-; case_if; (repeat split); cbn in *; lia.
Qed.

(** What [post] has done when it comes to its pause handling. *)
Definition posted s (chunk : list Z) : TimeShiftBufferConsumer cb pool :=
  s <| mRingBufferPool := queueBuffer chunk (mRingBufferPool s) |>.

Lemma TimeShift_post_inv s chunk t now s' : mIsStreaming s = true ->
  TimeShift_post s chunk t now = Done s' ->
  (mHandles s' = mHandles s /\ mSeekByteOffset s' = mSeekByteOffset s /\
   (mPlayerState s <> PAUSED \/ mIsPaused s = false)) \/
  exists u, mHandles u = mHandles s /\ mSeekByteOffset u = mSeekByteOffset s /\
    mRingBufferPool u = queueBuffer chunk (mRingBufferPool s) /\
    mPlayerState s = PAUSED /\ mIsPaused u = true /\ post_paused u now = Done s'.
Proof.
  unfold TimeShift_post; intros ->; cbn [negb]; cbv zeta.
  intros ([[r n] ix] & Hreg & Hs)%bind_done_inv.
  case_bool_decide as Hp; [|injection Hs as <-; by left; repeat split; left].
  change (mPlayerState _) with (mPlayerState s) in Hp.
  match type of Hs with context [post_paused ?w _] => set (u := w) in Hs end.
  assert (Hu : mHandles u = mHandles s /\ mSeekByteOffset u = mSeekByteOffset s /\
    mRingBufferPool u = queueBuffer chunk (mRingBufferPool s))
    by (unfold u; destruct (r && (n =? 1)); done).
  assert (Hpaused : mIsPaused s = true -> mIsPaused u = true).
  { intros Hs1; unfold u; destruct (r && (n =? 1)); [|done]; by rewrite start_keeps_paused. }
  clearbody u; destruct Hu as (H1 & H2 & H3), (mIsPaused u) eqn:E.
  - right; by exists u.
  - left; injection Hs as <-; cbn; rewrite H1, H2; repeat split; right.
    destruct (mIsPaused s); [discriminate (Hpaused eq_refl)|done].
Qed.

Lemma map_begin_lookup (m : gmap Z HandleContext) k c : map_begin m = Some (k, c) -> m !! k = Some c.
Proof.
  unfold map_begin; revert k c; eapply (map_fold_weak_ind (fun r m => forall k c, r = Some (k, c) -> m !! k = Some c)).
  - done.
  - intros i x m' r Hi IH k c; destruct r as [[k' c']|].
    + case_if; intros [= <- <-]; [apply lookup_insert_eq|].
      rewrite lookup_insert_ne; [by apply IH|]; intros ->; by rewrite (IH _ _ eq_refl) in Hi.
    + intros [= <- <-]; apply lookup_insert_eq.
Qed.

(** Posting a buffer does not move the position of the first handle, whether the player
    plays or pauses, until the paused player would leave the window: then it is moved to the
    oldest position in the window. *)
Theorem post_keeps_position s chunk t now s' h ctx (Hopen : mIsStreaming s = true)
    (Hfirst : map_begin (mHandles s) = Some (h, ctx)) (Hctx : 0 <= mReadOffset ctx < 18446744073709551616)
    (Hpost : TimeShift_post s chunk t now = Done s') :
  read_position s' h = read_position s h \/
  exists maxSize, mPlayerState s = PAUSED /\
    getIndexSizeInBytes (mBufIndexer s') = Done maxSize /\ mSeekByteOffset s' = maxSize /\
    read_position s' h = u64 (Z.max (getTotalBufferByteCount s') (mReadOffset ctx) - maxSize).
Proof.
  pose proof (map_begin_lookup _ _ _ Hfirst) as Hh0.
  destruct (TimeShift_post_inv _ _ _ _ _ Hopen Hpost) as [(H1 & H2 & _)|(u & H1 & H2 & H3 & Hp & _ & Hu)].
  { left; unfold read_position; by rewrite H1, H2, Hh0. }
  destruct (post_paused_inv _ _ _ Hu) as (k & c & maxSize & Hb & Hmax & Hix & Hpool & Hh & Hseek).
  rewrite H1, Hfirst in Hb; injection Hb as <- <-; rewrite H2 in Hseek.
  destruct (Z.le_gt_cases (u64 (mSeekByteOffset s + fallen_behind u ctx)) maxSize).
  - left; unfold read_position; rewrite Hh, lookup_insert_eq, Hh0, Hseek, Z.min_r by done.
    cbn; rewrite u64_sub_l, u64_sub_r; unfold getCurrentReadOffset; f_equal; lia.
  - right; exists maxSize; split; [done|].
    rewrite Hix, Hseek, Z.min_l by lia; split; [done|split; [done|]].
    unfold read_position; rewrite Hh, lookup_insert_eq, Hseek, Z.min_l by lia.
    cbn [incReadOffset getCurrentReadOffset mReadOffset]; rewrite u64_sub_l; f_equal.
    replace (getTotalBufferByteCount s') with (getTotalBufferByteCount u)
      by (unfold getTotalBufferByteCount; by rewrite Hpool).
    unfold fallen_behind, getCurrentReadOffset; case_if; lia.
Qed.

(** Posting to a paused player moves every handle but the first one backwards in the
    stream: the seek offset, which all of them share, grows by what the first handle has
    fallen behind, and only the first handle's read offset grows with it. *)
Theorem post_moves_other_handles s chunk t now s' k c h (Hopen : mIsStreaming s = true)
    (Hpaused : mPlayerState s = PAUSED) (Hstopped : mIsPaused s = true)
    (Hfirst : map_begin (mHandles s) = Some (k, c)) (Hh : h <> k) (Hcons : is_Some (mHandles s !! h))
    (Hpost : TimeShift_post s chunk t now = Done s')
    (Hroom : mSeekByteOffset s' <> default 0 (match getIndexSizeInBytes (mBufIndexer s') with
                                              | Done n => Some n | Stop _ => None end)) :
  read_position s' h = u64 (read_position s h - fallen_behind s' c).
Proof.
  destruct (TimeShift_post_inv _ _ _ _ _ Hopen Hpost)
    as [(_ & _ & [?|?])|(u & H1 & H2 & H3 & _ & _ & Hu)]; [done|congruence|].
  destruct (post_paused_inv _ _ _ Hu) as (k' & c' & maxSize & Hb & Hmax & Hix & Hpool & Hhs & Hseek).
  rewrite H1, Hfirst in Hb; injection Hb as <- <-; destruct Hcons as [ch Hch].
  rewrite Hix, Hmax in Hroom; cbn in Hroom.
  replace (fallen_behind s' c) with (fallen_behind u c)
    by (unfold fallen_behind, getTotalBufferByteCount; by rewrite Hpool).
  rewrite Z.min_r in Hseek by lia.
  unfold read_position; rewrite Hhs, lookup_insert_ne, H1, Hch, Hseek, H2 by done.
  rewrite u64_sub_r, u64_sub_l; f_equal; lia.
Qed.

(** A stream that is paused before anybody has opened a handle: once the watchdog has
    expired the next buffer dereferences the end of the empty handle map. *)
Theorem post_without_handle s chunk t now (Hopen : mIsStreaming s = true)
    (Hpaused : mPlayerState s = PAUSED) (Hstopped : mIsPaused s = true) (Hnone : mHandles s = ∅)
    (Hratio : mSamplingRatio (mBufIndexer s) <> 0) :
  TimeShift_post s chunk t now = Stop Ub.
Proof.
  unfold TimeShift_post; rewrite Hopen; cbn [negb]; cbv zeta.
  unfold registerBufferCount; cbn [mBufIndexer field_update].
  rewrite (proj2 (Z.eqb_neq _ 0)) by done; cbv zeta.
  assert (Hp : forall u, mHandles u = ∅ -> post_paused u now = Stop Ub)
    by (intros u Hu; unfold post_paused; by rewrite Hu).
  destruct (_ mod _ =? 0); step_done; rewrite bool_decide_true by done; cbn [andb].
  - destruct (_ =? 1); rewrite ?start_keeps_paused;
      change (mIsPaused (_ <| mBufIndexer := _ |>)) with (mIsPaused s); rewrite Hstopped; by apply Hp.
  - change (mIsPaused (_ <| mBufIndexer := _ |>)) with (mIsPaused s); rewrite Hstopped; by apply Hp.
Qed.

(** * Seeking *)

Lemma init_handles_lookup s n h :
  mHandles (init_handles s n) !! h = (fun _ => initReadOffset n) <$> mHandles s !! h.
Proof. unfold init_handles; cbn -[lookup fmap]; apply lookup_fmap. Qed.

(** The time in microseconds that a seek goes to: the seek time, which is in milliseconds, at
    most the window [W]; a negative one counts as too large. *)
Definition seek_target (W seekTime : Z) : Z :=
  (if 0 <=? seekTime then Z.min seekTime (W / 1000) else W / 1000) * 1000.

(** Every handle, the open ones and those still to be opened, is [offset] behind the live point. *)
Definition sought s s' (offset : Z) : Prop :=
  mSeekByteOffset s' = offset /\ forall h, read_position s' h = u64 (getTotalBufferByteCount s - offset).

Lemma seek_time_converted W seekTime : 0 <= W < 2 ^ 50 -> -9223372036854775808 <= seekTime < 9223372036854775808 ->
  u64_of_float (mul_1e3 (if W / 1000 <? u64 seekTime then s64 (W / 1000) else seekTime)) = Done (seek_target W seekTime).
Proof.
  intros HW Hs; assert (Hm : 0 <= W / 1000 < 2 ^ 42) by (split; [apply Z.div_pos|apply Z.div_lt_upper_bound]; lia).
  assert (E : s64 (W / 1000) = W / 1000) by (apply signed_wrap_small; lia).
  unfold seek_target, mul_1e3; rewrite E; destruct (Z.leb_spec 0 seekTime).
  - rewrite u64_small by lia; case_if; b2p; rewrite f64_mul_1000 by lia; f_equal; lia.
  - assert (Hu : u64 seekTime = seekTime + 18446744073709551616)
      by (symmetry; apply Z.mod_unique with (-1); lia).
    rewrite Hu, (proj2 (Z.ltb_lt _ _)) by lia; by apply f64_mul_1000.
Qed.

Lemma setSeekTime_found s seekTime now W offset ix :
  getIndexSizeInTimeUs (mBufIndexer s) = Done W -> 0 <= W < 2 ^ 50 ->
  -9223372036854775808 <= seekTime < 9223372036854775808 ->
  getByteOffsetFromTimeUs (mBufIndexer s) (seek_target W seekTime) 0 = Done (BUF_OK, offset, ix) ->
  exists s', setSeekTime s seekTime now = Done (true, s') /\ sought s s' offset.
Proof.
  intros HW Hr Hs Hf; unfold setSeekTime; rewrite HW; step_done; unfold div_1e3; rewrite f64_div_1000 by lia; step_done.
  cbv zeta; rewrite seek_time_converted by done; step_done; rewrite Hf; step_done.
  eexists; split; [done|]; unfold sought.
  match goal with |- context [if _ then _ else ?u] => set (t := u) end.
  assert (Ht : mSeekByteOffset t = offset /\ forall h, read_position t h = u64 (getTotalBufferByteCount s - offset)).
  { split; [done|]; intros h; unfold read_position, t; rewrite init_handles_lookup.
    by match goal with |- context [?m !! h] => destruct (m !! h) end. }
  by destruct (bool_decide _).
Qed.

(** C35. A seek goes to the seek time, in milliseconds, or to the begin of the window [W] when
    that is less. On an empty index it fails and changes nothing. Otherwise it succeeds: every
    handle, the open ones and those still to be opened, is then as far behind the live point as
    the index says for that time: nothing for the live point; what it has answered last when it is
    asked the same again; and else, between the two neighbouring samples of the window that have
    the time sought between them, the bytes from the sample at the interpolated position to the
    newest one. The window is shorter than 2^50 microseconds and the clock below 2^63. *)
Theorem setSeekTime_correct s seekTime now :
  let ix := mBufIndexer s in
  indexer_ok ix -> -9223372036854775808 <= seekTime < 9223372036854775808 ->
  (size ix = 0 -> setSeekTime s seekTime now = Done (false, s)) /\
  (0 < size ix -> exists f b, getFront ix = Done f /\ back ix = Done b /\
   let time := seek_target (b.1 - f.1) seekTime in
   b.1 - f.1 < 2 ^ 50 -> b.1 < u64_max / 2 ->
   (time = (mLastByteOffsetFromTimeUs ix).1 ->
      exists s', setSeekTime s seekTime now = Done (true, s') /\ sought s s' (mLastByteOffsetFromTimeUs ix).2) /\
   (time <> (mLastByteOffsetFromTimeUs ix).1 -> time = 0 ->
      exists s', setSeekTime s seekTime now = Done (true, s') /\ sought s s' 0) /\
   (time <> (mLastByteOffsetFromTimeUs ix).1 -> time <> 0 -> exists i prev cur,
      getFrontIndex ix < i < size ix /\ rd (items ix) (i - 1) = Done prev /\ rd (items ix) i = Done cur /\
      prev.1 <= b.1 - time < cur.1 /\
      forall index x, interpolate_index i prev.1 cur.1 (time - (b.1 - cur.1)) = Done index -> rd (items ix) index = Done x ->
        exists s', setSeekTime s seekTime now = Done (true, s') /\ sought s s' (u64 (b.2 - x.2)))).
Proof.
  intros ix Hix Hs; split.
  - intros Hz; unfold setSeekTime, getIndexSizeInTimeUs, getByteOffsetFromTimeUs; fold ix; rewrite Hz; cbn [Z.eqb]; step_done.
    unfold div_1e3; rewrite f64_div_1000 by lia; step_done; cbv zeta.
    rewrite seek_time_converted by lia; step_done; by destruct s.
  - intros Hz; destruct (window_ends ix Hix Hz) as (f & b & Hf & Hb & [Hf1 _] & [Hb1 _] & H1 & _ & _).
    exists f, b; split; [done|split; [done|]]; intros time HW Hyoung.
    assert (HWd : getIndexSizeInTimeUs ix = Done (b.1 - f.1)).
    { unfold getIndexSizeInTimeUs; rewrite (proj2 (Z.eqb_neq _ 0)), Hb by lia; step_done; rewrite Hf; step_done.
      unfold u64_max in *; by rewrite u64_small by lia. }
    pose proof (fun offset ix' => setSeekTime_found s seekTime now _ offset ix' HWd (conj (proj2 (Z.le_0_sub _ _) H1) HW) Hs) as Hfound.
    fold time ix in Hfound.
    assert (Hnz : (size ix =? 0) = false) by (apply Z.eqb_neq; lia).
    assert (Ht : 0 <= time <= b.1 - f.1).
    { unfold time, seek_target; pose proof (Z.mul_div_le (b.1 - f.1) 1000); pose proof (Z.div_pos (b.1 - f.1) 1000).
      case_if; b2p; lia. }
    split_and!.
    + intros He; apply (Hfound _ ix); unfold getByteOffsetFromTimeUs; by rewrite Hnz, <- He, Z.eqb_refl.
    + intros He H0; eapply Hfound; unfold getByteOffsetFromTimeUs.
      by rewrite Hnz, (proj2 (Z.eqb_neq _ _) He), H0.
    + intros He H0; destruct (getByteOffsetFromTimeUs_search ix time 0) as (f' & b' & Hf' & Hb' & _ & Hin); try done.
      * unfold u64_max in *; lia.
      * intros b'; rewrite Hb; by intros [= <-].
      * rewrite Hf in Hf'; rewrite Hb in Hb'; injection Hf' as <-; injection Hb' as <-.
        destruct Hin as (i & prev & cur & Hi & Hp & Hc & Hpc & Heq); [lia|]; exists i, prev, cur; split_and!; try done; try lia.
        intros index x Hindex Hx; rewrite Hindex, bind_Done, Hx, bind_Done in Heq; by eapply Hfound.
Qed.

(** * Trick play *)

(** One tick of trick play, in the time of the stream: while the live point moves on by
    the period, rewinding moves the position back by the speed times the period, and fast
    forward moves it on by the speed plus two times the period. *)
Theorem trick_play_advance speed seek maxSeek newSeek live
    (Htick : trick_play_target speed seek maxSeek = (newSeek, speed, false)) :
  let before := live - seek in
  let after := live + TRICK_PLAY_RATE_MS - newSeek in
  after - before = TRICK_PLAY_RATE_MS * (if speed <? 0 then speed else speed + 2).
Proof.
  unfold trick_play_target, TRICK_PLAY_RATE_MS in *; cbv zeta in *.
  repeat case_match; simplify_eq; b2p; lia.
Qed.

(** Ticks of trick play when the seek time is what the last tick has set, up to the one
    that stops it: the seek time then, and how many ticks there were. *)
Fixpoint trick_play (fuel : nat) (speed seek maxSeek : Z) : option (Z * nat) :=
  match fuel with
  | O => None
  | S fuel =>
    let '(newSeek, _, stop) := trick_play_target speed seek maxSeek in
    if stop then Some (newSeek, 1%nat)
    else match trick_play fuel speed newSeek maxSeek with
         | Some (r, n) => Some (r, S n)
         | None => None
         end
  end.

Lemma trick_play_S fuel speed seek maxSeek : trick_play (S fuel) speed seek maxSeek =
  let '(newSeek, _, stop) := trick_play_target speed seek maxSeek in
  if stop then Some (newSeek, 1%nat)
  else match trick_play fuel speed newSeek maxSeek with Some (r, n) => Some (r, S n) | None => None end.
Proof. done. Qed.

Lemma forward_stops speed maxSeek : 1 < speed -> forall (n : nat) seek,
  seek <= TRICK_PLAY_RATE_MS * (speed + 1) * Z.of_nat n ->
  exists k, trick_play (S n) speed seek maxSeek = Some (0, k) /\ (k <= S n)%nat.
Proof.
  unfold TRICK_PLAY_RATE_MS; intros Hs n; induction n as [|n IH]; intros seek Hseek;
    rewrite trick_play_S; unfold trick_play_target at 1, TRICK_PLAY_RATE_MS; cbv zeta;
    rewrite (proj2 (Z.eqb_neq speed 1)), (proj2 (Z.ltb_ge (350 * speed) 0)) by lia.
  - rewrite (proj2 (Z.ltb_ge 0 _)) by lia; by exists 1%nat.
  - case_if; [|exists 1%nat; split; [done|lia]].
    destruct (IH (seek - 350 * speed - 350)) as (k & -> & Hk); [lia|].
    exists (S k); split; [done|lia].
Qed.

Lemma rewind_stops speed maxSeek : speed < 0 -> forall (n : nat) seek,
  maxSeek - seek <= TRICK_PLAY_RATE_MS * (1 - speed) * Z.of_nat n ->
  exists r k, trick_play (S n) speed seek maxSeek = Some (r, k) /\ maxSeek <= r /\ (k <= S n)%nat.
Proof.
  unfold TRICK_PLAY_RATE_MS; intros Hs n; induction n as [|n IH]; intros seek Hseek;
    rewrite trick_play_S; unfold trick_play_target at 1, TRICK_PLAY_RATE_MS; cbv zeta;
    rewrite (proj2 (Z.eqb_neq speed 1)), (proj2 (Z.ltb_lt (350 * speed) 0)) by lia.
  - rewrite (proj2 (Z.ltb_ge _ maxSeek)) by lia; eexists _, 1%nat; split; [done|lia].
  - case_if; [|eexists _, 1%nat; split; [done|lia]].
    destruct (IH (seek - 350 * speed + 350)) as (r & k & -> & Hr & Hk); [lia|].
    exists r, (S k); split; [done|lia].
Qed.

(** Trick play comes to an end: fast forward stops at the live point, rewinding at the
    far end of the buffer, after at most as many ticks as the distance takes. *)
Theorem trick_play_stops speed seek maxSeek (Hspeed : speed < 0 \/ 1 < speed)
    (Hseek : 0 <= seek <= maxSeek) :
  let step := TRICK_PLAY_RATE_MS * (Z.abs speed + 1) in
  let n := S (Z.to_nat (maxSeek / step + 1)) in
  exists r k, trick_play n speed seek maxSeek = Some (r, k) /\ (k <= n)%nat /\
    if speed <? 0 then maxSeek <= r else r = 0.
Proof.
  cbv zeta; set (step := TRICK_PLAY_RATE_MS * (Z.abs speed + 1)).
  assert (Hstep : 0 < step) by (unfold step, TRICK_PLAY_RATE_MS; lia).
  pose proof (Z.mul_succ_div_gt maxSeek step Hstep).
  pose proof (Z.div_pos maxSeek step ltac:(lia) Hstep).
  destruct Hspeed as [Hs|Hs].
  - rewrite (proj2 (Z.ltb_lt _ _)) by lia.
    destruct (rewind_stops speed maxSeek Hs (Z.to_nat (maxSeek / step + 1)) seek)
      as (r & k & Hr & Hm & Hk); [|by exists r, k].
    unfold step in *; rewrite Z.abs_neq in * by lia; lia.
  - rewrite (proj2 (Z.ltb_ge _ _)) by lia.
    destruct (forward_stops speed maxSeek Hs (Z.to_nat (maxSeek / step + 1)) seek)
      as (k & Hr & Hk); [|by exists 0, k].
    unfold step in *; rewrite Z.abs_eq in * by lia; lia.
Qed.

(** A tick stops trick play exactly when it leaves the speed at normal, and otherwise
    keeps the speed; it always flushes the player's pipeline, and publishes the speed when
    it is normal again. *)
Theorem updateTrickPlayPosition_correct s now stop s'
    (Htick : updateTrickPlayPosition s now = Done (stop, s')) :
  mTrickPlaySpeed s' = (if stop then 1 else mTrickPlaySpeed s) /\
  (stop = false -> mTrickPlaySpeed s <> 1) /\
  writes s' = writes s ++ (kFlush0, "seek change"%string) ::
                (if stop then [(kTrickPlay0, "1"%string)] else []).
Proof.
  unfold updateTrickPlayPosition in Htick.
  apply bind_done_inv in Htick as ([seek s1] & Hget & Htick).
  apply bind_done_inv in Htick as (m & _ & Htick).
  assert (Hs1 : mTrickPlaySpeed s1 = mTrickPlaySpeed s /\ writes s1 = writes s).
  { unfold getSeekTime in Hget; apply bind_done_inv in Hget as ([[e st] ix] & _ & Hget).
    apply bind_done_inv in Hget as (r & _ & Hget); by injection Hget as <- <-. }
  destruct (trick_play_target (mTrickPlaySpeed s1) seek m) as [[newSeek speed] st] eqn:Ht.
  apply bind_done_inv in Htick as ([ok s2] & Hset & Htick).
  assert (Hspeed : speed = (if st then 1 else mTrickPlaySpeed s) /\
    (st = false -> mTrickPlaySpeed s <> 1)).
  { destruct Hs1 as [<- _]; unfold trick_play_target in Ht; cbv zeta in Ht.
    repeat case_match; simplify_eq; b2p; done. }
  assert (Hs2 : mTrickPlaySpeed s2 = speed /\ writes s2 = writes s1).
  { unfold setSeekTime in Hset; repeat (apply bind_done_inv in Hset as (? & _ & Hset)).
    repeat case_match; injection Hset as <- <-; done. }
  destruct Hs1 as [_ Hw1], Hs2 as [Hsp2 Hw2], Hspeed as [Hsp Hne].
  cbn [mTrickPlaySpeed field_update] in Htick; injection Htick as <- <-.
  split; [|split; [exact Hne|]].
  - rewrite Hsp2, Hsp; destruct st; cbn; [by rewrite Hsp2, Hsp|].
    case_if; cbn; congruence.
  - rewrite Hsp2, Hsp; destruct st; cbn; [by rewrite Hw2, Hw1, Hsp2, Hsp, <- app_assoc|].
    rewrite (proj2 (Z.eqb_neq _ _) (Hne eq_refl)); cbn; by rewrite Hw2, Hw1.
Qed.

(** * The end of the stream *)

Section end_of_stream.
Context {CBL : CircularBufferLaws cb} {RBL : RingBufferLaws pool}.

(** C36. The end of the stream forgets the seek position, the trick play speed, the pause and
    the index; every handle is at the live point if there was a seek position and stays
    where it is otherwise; and no buffer is taken until the next stream is opened. *)
Theorem end_of_stream_correct s now chunk t now' :
  let s' := TimeShift_onEndOfStream s now in
  mSeekByteOffset s' = 0 /\ mTrickPlaySpeed s' = 1 /\ mIsPaused s' = false /\
  size (mBufIndexer s') = 0 /\ getState (mBufferReadWatchdog s') = CLEAR /\
  (forall h ctx, mHandles s !! h = Some ctx -> 0 <= mReadOffset ctx < 18446744073709551616 ->
     read_position s' h =
       if mSeekByteOffset s =? 0 then mReadOffset ctx else getTotalBufferByteCount s) /\
  TimeShift_post s' chunk t now' = Done s'.
Proof.
  cbv zeta; unfold TimeShift_onEndOfStream, TimeShift_reset.
  set (s0 := s <| mIsStreaming := false |> <| mRingBufferPool := _ |>).
  assert (Hc : getTotalBufferByteCount s0 = getTotalBufferByteCount s)
    by (unfold getTotalBufferByteCount, s0; cbn; by rewrite count_clear).
  rewrite Hc; change (mSeekByteOffset s0) with (mSeekByteOffset s).
  set (s1 := if negb (mSeekByteOffset s =? 0) then _ else _).
  match goal with |- context [TimeShift_post ?u _ _ _] => set (s' := u) end.
  assert (Hs' : mHandles s' = mHandles s1 /\ mSeekByteOffset s' = 0 /\
    mIsStreaming s' = mIsStreaming s1) by done; destruct Hs' as (Hh' & Hseek' & Hopen').
  split; [done|split; [done|split; [done|split; [|split; [done|split]]]]].
  - unfold size, items; cbn; by rewrite cb_items_clear.
  - intros h ctx Hh Hr; unfold read_position; rewrite Hh', Hseek'.
    assert (Hl : mHandles s1 !! h =
        Some (if mSeekByteOffset s =? 0 then ctx else initReadOffset (getTotalBufferByteCount s))).
    { unfold s1; destruct (mSeekByteOffset s =? 0); cbn [negb]; [exact Hh|].
      by rewrite init_handles_lookup; change (mHandles s0) with (mHandles s); rewrite Hh. }
    rewrite Hl, Z.sub_0_r; case_if; cbn.
    + by apply u64_small.
    + apply u64_small, u64_range.
  - unfold TimeShift_post; rewrite Hopen'.
    by replace (mIsStreaming s1) with false by (unfold s1; by destruct (negb _)).
Qed.

End end_of_stream.

End props.
