(* ===== verification/TimeShiftStream.v ===== *)
(** What is read from the time shift buffer: the reads of a handle, in whatever order they come
    with the buffers of the stream, the reads of the other handles, pauses and the watchdog, give
    the stream piece by piece, without a gap and without a byte read twice. *)

From S2P Require Import Prelude Interfaces Floats UpperBound BufferIndexer TimeInterval Watchdog TimeShift TimeShiftProps.

(** * The bytes in the ring buffer *)

(** All the bytes that were ever queued, and where those begin that are still kept. *)
Class RingBufferBytes (pool : Type) := {
  stored : pool -> list Z;
  oldest : pool -> Z;
}.

(** A buffer is added at the end, and reading at an offset that is still kept gives the bytes
    from there on, as many as there are or fewer. *)
Class RingBufferBytesLaws (pool : Type) `{RingBuffer pool} `{RingBufferBytes pool} : Prop := {
  stored_queue : forall b p, stored (queueBuffer b p) = stored p ++ b;
  stored_read : forall n o p, stored (readRandomAccess n o p).2 = stored p;
  read_stored : forall n o p, 0 <= n -> 0 <= o -> oldest p <= o ->
    (readRandomAccess n o p).1 `prefix_of` zdrop o (stored p);
}.

Section stream.
Context {cfg : StreamfsConfig} {cb : Type -> Type} {CB : CircularBuffer cb}.
Context {pool : Type} {RB : RingBuffer pool} {RBL : RingBufferLaws pool}.
Context {RBB : RingBufferBytes pool} {RBBL : RingBufferBytesLaws pool}.
Implicit Types s : TimeShiftBufferConsumer cb pool.

(** * Steps *)

(** A buffer of the stream, a read, a new state of the player, a step of the watchdog's thread,
    and the end of a handle. *)
Inductive tsb_step :=
| TPost (chunk : list Z) (t now : Z)
| TRead (handle size : Z)
| TState (state : PlayerState)
| TWatchdog
| TRelease (handle : Z).

(** With a step comes what the handle [h] has read. *)
Definition tsb_exec (h : Z) (st : tsb_step) s : outcome (list Z * TimeShiftBufferConsumer cb pool) :=
  match st with
  | TPost chunk t now => s ← TimeShift_post s chunk t now; Done ([], s)
  | TRead handle size =>
    let '(data, s) := readData s handle size in Done (if handle =? h then data else [], s)
  | TState state => s ← setPlayerState s state; Done ([], s)
  | TWatchdog => Done ([], default s (watchdog_runs s))
  | TRelease handle => Done ([], release s handle)
  end.

Fixpoint tsb_run (h : Z) (l : list tsb_step) s : outcome (list Z * TimeShiftBufferConsumer cb pool) :=
  match l with
  | [] => Done ([], s)
  | st :: l =>
    '(data, s) ← tsb_exec h st s;
    '(rest, s) ← tsb_run h l s;
    Done (data ++ rest, s)
  end.

(** When a buffer comes in a pause for which the watchdog has expired, [post] keeps the position
    of the first handle, and moves the others back; and the seek offset is cut at the window. So a
    handle keeps its position if it is the first one and less than the window behind. *)
Definition kept_up (h : Z) (chunk : list Z) (t now : Z) s : Prop :=
  mPlayerState s = PAUSED -> mIsPaused s = true ->
  fst <$> map_begin (mHandles s) = Some h /\
  forall s' n, TimeShift_post s chunk t now = Done s' -> getIndexSizeInBytes (mBufIndexer s') = Done n ->
    mSeekByteOffset s' < n.

(** The player that reads by [h] is not left behind: what it reads is still kept, and it keeps its
    position in a pause; and its handle is not released. *)
Definition step_fine (h : Z) (st : tsb_step) s : Prop :=
  match st with
  | TPost chunk t now => zlen chunk = BUFFER_CHUNK_SIZE /\ kept_up h chunk t now s
  | TRead handle size => 0 <= size /\ (handle = h -> oldest (mRingBufferPool s) <= read_position s h)
  | TRelease handle => handle <> h
  | TState _ | TWatchdog => True
  end.

Fixpoint run_fine (h : Z) (l : list tsb_step) s : Prop :=
  match l with
  | [] => True
  | st :: l => step_fine h st s /\ forall data s', tsb_exec h st s = Done (data, s') -> run_fine h l s'
  end.

(** The same as tests. *)
Definition kept_up_b (h : Z) (chunk : list Z) (t now : Z) s : bool :=
  negb (bool_decide (mPlayerState s = PAUSED) && mIsPaused s) ||
  bool_decide (fst <$> map_begin (mHandles s) = Some h) &&
  match TimeShift_post s chunk t now with
  | Done s' => match getIndexSizeInBytes (mBufIndexer s') with Done n => mSeekByteOffset s' <? n | Stop _ => true end
  | Stop _ => true
  end.

Definition step_fine_b (h : Z) (st : tsb_step) s : bool :=
  match st with
  | TPost chunk t now => (zlen chunk =? BUFFER_CHUNK_SIZE) && kept_up_b h chunk t now s
  | TRead handle size => (0 <=? size) && (negb (handle =? h) || (oldest (mRingBufferPool s) <=? read_position s h))
  | TRelease handle => negb (handle =? h)
  | TState _ | TWatchdog => true
  end.

Fixpoint run_fine_b (h : Z) (l : list tsb_step) s : bool :=
  match l with
  | [] => true
  | st :: l => step_fine_b h st s && match tsb_exec h st s with Done (_, s') => run_fine_b h l s' | Stop _ => true end
  end.

Lemma kept_up_b_sound h chunk t now s : kept_up_b h chunk t now s = true -> kept_up h chunk t now s.
Proof.
  unfold kept_up_b; intros Hb Hp Hi; rewrite (bool_decide_eq_true_2 _ Hp), Hi in Hb; cbn [negb andb orb] in Hb.
  apply andb_true_iff in Hb as [Hf%bool_decide_eq_true Hb]; split; [done|].
  intros s' n Hs Hn; rewrite Hs, Hn in Hb; lia.
Qed.

Lemma step_fine_b_sound h st s : step_fine_b h st s = true -> step_fine h st s.
Proof.
  destruct st as [chunk t now|h' size|state| |h']; cbn [step_fine_b step_fine]; [|intros ?; b2p..]; try done.
  - intros [Hz%Z.eqb_eq Hb]%andb_true_iff; split; [done|by apply kept_up_b_sound].
  - lia.
Qed.

Lemma run_fine_b_sound h l s : run_fine_b h l s = true -> run_fine h l s.
Proof.
  revert s; induction l as [|st l IH]; intros s; cbn [run_fine_b run_fine]; [done|].
  intros [Hs Hl]%andb_true_iff; split; [by apply step_fine_b_sound|]; intros data s' He; rewrite He in Hl; by apply IH.
Qed.

Definition posted_bytes (l : list tsb_step) : list Z :=
  concat (omap (fun st => match st with TPost chunk _ _ => Some chunk | _ => None end) l).

(** * One step *)


Definition offsets_ok s : Prop :=
  map_Forall (fun _ ctx => 0 <= mReadOffset ctx < 18446744073709551616) (mHandles s).

(** A stream is open and its index can be asked. *)
Record streaming s : Prop := {
  st_open : mIsStreaming s = true;
  st_ratio : mSamplingRatio (mBufIndexer s) <> 0;
  st_window : 0 < mTsbSize (mBufIndexer s);
}.

Lemma index_size_done (x : BufferIndexer cb) : 0 < mTsbSize x -> exists n, getIndexSizeInBytes x = Done n.
Proof.
  intros Ht; unfold getIndexSizeInBytes, back, getFront, getIndexSize; case_if; [by eexists|].
  pose proof (zlen_nonneg (items x)); unfold size in *.
  destruct (rd_in_range (items x) (zlen (items x) - 1)) as [b ->]; [lia|]; rewrite bind_Done.
  match goal with |- context [rd (items x) ?i] => destruct (rd_in_range (items x) i) as [f ->] end.
  - case_if; lia.
  - by eexists.
Qed.

(** What [post] leaves alone. *)
Lemma post_paused_done s now h ctx : map_begin (mHandles s) = Some (h, ctx) -> 0 < mTsbSize (mBufIndexer s) ->
  exists s', post_paused s now = Done s' /\ mIsStreaming s' = mIsStreaming s.
Proof.
  intros Hb Hw; unfold post_paused; rewrite Hb; cbv zeta; case_if; cbv beta iota;
    (destruct (index_size_done (mBufIndexer s) Hw) as [n Hn];
     match goal with |- context [getIndexSizeInBytes ?x] => change x with (mBufIndexer s) end;
     rewrite Hn, bind_Done; eexists; split; [done|]; by case_if).
Qed.

Lemma post_cases s chunk t now : streaming s -> exists u,
  mHandles u = mHandles s /\ mSeekByteOffset u = mSeekByteOffset s /\
  mRingBufferPool u = queueBuffer chunk (mRingBufferPool s) /\ streaming u /\
  mPlayerState u = mPlayerState s /\ mIsPaused u = mIsPaused s /\
  ((mPlayerState s = PAUSED /\ mIsPaused s = true /\ TimeShift_post s chunk t now = post_paused u now) \/
   TimeShift_post s chunk t now = Done u).
Proof.
  intros [Ho Hr Hw]; unfold TimeShift_post; rewrite Ho; cbn [negb]; cbv zeta; unfold registerBufferCount.
  change (mBufIndexer (s <| mRingBufferPool := _ |>)) with (mBufIndexer s).
  rewrite (proj2 (Z.eqb_neq _ _) Hr); case_if; rewrite bind_Done; cbv beta iota zeta; cbn [andb];
    (case_bool_decide as Hp; [change (mPlayerState s = PAUSED) in Hp|eexists; split_and!; [..|right; reflexivity]; try done; by split]).
  - match goal with |- context [post_paused ?x _] => set (u := x) end.
    assert (Hu : mHandles u = mHandles s /\ mSeekByteOffset u = mSeekByteOffset s /\
      mRingBufferPool u = queueBuffer chunk (mRingBufferPool s) /\ mIsPaused u = mIsPaused s /\ streaming u /\ mPlayerState u = mPlayerState s).
    { unfold u; case_if; rewrite ?start_keeps_paused; split_and!; try done; by split. }
    clearbody u; destruct Hu as (H1 & H2 & H3 & H4 & H5 & H6); rewrite H4; destruct (mIsPaused s).
    + exists u; split_and!; try done; by left.
    + eexists; split_and!; [..|right; reflexivity]; try done; destruct H5; by split.
  - match goal with |- context [mIsPaused (s <| mRingBufferPool := ?x |> <| mBufIndexer := ?y |>)] =>
      change (mIsPaused (s <| mRingBufferPool := x |> <| mBufIndexer := y |>)) with (mIsPaused s) end.
    destruct (mIsPaused s) eqn:Ei.
    + eexists; split_and!; [..|left; split_and!; reflexivity || done]; try done; by split.
    + eexists; split_and!; [..|right; reflexivity]; try done; by split.
Qed.

Lemma post_paused_position s now s' h ctx : map_begin (mHandles s) = Some (h, ctx) -> post_paused s now = Done s' ->
  (forall n, getIndexSizeInBytes (mBufIndexer s') = Done n -> mSeekByteOffset s' < n) ->
  read_position s' h = read_position s h.
Proof.
  intros Hb Hp Hw; destruct (post_paused_inv _ _ _ Hp) as (k & c & n & Hb' & Hn & Hix & _ & Hh & Hseek).
  rewrite Hb in Hb'; injection Hb' as <- <-; rewrite Hix in Hw; specialize (Hw n Hn).
  rewrite Z.min_r in Hseek by lia; unfold read_position.
  rewrite Hh, lookup_insert_eq, Hseek, (map_begin_lookup _ _ _ Hb); cbn [incReadOffset getCurrentReadOffset mReadOffset].
  rewrite u64_sub_l, u64_sub_r; f_equal; unfold getCurrentReadOffset; lia.
Qed.

Lemma offsets_insert s s' k n : offsets_ok s -> mHandles s' = <[k := mkHandleContext (u64 n)]> (mHandles s) -> offsets_ok s'.
Proof.
  unfold offsets_ok; intros Hs ->; apply map_Forall_insert_2; [|done]; cbn; pose proof (u64_range n); lia.
Qed.

(** What a step gives and where it leaves the handle. *)
Definition moves (h : Z) s (new data : list Z) s' : Prop :=
  streaming s' /\ is_Some (mHandles s' !! h) /\ offsets_ok s' /\
  stored (mRingBufferPool s') = stored (mRingBufferPool s) ++ new /\
  data `prefix_of` zdrop (read_position s h) (stored (mRingBufferPool s')) /\
  read_position s' h = read_position s h + zlen data /\
  getTotalBufferByteCount s' = u64 (getTotalBufferByteCount s + zlen new).

Lemma prefix_join (data rest l : list Z) o : 0 <= o -> data `prefix_of` zdrop o l ->
  rest `prefix_of` zdrop (o + zlen data) l -> data ++ rest `prefix_of` zdrop o l.
Proof.
  intros Ho [k Hk]; pose proof (zlen_nonneg data); rewrite <- zdrop_zdrop, Hk, zdrop_app_r, Z.sub_diag, zdrop_0 by lia.
  intros Hr; by apply prefix_app.
Qed.

Lemma zdrop_prefix (l k : list Z) o : zdrop o l `prefix_of` zdrop o (l ++ k).
Proof. unfold zdrop; rewrite drop_app; by apply prefix_app_r. Qed.

Lemma moves_trans h s s1 s2 new1 new2 data1 data2 : moves h s new1 data1 s1 -> moves h s1 new2 data2 s2 ->
  moves h s (new1 ++ new2) (data1 ++ data2) s2.
Proof.
  intros (_ & _ & _ & Hb1 & Hp1 & Hr1 & Hc1) (Hs & Hh & Hoff & Hb2 & Hp2 & Hr2 & Hc2); split_and!; try done.
  - by rewrite Hb2, Hb1, app_assoc.
  - rewrite Hr1 in Hp2; apply prefix_join; [apply u64_range| |done].
    etransitivity; [exact Hp1|]; rewrite Hb2; apply zdrop_prefix.
  - rewrite Hr2, Hr1, zlen_app; lia.
  - rewrite Hc2, Hc1, u64_add_l, zlen_app; f_equal; lia.
Qed.

Lemma count_post s s' chunk : zlen chunk = BUFFER_CHUNK_SIZE ->
  mRingBufferPool s' = queueBuffer chunk (mRingBufferPool s) ->
  getTotalBufferByteCount s' = u64 (getTotalBufferByteCount s + zlen chunk).
Proof.
  intros Hz Hq; unfold getTotalBufferByteCount; rewrite Hq, count_queue, Hz, u64_add_l; unfold u64.
  rewrite Zmult_mod_idemp_l; f_equal; lia.
Qed.

Lemma count_same s s' : getTotalBufferCount (mRingBufferPool s') = getTotalBufferCount (mRingBufferPool s) ->
  getTotalBufferByteCount s' = u64 (getTotalBufferByteCount s + zlen (@nil Z)).
Proof.
  unfold getTotalBufferByteCount; intros ->; rewrite zlen_nil, Z.add_0_r; symmetry; apply u64_small, u64_range.
Qed.

Lemma post_moves h chunk t now s : streaming s -> is_Some (mHandles s !! h) -> offsets_ok s ->
  step_fine h (TPost chunk t now) s -> exists s', TimeShift_post s chunk t now = Done s' /\ moves h s chunk [] s'.
Proof.
  intros Hs Hh Hoff [Hz Hfine].
  destruct (post_cases s chunk t now Hs) as (u & H1 & H2 & H3 & Hu & _ & _ & [(Hp & Hi & He)|He]).
  - destruct (Hfine Hp Hi) as [Hfirst Hwin]; destruct (map_begin (mHandles s)) as [[k ctx]|] eqn:Hb; [|done].
    injection Hfirst as ->; rewrite <- H1 in Hb.
    destruct (post_paused_done u now h ctx Hb (st_window _ Hu)) as (s' & Hs' & Ho); exists s'; split; [by rewrite He|].
    destruct (post_paused_inv _ _ _ Hs') as (k & c & n & Hb' & _ & Hix & Hpool & Hhs & _).
    rewrite Hb in Hb'; injection Hb' as <- <-; split_and!.
    + destruct Hu; split; by rewrite ?Ho, ?Hix.
    + rewrite Hhs, lookup_insert_eq; by eexists.
    + rewrite H1 in Hhs; by eapply offsets_insert.
    + by rewrite Hpool, H3, stored_queue.
    + apply prefix_nil.
    + rewrite zlen_nil, Z.add_0_r; etransitivity; [eapply post_paused_position; try done|].
      * intros n' Hn'; eapply Hwin; [by rewrite He|done].
      * unfold read_position; rewrite H1, H2; by destruct Hh as [? ->].
    + by apply count_post; [|rewrite Hpool].
  - exists u; split; [done|]; split_and!; [done|by rewrite H1|unfold offsets_ok; by rewrite H1|by rewrite H3, stored_queue|apply prefix_nil| |by apply count_post].
    rewrite zlen_nil, Z.add_0_r; unfold read_position; rewrite H1, H2; by destruct Hh as [? ->].
Qed.

(** Steps that only touch the player's state and the timers. *)
Definition same_reader s s' : Prop :=
  mHandles s' = mHandles s /\ mSeekByteOffset s' = mSeekByteOffset s /\ mRingBufferPool s' = mRingBufferPool s /\
  mIsStreaming s' = mIsStreaming s /\ mBufIndexer s' = mBufIndexer s.

Lemma same_moves h s s' : streaming s -> is_Some (mHandles s !! h) -> offsets_ok s -> same_reader s s' -> moves h s [] [] s'.
Proof.
  intros [H1 H2 H3] Hh Hoff (E1 & E2 & E3 & E4 & E5); split_and!.
  - split; by rewrite ?E4, ?E5.
  - by rewrite E1.
  - unfold offsets_ok; by rewrite E1.
  - by rewrite E3, app_nil_r.
  - apply prefix_nil.
  - rewrite zlen_nil, Z.add_0_r; unfold read_position, getTotalBufferByteCount; by rewrite E1, E2, E3.
  - apply count_same; by rewrite E3.
Qed.

Lemma state_moves h state s : streaming s -> is_Some (mHandles s !! h) -> offsets_ok s ->
  exists s', setPlayerState s state = Done s' /\ moves h s [] [] s'.
Proof.
  intros Hs Hh Hoff; unfold setPlayerState; destruct state.
  1,2: by exists s; split; [|apply same_moves].
  - eexists; split; [done|]; by apply same_moves.
  - destruct (index_size_done (mBufIndexer s) (st_window _ Hs)) as [n ->]; rewrite bind_Done; eexists; split; [done|].
    apply same_moves; try done; by case_if.
Qed.

(** A position behind bytes that are in the buffer does not wrap around. *)
Lemma prefix_in_range (data l : list Z) o : data `prefix_of` zdrop o l -> 0 <= o < 18446744073709551616 ->
  zlen l < 18446744073709551616 -> o + zlen data < 18446744073709551616.
Proof.
  intros Hp Ho Hl; apply prefix_length in Hp; pose proof (zlen_zdrop_max o l ltac:(lia)); unfold zlen in *; lia.
Qed.

Lemma read_offset_range s h : offsets_ok s -> 0 <= read_offset s h < 18446744073709551616.
Proof.
  intros Hoff; unfold read_offset; destruct (mHandles s !! h) as [c|] eqn:E; [by apply (Hoff h c)|apply u64_range].
Qed.

Lemma read_moves h size s : streaming s -> offsets_ok s -> 0 <= size ->
  oldest (mRingBufferPool s) <= read_position s h -> zlen (stored (mRingBufferPool s)) < 18446744073709551616 ->
  moves h s [] (readData s h size).1 (readData s h size).2.
Proof.
  intros [H1 H2 H3] Hoff Hsize Hold Hlen; destruct (readData_spec s h size) as [o Ho].
  destruct (readData s h size) as [data s']; destruct Ho as (Hr & Hh & -> & Hs & Hst & Hix); cbn [fst snd].
  assert (Hpos : 0 <= read_position s h < 18446744073709551616) by apply u64_range.
  pose proof (stored_read size (read_position s h) (mRingBufferPool s)) as Hkeep.
  pose proof (read_stored size _ (mRingBufferPool s) Hsize (proj1 Hpos) Hold) as Hp; rewrite Hr in Hp, Hkeep; cbn [fst snd] in *.
  pose proof (prefix_in_range _ _ _ Hp Hpos Hlen) as Hend; pose proof (zlen_nonneg data); split_and!.
  - split; by rewrite ?Hst, ?Hix.
  - rewrite Hh, lookup_insert_eq; by eexists.
  - unfold offsets_ok; rewrite Hh; apply map_Forall_insert_2; [cbn|done]; case_if; [apply u64_range|by apply read_offset_range].
  - by rewrite app_nil_r.
  - by rewrite Hkeep.
  - rewrite <- (u64_small (read_position s h + zlen data)) by lia; unfold read_position.
    rewrite Hh, Hs, lookup_insert_eq; fold (read_offset s h); cbn; rewrite u64_add_l; case_if.
    + rewrite u64_sub_l; f_equal; lia.
    + f_equal; lia.
  - apply count_same; pose proof (count_read size (read_position s h) (mRingBufferPool s)) as Hc; by rewrite Hr in Hc.
Qed.

(** Another handle. *)
Lemma other_moves h h' size s : streaming s -> is_Some (mHandles s !! h) -> offsets_ok s -> h' <> h ->
  moves h s [] [] (readData s h' size).2.
Proof.
  intros [H1 H2 H3] [c Hc] Hoff Hne; destruct (readData_spec s h' size) as [o Ho].
  destruct (readData s h' size) as [data s']; destruct Ho as (Hr & Hh & -> & Hs & Hst & Hix); cbn [fst snd].
  pose proof (stored_read size (read_position s h') (mRingBufferPool s)) as Hkeep; rewrite Hr in Hkeep; split_and!.
  - split; by rewrite ?Hst, ?Hix.
  - rewrite Hh, lookup_insert_ne by done; by eexists.
  - unfold offsets_ok; rewrite Hh; apply map_Forall_insert_2; [cbn|done]; case_if; [apply u64_range|by apply read_offset_range].
  - by rewrite app_nil_r.
  - apply prefix_nil.
  - rewrite zlen_nil, Z.add_0_r; unfold read_position; by rewrite Hh, Hs, lookup_insert_ne, Hc.
  - apply count_same; pose proof (count_read size (read_position s h') (mRingBufferPool s)) as Hn; by rewrite Hr in Hn.
Qed.

Lemma release_moves h h' s : streaming s -> is_Some (mHandles s !! h) -> offsets_ok s -> h' <> h ->
  moves h s [] [] (release s h').
Proof.
  intros Hs [c Hc] Hoff Hne; assert (Hl : mHandles (release s h') !! h = Some c) by (by apply lookup_delete_Some).
  split_and!; [by destruct Hs; split|by eexists|by apply map_Forall_delete|by rewrite app_nil_r|apply prefix_nil| |by apply count_same].
  rewrite zlen_nil, Z.add_0_r; unfold read_position; by rewrite Hl, Hc.
Qed.

Lemma exec_moves h st s : streaming s -> is_Some (mHandles s !! h) -> offsets_ok s -> step_fine h st s ->
  zlen (stored (mRingBufferPool s)) < 18446744073709551616 ->
  exists data s', tsb_exec h st s = Done (data, s') /\ moves h s (posted_bytes [st]) data s'.
Proof.
  intros Hs Hh Hoff Hfine Hlen; destruct st as [chunk t now|h' size|state| |h']; cbn [tsb_exec].
  - destruct (post_moves h chunk t now s Hs Hh Hoff Hfine) as (s' & -> & Hm); rewrite bind_Done.
    eexists _, _; split; [done|]; unfold posted_bytes; cbn; by rewrite app_nil_r.
  - rewrite (surjective_pairing (readData s h' size)); eexists _, _; split; [done|]; destruct Hfine as [Hsize Hold].
    case_if; [|by apply other_moves]; assert (h' = h) as -> by done; by apply read_moves; [..|apply Hold|].
  - destruct (state_moves h state s Hs Hh Hoff) as (s' & -> & Hm); rewrite bind_Done; by eexists _, _.
  - eexists _, _; split; [done|]; apply same_moves; try done; unfold watchdog_runs; by destruct (watchdog_thread _).
  - eexists _, _; split; [done|by apply release_moves].
Qed.

Lemma posted_bytes_cons st l : posted_bytes (st :: l) = posted_bytes [st] ++ posted_bytes l.
Proof. unfold posted_bytes; destruct st; cbn; by rewrite ?app_nil_r. Qed.

Lemma moves_refl h s : streaming s -> is_Some (mHandles s !! h) -> offsets_ok s -> moves h s [] [] s.
Proof. intros; by apply same_moves. Qed.

Lemma run_moves h l s : streaming s -> is_Some (mHandles s !! h) -> offsets_ok s -> run_fine h l s ->
  zlen (stored (mRingBufferPool s) ++ posted_bytes l) < 18446744073709551616 ->
  exists data s', tsb_run h l s = Done (data, s') /\ moves h s (posted_bytes l) data s'.
Proof.
  revert s; induction l as [|st l IH]; intros s Hs Hh Hoff Hfine Hlen; cbn [tsb_run].
  - exists [], s; split; [done|by apply moves_refl].
  - destruct Hfine as [Hst Hl]; rewrite (posted_bytes_cons st l), app_assoc, !zlen_app in Hlen.
    pose proof (zlen_nonneg (posted_bytes l)); pose proof (zlen_nonneg (posted_bytes [st])).
    destruct (exec_moves h st s Hs Hh Hoff Hst ltac:(lia)) as (data & s1 & He & Hm).
    rewrite He, bind_Done; destruct (IH s1) as (rest & s' & -> & Hm'); [apply Hm..|by eapply Hl| |].
    { destruct Hm as (_ & _ & _ & -> & _); rewrite !zlen_app; lia. }
    rewrite bind_Done, (posted_bytes_cons st l); eexists _, s'; split; [done|by eapply moves_trans].
Qed.

Lemma run_from_first h size l s : streaming s -> offsets_ok s -> run_fine h (TRead h size :: l) s ->
  zlen (stored (mRingBufferPool s) ++ posted_bytes l) < 18446744073709551616 ->
  exists data s', tsb_run h (TRead h size :: l) s = Done (data, s') /\ moves h s (posted_bytes l) data s'.
Proof.
  intros Hs Hoff [[Hsize Hold] Hl] Hlen; rewrite zlen_app in Hlen; pose proof (zlen_nonneg (posted_bytes l)).
  pose proof (read_moves h size s Hs Hoff Hsize (Hold eq_refl) ltac:(lia)) as Hm; cbn [tsb_run tsb_exec] in Hl |- *.
  destruct (readData s h size) as [data s1]; cbn [fst snd] in *; rewrite Z.eqb_refl in *; rewrite bind_Done.
  destruct (run_moves h l s1) as (rest & s' & -> & Hm'); [apply Hm..|by eapply Hl| |].
  { destruct Hm as (_ & _ & _ & -> & _); rewrite app_nil_r, zlen_app; lia. }
  rewrite bind_Done; eexists _, s'; split; [done|exact (moves_trans _ _ _ _ _ _ _ _ Hm Hm')].
Qed.

(** C13. A player that reads by a handle gets the stream: from the first read on, its reads
    put together are the bytes of the stream from the position of the first read on, however they
    interleave with the buffers that are posted, reads by other handles, pauses and the steps of
    the watchdog. A handle that is new starts behind the end of the stream by the seek offset. The
    conditions: each read of the handle begins at bytes the ring buffer still keeps; the handle is
    not released; and when a buffer is posted in a pause for which the watchdog has expired, the
    handle is the first of the open ones and the seek offset after it is below the size of the
    window. Any other handle is moved back in such a pause, as [post_moves_other_handles] shows,
    and then reads bytes twice. *)
Theorem reads_are_stream h size l s (Hs : streaming s) (Hoff : offsets_ok s)
    (Hcount : getTotalBufferByteCount s = zlen (stored (mRingBufferPool s)))
    (Hfine : run_fine h (TRead h size :: l) s)
    (Hlen : zlen (stored (mRingBufferPool s) ++ posted_bytes l) < 18446744073709551616) :
  exists data s', tsb_run h (TRead h size :: l) s = Done (data, s') /\
    stored (mRingBufferPool s') = stored (mRingBufferPool s) ++ posted_bytes l /\
    getTotalBufferByteCount s' = zlen (stored (mRingBufferPool s')) /\
    data `prefix_of` zdrop (read_position s h) (stored (mRingBufferPool s')) /\
    read_position s' h = read_position s h + zlen data /\
    (mHandles s !! h = None -> read_position s h = u64 (zlen (stored (mRingBufferPool s)) - mSeekByteOffset s)).
Proof.
  destruct (run_from_first h size l s Hs Hoff Hfine Hlen) as (data & s' & Hr & _ & _ & _ & Hb & Hp & Hpos & Hc).
  exists data, s'; split_and!; try done.
  - pose proof (zlen_nonneg (stored (mRingBufferPool s))); pose proof (zlen_nonneg (posted_bytes l)).
    rewrite zlen_app in Hlen; rewrite Hc, Hb, Hcount, zlen_app; by apply u64_small; lia.
  - intros Hn; unfold read_position; by rewrite Hn, Hcount.
Qed.

End stream.
