(* ===== verification/TimeShiftExamples.v ===== *)
(** Runs of the time shift buffer on a ring buffer that keeps everything, and the theorems
    on the buffer at them. *)

From S2P Require Import Prelude Interfaces Floats UpperBound BufferIndexer IndexerProps TimeInterval Watchdog TimeShift TimeShiftProps TimeShiftStream.

(** A ring buffer as all the bytes ever queued and the number of buffers. *)
Record list_pool := mk_list_pool { lp_bytes : list Z; lp_count : Z }.

#[export] Instance list_pool_ring : RingBuffer list_pool := {
  queueBuffer b p := mk_list_pool (lp_bytes p ++ b) (u64 (lp_count p + 1));
  getTotalBufferCount p := lp_count p;
  readRandomAccess n o p := (ztake n (zdrop o (lp_bytes p)), p);
  enableReadThrottling _ p := p;
  clearToLastRead p := p;
  abortAllOperations p := p;
}.

#[export] Instance list_pool_laws : RingBufferLaws list_pool.
Proof.
  split; try done; intros n o p Hn; cbn; unfold ztake, zlen; rewrite length_take; lia.
Qed.

#[export] Instance list_pool_bytes : RingBufferBytes list_pool := { stored := lp_bytes; oldest _ := 0 }.

#[export] Instance list_pool_bytes_laws : RingBufferBytesLaws list_pool.
Proof.
  split; [done|done|]; intros n o p Hn Ho _; cbn; eexists; symmetry; apply ztake_zdrop.
Qed.

#[local] Existing Instance config1000.

Abbreviation tsb := (TimeShiftBufferConsumer list_cb list_pool).

Definition sample_chunk : list Z := [71; 64; 17; 16].

(** [n] steps of the watchdog's thread. *)
Fixpoint watchdog_runs_n (n : nat) (s : tsb) : outcome tsb :=
  match n with
  | O => Done s
  | S n => match watchdog_runs s with Some s => watchdog_runs_n n s | None => Stop OutOfFuel end
  end.

(** Buffers at times [t], [t + 12655], and so on. *)
Fixpoint post_n (n : nat) (t : Z) (s : tsb) : outcome tsb :=
  match n with
  | O => Done s
  | S n => s ← TimeShift_post s sample_chunk t (1000 * t); post_n n (t + 12655) s
  end.

Definition opened : outcome tsb :=
  s ← TimeShift_new (mk_list_pool [] 0) 0; Done (TimeShift_onOpen s).

(** The stream is paused before the first buffer, nobody reads, and the watchdog expires. *)
Definition paused_unread : outcome tsb :=
  s ← opened; s ← setPlayerState s PAUSED; s ← post_n 1 1000 s; watchdog_runs_n 5 s.

(** Handle 7 reads a little, then the player is paused and the watchdog expires. *)
Definition paused_reader : outcome tsb :=
  s ← opened; s ← post_n 30 1000 s;
  let s := (readData s 7 100).2 in
  s ← setPlayerState s PAUSED; watchdog_runs_n 5 s.

Definition playing : outcome tsb := s ← opened; post_n 30 1000 s.

(** The value of a run, or the state of a new buffer. *)
Definition run_state (m : outcome tsb) : tsb :=
  match m with
  | Done s => s
  | Stop _ => mkTimeShift 0 false false UNDEF 1 (mk_list_pool [] 0)
                (mkBufferIndexer 4 0 29 (mk_list_cb 54 []) (0, 0) (0, 0)) TimeoutWatchdog_new
                CyclicEventTimer_new ∅ (TimeIntervalMonitor_reset 0) []
  end.

Lemma post_without_handle_witness : exists s, paused_unread = Done s /\
  TimeShift_post s sample_chunk 2000 2000 = Stop Ub.
Proof.
  exists (run_state paused_unread); split; [vm_compute; reflexivity|].
  apply post_without_handle; vm_compute; congruence.
Defined.

Lemma post_keeps_position_witness : exists s s', paused_reader = Done s /\
  TimeShift_post s sample_chunk 900000 0 = Done s' /\
  (read_position s' 7 = read_position s 7 \/
   exists maxSize, mPlayerState s = PAUSED /\
     getIndexSizeInBytes (mBufIndexer s') = Done maxSize /\ mSeekByteOffset s' = maxSize /\
     read_position s' 7 = u64 (Z.max (getTotalBufferByteCount s') 30000 - maxSize)).
Proof.
  exists (run_state paused_reader),
    (run_state (TimeShift_post (run_state paused_reader) sample_chunk 900000 0)).
  split; [vm_compute; reflexivity|]; split; [vm_compute; reflexivity|].
  apply (post_keeps_position _ sample_chunk 900000 0 _ 7 (mkHandleContext 30000));
    [vm_compute; reflexivity|vm_compute; reflexivity|cbn; lia|vm_compute; reflexivity].
Defined.

Lemma post_moves_other_handles_witness : exists s s',
  TimeShift_post s sample_chunk 900000 0 = Done s' /\
  read_position s' 8 = u64 (read_position s 8 - fallen_behind s' (mkHandleContext 30000)).
Proof.
  pose (s := (run_state paused_reader) <| mHandles := <[8 := mkHandleContext 30000]> (mHandles (run_state paused_reader)) |>).
  exists s, (run_state (TimeShift_post s sample_chunk 900000 0)).
  split; [vm_compute; reflexivity|].
  apply (post_moves_other_handles s sample_chunk 900000 0 _ 7 (mkHandleContext 30000) 8);
    vm_compute; try reflexivity; try discriminate; eauto.
Defined.

Lemma playing_index_ok : indexer_ok (mBufIndexer (run_state playing)).
Proof.
  split; [by vm_compute|by vm_compute|by vm_compute|vm_compute; discriminate|by apply ordered_b_sound; vm_compute|].
  vm_compute items; repeat (apply Forall_cons_2; [unfold sample_ok, u64_max; cbn; lia|]); apply Forall_nil_2.
Qed.

(** A seek by 100 milliseconds in a stream of a third of a second. *)
Lemma setSeekTime_correct_witness : exists s b i prev cur, playing = Done s /\ back (mBufIndexer s) = Done b /\
  rd (items (mBufIndexer s)) (i - 1) = Done prev /\ rd (items (mBufIndexer s)) i = Done cur /\
  prev.1 <= b.1 - 100000 < cur.1 /\
  forall index x, interpolate_index i prev.1 cur.1 (100000 - (b.1 - cur.1)) = Done index ->
    rd (items (mBufIndexer s)) index = Done x ->
    exists s', setSeekTime s 100 5 = Done (true, s') /\ sought s s' (u64 (b.2 - x.2)).
Proof.
  destruct (setSeekTime_correct (run_state playing) 100 5 playing_index_ok) as [_ H]; [lia|].
  destruct H as (f & b & Hf & Hb & H); [by vm_compute|]; exists (run_state playing), b.
  vm_compute in Hf, Hb; injection Hf as <-; injection Hb as <-.
  destruct H as (_ & _ & H); [by vm_compute..|].
  destruct H as (i & prev & cur & _ & H); [vm_compute; discriminate..|].
  exists i, prev, cur; split; [by vm_compute|split; [by vm_compute|exact H]].
Defined.

Lemma trick_play_advance_witness :
  trick_play_target 2 5000 60000 = (3950, 2, false) /\
  (9000 + 350 - 3950) - (9000 - 5000) = 350 * 4.
Proof. split; [reflexivity|]; apply (trick_play_advance 2 5000 60000 3950 9000); reflexivity. Defined.

Lemma trick_play_stops_witness : exists r k,
  trick_play 19 (-8) 1000 54321 = Some (r, k) /\ (k <= 19)%nat /\ 54321 <= r.
Proof. apply (trick_play_stops (-8) 1000 54321); lia. Defined.

Lemma updateTrickPlayPosition_correct_witness : exists s stop s', playing = Done s /\
  updateTrickPlayPosition (setTrickPlaySpeed s (-2)).2 77 = Done (stop, s') /\
  mTrickPlaySpeed s' = if stop then 1 else -2.
Proof.
  pose (s := (setTrickPlaySpeed (run_state playing) (-2)).2).
  pose (r := updateTrickPlayPosition s 77).
  exists (run_state playing), true, (run_state ('(_, s) ← r; Done s)).
  split; [vm_compute; reflexivity|]; split; [vm_compute; reflexivity|].
  apply (updateTrickPlayPosition_correct s 77 true); vm_compute; reflexivity.
Defined.

Lemma end_of_stream_correct_witness : exists s, paused_reader = Done s /\
  mSeekByteOffset (TimeShift_onEndOfStream s 9) = 0 /\
  TimeShift_post (TimeShift_onEndOfStream s 9) sample_chunk 9 9 = Done (TimeShift_onEndOfStream s 9).
Proof.
  exists (run_state paused_reader); split; [vm_compute; reflexivity|].
  destruct (end_of_stream_correct (run_state paused_reader) 9 sample_chunk 9 9)
    as (H1 & _ & _ & _ & _ & _ & H2).
  split; [exact H1|exact H2].
Defined.

(** ** The stream as it is read *)

Definition full_chunk (x : Z) : list Z := replicate 1000 x.

(** The player reads by handle 7 in pieces, also while another handle reads, pauses for longer
    than the watchdog waits, and plays on. *)
Definition sample_steps : list tsb_step :=
  [TPost (full_chunk 1) 1000 0; TPost (full_chunk 2) 13655 0; TRead 7 300; TRead 9 5000; TRead 7 1200;
   TState PAUSED; TWatchdog; TWatchdog; TWatchdog; TWatchdog; TWatchdog;
   TPost (full_chunk 3) 26310 0; TPost (full_chunk 4) 38965 0; TState PLAYING; TRead 7 100; TRelease 9; TRead 7 9000].

Definition before_reading : tsb :=
  run_state (s ← opened; '(_, s) ← tsb_run 7 [TPost (full_chunk 8) 500 0; TPost (full_chunk 9) 600 0] s; Done s).

Lemma reads_are_stream_witness :
  exists data s', tsb_run 7 (TRead 7 10 :: sample_steps) before_reading = Done (data, s') /\
    stored (mRingBufferPool s') = stored (mRingBufferPool before_reading) ++ posted_bytes sample_steps /\
    getTotalBufferByteCount s' = zlen (stored (mRingBufferPool s')) /\
    data `prefix_of` zdrop (read_position before_reading 7) (stored (mRingBufferPool s')) /\
    read_position s' 7 = read_position before_reading 7 + zlen data /\
    (mHandles before_reading !! 7 = None ->
     read_position before_reading 7 = u64 (zlen (stored (mRingBufferPool before_reading)) - mSeekByteOffset before_reading)).
Proof.
  apply reads_are_stream.
  - split; vm_compute; congruence.
  - unfold offsets_ok; replace (mHandles before_reading) with (∅ : gmap Z HandleContext) by (vm_compute; reflexivity).
    apply map_Forall_empty.
  - vm_compute; reflexivity.
  - apply run_fine_b_sound; vm_compute; reflexivity.
  - vm_compute; reflexivity.
Defined.
