(* ===== verification/Locks.v ===== *)
(** Mutexes as the methods of a class take them: a method is the sequence of its locks and
    unlocks, threads that run methods interleave, and a group of methods that take their
    mutexes in the order of a rank never deadlocks. Then the
    locks of the time shift buffer and of the configuration handlers. *)

From S2P Require Import Prelude.

Inductive lock_op (M : Type) := Lock (m : M) | Unlock (m : M).
Arguments Lock {M} m.
Arguments Unlock {M} m.

(** The mutexes a thread holds, the last one taken first, and what it still has to do. *)
Record lock_thread (M : Type) := mkLockThread { held : list M; todo : list (lock_op M) }.
Arguments mkLockThread {M} _ _.
Arguments held {M} _.
Arguments todo {M} _.

Section locks.
Context {M : Type} `{EqDecision M}.
Implicit Types (m : M) (ts : list (lock_thread M)).

Definition start_thread (p : list (lock_op M)) : lock_thread M := mkLockThread [] p.

Definition is_free m ts : Prop := Forall (fun t => m ∉ held t) ts.

Inductive lock_step : list (lock_thread M) -> list (lock_thread M) -> Prop :=
| ls_lock ts i m hs p : ts !! i = Some (mkLockThread hs (Lock m :: p)) -> is_free m ts ->
    lock_step ts (<[i := mkLockThread (m :: hs) p]> ts)
| ls_unlock ts i m hs p : ts !! i = Some (mkLockThread (m :: hs) (Unlock m :: p)) ->
    lock_step ts (<[i := mkLockThread hs p]> ts).

Definition all_done ts : Prop := Forall (fun t => todo t = []) ts.

Definition deadlocked ts : Prop := ~ all_done ts /\ forall ts', ~ lock_step ts ts'.

(** Two threads that each hold what the other waits for. *)
Lemma crossed_deadlock a b h1 h2 p1 p2 :
  deadlocked [mkLockThread (a :: h1) (Lock b :: p1); mkLockThread (b :: h2) (Lock a :: p2)].
Proof.
  split; [by intros [H _]%Forall_cons|].
  intros ts' Hstep; inversion Hstep as [ts i m hs p Hi Hfree|ts i m hs p Hi]; subst.
  - destruct i as [|[|i]]; cbn in Hi; simplify_eq;
      apply Forall_cons in Hfree as [H1 [H2 _]%Forall_cons]; set_solver.
  - destruct i as [|[|i]]; cbn in Hi; simplify_eq.
Qed.

(** Two methods that start by taking two mutexes in opposite orders. *)
Lemma crossed_methods a b p1 p2 : a <> b ->
  exists ts, rtc lock_step [start_thread (Lock a :: Lock b :: p1); start_thread (Lock b :: Lock a :: p2)] ts /\
    deadlocked ts.
Proof.
  intros Hab; eexists; split; [|apply (crossed_deadlock a b [] [] p1 p2)].
  eapply rtc_l; [eapply (ls_lock _ 0); [reflexivity|by repeat constructor; set_solver]|].
  eapply rtc_l; [eapply (ls_lock _ 1); [reflexivity|by repeat constructor; set_solver]|].
  apply rtc_refl.
Qed.

(** * Methods that take the mutexes in one order *)

Context (rank : M -> nat) (bound : nat) (rank_lt : forall m, (rank m < bound)%nat).

(** Every mutex is taken while only ones of lower rank are held, the last one taken is
    released first, and all of them are in the end. *)
Fixpoint well_locked (hs : list M) (p : list (lock_op M)) : bool :=
  match p with
  | [] => match hs with [] => true | _ => false end
  | Lock m :: p => forallb (fun h => Nat.ltb (rank h) (rank m)) hs && well_locked (m :: hs) p
  | Unlock m :: p => match hs with h :: hs => bool_decide (h = m) && well_locked hs p | [] => false end
  end.

Definition thread_well_locked (t : lock_thread M) : Prop := well_locked (held t) (todo t) = true.

Lemma well_locked_step ts ts' : lock_step ts ts' ->
  Forall thread_well_locked ts -> Forall thread_well_locked ts'.
Proof.
  intros [ts0 i m hs p Hi _|ts0 i m hs p Hi] Hall;
    pose proof (Forall_lookup_1 _ _ _ _ Hall Hi) as Ht; unfold thread_well_locked in Ht; cbn in Ht;
    apply Forall_insert; try done; apply andb_prop in Ht as [_ Ht]; exact Ht.
Qed.

(** A thread that waits for a mutex waits for one of higher rank than those it holds. *)
Lemma waits_higher hs m p h : well_locked hs (Lock m :: p) = true -> h ∈ hs -> (rank h < rank m)%nat.
Proof.
  cbn; intros [Hall _]%andb_prop Hh; apply Nat.ltb_lt.
  rewrite forallb_forall in Hall; apply Hall; by apply list_elem_of_In.
Qed.

Lemma not_free m ts : ~ is_free m ts -> exists j t, ts !! j = Some t /\ m ∈ held t.
Proof.
  intros Hf; apply not_Forall_Exists in Hf; [|solve_decision].
  apply Exists_exists in Hf as (t & Ht & Hm).
  apply list_elem_of_lookup in Ht as [j Hj]; exists j, t; split; [done|].
  destruct (decide (m ∈ held t)); [done|contradiction].
Qed.

(** If nothing can move, a thread that waits for a mutex gives another one that waits for a
    mutex of higher rank. *)
Lemma waiting_chain ts i hs m p : Forall thread_well_locked ts ->
  (forall ts', ~ lock_step ts ts') -> ts !! i = Some (mkLockThread hs (Lock m :: p)) ->
  exists j hs' m' p', ts !! j = Some (mkLockThread hs' (Lock m' :: p')) /\ (rank m < rank m')%nat.
Proof.
  intros Hall Hstuck Hi.
  destruct (not_free m ts) as (j & [hs' q] & Hj & Hm).
  { intros Hf; eapply Hstuck, ls_lock; eauto. }
  pose proof (Forall_lookup_1 _ _ _ _ Hall Hj) as Ht; unfold thread_well_locked in Ht; cbn in Ht, Hm.
  destruct q as [|[m'|m'] q].
  - cbn in Ht; destruct hs'; [set_solver|done].
  - exists j, hs', m', q; split; [done|]; eapply waits_higher; eauto.
  - exfalso; cbn in Ht; destruct hs' as [|h hs']; [done|].
    apply andb_prop in Ht as [->%bool_decide_eq_true _]; eapply Hstuck, ls_unlock; eauto.
Qed.

Lemma no_waiting ts : Forall thread_well_locked ts -> (forall ts', ~ lock_step ts ts') ->
  forall n i hs m p, (bound - rank m <= n)%nat -> ts !! i <> Some (mkLockThread hs (Lock m :: p)).
Proof.
  intros Hall Hstuck n; induction n as [|n IH]; intros i hs m p Hn Hi.
  - pose proof (rank_lt m); lia.
  - destruct (waiting_chain ts i hs m p Hall Hstuck Hi) as (j & hs' & m' & p' & Hj & Hr).
    eapply (IH j hs' m' p'); [lia|exact Hj].
Qed.

Lemma well_locked_progress ts : Forall thread_well_locked ts -> ~ deadlocked ts.
Proof.
  intros Hall [Hdone Hstuck]; apply Hdone, Forall_lookup_2; intros i [hs q] Hi; cbn.
  pose proof (Forall_lookup_1 _ _ _ _ Hall Hi) as Ht; unfold thread_well_locked in Ht; cbn in Ht.
  destruct q as [|[m|m] q]; [done| |].
  - exfalso; by eapply (no_waiting ts Hall Hstuck bound i hs m q); [lia|].
  - exfalso; cbn in Ht; destruct hs as [|h hs]; [done|].
    apply andb_prop in Ht as [->%bool_decide_eq_true _]; eapply Hstuck, ls_unlock; eauto.
Qed.

(** Threads that each run one of the [methods], all of them well locked. *)
Lemma ranked_methods (methods : list (list (lock_op M))) :
  forallb (well_locked []) methods = true ->
  forall ps ts, Forall (fun p => p ∈ methods) ps -> rtc lock_step (start_thread <$> ps) ts -> ~ deadlocked ts.
Proof.
  intros Hm ps ts Hps Hrun; apply well_locked_progress; revert ts Hrun; apply rtc_ind_r.
  - apply Forall_fmap; eapply Forall_impl; [exact Hps|]; cbn; intros p Hp.
    rewrite forallb_forall in Hm; apply Hm; by apply list_elem_of_In.
  - intros ts ts' _ Hstep Hall; by eapply well_locked_step.
Qed.

End locks.

(** * The time shift buffer

    The order in which the methods of [TimeShiftBufferConsumer] take its three mutexes, and
    what it means for threads that run them at the same time. *)

Module TimeShiftLocks.


Inductive tsb_mutex := mSeekMtx | mParamMtx | mTrickPlaySpeedMtx.

#[export] Instance tsb_mutex_eq_dec : EqDecision tsb_mutex.
Proof. solve_decision. Defined.

Local Abbreviation ops := (list (lock_op tsb_mutex)).

(** * What each method locks, in the order it does

    The guards are released at the end of the method, the last one first. *)

Definition setSeekTime_locks : ops := [Lock mSeekMtx; Unlock mSeekMtx].
Definition readData_locks : ops := [Lock mSeekMtx; Unlock mSeekMtx].
Definition getSeekTime_locks : ops := [Lock mParamMtx; Unlock mParamMtx].
Definition post_locks : ops := [Lock mParamMtx; Unlock mParamMtx].
Definition setTrickPlaySpeed_locks : ops :=
  [Lock mTrickPlaySpeedMtx; Unlock mTrickPlaySpeedMtx].
Definition getTrickPlaySpeed_locks : ops :=
  [Lock mTrickPlaySpeedMtx; Unlock mTrickPlaySpeedMtx].
Definition updateTrickPlayPosition_locks : ops :=
  [Lock mTrickPlaySpeedMtx] ++ getSeekTime_locks ++ setSeekTime_locks ++ [Unlock mTrickPlaySpeedMtx].
Definition reset_locks : ops :=
  [Lock mParamMtx; Lock mTrickPlaySpeedMtx; Unlock mTrickPlaySpeedMtx; Unlock mParamMtx].

(** The end of a stream can deadlock with trick play: [reset] takes the parameter mutex
    and then the speed's, the trick play timer the other way round. *)
Theorem reset_deadlock : exists ts,
  rtc lock_step [start_thread reset_locks; start_thread updateTrickPlayPosition_locks] ts /\
  deadlocked ts.
Proof. by apply (crossed_methods mParamMtx mTrickPlaySpeedMtx). Qed.

(** * Methods that take the mutexes in one order *)

Definition rank (m : tsb_mutex) : nat :=
  match m with mTrickPlaySpeedMtx => 0 | mParamMtx => 1 | mSeekMtx => 2 end.

Lemma rank_lt m : (rank m < 3)%nat.
Proof. destruct m; cbn; lia. Qed.

(** Every method that takes a mutex, but [reset]. *)
Definition methods_but_reset : list ops :=
  [setSeekTime_locks; readData_locks; getSeekTime_locks; post_locks; setTrickPlaySpeed_locks;
   getTrickPlaySpeed_locks; updateTrickPlayPosition_locks].

(** Without [reset] there is no deadlock: any number of threads, each running one of
    the other methods, never come to a state in which one of them has work left and none
    can go on. *)
Theorem no_deadlock_without_reset ps ts (Hps : Forall (fun p => p ∈ methods_but_reset) ps)
    (Hrun : rtc lock_step (start_thread <$> ps) ts) : ~ deadlocked ts.
Proof. exact (ranked_methods rank 3 rank_lt methods_but_reset eq_refl ps ts Hps Hrun). Qed.

Lemma no_deadlock_without_reset_witness :
  ~ deadlocked [start_thread updateTrickPlayPosition_locks; start_thread readData_locks].
Proof.
  apply (no_deadlock_without_reset [updateTrickPlayPosition_locks; readData_locks]).
  - repeat constructor; unfold methods_but_reset; set_solver.
  - apply rtc_refl.
Defined.

End TimeShiftLocks.

(** * The configuration handlers

    The order in which the configuration handlers take their mutexes and the one of the
    monitored variables, which an assignment to a variable holds while it calls the watchers. *)

Module ConfigLocks.


(** The lock of [VariableMonitorDispatcher], shared by all variables, and the mutexes of the
    handlers for cdm_ready0, drm0, seek0 and the statistics. *)
Inductive config_mutex := dispatcher_lock | cdm_mMtxConfig | drm_mMtxConfig | seek_mStateMtx | stats_mStateMtx.

#[export] Instance config_mutex_eq_dec : EqDecision config_mutex.
Proof. solve_decision. Defined.

Local Abbreviation ops := (list (lock_op config_mutex)).

(** [MVar::getValue], and [MVar::operator=] with what its watchers lock. *)
Definition getValue_locks : ops := [Lock dispatcher_lock; Unlock dispatcher_lock].
Definition assign_locks (watchers : ops) : ops := [Lock dispatcher_lock] ++ watchers ++ [Unlock dispatcher_lock].

Definition cdm_notify_locks : ops := [Lock cdm_mMtxConfig; Unlock cdm_mMtxConfig].
Definition drm_notify_locks : ops := [Lock drm_mMtxConfig; Unlock drm_mMtxConfig].

(** The assignments to kCdm0, kDrm0 and kFlush0. *)
Definition cdm_assign_locks : ops := assign_locks cdm_notify_locks.
Definition drm_assign_locks : ops := assign_locks drm_notify_locks.
Definition seek_write_locks : ops := [Lock seek_mStateMtx] ++ assign_locks [] ++ [Unlock seek_mStateMtx].

(** What the reads lock. *)
Definition cdm_getConfig_locks : ops := [Lock cdm_mMtxConfig] ++ getValue_locks ++ [Unlock cdm_mMtxConfig].
Definition drm_readConfig_locks : ops := [Lock drm_mMtxConfig; Unlock drm_mMtxConfig].
Definition stats_getConfig_locks : ops := [Lock stats_mStateMtx] ++ getValue_locks ++ [Unlock stats_mStateMtx].

(** A read of cdm_ready0 can deadlock with an assignment to kCdm0, which the parser's
    thread makes: the read takes the handler's mutex and then the variables' lock, the
    assignment the other way round. *)
Theorem cdm_status_deadlock : exists ts,
  rtc lock_step [start_thread cdm_assign_locks; start_thread cdm_getConfig_locks] ts /\ deadlocked ts.
Proof. by apply (crossed_methods dispatcher_lock cdm_mMtxConfig). Qed.

Definition config_rank (m : config_mutex) : nat :=
  match m with seek_mStateMtx | stats_mStateMtx => 0 | dispatcher_lock => 1 | cdm_mMtxConfig | drm_mMtxConfig => 2 end.

Definition methods_but_cdm_read : list ops :=
  [getValue_locks; cdm_assign_locks; drm_assign_locks; seek_write_locks; drm_readConfig_locks; stats_getConfig_locks].

(** Without that read there is no deadlock among them. *)
Lemma no_deadlock_without_cdm_read ps ts : Forall (fun p => p ∈ methods_but_cdm_read) ps ->
  rtc lock_step (start_thread <$> ps) ts -> ~ deadlocked ts.
Proof. apply (ranked_methods config_rank 3); [by intros []; cbn; lia|done]. Qed.

End ConfigLocks.
