(* ===== verification/Json.v ===== *)
(** The JSON values of include/utils/json.hpp and src/json.cpp: class [JSON] with its
    accessors and its printer [dump], and the recursive descent parser. Strings are lists
    of characters; objects are sorted lists of keys and values, as [std::map] keeps them. *)

From Stdlib Require Import Ascii.
From Corelib Require Import SpecFloat.
From S2P Require Import Prelude Floats.

Abbreviation text := (list ascii).

Definition text_of (s : string) : text := String.list_ascii_of_string s.

(** * Characters *)

Definition code (c : ascii) : Z := Z.of_N (N_of_ascii c).
Definition chr (n : Z) : ascii := ascii_of_N (Z.to_N n).

Definition NUL : ascii := chr 0.
Definition QUOTE : ascii := chr 34.
Definition BACKSLASH : ascii := chr 92.
Definition BS : ascii := chr 8.
Definition FF : ascii := chr 12.
Definition NL : ascii := chr 10.
Definition CR : ascii := chr 13.
Definition TAB : ascii := chr 9.

Definition ceq (a b : ascii) : bool := bool_decide (a = b).

(** [isspace] of the C locale: blank, and the five control characters 9 to 13. *)
Definition isspace (c : ascii) : bool := (code c =? 32) || ((9 <=? code c) && (code c <=? 13)).

Definition is_digit (c : ascii) : bool := (48 <=? code c) && (code c <=? 57).

Definition is_hex (c : ascii) : bool :=
  is_digit c || ((97 <=? code c) && (code c <=? 102)) || ((65 <=? code c) && (code c <=? 70)).

(** The order of [std::string]: by the codes of the characters. *)
Fixpoint text_ltb (a b : text) : bool :=
  match a, b with
  | _, [] => false
  | [], _ :: _ => true
  | x :: a, y :: b => if code x <? code y then true else if code y <? code x then false else text_ltb a b
  end.

(** * Values *)

Inductive JClass := CNull | CObject | CArray | CString | CFloating | CIntegral | CUIntegral | CBoolean.

#[export] Instance JClass_eq_dec : EqDecision JClass.
Proof. solve_decision. Defined.

#[warnings="-register-all"]
Inductive JSON :=
| JNull
| JObject (m : list (text * JSON))
| JArray (l : list JSON)
| JString (s : text)
| JFloating (f : spec_float)
| JIntegral (n : Z)
| JUIntegral (n : Z)
| JBoolean (b : bool).

Definition JSONType (j : JSON) : JClass :=
  match j with
  | JNull => CNull | JObject _ => CObject | JArray _ => CArray | JString _ => CString
  | JFloating _ => CFloating | JIntegral _ => CIntegral | JUIntegral _ => CUIntegral
  | JBoolean _ => CBoolean
  end.

(** A value that has the type keeps what it holds. *)
Definition SetType (type : JClass) (j : JSON) : JSON :=
  if bool_decide (JSONType j = type) then j
  else match type with
       | CNull => JNull
       | CObject => JObject []
       | CArray => JArray []
       | CString => JString []
       | CFloating => JFloating (S754_zero false)
       | CIntegral => JIntegral 0
       | CUIntegral => JUIntegral 0
       | CBoolean => JBoolean false
       end.

Definition Make (type : JClass) : JSON := SetType type JNull.

(** ** Maps *)

Fixpoint map_find (key : text) (m : list (text * JSON)) : option JSON :=
  match m with
  | [] => None
  | (k, v) :: m => if bool_decide (k = key) then Some v else map_find key m
  end.

Fixpoint map_insert (key : text) (v : JSON) (m : list (text * JSON)) : list (text * JSON) :=
  match m with
  | [] => [(key, v)]
  | (k, w) :: m' =>
    if bool_decide (k = key) then (key, v) :: m'
    else if text_ltb key k then (key, v) :: m
    else (k, w) :: map_insert key v m'
  end.

(** ** Access *)

(** [j[key]] as a value, and [j] after it: the entry is made if it is not there. *)
Definition json_key (j : JSON) (key : text) : JSON * JSON :=
  match SetType CObject j with
  | JObject m =>
    match map_find key m with
    | Some v => (v, JObject m)
    | None => (JNull, JObject (map_insert key JNull m))
    end
  | j => (JNull, j)
  end.

(** [j[key] = v]. *)
Definition json_set_key (j : JSON) (key : text) (v : JSON) : JSON :=
  match SetType CObject j with
  | JObject m => JObject (map_insert key v m)
  | j => j
  end.

(** The list [resize]d to hold [index]. *)
Definition grow (l : list JSON) (index : Z) : list JSON :=
  if zlen l <=? index then l ++ replicate (Z.to_nat (index + 1 - zlen l)) JNull else l.

Definition json_index (j : JSON) (index : Z) : JSON * JSON :=
  match SetType CArray j with
  | JArray l => (default JNull (grow l index !! Z.to_nat index), JArray (grow l index))
  | j => (JNull, j)
  end.

Definition json_set_index (j : JSON) (index : Z) (v : JSON) : JSON :=
  match SetType CArray j with
  | JArray l => JArray (<[Z.to_nat index := v]> (grow l index))
  | j => j
  end.

Definition json_append (j arg : JSON) : JSON :=
  match SetType CArray j with
  | JArray l => JArray (l ++ [arg])
  | j => j
  end.

(** The [const] versions of [at]: [std::map::at] and [std::deque::at] throw; on a value of
    another type they go through the wrong member of the union. *)
Definition json_at_key (j : JSON) (key : text) : outcome JSON :=
  match j with
  | JObject m => match map_find key m with Some v => Done v | None => Stop (Throw OutOfRange) end
  | _ => Stop Ub
  end.

Definition json_at_index (j : JSON) (index : Z) : outcome JSON :=
  match j with
  | JArray l => match l !! Z.to_nat index with Some v => Done v | None => Stop (Throw OutOfRange) end
  | _ => Stop Ub
  end.

Definition json_length (j : JSON) : Z := match j with JArray l => s32 (zlen l) | _ => -1 end.

Definition hasKey (j : JSON) (key : text) : bool :=
  match j with JObject m => bool_decide (is_Some (map_find key m)) | _ => false end.

Definition json_size (j : JSON) : Z :=
  match j with JObject m => s32 (zlen m) | JArray l => s32 (zlen l) | _ => -1 end.

Definition IsNull (j : JSON) : bool := bool_decide (JSONType j = CNull).

Definition escape_char (c : ascii) : text :=
  if ceq c QUOTE then [BACKSLASH; QUOTE]
  else if ceq c BACKSLASH then [BACKSLASH; BACKSLASH]
  else if ceq c BS then [BACKSLASH; "b"%char]
  else if ceq c FF then [BACKSLASH; "f"%char]
  else if ceq c NL then [BACKSLASH; "n"%char]
  else if ceq c CR then [BACKSLASH; "r"%char]
  else if ceq c TAB then [BACKSLASH; "t"%char]
  else [c].

Definition json_escape (s : text) : text := flat_map escape_char s.

(** The conversions, with their [ok] parameter. *)
Definition ToString (j : JSON) : text * bool :=
  match j with JString s => (json_escape s, true) | _ => ([], false) end.
Definition ToFloat (j : JSON) : spec_float * bool :=
  match j with JFloating f => (f, true) | _ => (S754_zero false, false) end.
Definition ToInt (j : JSON) : Z * bool := match j with JIntegral n => (n, true) | _ => (0, false) end.
Definition ToUInt (j : JSON) : Z * bool :=
  match j with JUIntegral n => (s64 n, true) | _ => (0, false) end.
Definition ToBool (j : JSON) : bool * bool := match j with JBoolean b => (b, true) | _ => (false, false) end.

(** The constructor from an initializer list takes keys and values in turn; a key without a
    value is read past the end. *)
Fixpoint json_of_list (j : JSON) (l : list JSON) : outcome JSON :=
  match l with
  | [] => Done j
  | [_] => Stop Ub
  | k :: v :: l => json_of_list (json_set_key j (ToString k).1 v) l
  end.

Definition JSON_initializer_list (l : list JSON) : outcome JSON := json_of_list (Make CObject) l.

Definition ObjectRange (j : JSON) : list (text * JSON) := match j with JObject m => m | _ => [] end.
Definition ArrayRange (j : JSON) : list JSON := match j with JArray l => l | _ => [] end.

(** * Printing *)

Fixpoint digits_loop (fuel : nat) (n : Z) (acc : text) : text :=
  match fuel with
  | O => acc
  | S fuel =>
    let acc := chr (48 + n mod 10) :: acc in
    if n <? 10 then acc else digits_loop fuel (n / 10) acc
  end.

(** Decimal digits of a number that is not negative. *)
Definition digits_of (n : Z) : text := digits_loop (S (Z.to_nat (Z.log2 n))) n [].

(** [std::to_string] of a [long] and of an [unsigned long]. *)
Definition to_string_long (n : Z) : text :=
  if n <? 0 then "-"%char :: digits_of (- n) else digits_of n.

(** The quotient rounded to nearest, ties to even. *)
Definition round_div (a b : Z) : Z :=
  let q := a / b in
  let r := a mod b in
  if (2 * r <? b) || ((2 * r =? b) && Z.even q) then q else q + 1.

(** [std::to_string] of a [double]: six decimals, as [%f] prints them. *)
Definition to_string_double (f : spec_float) : text :=
  let sign (s : bool) := if s then ["-"%char] else [] in
  let decimals (scaled : Z) :=
    let frac := digits_of (scaled mod 1000000) in
    digits_of (scaled / 1000000) ++ "."%char :: replicate (6 - length frac) "0"%char ++ frac in
  match f with
  | S754_zero s => sign s ++ decimals 0
  | S754_infinity s => sign s ++ text_of "inf"
  | S754_nan => text_of "nan"
  | S754_finite s m e =>
    sign s ++ decimals (if 0 <=? e then Z.pos m * 2 ^ e * 1000000
                        else round_div (Z.pos m * 1000000) (2 ^ (- e)))
  end.

Definition pad_of (depth : nat) (tab : text) : text := concat (replicate depth tab).

(** [sep] between the elements. *)
Fixpoint join (sep : text) (l : list text) : text :=
  match l with
  | [] => []
  | [x] => x
  | x :: l => x ++ sep ++ join sep l
  end.

Definition print_member (pad key value : text) : text :=
  pad ++ [QUOTE] ++ key ++ [QUOTE] ++ text_of " : " ++ value.

Fixpoint dump (depth : nat) (tab : text) (j : JSON) {struct j} : text :=
  let pad := pad_of depth tab in
  match j with
  | JNull => text_of "null"
  | JObject m =>
    ["{"%char] ++
    join [","%char] (map (fun p => print_member pad p.1 (dump (S depth) tab p.2)) m) ++
    drop 2 pad ++ ["}"%char]
  | JArray l => ["["%char] ++ join (text_of ", ") (map (dump (S depth) tab) l) ++ ["]"%char]
  | JString s => [QUOTE] ++ json_escape s ++ [QUOTE]
  | JFloating f => to_string_double f
  | JIntegral n => to_string_long n
  | JUIntegral n => to_string_long n
  | JBoolean b => if b then text_of "true" else text_of "false"
  end.
