(* ===== verification/JsonParser.v ===== *)
(** The parser of include/utils/json.hpp. Offsets are as in the sources; [str[str.size()]]
    is the terminating NUL, and an access behind it is undefined behaviour. *)

From Stdlib Require Import Ascii.
From Corelib Require Import SpecFloat.
From S2P Require Import Prelude Floats Json.

Definition char_at (str : text) (offset : Z) : outcome ascii :=
  if offset =? zlen str then Done NUL else rd str offset.

Fixpoint consume_ws_loop (fuel : nat) (str : text) (offset : Z) : outcome Z :=
  match fuel with
  | O => Stop OutOfFuel
  | S fuel =>
    c ← char_at str offset;
    if isspace c then consume_ws_loop fuel str (offset + 1) else Done offset
  end.

(** Every iteration moves on by a character, and the NUL is not a space. *)
Definition consume_ws (str : text) (offset : Z) : outcome Z :=
  consume_ws_loop (S (length str)) str offset.

(** * Strings *)

(** What the character behind a backslash stands for, but for [u]. *)
Definition unescape (c : ascii) : ascii :=
  if ceq c QUOTE then QUOTE
  else if ceq c BACKSLASH then BACKSLASH
  else if ceq c "/"%char then "/"%char
  else if ceq c "b"%char then BS
  else if ceq c "f"%char then FF
  else if ceq c "n"%char then NL
  else if ceq c "r"%char then CR
  else if ceq c "t"%char then TAB
  else BACKSLASH.

(** The four characters behind [\u], if they are hexadecimal digits; the loop stops at the
    first one that is not. *)
Fixpoint hex_digits (n : nat) (str : text) (offset : Z) : outcome (option text) :=
  match n with
  | O => Done (Some [])
  | S n =>
    c ← char_at str offset;
    if is_hex c then
      r ← hex_digits n str (offset + 1);
      Done (option_map (cons c) r)
    else Done None
  end.

Fixpoint parse_string_loop (fuel : nat) (str : text) (offset : Z) (val : text) : outcome (JSON * Z) :=
  match fuel with
  | O => Stop OutOfFuel
  | S fuel =>
    c ← char_at str offset;
    if ceq c QUOTE || ceq c NUL then Done (JString val, offset + 1)
    else if ceq c BACKSLASH then
      let offset := offset + 1 in
      e ← char_at str offset;
      if ceq e "u"%char then
        r ← hex_digits 4 str (offset + 1);
        match r with
        | Some hex => parse_string_loop fuel str (offset + 4 + 1) (val ++ text_of "\u" ++ hex)
        | None => Done (Make CString, offset)
        end
      else parse_string_loop fuel str (offset + 1) (val ++ [unescape e])
    else parse_string_loop fuel str (offset + 1) (val ++ [c])
  end.

Definition parse_string (str : text) (offset : Z) : outcome (JSON * Z) :=
  parse_string_loop (S (length str)) str (offset + 1) [].

(** * Numbers *)

(** The longest prefix of digits, and the rest. *)
Fixpoint digit_prefix (l : text) : text * text :=
  match l with
  | c :: l' => if is_digit c then let '(d, r) := digit_prefix l' in (c :: d, r) else ([], l)
  | [] => ([], [])
  end.

Definition digits_value (l : text) : Z := fold_left (fun v c => 10 * v + (code c - 48)) l 0.

(** The sign in front of a number. *)
Definition sign_prefix (l : text) : bool * text :=
  match l with
  | c :: l' => if ceq c "-"%char then (true, l') else (false, l)
  | [] => (false, [])
  end.

(** [std::stol]: throws when there are no digits, or too many. *)
Definition stol (l : text) : outcome Z :=
  let '(neg, l) := sign_prefix l in
  match digit_prefix l with
  | ([], _) => Stop (Throw InvalidArgument)
  | (d, _) =>
    let v := if neg then - digits_value d else digits_value d in
    if (-9223372036854775808 <=? v) && (v <=? 9223372036854775807) then Done v
    else Stop (Throw OutOfRange)
  end.

(** The [double] nearest to [m / 10 ^ k], and whether it is that number. *)
Definition decimal_to_double (neg : bool) (m : Z) (k : nat) : spec_float * bool :=
  match m with
  | Z.pos p =>
    match 10 ^ Z.of_nat k with
    | Z.pos d =>
      let '(q, e, l) := SFdiv_core_binary 53 1024 (Z.pos p) 0 (Z.pos d) 0 in
      let f := binary_round_aux 53 1024 neg q e l in
      (f, match f with
          | S754_finite _ r e => if 0 <=? e then Z.pos r * 2 ^ e * Z.pos d =? m
                                 else Z.pos r * Z.pos d =? m * 2 ^ (- e)
          | _ => false
          end)
    | _ => (S754_nan, false)
    end
  | _ => (S754_zero neg, true)
  end.

(** [std::stod] of a string of digits, signs and points: throws when there are no digits,
    and when the number overflows or underflows. *)
Definition stod (l : text) : outcome spec_float :=
  let '(neg, l) := sign_prefix l in
  let '(whole, rest) := digit_prefix l in
  let frac := match rest with
              | c :: rest => if ceq c "."%char then (digit_prefix rest).1 else []
              | [] => []
              end in
  match whole ++ frac with
  | [] => Stop (Throw InvalidArgument)
  | d =>
    let '(f, exact) := decimal_to_double neg (digits_value d) (length frac) in
    match f with
    | S754_zero _ => if exact then Done f else Stop (Throw OutOfRange)
    | S754_finite _ r _ =>
      (* a subnormal number has fewer than 53 binary digits *)
      if (Z.pos r <? 2 ^ 52) && negb exact then Stop (Throw OutOfRange) else Done f
    | _ => Stop (Throw OutOfRange)
    end
  end.

(** The characters of a number: the character that ends it, the offset behind that one, the
    characters before it and whether there is a point among them. *)
Fixpoint number_chars (fuel : nat) (str : text) (offset : Z) (val : text) (isDouble : bool)
  : outcome (ascii * Z * text * bool) :=
  match fuel with
  | O => Stop OutOfFuel
  | S fuel =>
    c ← char_at str offset;
    if ceq c "-"%char || is_digit c then number_chars fuel str (offset + 1) (val ++ [c]) isDouble
    else if ceq c "."%char then number_chars fuel str (offset + 1) (val ++ [c]) true
    else Done (c, offset + 1, val, isDouble)
  end.

(** What may follow a number. *)
Definition ends_number (c : ascii) : bool :=
  isspace c || ceq c ","%char || ceq c "]"%char || ceq c "}"%char.

(** The digits of an exponent, and the offset behind the character that ends them; nothing
    if that character may not follow a number. *)
Fixpoint exponent_chars (fuel : nat) (str : text) (offset : Z) (exp_str : text)
  : outcome (option text * Z) :=
  match fuel with
  | O => Stop OutOfFuel
  | S fuel =>
    c ← char_at str offset;
    if is_digit c then exponent_chars fuel str (offset + 1) (exp_str ++ [c])
    else if negb (ends_number c) then Done (None, offset + 1)
    else Done (Some exp_str, offset + 1)
  end.

Section parser.
(** [std::pow(10, exp)], whose precision is left open by the language. *)
Context (pow10 : Z -> spec_float).

(** The value of a number without and with an exponent. *)
Definition number_value (val : text) (isDouble : bool) (exp_str : text) (exp : Z) : outcome JSON :=
  if isDouble then
    f ← stod val; Done (JFloating (f64_mul f (pow10 exp)))
  else
    n ← stol val;
    Done (match exp_str with [] => JIntegral n | _ => JFloating (f64_mul (f64_of_Z n) (pow10 exp)) end).

Definition parse_number (str : text) (offset : Z) : outcome (JSON * Z) :=
  '(c, offset, val, isDouble) ← number_chars (S (length str)) str offset [] false;
  if ceq c "E"%char || ceq c "e"%char then
    c ← char_at str offset;
    let offset := offset + 1 in
    let '(offset, exp_str) := if ceq c "-"%char then (offset + 1, ["-"%char]) else (offset, []) in
    '(r, offset) ← exponent_chars (S (length str)) str offset exp_str;
    match r with
    | None => Done (Make CNull, offset)
    | Some exp_str =>
      exp ← stol exp_str;
      v ← number_value val isDouble exp_str exp;
      Done (v, offset - 1)
    end
  else if negb (ends_number c) then Done (Make CNull, offset)
  else
    v ← number_value val isDouble [] 0;
    Done (v, offset - 1).

(** * Words *)

(** [str.substr(offset, n)]. *)
Definition substr (str : text) (offset n : Z) : outcome text :=
  if zlen str <? offset then Stop (Throw OutOfRange) else Done (ztake n (zdrop offset str)).

Definition parse_bool (str : text) (offset : Z) : outcome (JSON * Z) :=
  t ← substr str offset 4;
  if bool_decide (t = text_of "true") then Done (JBoolean true, offset + 4)
  else
    f ← substr str offset 5;
    if bool_decide (f = text_of "false") then Done (JBoolean false, offset + 5)
    else Done (Make CNull, offset).

Definition parse_null (str : text) (offset : Z) : outcome (JSON * Z) :=
  t ← substr str offset 4;
  if negb (bool_decide (t = text_of "null")) then Done (Make CNull, offset)
  else Done (JNull, offset + 4).

(** * Values *)

(** [parse_array] and [parse_object] are given below; the recursion needs their loops as
    functions of their own, and their beginnings inside [parse_next]. *)
Definition open_list (str : text) (offset : Z) : outcome Z := consume_ws str (offset + 1).

Fixpoint parse_next (fuel : nat) (str : text) (offset : Z) {struct fuel} : outcome (JSON * Z) :=
  match fuel with
  | O => Stop OutOfFuel
  | S fuel =>
    offset ← consume_ws str offset;
    value ← char_at str offset;
    if ceq value "["%char then
      offset ← open_list str offset;
      c ← char_at str offset;
      if ceq c "]"%char then Done (Make CArray, offset + 1)
      else array_loop fuel str offset (Make CArray) 0
    else if ceq value "{"%char then
      offset ← open_list str offset;
      c ← char_at str offset;
      if ceq c "}"%char then Done (Make CObject, offset + 1)
      else object_loop fuel str offset (Make CObject)
    else if ceq value QUOTE then parse_string str offset
    else if ceq value "t"%char || ceq value "f"%char then parse_bool str offset
    else if ceq value "n"%char then parse_null str offset
    else if is_digit value || ceq value "-"%char then parse_number str offset
    else Done (JNull, offset)
  end
with array_loop (fuel : nat) (str : text) (offset : Z) (array : JSON) (index : Z) {struct fuel}
  : outcome (JSON * Z) :=
  match fuel with
  | O => Stop OutOfFuel
  | S fuel =>
    '(v, offset) ← parse_next fuel str offset;
    let array := json_set_index array index v in
    offset ← consume_ws str offset;
    c ← char_at str offset;
    if ceq c ","%char then array_loop fuel str (offset + 1) array (u32 (index + 1))
    else if ceq c "]"%char then Done (array, offset + 1)
    else Done (Make CArray, offset)
  end
with object_loop (fuel : nat) (str : text) (offset : Z) (object : JSON) {struct fuel}
  : outcome (JSON * Z) :=
  match fuel with
  | O => Stop OutOfFuel
  | S fuel =>
    '(key, offset) ← parse_next fuel str offset;
    offset ← consume_ws str offset;
    c ← char_at str offset;
    if negb (ceq c ":"%char) then Done (object, offset)
    else
      offset ← consume_ws str (offset + 1);
      '(v, offset) ← parse_next fuel str offset;
      let object := json_set_key object (ToString key).1 v in
      offset ← consume_ws str offset;
      c ← char_at str offset;
      if ceq c ","%char then object_loop fuel str (offset + 1) object
      else if ceq c "}"%char then Done (object, offset + 1)
      else Done (object, offset)
  end.

Definition parse_array (fuel : nat) (str : text) (offset : Z) : outcome (JSON * Z) :=
  offset ← open_list str offset;
  c ← char_at str offset;
  if ceq c "]"%char then Done (Make CArray, offset + 1)
  else array_loop fuel str offset (Make CArray) 0.

Definition parse_object (fuel : nat) (str : text) (offset : Z) : outcome (JSON * Z) :=
  offset ← open_list str offset;
  c ← char_at str offset;
  if ceq c "}"%char then Done (Make CObject, offset + 1)
  else object_loop fuel str offset (Make CObject).

(** [parse_next] as the sources write it. *)
Lemma parse_next_calls fuel str offset : parse_next (S fuel) str offset =
  (offset ← consume_ws str offset;
   value ← char_at str offset;
   if ceq value "["%char then parse_array fuel str offset
   else if ceq value "{"%char then parse_object fuel str offset
   else if ceq value QUOTE then parse_string str offset
   else if ceq value "t"%char || ceq value "f"%char then parse_bool str offset
   else if ceq value "n"%char then parse_null str offset
   else if is_digit value || ceq value "-"%char then parse_number str offset
   else Done (JNull, offset)).
Proof. reflexivity. Qed.

Definition parse_fuel (str : text) : nat := 2 * length str + 4.

(** [JSON::Load]. *)
Definition Load (str : text) : outcome JSON :=
  '(v, _) ← parse_next (parse_fuel str) str 0; Done v.

End parser.
