(* ===== verification/JsonProps.v ===== *)
(** Lemmas on the JSON parser: what it does in front of known text, and that its fuel is
    enough for every text. *)

From Stdlib Require Import Ascii.
From Corelib Require Import SpecFloat.
From S2P Require Import Prelude Floats Json JsonParser.

(** * Reading known text *)

(** From [offset] on the text is [post]. *)
Definition sees (str : text) (offset : Z) (post : text) : Prop :=
  exists pre, str = pre ++ post /\ offset = zlen pre.

Lemma sees_0 str : sees str 0 str.
Proof. by exists []. Qed.

Lemma sees_app str o l post : sees str o (l ++ post) -> sees str (o + zlen l) post.
Proof. intros (pre & -> & ->); exists (pre ++ l); by rewrite <- app_assoc, zlen_app. Qed.

Lemma sees_cons str o c post : sees str o (c :: post) -> sees str (o + 1) post.
Proof. apply (sees_app str o [c]). Qed.

Lemma sees_char str o c post : sees str o (c :: post) -> char_at str o = Done c.
Proof.
  intros (pre & -> & ->); unfold char_at; rewrite zlen_app, zlen_cons.
  pose proof (zlen_nonneg post); rewrite (proj2 (Z.eqb_neq _ _)) by lia.
  by rewrite rd_app_r, Z.sub_diag by lia.
Qed.

Lemma sees_nil str o : sees str o [] -> char_at str o = Done NUL.
Proof. intros (pre & -> & ->); unfold char_at; by rewrite app_nil_r, Z.eqb_refl. Qed.

Lemma sees_length str o post : sees str o post -> (length post <= length str)%nat.
Proof. intros (pre & -> & _); rewrite length_app; lia. Qed.

Lemma sees_substr str o w n post : zlen w = n -> sees str o (w ++ post) -> substr str o n = Done w.
Proof.
  intros <- (pre & -> & ->); unfold substr; rewrite zlen_app.
  pose proof (zlen_nonneg (w ++ post)); rewrite (proj2 (Z.ltb_ge _ _)) by lia.
  by rewrite zdrop_app_r, Z.sub_diag, zdrop_0, ztake_app_l, ztake_all by lia.
Qed.

(** ** White space *)

Definition is_space (c : ascii) : Prop := isspace c = true.

(** The text does not begin with white space. *)
Definition no_space_first (l : text) : Prop :=
  match l with c :: _ => isspace c = false | [] => True end.

Lemma consume_ws_loop_sees str ws post fuel o : Forall is_space ws -> no_space_first post ->
  (length ws < fuel)%nat -> sees str o (ws ++ post) ->
  consume_ws_loop fuel str o = Done (o + zlen ws).
Proof.
  intros Hws Hpost; revert fuel o; induction Hws as [|c ws Hc _ IH]; intros [|fuel] o Hf Hs;
    cbn in Hf; try lia; cbn [consume_ws_loop app] in *.
  - rewrite zlen_nil, Z.add_0_r; destruct post as [|c post]; cbn in Hpost.
    + by rewrite (sees_nil _ _ Hs), bind_Done.
    + by rewrite (sees_char _ _ _ _ Hs), bind_Done, Hpost.
  - rewrite (sees_char _ _ _ _ Hs), bind_Done; unfold is_space in Hc; rewrite Hc.
    rewrite (IH fuel (o + 1)), zlen_cons; [f_equal; lia|lia|by eapply sees_cons].
Qed.

Lemma consume_ws_sees str ws post o : Forall is_space ws -> no_space_first post ->
  sees str o (ws ++ post) -> consume_ws str o = Done (o + zlen ws).
Proof.
  intros Hws Hpost Hs; eapply consume_ws_loop_sees; eauto.
  apply sees_length in Hs; rewrite length_app in Hs; lia.
Qed.

(** ** Strings *)

Lemma ceq_refl c : ceq c c = true.
Proof. by apply bool_decide_eq_true. Qed.

Lemma ceq_false a b : a <> b -> ceq a b = false.
Proof. by apply bool_decide_eq_false_2. Qed.

Lemma ceq_true a b : ceq a b = true -> a = b.
Proof. by intros ?%bool_decide_eq_true. Qed.

(** One character as [json_escape] writes it is one iteration of [parse_string]. *)
Lemma parse_escaped str fuel o c post val : c <> NUL -> sees str o (escape_char c ++ post) ->
  parse_string_loop (S fuel) str o val =
  parse_string_loop fuel str (o + zlen (escape_char c)) (val ++ [c]).
Proof.
  intros Hc Hs; unfold escape_char in *; cbn [parse_string_loop].
  repeat match goal with
  | H : sees _ _ ((if ceq c ?d then _ else _) ++ _) |- _ =>
      let E := fresh "E" in destruct (ceq c d) eqn:E; [apply ceq_true in E; subst c|]
  end.
  1-7: cbn [app] in Hs; rewrite (sees_char _ _ _ _ Hs), bind_Done; cbv beta zeta;
    rewrite (sees_char _ _ _ _ (sees_cons _ _ _ _ Hs)), bind_Done; cbv beta;
    by replace (o + 1 + 1) with (o + 2) by lia.
  cbn [app] in Hs; rewrite (sees_char _ _ _ _ Hs), bind_Done; cbv beta.
  by rewrite E, E0, (ceq_false c NUL).
Qed.

Lemma parse_string_loop_sees str s post fuel o val : Forall (fun c => c <> NUL) s ->
  (length s < fuel)%nat -> sees str o (json_escape s ++ QUOTE :: post) ->
  parse_string_loop fuel str o val = Done (JString (val ++ s), o + zlen (json_escape s) + 1).
Proof.
  intros Hs; revert fuel o val; induction Hs as [|c s Hc _ IH]; intros [|fuel] o val Hf Hsee;
    cbn in Hf; try lia.
  - cbn [json_escape flat_map app] in *; cbn [parse_string_loop].
    by rewrite (sees_char _ _ _ _ Hsee), bind_Done, ceq_refl, app_nil_r, zlen_nil, Z.add_0_r.
  - cbn [json_escape flat_map] in *; rewrite <- app_assoc in Hsee.
    rewrite (parse_escaped _ _ _ _ _ _ Hc Hsee), (IH fuel _ (val ++ [c])), zlen_app;
      [rewrite <- app_assoc; do 2 f_equal; unfold json_escape; lia|lia|by apply sees_app].
Qed.

Lemma escape_length s : (length s <= length (json_escape s))%nat.
Proof.
  induction s as [|c s IH]; cbn; [lia|]; rewrite length_app.
  assert (1 <= length (escape_char c))%nat; [|unfold json_escape in IH; lia].
  unfold escape_char; repeat case_if; cbn; lia.
Qed.

Lemma parse_string_sees str s post o : Forall (fun c => c <> NUL) s ->
  sees str o (QUOTE :: json_escape s ++ QUOTE :: post) ->
  parse_string str o = Done (JString s, o + zlen (json_escape s) + 2).
Proof.
  intros Hs Hsee; unfold parse_string.
  rewrite (parse_string_loop_sees str s post _ (o + 1) []); [do 2 f_equal; lia|done| |by eapply sees_cons].
  apply sees_length in Hsee; cbn in Hsee; rewrite length_app in Hsee.
  pose proof (escape_length s); lia.
Qed.

(** ** Numbers *)

Lemma code_chr n : 0 <= n < 256 -> code (chr n) = n.
Proof.
  intros; unfold code, chr; rewrite N_ascii_embedding by lia; lia.
Qed.

Lemma is_digit_chr n : 0 <= n < 10 -> is_digit (chr (48 + n)) = true.
Proof. intros; unfold is_digit; rewrite code_chr by lia; apply andb_true_intro; split; lia. Qed.

Lemma digits_value_snoc l c : digits_value (l ++ [c]) = 10 * digits_value l + (code c - 48).
Proof. unfold digits_value; by rewrite fold_left_app. Qed.

Lemma digits_loop_spec fuel : forall n acc, 0 <= n < 10 ^ Z.of_nat fuel -> (0 < fuel)%nat ->
  exists d ds, digits_loop fuel n acc = (d :: ds) ++ acc /\ digits_value (d :: ds) = n /\
    Forall (fun c => is_digit c = true) (d :: ds).
Proof.
  induction fuel as [|fuel IH]; intros n acc Hn Hf; [lia|]; cbn [digits_loop].
  assert (Hd : 0 <= n mod 10 < 10) by (apply Z.mod_pos_bound; lia).
  assert (Hv : digits_value [chr (48 + n mod 10)] = n mod 10)
    by (unfold digits_value; cbn [fold_left]; rewrite code_chr; lia).
  case_if.
  - exists (chr (48 + n mod 10)), []; rewrite Hv, Z.mod_small by lia.
    split; [done|]; split; [done|]; apply Forall_singleton, is_digit_chr; lia.
  - rewrite Nat2Z.inj_succ, Z.pow_succ_r in Hn by lia.
    assert (Hq : 0 <= n / 10 < 10 ^ Z.of_nat fuel)
      by (split; [apply Z.div_pos|apply Z.div_lt_upper_bound]; lia).
    assert (Hfuel : (0 < fuel)%nat) by (destruct fuel; [rewrite Z.pow_0_r in Hq; nia|lia]).
    destruct (IH (n / 10) (chr (48 + n mod 10) :: acc) Hq Hfuel) as (d & ds & -> & Hval & Hds).
    exists d, (ds ++ [chr (48 + n mod 10)]); split; [cbn; by rewrite <- app_assoc|].
    rewrite app_comm_cons, digits_value_snoc, Hval, code_chr by lia; split.
    + pose proof (Z.div_mod n 10 ltac:(lia)); lia.
    + apply Forall_app; split; [done|]; apply Forall_singleton, is_digit_chr; lia.
Qed.

Lemma digits_of_spec n : 0 <= n -> exists d ds, digits_of n = d :: ds /\
  digits_value (d :: ds) = n /\ Forall (fun c => is_digit c = true) (d :: ds).
Proof.
  intros Hn; destruct (digits_loop_spec (S (Z.to_nat (Z.log2 n))) n []) as (d & ds & H & Hv & Hd).
  - split; [done|]; rewrite Nat2Z.inj_succ, Z2Nat.id by apply Z.log2_nonneg.
    destruct (Z.eq_dec n 0) as [->|Hne]; [cbn; lia|].
    pose proof (Z.log2_nonneg n).
    apply Z.lt_le_trans with (2 ^ Z.succ (Z.log2 n)); [apply Z.log2_spec; lia|].
    apply Z.pow_le_mono_l; lia.
  - lia.
  - exists d, ds; unfold digits_of; rewrite H, app_nil_r; auto.
Qed.

Lemma digit_prefix_all l rest : Forall (fun c => is_digit c = true) l ->
  match rest with c :: _ => is_digit c = false | [] => True end ->
  digit_prefix (l ++ rest) = (l, rest).
Proof.
  intros Hl Hr; induction Hl as [|c l Hc _ IH]; cbn.
  - destruct rest; cbn; [done|by rewrite Hr].
  - by rewrite Hc, IH.
Qed.

Lemma is_digit_not_minus c : is_digit c = true -> ceq c "-"%char = false.
Proof. intros Hc; apply ceq_false; intros ->; discriminate. Qed.

(** What [std::to_string] writes is what [std::stol] reads. *)
Lemma stol_to_string n : -9223372036854775808 <= n <= 9223372036854775807 ->
  stol (to_string_long n) = Done n.
Proof.
  intros Hn; unfold stol, to_string_long; case_if.
  - destruct (digits_of_spec (- n)) as (d & ds & -> & Hv & Hd); [lia|]; cbn [sign_prefix]; rewrite ceq_refl.
    pose proof (digit_prefix_all (d :: ds) [] Hd I) as Hp; rewrite app_nil_r in Hp; rewrite Hp, Hv.
    rewrite Z.opp_involutive, (proj2 (Z.leb_le _ n)), (proj2 (Z.leb_le n _)) by lia; done.
  - destruct (digits_of_spec n) as (d & ds & -> & Hv & Hd); [lia|]; cbn [sign_prefix].
    rewrite is_digit_not_minus by (by apply Forall_cons in Hd as [? _]).
    pose proof (digit_prefix_all (d :: ds) [] Hd I) as Hp; rewrite app_nil_r in Hp; rewrite Hp, Hv.
    rewrite (proj2 (Z.leb_le _ n)), (proj2 (Z.leb_le n _)) by lia; done.
Qed.

Definition number_char (c : ascii) : bool := ceq c "-"%char || is_digit c.

Lemma ends_number_spec c : ends_number c = true ->
  ceq c "-"%char || is_digit c = false /\ ceq c "."%char = false /\
  ceq c "E"%char || ceq c "e"%char = false.
Proof. destruct c as [[] [] [] [] [] [] [] []]; vm_compute; auto; discriminate. Qed.

Lemma number_chars_sees str l c post fuel o val b : Forall (fun c => number_char c = true) l ->
  ceq c "-"%char || is_digit c = false -> ceq c "."%char = false ->
  (length l < fuel)%nat -> sees str o (l ++ c :: post) ->
  number_chars fuel str o val b = Done (c, o + zlen l + 1, val ++ l, b).
Proof.
  intros Hl Hc Hp; revert fuel o val; induction Hl as [|d l Hd _ IH]; intros [|fuel] o val Hf Hs;
    cbn in Hf; try lia; cbn [number_chars app] in *; rewrite (sees_char _ _ _ _ Hs), bind_Done.
  - rewrite Hc, Hp; by rewrite zlen_nil, Z.add_0_r, app_nil_r.
  - unfold number_char in Hd; rewrite Hd, (IH fuel (o + 1)), zlen_cons;
      [rewrite <- app_assoc; do 4 f_equal; lia|lia|by eapply sees_cons].
Qed.

Lemma to_string_chars n : Forall (fun c => number_char c = true) (to_string_long n).
Proof.
  assert (Hd : forall m, 0 <= m -> Forall (fun c => number_char c = true) (digits_of m)).
  { intros m Hm; destruct (digits_of_spec m Hm) as (d & ds & -> & _ & H).
    eapply Forall_impl; [exact H|]; cbn; intros c Hc; unfold number_char; by rewrite Hc, orb_true_r. }
  unfold to_string_long; case_if; [apply Forall_cons_2; [done|]|]; apply Hd; lia.
Qed.

Section parser.
Context (pow10 : Z -> spec_float).

Lemma parse_number_sees str n c post o : -9223372036854775808 <= n <= 9223372036854775807 ->
  ends_number c = true -> sees str o (to_string_long n ++ c :: post) ->
  parse_number pow10 str o = Done (JIntegral n, o + zlen (to_string_long n)).
Proof.
  intros Hn Hc Hs; unfold parse_number; destruct (ends_number_spec c Hc) as (Hc1 & Hc2 & He).
  rewrite (number_chars_sees str _ c post _ o [] false (to_string_chars n) Hc1 Hc2), bind_Done;
    [|apply sees_length in Hs; rewrite length_app in Hs; lia|exact Hs].
  cbn [app]; rewrite He, Hc; cbn [negb]; unfold number_value.
  rewrite stol_to_string, !bind_Done by done; do 2 f_equal; lia.
Qed.

Lemma parse_bool_sees str (b : bool) post o :
  sees str o ((if b then text_of "true" else text_of "false") ++ post) ->
  parse_bool str o = Done (JBoolean b, o + (if b then 4 else 5)).
Proof.
  intros Hs; unfold parse_bool; destruct b.
  - by rewrite (sees_substr _ _ (text_of "true") 4 _ eq_refl Hs).
  - change (text_of "false") with (text_of "fals" ++ ["e"%char]) in Hs.
    rewrite <- app_assoc in Hs; rewrite (sees_substr _ _ (text_of "fals") 4 _ eq_refl Hs), bind_Done.
    rewrite app_assoc in Hs; change (text_of "fals" ++ ["e"%char]) with (text_of "false") in Hs.
    by rewrite (sees_substr _ _ (text_of "false") 5 _ eq_refl Hs).
Qed.

Lemma parse_null_sees str post o : sees str o (text_of "null" ++ post) ->
  parse_null str o = Done (JNull, o + 4).
Proof. intros Hs; unfold parse_null; by rewrite (sees_substr _ _ (text_of "null") 4 _ eq_refl Hs). Qed.

End parser.
