(* ===== verification/JsonRoundtrip.v ===== *)
(** Printing and parsing: what [dump] writes, and every other layout of it that differs in
    white space only, [Load] reads back. *)

From Stdlib Require Import Ascii Sorting.Sorted.
From Corelib Require Import SpecFloat.
From S2P Require Import Prelude Floats Json JsonParser JsonProps.

(** * Induction on values *)

Section induction.
Context (P : JSON -> Prop).
Hypothesis Hnull : P JNull.
Hypothesis Hobject : forall m, Forall (fun p => P p.2) m -> P (JObject m).
Hypothesis Harray : forall l, Forall P l -> P (JArray l).
Hypothesis Hstring : forall s, P (JString s).
Hypothesis Hfloat : forall f, P (JFloating f).
Hypothesis Hint : forall n, P (JIntegral n).
Hypothesis Huint : forall n, P (JUIntegral n).
Hypothesis Hbool : forall b, P (JBoolean b).

Fixpoint JSON_nested_ind (j : JSON) : P j :=
  match j with
  | JNull => Hnull
  | JObject m => Hobject m ((fix go (m : list (text * JSON)) : Forall (fun p => P p.2) m :=
      match m with
      | [] => Forall_nil_2 _
      | p :: m => Forall_cons_2 _ p m (JSON_nested_ind p.2) (go m)
      end) m)
  | JArray l => Harray l ((fix go (l : list JSON) : Forall P l :=
      match l with
      | [] => Forall_nil_2 _
      | x :: l => Forall_cons_2 _ x l (JSON_nested_ind x) (go l)
      end) l)
  | JString s => Hstring s
  | JFloating f => Hfloat f
  | JIntegral n => Hint n
  | JUIntegral n => Huint n
  | JBoolean b => Hbool b
  end.
End induction.

(** * Layouts *)

(** The white space a printer puts in: before a key and before a closing brace, by depth,
    around a colon and behind a comma of an array. *)
Record layout := {
  before_key : nat -> text;
  before_close : nat -> text;
  before_colon : text;
  after_colon : text;
  after_comma : text;
}.

Record layout_ok (L : layout) : Prop := {
  before_key_ok : forall d, Forall is_space (before_key L d);
  before_close_ok : forall d, Forall is_space (before_close L d);
  before_colon_ok : Forall is_space (before_colon L);
  after_colon_ok : Forall is_space (after_colon L);
  after_comma_ok : Forall is_space (after_comma L);
}.

Definition render_pair (L : layout) (key value : text) : text :=
  [QUOTE] ++ key ++ [QUOTE] ++ before_colon L ++ [":"%char] ++ after_colon L ++ value.

Definition render_member (L : layout) (depth : nat) (key value : text) : text :=
  before_key L depth ++ render_pair L key value.

Fixpoint render (L : layout) (depth : nat) (j : JSON) {struct j} : text :=
  match j with
  | JNull => text_of "null"
  | JObject m =>
    ["{"%char] ++ join [","%char] (map (fun p => render_member L depth p.1 (render L (S depth) p.2)) m) ++
    before_close L depth ++ ["}"%char]
  | JArray l =>
    ["["%char] ++ join (","%char :: after_comma L) (map (render L (S depth)) l) ++ ["]"%char]
  | JString s => [QUOTE] ++ json_escape s ++ [QUOTE]
  | JFloating f => to_string_double f
  | JIntegral n => to_string_long n
  | JUIntegral n => to_string_long n
  | JBoolean b => if b then text_of "true" else text_of "false"
  end.

Definition dump_layout (tab : text) : layout := {|
  before_key d := pad_of d tab;
  before_close d := drop 2 (pad_of d tab);
  before_colon := [" "%char];
  after_colon := [" "%char];
  after_comma := [" "%char];
|}.

Definition compact_layout : layout := {|
  before_key _ := []; before_close _ := []; before_colon := []; after_colon := []; after_comma := [];
|}.

Lemma dump_render tab j : forall d, dump d tab j = render (dump_layout tab) d j.
Proof.
  induction j as [|m IH|l IH| | | | |] using JSON_nested_ind; intros d; try done; cbn [dump render].
  - do 3 f_equal; apply map_ext_Forall; eapply Forall_impl; [exact IH|].
    cbn; intros p Hp; by rewrite Hp.
  - do 3 f_equal; apply map_ext_Forall; eapply Forall_impl; [exact IH|]; cbn; intros x Hx; apply Hx.
Qed.

Lemma dump_layout_ok tab : Forall is_space tab -> layout_ok (dump_layout tab).
Proof.
  intros Ht; assert (Hpad : forall d, Forall is_space (pad_of d tab)).
  { intros d; unfold pad_of; induction d as [|d IH]; cbn; [constructor|by apply Forall_app]. }
  split; cbn; try (by apply Forall_singleton); [done|]; intros d; by apply Forall_drop.
Qed.

Lemma compact_layout_ok : layout_ok compact_layout.
Proof. split; cbn; intros; constructor. Qed.

(** * Values that survive *)

(** Unsigned numbers come back as signed ones. *)
Fixpoint reread (j : JSON) : JSON :=
  match j with
  | JObject m => JObject (map (fun p => (p.1, reread p.2)) m)
  | JArray l => JArray (map reread l)
  | JUIntegral n => JIntegral n
  | j => j
  end.

(** A key as [dump] needs it: it is written without escapes, and read with them. *)
Definition plain_key (key : text) : Prop :=
  json_escape key = key /\ Forall (fun c => c <> NUL) key.

Definition key_lt (p q : text * JSON) : Prop := text_ltb p.1 q.1 = true.

(** No floating point number, whose digits [dump] cuts; no NUL in a string; numbers a
    [long] holds; keys in the order of a map. *)
#[warnings="-register-all"]
Inductive printable : JSON -> Prop :=
| pr_null : printable JNull
| pr_object m : StronglySorted key_lt m -> Forall (fun p => plain_key p.1) m ->
    Forall (fun p => printable p.2) m -> printable (JObject m)
| pr_array l : zlen l < 4294967296 -> Forall printable l -> printable (JArray l)
| pr_string s : Forall (fun c => c <> NUL) s -> printable (JString s)
| pr_int n : -9223372036854775808 <= n <= 9223372036854775807 -> printable (JIntegral n)
| pr_uint n : 0 <= n <= 9223372036854775807 -> printable (JUIntegral n)
| pr_bool b : printable (JBoolean b).

Definition is_number (j : JSON) : bool :=
  match j with JFloating _ | JIntegral _ | JUIntegral _ => true | _ => false end.

(** A number must be followed by a character that ends it. *)
Definition follows (j : JSON) (post : text) : Prop :=
  is_number j = true -> match post with c :: _ => ends_number c = true | [] => False end.

(** The recursion depth [parse_next] needs. *)
Fixpoint need (j : JSON) : nat :=
  match j with
  | JObject m => S (list_sum (map (fun p => S (need p.2)) m))
  | JArray l => S (list_sum (map (fun x => S (need x)) l))
  | _ => 1
  end.

Lemma need_pos j : (1 <= need j)%nat.
Proof. destruct j; cbn; lia. Qed.

(** * First characters *)

Lemma number_first n : exists c l, to_string_long n = c :: l /\ number_char c = true.
Proof.
  pose proof (to_string_chars n) as Hc; destruct (to_string_long n) as [|c l] eqn:E.
  - exfalso; unfold to_string_long in E; destruct (n <? 0) eqn:Hn0; b2p; [done|].
    destruct (digits_of_spec n) as (? & ? & Hn & _); [lia|]; congruence.
  - apply Forall_cons in Hc as [Hc _]; by exists c, l.
Qed.

(** A character that begins a number begins nothing else. *)
Lemma number_char_spec c : number_char c = true ->
  isspace c = false /\ ceq c "["%char = false /\ ceq c "{"%char = false /\ ceq c QUOTE = false /\
  ceq c "t"%char || ceq c "f"%char = false /\ ceq c "n"%char = false /\
  is_digit c || ceq c "-"%char = true.
Proof. destruct c as [[] [] [] [] [] [] [] []]; vm_compute; auto 10; discriminate. Qed.

(** A value does not begin with white space, nor with what closes an array. *)
Lemma render_value_first L d j post : printable j -> exists c k,
  render L d j ++ post = c :: k /\ isspace c = false /\ ceq c "]"%char = false.
Proof.
  assert (Hn : forall n, exists c k, to_string_long n ++ post = c :: k /\ isspace c = false /\ ceq c "]"%char = false).
  { intros n; destruct (number_first n) as (c & l & -> & Hc); eexists _, _; split; [done|].
    revert Hc; destruct c as [[] [] [] [] [] [] [] []]; vm_compute; auto; discriminate. }
  intros Hj; destruct Hj as [|m _ _ _|l _ _|s _|n _|n _|b]; cbn [render]; try apply Hn;
    try destruct b; eexists _, _; (split; [reflexivity|split; reflexivity]).
Qed.

Lemma render_first L d j post : printable j -> no_space_first (render L d j ++ post).
Proof. by intros Hj; destruct (render_value_first L d j post Hj) as (c & k & -> & Hc & _). Qed.

Section roundtrip.
Context (pow10 : Z -> spec_float) (L : layout) (HL : layout_ok L).

(** [parse_next] up to the character it branches on. *)
Lemma at_value str o ws c post : Forall is_space ws -> isspace c = false ->
  sees str o (ws ++ c :: post) ->
  consume_ws str o = Done (o + zlen ws) /\ char_at str (o + zlen ws) = Done c /\
  sees str (o + zlen ws) (c :: post).
Proof.
  intros Hws Hc Hs; rewrite (consume_ws_sees str ws (c :: post)) by done.
  apply sees_app in Hs; by rewrite (sees_char _ _ _ _ Hs).
Qed.

Lemma parse_next_string fuel str o ws s post : Forall is_space ws -> Forall (fun c => c <> NUL) s ->
  sees str o (ws ++ QUOTE :: json_escape s ++ QUOTE :: post) ->
  parse_next pow10 (S fuel) str o = Done (JString s, o + zlen ws + zlen (json_escape s) + 2).
Proof.
  intros Hws Hs Hsee; destruct (at_value _ _ _ QUOTE _ Hws eq_refl Hsee) as (H1 & H2 & H3).
  cbn [parse_next]; rewrite H1, bind_Done, H2, bind_Done.
  change (parse_string str (o + zlen ws) = Done (JString s, o + zlen ws + zlen (json_escape s) + 2)).
  by rewrite (parse_string_sees _ _ _ _ Hs H3).
Qed.

Lemma parse_next_number fuel str o ws n post : Forall is_space ws ->
  -9223372036854775808 <= n <= 9223372036854775807 ->
  match post with c :: _ => ends_number c = true | [] => False end ->
  sees str o (ws ++ to_string_long n ++ post) ->
  parse_next pow10 (S fuel) str o = Done (JIntegral n, o + zlen ws + zlen (to_string_long n)).
Proof.
  intros Hws Hn Hpost Hsee; destruct post as [|e post]; [done|].
  assert (Hsee' := Hsee); destruct (number_first n) as (c & l & El & Hc).
  rewrite El in Hsee; destruct (number_char_spec c Hc) as (Hsp & H1 & H2 & H3 & H4 & H5 & H6).
  destruct (at_value _ _ _ _ _ Hws Hsp Hsee) as (Hw & Hat & _).
  cbn [parse_next]; rewrite Hw, bind_Done, Hat, bind_Done, H1, H2, H3, H4, H5, H6.
  by apply sees_app in Hsee'; rewrite (parse_number_sees _ _ _ _ _ _ Hn Hpost Hsee').
Qed.

(** ** Arrays *)

(** [parse_next] reads [j] wherever it is printed. *)
Definition reads (j : JSON) : Prop := forall d str o ws post fuel,
  Forall is_space ws -> follows j post -> (need j <= fuel)%nat ->
  sees str o (ws ++ render L d j ++ post) ->
  parse_next pow10 fuel str o = Done (reread j, o + zlen ws + zlen (render L d j)).

Lemma set_index_snoc l v : json_set_index (JArray l) (zlen l) v = JArray (l ++ [v]).
Proof.
  unfold json_set_index, SetType; cbn [JSONType]; rewrite bool_decide_true by done.
  unfold grow; rewrite (proj2 (Z.leb_le _ _)) by lia.
  replace (Z.to_nat (zlen l + 1 - zlen l)) with 1%nat by lia.
  replace (Z.to_nat (zlen l)) with (length l + 0)%nat by (unfold zlen; lia).
  by rewrite insert_app_r.
Qed.

Lemma join_cons sep x y l : join sep (x :: y :: l) = x ++ sep ++ join sep (y :: l).
Proof. done. Qed.

Lemma array_loop_reads xs d : forall x acc str o ws post fuel, Forall reads (x :: xs) ->
  Forall is_space ws -> zlen acc + zlen (x :: xs) < 4294967296 ->
  (list_sum (map (fun x => S (need x)) (x :: xs)) <= fuel)%nat ->
  sees str o (ws ++ join (","%char :: after_comma L) (map (render L d) (x :: xs)) ++ "]"%char :: post) ->
  array_loop pow10 fuel str o (JArray acc) (zlen acc) =
  Done (JArray (acc ++ map reread (x :: xs)),
        o + zlen ws + zlen (join (","%char :: after_comma L) (map (render L d) (x :: xs))) + 1).
Proof.
  induction xs as [|y xs IH]; intros x acc str o ws post [|fuel] Hreads Hws Hlen Hfuel Hs;
    cbn in Hfuel; try lia; apply Forall_cons in Hreads as [Hx Hxs].
  - cbn [map join] in *; cbn [array_loop].
    rewrite (Hx d str o ws ("]"%char :: post)) by (done || lia); rewrite bind_Done; cbv zeta.
    rewrite app_assoc in Hs; apply sees_app in Hs; rewrite zlen_app, Z.add_assoc in Hs.
    rewrite (consume_ws_sees str [] ("]"%char :: post)), bind_Done, zlen_nil, Z.add_0_r by done.
    rewrite (sees_char _ _ _ _ Hs), bind_Done, set_index_snoc; done.
  - rewrite (map_cons (render L d) x), (map_cons (render L d) y), join_cons in *.
    rewrite <- (map_cons (render L d) y) in *.
    set (J := join _ (map (render L d) (y :: xs))) in *; cbn [array_loop].
    rewrite (Hx d str o ws ((","%char :: after_comma L) ++ J ++ "]"%char :: post)), bind_Done;
      [|done|done|lia|by rewrite <- !app_assoc in Hs]; cbv zeta.
    rewrite <- !app_assoc, app_assoc in Hs; apply sees_app in Hs; rewrite zlen_app, Z.add_assoc in Hs.
    rewrite (consume_ws_sees str [] (","%char :: after_comma L ++ J ++ "]"%char :: post)) by done.
    rewrite bind_Done, zlen_nil, Z.add_0_r, (sees_char _ _ _ _ Hs), bind_Done, ceq_refl, set_index_snoc.
    rewrite zlen_cons in Hlen; pose proof (zlen_nonneg acc); pose proof (zlen_nonneg (y :: xs)).
    replace (u32 (zlen acc + 1)) with (zlen (acc ++ [reread x]))
      by (rewrite zlen_app, zlen_cons, zlen_nil; unfold u32; rewrite Z.mod_small; lia).
    apply sees_cons in Hs.
    rewrite (IH y (acc ++ [reread x]) str _ (after_comma L) post fuel);
      [|done|apply after_comma_ok, HL|rewrite zlen_app, zlen_cons, zlen_nil; lia|cbn; lia|exact Hs].
    fold J; rewrite <- app_assoc; do 2 f_equal; rewrite !zlen_app, zlen_cons; lia.
Qed.

(** ** Objects *)

Lemma map_insert_last key v m : Forall (fun p => text_ltb p.1 key = true) m ->
  map_insert key v m = m ++ [(key, v)].
Proof.
  assert (Hirr : forall a b, text_ltb a b = true -> a <> b /\ text_ltb b a = false).
  { induction a as [|x a IH]; intros [|y b]; cbn; try done.
    repeat case_if; try done; try lia; intros H; [split; [intros [= -> ->]; lia|done]|].
    apply IH in H as [Hne ->]; split; [congruence|done]. }
  induction 1 as [|[k w] m Hk _ IH]; cbn [map_insert app]; [done|].
  cbn [fst] in Hk; apply Hirr in Hk as [Hne ->]; by rewrite bool_decide_false, IH by done.
Qed.

Lemma set_key_last m key v : Forall (fun p => text_ltb p.1 key = true) m ->
  json_set_key (JObject m) key v = JObject (m ++ [(key, v)]).
Proof.
  intros Hm; unfold json_set_key, SetType; cbn [JSONType]; rewrite bool_decide_true by done.
  by rewrite map_insert_last.
Qed.

(** The key and the colon of a member. *)
Lemma parse_key fuel str o ws key post : Forall is_space ws -> plain_key key ->
  no_space_first post ->
  sees str o (ws ++ [QUOTE] ++ key ++ [QUOTE] ++ before_colon L ++ [":"%char] ++ after_colon L ++ post) ->
  exists o', parse_next pow10 (S fuel) str o = Done (JString key, o') /\
    consume_ws str o' = Done (o' + zlen (before_colon L)) /\
    char_at str (o' + zlen (before_colon L)) = Done ":"%char /\
    consume_ws str (o' + zlen (before_colon L) + 1) =
      Done (o' + zlen (before_colon L) + 1 + zlen (after_colon L)) /\
    sees str (o' + zlen (before_colon L) + 1 + zlen (after_colon L)) post /\
    o' = o + zlen ws + zlen key + 2.
Proof.
  intros Hws [Hesc Hkey] Hpost Hs; exists (o + zlen ws + zlen key + 2).
  assert (Hs1 := Hs); rewrite <- Hesc in Hs1.
  rewrite (parse_next_string fuel str o ws key _ Hws Hkey Hs1), Hesc.
  assert (H2 : sees str (o + zlen ws + zlen key + 2)
    (before_colon L ++ ":"%char :: after_colon L ++ post)).
  { replace (o + zlen ws + zlen key + 2) with (o + zlen (ws ++ [QUOTE] ++ key ++ [QUOTE]))
      by (rewrite !zlen_app, !zlen_cons, zlen_nil; lia).
    by apply sees_app; rewrite <- !app_assoc. }
  rewrite (consume_ws_sees str (before_colon L) (":"%char :: after_colon L ++ post));
    [|apply before_colon_ok, HL|done|done].
  apply sees_app in H2; rewrite (sees_char _ _ _ _ H2); apply sees_cons in H2.
  rewrite (consume_ws_sees str (after_colon L) post); [|apply after_colon_ok, HL|done|exact H2].
  by apply sees_app in H2.
Qed.

(** One iteration of [object_loop], up to the character behind the value. *)
Lemma object_loop_member fuel str o obj k x ws ws' c post d :
  reads x -> printable x -> plain_key k -> Forall is_space ws -> Forall is_space ws' ->
  isspace c = false -> ends_number c = true -> (need x <= fuel)%nat ->
  sees str o (ws ++ render_pair L k (render L (S d) x) ++ ws' ++ c :: post) ->
  let obj' := json_set_key obj k (reread x) in
  let o' := o + zlen ws + zlen (render_pair L k (render L (S d) x)) + zlen ws' in
  object_loop pow10 (S fuel) str o obj =
    (if ceq c ","%char then object_loop pow10 fuel str (o' + 1) obj'
     else if ceq c "}"%char then Done (obj', o' + 1) else Done (obj', o')) /\
  sees str (o' + 1) post.
Proof.
  intros Hx Hpx Hk Hws Hws' Hc Hend Hfuel Hs; cbv zeta.
  destruct fuel as [|fuel]; [pose proof (need_pos x); lia|].
  assert (Hval : no_space_first (render L (S d) x ++ ws' ++ c :: post)) by by apply render_first.
  unfold render_pair in *; rewrite <- !app_assoc in Hs.
  destruct (parse_key fuel str o ws k _ Hws Hk Hval Hs) as (o1 & H1 & H2 & H3 & H4 & H5 & Ho1).
  set (f := S fuel) in *; cbn [object_loop]; rewrite H1, bind_Done, H2, bind_Done, H3, bind_Done.
  rewrite ceq_refl; cbn [negb]; rewrite H4, bind_Done.
  set (o2 := o1 + zlen (before_colon L) + 1 + zlen (after_colon L)) in *.
  assert (Hf : follows x (ws' ++ c :: post)).
  { intros _; destruct ws' as [|b ws']; [done|]; apply Forall_cons in Hws' as [Hb _]; cbn.
    unfold ends_number; by rewrite Hb. }
  rewrite (Hx (S d) str o2 [] (ws' ++ c :: post) f), bind_Done by done; cbv zeta.
  apply sees_app in H5; rewrite zlen_nil, Z.add_0_r.
  rewrite (consume_ws_sees str ws' (c :: post) _ Hws' Hc H5), bind_Done.
  apply sees_app in H5; rewrite (sees_char _ _ _ _ H5), bind_Done.
  destruct Hk as [Hesc _]; cbn [ToString fst]; rewrite Hesc; apply sees_cons in H5.
  assert (Ho : o2 + zlen (render L (S d) x) + zlen ws' = o + zlen ws + zlen ([QUOTE] ++ k ++
    [QUOTE] ++ before_colon L ++ [":"%char] ++ after_colon L ++ render L (S d) x) + zlen ws')
    by (unfold o2; rewrite Ho1, !zlen_app, !zlen_cons, zlen_nil; lia).
  rewrite <- Ho; done.
Qed.

Lemma sorted_before acc k (x : JSON) xs : StronglySorted key_lt (acc ++ (k, x) :: xs) ->
  Forall (fun p => text_ltb p.1 k = true) (map (fun p => (p.1, reread p.2)) acc).
Proof.
  intros Hs; apply Forall_map; cbn; induction acc as [|p acc IH]; [constructor|].
  cbn in Hs; apply StronglySorted_inv in Hs as [Hs Hp]; apply Forall_cons_2; [|by apply IH].
  apply Forall_app in Hp as [_ Hp]; by apply Forall_cons in Hp as [Hp _].
Qed.

(** The members of an object but for the white space in front of the first one. *)
Definition members (d : nat) (k : text) (x : JSON) (xs : list (text * JSON)) : text :=
  render_pair L k (render L (S d) x) ++
  flat_map (fun p => ","%char :: before_key L d ++ render_pair L p.1 (render L (S d) p.2)) xs.

Lemma join_members d k x xs :
  join [","%char] (map (fun p => render_member L d p.1 (render L (S d) p.2)) ((k, x) :: xs)) =
  before_key L d ++ members d k x xs.
Proof.
  revert k x; induction xs as [|[k2 y] xs IH]; intros k x.
  - unfold members; cbn; by rewrite app_nil_r.
  - specialize (IH k2 y); rewrite map_cons, map_cons in *; rewrite join_cons, IH.
    unfold members; cbn [flat_map fst snd]; unfold render_member at 1; rewrite <- !app_assoc; cbn [app]; by rewrite <- ?app_assoc.
Qed.

Lemma object_loop_reads xs d : forall k x acc str o ws ws' post fuel,
  Forall (fun p => reads p.2 /\ printable p.2) ((k, x) :: xs) ->
  Forall (fun p => plain_key p.1) ((k, x) :: xs) ->
  StronglySorted key_lt (acc ++ (k, x) :: xs) ->
  Forall is_space ws -> Forall is_space ws' ->
  (list_sum (map (fun p => S (need p.2)) ((k, x) :: xs)) <= fuel)%nat ->
  sees str o (ws ++ members d k x xs ++ ws' ++ "}"%char :: post) ->
  object_loop pow10 fuel str o (JObject (map (fun p => (p.1, reread p.2)) acc)) =
  Done (JObject (map (fun p => (p.1, reread p.2)) (acc ++ (k, x) :: xs)),
        o + zlen ws + zlen (members d k x xs) + zlen ws' + 1).
Proof.
  induction xs as [|[k2 y] xs IH]; intros k x acc str o ws ws' post [|fuel] Hreads Hkeys Hsort Hws Hws' Hfuel Hs;
    cbn in Hfuel; try lia;
    apply Forall_cons in Hreads as [[Hx Hpx] Hxs]; apply Forall_cons in Hkeys as [Hk Hkeys];
    cbn [fst snd] in *; unfold members in *; cbn [flat_map] in *.
  - rewrite app_nil_r in *.
    destruct (object_loop_member fuel str o (JObject (map (fun p => (p.1, reread p.2)) acc)) k x ws ws'
      "}"%char post d) as [-> _]; try done; [lia|].
    rewrite ceq_refl, set_key_last by (by eapply sorted_before); by rewrite map_app.
  - cbn [fst snd] in *; rewrite <- !app_assoc in Hs.
    destruct (object_loop_member fuel str o (JObject (map (fun p => (p.1, reread p.2)) acc)) k x ws []
      ","%char (before_key L d ++ members d k2 y xs ++ ws' ++ "}"%char :: post) d)
      as [-> Hs']; try done; [lia|unfold members; cbn [app] in *; rewrite <- ?app_assoc in *; exact Hs|].
    rewrite ceq_refl, set_key_last by (by eapply sorted_before).
    replace (map (fun p => (p.1, reread p.2)) acc ++ [(k, reread x)])
      with (map (fun p => (p.1, reread p.2)) (acc ++ [(k, x)])) by (by rewrite map_app).
    rewrite (IH k2 y (acc ++ [(k, x)]) str _ (before_key L d) ws' post fuel);
      [|done|done|by rewrite <- app_assoc|apply before_key_ok, HL|done|cbn; lia|exact Hs'].
    rewrite <- app_assoc; do 2 f_equal; unfold members; repeat rewrite ?zlen_app, ?zlen_cons, ?zlen_nil; lia.
Qed.

(** ** Every value *)

Lemma reads_null : reads JNull.
Proof.
  intros d str o ws post [|fuel] Hws _ Hf Hs; cbn in Hf; [lia|]; cbn [render reread] in *.
  destruct (at_value str o ws "n"%char (text_of "ull" ++ post) Hws eq_refl Hs) as (H1 & H2 & H3).
  cbn [parse_next]; rewrite H1, bind_Done, H2, bind_Done.
  change (parse_null str (o + zlen ws) = Done (JNull, o + zlen ws + 4)).
  exact (parse_null_sees str post _ H3).
Qed.

Lemma reads_bool b : reads (JBoolean b).
Proof.
  intros d str o ws post [|fuel] Hws _ Hf Hs; cbn in Hf; [lia|]; cbn [render reread] in *.
  assert (Hs' := Hs); apply sees_app in Hs'; apply parse_bool_sees in Hs'.
  assert (H : consume_ws str o = Done (o + zlen ws) /\
    char_at str (o + zlen ws) = Done (if b then "t"%char else "f"%char)).
  { destruct b; [destruct (at_value str o ws "t"%char (text_of "rue" ++ post) Hws eq_refl Hs) as (? & ? & _)
                |destruct (at_value str o ws "f"%char (text_of "alse" ++ post) Hws eq_refl Hs) as (? & ? & _)]; done. }
  destruct H as [H1 H2]; cbn [parse_next]; rewrite H1, bind_Done, H2, bind_Done.
  by destruct b; rewrite Hs'.
Qed.

Lemma reads_array l : zlen l < 4294967296 -> Forall printable l -> Forall reads l -> reads (JArray l).
Proof.
  intros Hlen Hpr Hl d str o ws post [|fuel] Hws _ Hf Hs; cbn [need] in Hf; [lia|].
  cbn [render] in Hs |- *; rewrite <- !app_assoc in Hs.
  destruct (at_value str o ws "["%char _ Hws eq_refl Hs) as (H1 & H2 & H3); apply sees_cons in H3.
  cbn [parse_next]; rewrite H1, bind_Done, H2, bind_Done.
  rewrite ceq_refl; unfold open_list.
  destruct l as [|x l].
  - cbn [map join app reread] in *.
    rewrite (consume_ws_sees str [] ("]"%char :: post)), bind_Done, zlen_nil, Z.add_0_r by done.
    rewrite (sees_char _ _ _ _ H3), bind_Done, ceq_refl; do 2 f_equal; rewrite !zlen_cons, zlen_nil; lia.
  - set (J := join (","%char :: after_comma L) (map (render L (S d)) (x :: l))) in *.
    assert (HJ : exists c k, J ++ "]"%char :: post = c :: k /\ isspace c = false /\ ceq c "]"%char = false).
    { apply Forall_cons in Hpr as [Hx _]; unfold J; destruct l as [|y l]; [by apply render_value_first|].
      rewrite !map_cons, join_cons, <- app_assoc; by apply render_value_first. }
    destruct HJ as (c & k & HJ & Hsp & Hne).
    rewrite (consume_ws_sees str [] (J ++ "]"%char :: post)), bind_Done, zlen_nil, Z.add_0_r;
      [|done|by rewrite HJ|done].
    assert (H3' := H3); cbn [app] in H3'; rewrite HJ in H3'.
    rewrite (sees_char _ _ _ _ H3'), bind_Done, Hne.
    change (Make CArray) with (JArray []); rewrite <- (zlen_nil (A := JSON)).
    rewrite (array_loop_reads l (S d) x [] str (o + zlen ws + 1) [] post fuel Hl);
      [|done|done|lia|exact H3].
    do 2 f_equal; fold J; rewrite !zlen_app, !zlen_cons, !zlen_nil; lia.
Qed.

Lemma reads_object m : StronglySorted key_lt m -> Forall (fun p => plain_key p.1) m ->
  Forall (fun p => reads p.2 /\ printable p.2) m -> reads (JObject m).
Proof.
  intros Hsort Hkeys Hm d str o ws post [|fuel] Hws _ Hf Hs; cbn [need] in Hf; [lia|].
  cbn [render] in Hs |- *; rewrite <- !app_assoc in Hs.
  destruct (at_value str o ws "{"%char _ Hws eq_refl Hs) as (H1 & H2 & H3); apply sees_cons in H3.
  cbn [parse_next]; rewrite H1, bind_Done, H2, bind_Done.
  change (ceq "{"%char "["%char) with false; rewrite ceq_refl; unfold open_list.
  pose proof (before_close_ok L HL d) as Hclose.
  destruct m as [|[k x] m].
  - cbn [map join app reread] in *.
    rewrite (consume_ws_sees str (before_close L d) ("}"%char :: post) _ Hclose eq_refl H3), bind_Done.
    apply sees_app in H3; rewrite (sees_char _ _ _ _ H3), bind_Done, ceq_refl; do 2 f_equal.
    rewrite !zlen_cons, !zlen_app, !zlen_cons, !zlen_nil; lia.
  - rewrite join_members in *; set (J := members d k x m) in *.
    assert (HJ : exists l, J = QUOTE :: l) by (unfold J, members, render_pair; rewrite <- !app_assoc; by eexists).
    destruct HJ as [l HJ]; rewrite <- !app_assoc in H3; assert (H3' := H3); rewrite HJ in H3'.
    rewrite (consume_ws_sees str (before_key L d) (QUOTE :: l ++ before_close L d ++ "}"%char :: post));
      [|apply before_key_ok, HL|done|exact H3'].
    rewrite bind_Done; apply sees_app in H3, H3'; rewrite (sees_char _ _ _ _ H3'), bind_Done.
    change (ceq QUOTE "}"%char) with false; cbv iota.
    change (Make CObject) with (JObject (map (fun p => (p.1, reread p.2)) [])).
    rewrite (object_loop_reads m d k x [] str _ [] (before_close L d) post fuel Hm Hkeys Hsort);
      [|done|done|lia|exact H3].
    cbn [app reread]; do 2 f_equal; fold J; rewrite zlen_cons, !zlen_app, zlen_cons, !zlen_nil; lia.
Qed.

Lemma printable_reads j : printable j -> reads j.
Proof.
  induction j as [|m IH|l IH|s|f|n|n|b] using JSON_nested_ind; intros Hj; inversion Hj; subst.
  - apply reads_null.
  - apply reads_object; try done; rewrite Forall_forall in *; intros p Hp; split; auto.
  - apply reads_array; try done; rewrite Forall_forall in *; auto.
  - intros d str o ws post [|fuel] Hws Hpost Hf Hs; cbn [need] in Hf; [lia|].
    cbn [render reread] in *; rewrite <- !app_assoc in Hs.
    rewrite (parse_next_string fuel str o ws s post) by done; do 2 f_equal.
    rewrite !zlen_app, !zlen_cons, !zlen_nil; lia.
  - intros d str o ws post [|fuel] Hws Hpost Hf Hs; cbn [need] in Hf; [lia|].
    exact (parse_next_number fuel str o ws n post Hws ltac:(lia) (Hpost eq_refl) Hs).
  - intros d str o ws post [|fuel] Hws Hpost Hf Hs; cbn [need] in Hf; [lia|].
    exact (parse_next_number fuel str o ws n post Hws ltac:(lia) (Hpost eq_refl) Hs).
  - apply reads_bool.
Qed.

End roundtrip.

(** * Loading what was printed *)

Lemma join_length sep l : (1 <= length sep)%nat ->
  (list_sum (map (fun x => S (length x)) l) <= S (length (join sep l)))%nat.
Proof.
  intros Hs; induction l as [|x [|y l] IH]; [cbn; lia|cbn; lia|].
  rewrite join_cons, !length_app, map_cons.
  change (S (length x) + list_sum (map (fun x => S (length x)) (y :: l)) <=
    S (length x + (length sep + length (join sep (y :: l)))))%nat; lia.
Qed.

Lemma list_sum_mono {A} (f g : A -> nat) l : Forall (fun x => (f x <= g x)%nat) l ->
  (list_sum (map f l) <= list_sum (map g l))%nat.
Proof.
  induction 1 as [|x l Hx _ IH]; [done|].
  change (f x + list_sum (map f l) <= g x + list_sum (map g l))%nat; lia.
Qed.

Lemma need_length L j : printable j -> forall d, (need j <= length (render L d j))%nat.
Proof.
  induction j as [|m IH|l IH|s|f|n|n|b] using JSON_nested_ind; intros Hj d; inversion Hj; subst;
    cbn [need render]; try (destruct (number_first n) as (c & k & -> & _); cbn; lia).
  - cbn; lia.
  - set (R := fun p : text * JSON => render_member L d p.1 (render L (S d) p.2)).
    pose proof (join_length [","%char] (map R m) ltac:(cbn; lia)) as Hl; rewrite map_map in Hl.
    assert (Hle : (list_sum (map (fun p : text * JSON => S (need p.2)) m) <=
      list_sum (map (fun p => S (length (R p))) m))%nat).
    { apply list_sum_mono; rewrite Forall_forall in *; intros p Hp; unfold R, render_member, render_pair.
      rewrite !length_app; specialize (IH p Hp ltac:(auto) (S d)); lia. }
    rewrite !length_app; cbn [length]; lia.
  - pose proof (join_length (","%char :: after_comma L) (map (render L (S d)) l) ltac:(cbn; lia)) as Hl.
    rewrite map_map in Hl.
    assert (Hle : (list_sum (map (fun x => S (need x)) l) <=
      list_sum (map (fun x => S (length (render L (S d) x))) l))%nat).
    { apply list_sum_mono; rewrite Forall_forall in *; intros x Hx.
      specialize (IH x Hx ltac:(auto) (S d)); lia. }
    rewrite !length_app; cbn [length]; lia.
  - cbn; lia.
  - destruct b; cbn; lia.
Qed.

Lemma Load_render pow10 L d j : layout_ok L -> printable j -> is_number j = false ->
  Load pow10 (render L d j) = Done (reread j).
Proof.
  intros HL Hj Hn; unfold Load, parse_fuel; pose proof (need_length L j Hj d).
  rewrite (printable_reads pow10 L HL j Hj d (render L d j) 0 [] []); [done|done| |lia|].
  - intros Hn'; congruence.
  - rewrite app_nil_r; apply sees_0.
Qed.

(** C18. What [dump] prints, [Load] reads back, at any depth and with any tabulator of white space:
    the same value, but for unsigned numbers, which come back signed. This is for the values
    that are printed faithfully ([printable]), which have no floating point number (six decimals
    are printed), integers that a [long] holds, no NUL in a string, keys in order that need no
    escape ([dump] writes keys as they are, and the parser escapes them), and arrays of less than
    2^32 elements, and not for a number on its own, which the parser loses. *)
Theorem Load_dump pow10 depth tab j (Hj : printable j) (Hn : is_number j = false)
    (Htab : Forall is_space tab) :
  Load pow10 (dump depth tab j) = Done (reread j).
Proof. rewrite dump_render; by apply Load_render; [apply dump_layout_ok|..]. Qed.

(** Keys are not escaped: a key with a tabulator comes back with a backslash and a letter in its
    place, and a key with a quotation mark ends there, and what follows it is lost. *)
Lemma key_with_tab pow10 : Load pow10 (dump 1 (text_of "  ") (JObject [([TAB], JBoolean true)])) =
  Done (JObject [([BACKSLASH; "t"%char], JBoolean true)]).
Proof. reflexivity. Qed.

Lemma key_with_quote pow10 : Load pow10 (dump 1 (text_of "  ") (JObject [([QUOTE], JBoolean true)])) = Done (JObject []).
Proof. reflexivity. Qed.

(** Dropping the white space of what [dump] prints gives the compact layout. In strings, blanks
    and vertical tabs are lost with it; other white space is escaped, and stays. *)
Definition strip (l : text) : text := filter (fun c => isspace c = false) l.

Definition no_spaces (l : text) : Prop := Forall (fun c => isspace c = false) l.

Definition is_blank (c : ascii) : bool := ceq c " "%char || ceq c (chr 11).

Definition unblank (l : text) : text := filter (fun c => is_blank c = false) l.

Fixpoint compacted (j : JSON) : JSON :=
  match j with
  | JObject m => JObject (map (fun p => (p.1, compacted p.2)) m)
  | JArray l => JArray (map compacted l)
  | JString s => JString (unblank s)
  | j => j
  end.

#[warnings="-register-all"]
Inductive compactable : JSON -> Prop :=
| cp_null : compactable JNull
| cp_object m : Forall (fun p => no_spaces p.1) m -> Forall (fun p => compactable p.2) m ->
    compactable (JObject m)
| cp_array l : Forall compactable l -> compactable (JArray l)
| cp_string s : compactable (JString s)
| cp_int n : compactable (JIntegral n)
| cp_uint n : compactable (JUIntegral n)
| cp_bool b : compactable (JBoolean b).

Lemma strip_app l k : strip (l ++ k) = strip l ++ strip k.
Proof. apply filter_app. Qed.

Lemma strip_none l : no_spaces l -> strip l = l.
Proof. intros H; induction H as [|c l Hc _ IH]; [done|]; unfold strip in *; by rewrite filter_cons_True, IH. Qed.

Lemma strip_all l : Forall is_space l -> strip l = [].
Proof.
  intros H; induction H as [|c l Hc _ IH]; [done|]; unfold strip, is_space in *.
  rewrite filter_cons_False, IH; [done|congruence].
Qed.

Lemma strip_join sep l : strip (join sep l) = join (strip sep) (map strip l).
Proof.
  induction l as [|x [|y l] IH]; [done|done|].
  rewrite join_cons, !strip_app, IH; done.
Qed.

Lemma strip_escape_char c : strip (escape_char c) = if is_blank c then [] else escape_char c.
Proof. destruct c as [[] [] [] [] [] [] [] []]; by vm_compute. Qed.

Lemma strip_escape s : strip (json_escape s) = json_escape (unblank s).
Proof.
  unfold unblank; induction s as [|c s IH]; [done|]; cbn [json_escape flat_map]; rewrite strip_app.
  fold (json_escape s); rewrite strip_escape_char, IH; destruct (is_blank c) eqn:E.
  - by rewrite filter_cons_False by congruence.
  - by rewrite filter_cons_True by done.
Qed.

Lemma unblank_none s : no_spaces s -> unblank s = s.
Proof.
  intros Hs; unfold unblank; induction Hs as [|c s Hc _ IH]; [done|].
  assert (is_blank c = false) by (revert Hc; destruct c as [[] [] [] [] [] [] [] []]; vm_compute; done).
  by rewrite filter_cons_True, IH.
Qed.

Lemma number_no_spaces n : no_spaces (to_string_long n).
Proof.
  eapply Forall_impl; [apply to_string_chars|]; cbn.
  intros c; destruct c as [[] [] [] [] [] [] [] []]; vm_compute; done.
Qed.

Lemma strip_dump tab j : Forall is_space tab -> compactable j ->
  forall d, strip (dump d tab j) = render compact_layout d (compacted j).
Proof.
  intros Ht Hj d; rewrite dump_render; destruct (dump_layout_ok tab Ht) as [Hk Hc Hb Ha Hm].
  set (L := dump_layout tab) in *; clearbody L; revert d.
  induction j as [|m IH|l IH|s|f|n|n|b] using JSON_nested_ind; intros d; inversion Hj; subst;
    cbn [render compacted]; try (apply strip_none, number_no_spaces); try done.
  - rewrite !strip_app, strip_join, !map_map, (strip_all (before_close L d)) by done.
    do 3 f_equal; apply map_ext_Forall; rewrite Forall_forall in *; intros p Hp.
    unfold render_member, render_pair; rewrite !strip_app, IH by auto.
    rewrite (strip_all (before_key L d)), (strip_all (before_colon L)), (strip_all (after_colon L)) by done.
    by rewrite (strip_none p.1) by auto.
  - rewrite !strip_app, strip_join, !map_map; change (","%char :: after_comma L) with ([","%char] ++ after_comma L).
    rewrite strip_app, (strip_all (after_comma L)) by done.
    do 3 f_equal; apply map_ext_Forall; rewrite Forall_forall in *; intros x Hx; auto.
  - rewrite !strip_app, strip_escape; done.
  - by destruct b.
Qed.

(** * What goes wrong *)

Lemma parse_number_end pow10 str n o : sees str o (to_string_long n) ->
  parse_number pow10 str o = Done (JNull, o + zlen (to_string_long n) + 1).
Proof.
  assert (Hend : forall l fuel o val b, Forall (fun c => number_char c = true) l -> (length l < fuel)%nat ->
    sees str o l -> number_chars fuel str o val b = Done (NUL, o + zlen l + 1, val ++ l, b)).
  { induction l as [|d l IH]; intros [|fuel] o' val b Hl Hf Hs; cbn in Hf; try lia; cbn [number_chars].
    - by rewrite (sees_nil _ _ Hs), bind_Done, zlen_nil, Z.add_0_r, app_nil_r.
    - apply Forall_cons in Hl as [Hd Hl]; rewrite (sees_char _ _ _ _ Hs), bind_Done.
      unfold number_char in Hd; rewrite Hd, (IH fuel (o' + 1)), zlen_cons;
        [rewrite <- app_assoc; do 4 f_equal; lia|done|lia|by eapply sees_cons]. }
  intros Hs; unfold parse_number; rewrite (Hend (to_string_long n));
    [done|apply to_string_chars|apply sees_length in Hs; lia|done].
Qed.

(** A number on its own is not read back: the end of the text is not among the
    characters that may end a number, and the result is null. *)
Theorem Load_top_level_number pow10 depth tab n :
  Load pow10 (dump depth tab (JIntegral n)) = Done JNull.
Proof.
  unfold Load, parse_fuel; cbn [dump]; destruct (number_first n) as (c & l & El & Hc).
  assert (Hs : sees (to_string_long n) 0 ([] ++ c :: l)) by (rewrite El; apply sees_0).
  destruct (number_char_spec c Hc) as (Hsp & H1 & H2 & H3 & H4 & H5 & H6).
  destruct (at_value _ _ [] c l (Forall_nil_2 _) Hsp Hs) as (Hw & Hat & _).
  replace (2 * length (to_string_long n) + 4)%nat with (S (2 * length (to_string_long n) + 3)) by lia.
  cbn [parse_next]; rewrite Hw, bind_Done, Hat, bind_Done, H1, H2, H3, H4, H5, H6.
  by rewrite (parse_number_end pow10 _ n) by apply sees_0.
Qed.

Lemma parse_string_loop_end str k : forall fuel o val, Forall (fun c => c <> NUL) k ->
  (length k < fuel)%nat -> sees str o (json_escape k) ->
  parse_string_loop fuel str o val = Done (JString (val ++ k), o + zlen (json_escape k) + 1).
Proof.
  induction k as [|c k IH]; intros [|fuel] o val Hk Hf Hsee; cbn in Hf; try lia.
  - change (json_escape []) with (@nil ascii) in *; cbn [parse_string_loop].
    by rewrite (sees_nil _ _ Hsee), bind_Done, app_nil_r, zlen_nil, Z.add_0_r.
  - apply Forall_cons in Hk as [Hc Hk]; cbn [json_escape flat_map] in *.
    rewrite (parse_escaped _ _ _ _ _ _ Hc Hsee), (IH fuel _ (val ++ [c])), zlen_app;
      [rewrite <- app_assoc; do 2 f_equal; unfold json_escape; lia|done|lia|by apply sees_app].
Qed.

(** A string without its closing quote ends behind the end of the text. *)
Lemma parse_next_string_end pow10 fuel str o s : Forall (fun c => c <> NUL) s ->
  sees str o (QUOTE :: json_escape s) ->
  parse_next pow10 (S fuel) str o = Done (JString s, zlen str + 1).
Proof.
  intros Hs Hsee; destruct (at_value str o [] QUOTE _ (Forall_nil_2 _) eq_refl Hsee) as (H1 & H2 & _).
  rewrite zlen_nil, Z.add_0_r in *; cbn [parse_next]; rewrite H1, bind_Done, H2, bind_Done.
  change (parse_string str o = Done (JString s, zlen str + 1)); unfold parse_string.
  assert (Hlen := Hsee); apply sees_length in Hlen; cbn in Hlen; pose proof (escape_length s).
  rewrite (parse_string_loop_end str s (S (length str)) (o + 1) []); [|done|lia|by eapply sees_cons].
  destruct Hsee as (pre & -> & ->); rewrite zlen_app, zlen_cons; do 2 f_equal; lia.
Qed.

Lemma consume_ws_behind str : consume_ws str (zlen str + 1) = Stop Ub.
Proof.
  unfold consume_ws; cbn [consume_ws_loop]; unfold char_at; rewrite (proj2 (Z.eqb_neq _ _)) by lia.
  by rewrite (proj2 (rd_ub str (zlen str + 1))) by lia.
Qed.

(** A text that is cut off inside a string of an array is read past its end. *)
Theorem Load_cut_off pow10 s (Hs : Forall (fun c => c <> NUL) s) :
  Load pow10 ("["%char :: QUOTE :: json_escape s) = Stop Ub.
Proof.
  set (str := "["%char :: QUOTE :: json_escape s); unfold Load, parse_fuel.
  assert (H0 : sees str 0 str) by apply sees_0.
  assert (H1 : sees str 1 (QUOTE :: json_escape s)) by (by apply sees_cons in H0).
  replace (2 * length str + 4)%nat with (S (S (S (2 * length str + 1)))) by lia.
  destruct (at_value str 0 [] "["%char _ (Forall_nil_2 _) eq_refl H0) as (Ha & Hb & _).
  destruct (at_value str 1 [] QUOTE _ (Forall_nil_2 _) eq_refl H1) as (Hc & Hd & _).
  change (0 + zlen (@nil ascii)) with 0 in *; change (1 + zlen (@nil ascii)) with 1 in *.
  set (n := (2 * length str + 1)%nat); remember (S (S n)) as f eqn:Ef; cbn [parse_next].
  rewrite Ha, bind_Done, Hb, bind_Done, ceq_refl; unfold open_list.
  change (0 + 1) with 1; rewrite Hc, bind_Done, Hd, bind_Done.
  change (ceq QUOTE "]"%char) with false; cbv iota; subst f; remember (S n) as f eqn:Ef; cbn [array_loop].
  subst f; rewrite (parse_next_string_end pow10 n str 1 s Hs H1), bind_Done.
  cbv zeta; by rewrite consume_ws_behind.
Qed.

(** A number whose exponent has one digit is not read but throws: the parser skips the
    first character of the exponent. *)
Theorem exponent_digit_lost pow10 str o n d c post (Hd : is_digit d = true) (Hc : ends_number c = true)
    (Hs : sees str o (to_string_long n ++ "e"%char :: d :: c :: post)) :
  parse_number pow10 str o = Stop (Throw InvalidArgument).
Proof.
  unfold parse_number.
  rewrite (number_chars_sees str _ "e"%char (d :: c :: post) _ o [] false (to_string_chars n) eq_refl eq_refl);
    [|apply sees_length in Hs; rewrite length_app in Hs; cbn in Hs; lia|exact Hs].
  rewrite bind_Done; change (ceq "e"%char "E"%char || ceq "e"%char "e"%char) with true; cbv iota.
  apply sees_app in Hs; apply sees_cons in Hs; rewrite (sees_char _ _ _ _ Hs), bind_Done.
  rewrite (is_digit_not_minus d Hd); apply sees_cons in Hs; cbn [exponent_chars].
  rewrite (sees_char _ _ _ _ Hs), bind_Done; destruct (ends_number_spec c Hc) as (Hn & _ & _).
  apply orb_false_elim in Hn as [_ ->]; by rewrite Hc.
Qed.
