(* ===== verification/JsonFuel.v ===== *)
(** The fuel of the JSON parser is enough for every text. *)

From Stdlib Require Import Ascii.
From Corelib Require Import SpecFloat.
From S2P Require Import Prelude Floats Json JsonParser.

(** Any stop but running out of fuel. *)
Definition fuel_left (e : stop) : Prop := e <> OutOfFuel.

Lemma char_at_wp str o : wp fuel_left (char_at str o) (fun c => o <= zlen str /\ (c <> NUL -> o < zlen str)).
Proof.
  unfold char_at; case_if; cbn; [split; [lia|done]|].
  destruct (rd str o) eqn:H; cbn; [apply rd_range_inv in H; lia|].
  apply rd_stop in H as ->; done.
Qed.

Lemma ceq_not_NUL c d : ceq c d = true -> d <> NUL -> c <> NUL.
Proof. intros ->%bool_decide_eq_true; done. Qed.

Lemma space_not_NUL c : isspace c = true -> c <> NUL.
Proof. by intros H ->. Qed.

Lemma digit_not_NUL c : is_digit c = true -> c <> NUL.
Proof. by intros H ->. Qed.

(** One step of the execution: a character is read, or a condition split. *)
Ltac fuel_step :=
  match goal with
  | |- wp _ (mbind _ _) _ => apply wp_bind
  | |- wp _ (char_at _ _) _ =>
      eapply wp_mono; [apply char_at_wp|]; let c := fresh "c" in intros c _ [? ?]
  | |- wp _ (Done _) _ => cbn [wp fst snd]
  | |- wp _ (if ?b then _ else _) _ => let E := fresh "E" in destruct b eqn:E
  end.

Lemma consume_ws_loop_wp str fuel : forall o, 1 <= Z.of_nat fuel -> zlen str + 1 <= o + Z.of_nat fuel ->
  wp fuel_left (consume_ws_loop fuel str o) (fun o' => o <= o' <= zlen str).
Proof.
  induction fuel as [|fuel IH]; intros o Hf Hb; [lia|]; cbn [consume_ws_loop]; repeat fuel_step; [|lia].
  assert (o < zlen str) by eauto using space_not_NUL.
  eapply wp_mono; [apply IH; lia|]; cbn; intros; lia.
Qed.

Lemma consume_ws_wp str o : 0 <= o -> wp fuel_left (consume_ws str o) (fun o' => o <= o' <= zlen str).
Proof. intros; apply consume_ws_loop_wp; unfold zlen; lia. Qed.

Lemma hex_digits_wp str n : forall o, wp fuel_left (hex_digits n str o) (fun _ => True).
Proof.
  induction n as [|n IH]; intros o; cbn [hex_digits]; repeat fuel_step; done.
Qed.

Lemma parse_string_loop_wp str fuel : forall o val, 1 <= Z.of_nat fuel -> zlen str + 1 <= o + Z.of_nat fuel ->
  wp fuel_left (parse_string_loop fuel str o val) (fun r => o <= r.2).
Proof.
  induction fuel as [|fuel IH]; intros o val Hf Hb; [lia|]; cbn [parse_string_loop].
  fuel_step; fuel_step; fuel_step; [fuel_step; lia|].
  assert (o < zlen str).
  { apply H0; intros ->; apply orb_false_elim in E as [_ E]; discriminate. }
  assert (Hrec : forall o' v, o < o' -> wp fuel_left (parse_string_loop fuel str o' v) (fun r => o <= r.2)).
  { intros o' v Ho; eapply wp_mono; [apply IH; lia|]; cbn; intros; lia. }
  fuel_step; [|apply Hrec; lia]; cbv zeta; fuel_step; fuel_step; fuel_step; [|apply Hrec; lia].
  fuel_step; eapply wp_mono; [apply hex_digits_wp|]; intros [hex|] _ _; [apply Hrec; lia|cbn; lia].
Qed.

Lemma number_chars_wp str fuel : forall o val b, 1 <= Z.of_nat fuel -> zlen str + 1 <= o + Z.of_nat fuel ->
  wp fuel_left (number_chars fuel str o val b) (fun '(_, o', _, _) => o + 1 <= o').
Proof.
  induction fuel as [|fuel IH]; intros o val b Hf Hb; [lia|]; cbn [number_chars].
  assert (Hrec : forall v b', o < zlen str ->
    wp fuel_left (number_chars fuel str (o + 1) v b') (fun '(_, o', _, _) => o + 1 <= o')).
  { intros v b' Ho; eapply wp_mono; [apply IH; lia|]; intros [[[? ?] ?] ?] _ ?; lia. }
  fuel_step; fuel_step; fuel_step; [|fuel_step; [|cbn; lia]]; apply Hrec, H0.
  - apply orb_prop in E as [E|E]; [by eapply ceq_not_NUL|by apply digit_not_NUL].
  - by eapply ceq_not_NUL.
Qed.

Lemma exponent_chars_wp str fuel : forall o e, 1 <= Z.of_nat fuel -> zlen str + 1 <= o + Z.of_nat fuel ->
  wp fuel_left (exponent_chars fuel str o e) (fun r => o + 1 <= r.2).
Proof.
  induction fuel as [|fuel IH]; intros o e Hf Hb; [lia|]; cbn [exponent_chars]; repeat fuel_step; try lia.
  assert (o < zlen str) by eauto using digit_not_NUL.
  eapply wp_mono; [apply IH; lia|]; cbn; intros; lia.
Qed.

Lemma stol_wp l : wp fuel_left (stol l) (fun _ => True).
Proof.
  unfold stol; destruct (sign_prefix l) as [n k], (digit_prefix k) as [[|c d] r]; cbn; [done|].
  by destruct (_ && _).
Qed.

Lemma stod_wp l : wp fuel_left (stod l) (fun _ => True).
Proof.
  unfold stod; destruct (sign_prefix l) as [n k], (digit_prefix k) as [w r].
  destruct (w ++ _); [done|]; destruct (decimal_to_double _ _ _) as [f e].
  destruct f; cbn; try done; [by destruct e|by case_if].
Qed.

Section parser.
Context (pow10 : Z -> spec_float) (str : text).

Lemma number_value_wp val b es e : wp fuel_left (number_value pow10 val b es e) (fun _ => True).
Proof.
  unfold number_value; fuel_step; fuel_step;
    (eapply wp_mono; [first [apply stod_wp|apply stol_wp]|]); done.
Qed.

Lemma parse_number_wp o : 0 <= o -> wp fuel_left (parse_number pow10 str o) (fun r => o <= r.2).
Proof.
  intros Ho; unfold parse_number; fuel_step.
  eapply wp_mono; [apply number_chars_wp; unfold zlen; lia|]; intros [[[c o1] val] b] _ Ho1.
  fuel_step.
  - fuel_step; fuel_step; cbv zeta.
    destruct (if ceq c0 "-"%char then _ else _) as [o2 es] eqn:E2.
    assert (Ho2 : o1 <= o2) by (destruct (ceq c0 _); injection E2 as <- <-; lia).
    fuel_step; eapply wp_mono; [apply exponent_chars_wp; unfold zlen; lia|]; intros [[r|] o3] _ Ho3;
      cbn [snd] in Ho3; [|cbn; lia].
    fuel_step; eapply wp_mono; [apply stol_wp|]; intros e _ _; fuel_step.
    eapply wp_mono; [apply number_value_wp|]; intros v _ _; cbn; lia.
  - fuel_step; [cbn; lia|]; fuel_step; eapply wp_mono; [apply number_value_wp|]; intros v _ _; cbn; lia.
Qed.

Lemma substr_wp o n : wp fuel_left (substr str o n) (fun _ => True).
Proof. unfold substr; by case_if. Qed.

Lemma word_wp o : wp fuel_left (parse_bool str o) (fun r => o <= r.2) /\
  wp fuel_left (parse_null str o) (fun r => o <= r.2).
Proof.
  split; [unfold parse_bool|unfold parse_null]; fuel_step;
    (eapply wp_mono; [apply substr_wp|]; intros t _ _); fuel_step; try (cbn; lia).
  fuel_step; eapply wp_mono; [apply substr_wp|]; intros t' _ _; fuel_step; cbn; lia.
Qed.

(** Enough fuel for a value, and for the rest of a list, from [o] on. *)
Definition enough (fuel : nat) (o : Z) : Prop :=
  0 <= o /\ 1 <= Z.of_nat fuel /\ 2 * (zlen str - o) + 3 <= Z.of_nat fuel.

Definition enough_loop (fuel : nat) (o : Z) : Prop :=
  0 <= o <= zlen str /\ 2 * (zlen str - o) + 4 <= Z.of_nat fuel.

Definition total_at (fuel : nat) : Prop :=
  (forall o, enough fuel o -> wp fuel_left (parse_next pow10 fuel str o) (fun r => o <= r.2)) /\
  (forall o a i, enough_loop fuel o -> wp fuel_left (array_loop pow10 fuel str o a i) (fun r => o <= r.2)) /\
  (forall o b, enough_loop fuel o -> wp fuel_left (object_loop pow10 fuel str o b) (fun r => o <= r.2)).

(** A value and the white space behind it, in front of a character. *)
Lemma value_then_char fuel o (Q : JSON * Z -> Prop) (k : JSON -> Z -> ascii -> outcome (JSON * Z)) :
  total_at fuel -> enough fuel o ->
  (forall v o' c, o <= o' <= zlen str -> (c <> NUL -> o' < zlen str) -> wp fuel_left (k v o' c) Q) ->
  wp fuel_left ('(v, o') ← parse_next pow10 fuel str o; o' ← consume_ws str o'; c ← char_at str o'; k v o' c) Q.
Proof.
  intros (Hn & _ & _) Ho Hk; fuel_step; eapply wp_mono; [by apply Hn|]; intros [v o1] _ Ho1; cbn in Ho1.
  destruct Ho as (? & _ & _); fuel_step; eapply wp_mono; [apply consume_ws_wp; lia|]; intros o2 _ Ho2; cbn in Ho2.
  fuel_step; fuel_step; apply Hk; [lia|done].
Qed.

Lemma total_S fuel : total_at fuel -> total_at (S fuel).
Proof.
  intros IH; assert (IH' := IH); destruct IH' as (Hn & Ha & Hb); split; [|split].
  - intros o (Ho & _ & Hf); cbn [parse_next].
    fuel_step; eapply wp_mono; [by apply consume_ws_wp|]; intros o1 _ Ho1; cbn in Ho1.
    fuel_step; fuel_step.
    assert (Hlist : c <> NUL -> forall (close : ascii) (m : JSON) (loop : Z -> outcome (JSON * Z)),
      (forall o2, o1 + 1 <= o2 -> enough_loop fuel o2 -> wp fuel_left (loop o2) (fun r => o2 <= r.2)) ->
      wp fuel_left (o2 ← open_list str o1; d ← char_at str o2;
        if ceq d close then Done (m, o2 + 1) else loop o2) (fun r => o <= r.2)).
    { intros Hc close m loop Hl; unfold open_list; fuel_step.
      eapply wp_mono; [apply consume_ws_wp; lia|]; intros o2 _ Ho2; cbn in Ho2; fuel_step; fuel_step; fuel_step; [cbn; lia|].
      eapply wp_mono; [apply Hl; [lia|unfold enough_loop; specialize (H0 Hc); lia]|]; cbn; intros; lia. }
    fuel_step; [apply Hlist; [by eapply ceq_not_NUL|]; intros; by apply Ha|].
    fuel_step; [apply Hlist; [by eapply ceq_not_NUL|]; intros; by apply Hb|].
    destruct (word_wp o1) as [Hbool Hnull].
    fuel_step; [eapply wp_mono; [apply parse_string_loop_wp; unfold zlen; lia|]; cbn; intros; lia|].
    fuel_step; [eapply wp_mono; [exact Hbool|]; cbn; intros; lia|].
    fuel_step; [eapply wp_mono; [exact Hnull|]; cbn; intros; lia|].
    fuel_step; [eapply wp_mono; [apply parse_number_wp; lia|]; cbn; intros; lia|cbn; lia].
  - intros o a i [Ho Hf]; cbn [array_loop]; apply value_then_char; [done|unfold enough; lia|].
    intros v o1 c Ho1 Hc; cbv zeta; fuel_step.
    + assert (o1 < zlen str) by (apply Hc; by eapply ceq_not_NUL).
      eapply wp_mono; [apply Ha; unfold enough_loop; lia|]; cbn; intros; lia.
    + fuel_step; cbn; lia.
  - intros o b [Ho Hf]; cbn [object_loop]; apply value_then_char; [done|unfold enough; lia|].
    intros v o1 c Ho1 Hc; fuel_step; [cbn; lia|].
    assert (o1 < zlen str) by (apply Hc; intros ->; discriminate).
    fuel_step; eapply wp_mono; [apply consume_ws_wp; lia|]; intros o2 _ Ho2; cbn in Ho2.
    apply value_then_char; [done|unfold enough; lia|].
    intros w o3 d Ho3 Hd; cbv zeta; fuel_step; [|fuel_step; cbn; lia].
    assert (o3 < zlen str) by (apply Hd; by eapply ceq_not_NUL).
    eapply wp_mono; [apply Hb; unfold enough_loop; lia|]; cbn; intros; lia.
Qed.

Lemma total_all fuel : total_at fuel.
Proof.
  induction fuel as [|fuel IH]; [|by apply total_S].
  split; [|split]; intros o; unfold enough, enough_loop; intros; lia.
Qed.

(** C37. The parser comes to an end on every text: it returns, throws, or reads outside the
    text, and the recursion and the loops never run longer than the text allows. *)
Theorem Load_terminates : Load pow10 str <> Stop OutOfFuel.
Proof.
  unfold Load, parse_fuel; destruct (total_all (2 * length str + 4)) as (Hn & _ & _).
  specialize (Hn 0); destruct (parse_next _ _ _ _) as [[v o]|e]; cbn in *; [done|].
  intros [= ->]; apply Hn; [unfold enough, zlen; lia|done].
Qed.

End parser.
