(* ===== verification/ProtectionExport.v ===== *)
(** Class [StreamProtectionConfigExport] of src/StreamProtectionConfigExport.cpp: the
    protection data as the JSON text the file drm0 shows, and the theorem that a reader gets
    the data back from it. *)

From Stdlib Require Import Ascii Sorting.Sorted.
From Corelib Require Import SpecFloat.
From S2P Require Import Prelude Floats Json JsonParser JsonProps JsonRoundtrip Protection.

(** [boost::algorithm::hex] on a string. *)
Class BoostHex := hex : text -> text.

(** Two hexadecimal digits, in upper case, for every character, the upper half first. *)
Definition hex_digit (n : Z) : ascii := if n <? 10 then chr (48 + n) else chr (55 + n).

Class BoostHexLaws `{BoostHex} : Prop :=
  hex_spec : forall s, hex s = flat_map (fun c => [hex_digit (code c / 16); hex_digit (code c mod 16)]) s.

Definition kCHANNEL : text := text_of "channel".
Definition kECM : text := text_of "ecm".
Definition kPAT : text := text_of "pat".
Definition kPMT : text := text_of "pmt".
Definition kCLEAR : text := text_of "clear".

Record StreamProtectionConfigExport := mkExport {
  mChannelInfo : text;
  mEcm : text;
  mPat : text;
  mPmt : text;
  mClear : bool;
}.

Section export.
Context `{BoostHex}.

(** Nothing in it throws. *)
Definition byteArrayAsHex (bArray : list Z) : text := hex (map chr bArray).

Definition StreamProtectionConfigExport_new (c : StreamProtectionConfig) : StreamProtectionConfigExport := {|
  mChannelInfo := text_of (channelInfo c);
  mEcm := byteArrayAsHex (ecm c);
  mPat := byteArrayAsHex (pat c);
  mPmt := byteArrayAsHex (pmt c);
  mClear := isClearStream c;
|}.

Definition export_object (e : StreamProtectionConfigExport) : JSON :=
  let obj := json_set_key JNull kCHANNEL (JString (mChannelInfo e)) in
  let obj := json_set_key obj kECM (JString (mEcm e)) in
  let obj := json_set_key obj kPAT (JString (mPat e)) in
  let obj := json_set_key obj kPMT (JString (mPmt e)) in
  json_set_key obj kCLEAR (JBoolean (mClear e)).

(** [dump] with its default arguments, and its white space removed. *)
Definition getJsonAsString (e : StreamProtectionConfigExport) : text :=
  filter (fun c => isspace c = false) (dump 1 (text_of "  ") (export_object e)).

Definition getJsonAsByteArray (e : StreamProtectionConfigExport) : list Z := map code (getJsonAsString e).

End export.

(** * Reading it back *)

(** The value of a hexadecimal digit, and the bytes of a string of them. *)
Definition hex_value (c : ascii) : Z := if is_digit c then code c - 48 else code c - 55.

Fixpoint unhex (l : text) : list Z :=
  match l with
  | a :: b :: l => 16 * hex_value a + hex_value b :: unhex l
  | _ => []
  end.

Lemma hex_digit_spec n : 0 <= n < 16 ->
  hex_value (hex_digit n) = n /\ isspace (hex_digit n) = false /\ hex_digit n <> NUL.
Proof.
  intros Hn; assert (In n (map Z.of_nat (seq 0 16))) as Hin
    by (apply in_map_iff; exists (Z.to_nat n); split; [lia|apply in_seq; lia]).
  cbn in Hin; repeat (destruct Hin as [<-|Hin]; [by vm_compute|]); done.
Qed.

Section roundtrip.
Context `{BoostHexLaws} (pow10 : Z -> spec_float).

Lemma byte_halves b : is_byte b -> 0 <= b / 16 < 16 /\ 0 <= b mod 16 < 16 /\ 16 * (b / 16) + b mod 16 = b.
Proof.
  intros Hb; unfold is_byte in Hb; pose proof (Z.div_mod b 16); pose proof (Z.mod_pos_bound b 16).
  split; [split; [apply Z.div_pos|apply Z.div_lt_upper_bound]; lia|lia].
Qed.

Lemma byteArrayAsHex_cons b l : is_byte b -> byteArrayAsHex (b :: l) =
  hex_digit (b / 16) :: hex_digit (b mod 16) :: byteArrayAsHex l.
Proof.
  intros Hb; unfold byteArrayAsHex; rewrite !hex_spec; cbn [map flat_map app].
  by rewrite code_chr by exact Hb.
Qed.

Lemma unhex_hex l : is_bytes l -> unhex (byteArrayAsHex l) = l.
Proof.
  induction 1 as [|b l Hb _ IH]; [unfold byteArrayAsHex; by rewrite hex_spec|].
  rewrite byteArrayAsHex_cons by done; cbn [unhex].
  destruct (byte_halves b Hb) as (H1 & H2 & H3).
  by rewrite (proj1 (hex_digit_spec _ H1)), (proj1 (hex_digit_spec _ H2)), IH, H3.
Qed.

Lemma hex_clean l : is_bytes l -> no_spaces (byteArrayAsHex l) /\ Forall (fun c => c <> NUL) (byteArrayAsHex l).
Proof.
  induction 1 as [|b l Hb _ [IH1 IH2]]; [unfold byteArrayAsHex; rewrite hex_spec; cbn; split; constructor|].
  rewrite byteArrayAsHex_cons by done; destruct (byte_halves b Hb) as (H1 & H2 & _).
  destruct (hex_digit_spec _ H1) as (_ & ? & ?), (hex_digit_spec _ H2) as (_ & ? & ?).
  split; repeat (apply Forall_cons_2; [done|]); done.
Qed.

Lemma export_object_members e : export_object e =
  JObject [(kCHANNEL, JString (mChannelInfo e)); (kCLEAR, JBoolean (mClear e)); (kECM, JString (mEcm e));
           (kPAT, JString (mPat e)); (kPMT, JString (mPmt e))].
Proof. reflexivity. Qed.

(** What the exported text decodes to. *)
Lemma export_decodes c (Hecm : is_bytes (ecm c)) (Hpat : is_bytes (pat c)) (Hpmt : is_bytes (pmt c))
    (Hnul : Forall (fun x => x <> NUL) (text_of (channelInfo c))) :
  exists obj, Load pow10 (getJsonAsString (StreamProtectionConfigExport_new c)) = Done obj /\
    (json_key obj kCHANNEL).1 = JString (unblank (text_of (channelInfo c))) /\
    ToBool (json_key obj kCLEAR).1 = (isClearStream c, true) /\
    (exists s, (json_key obj kECM).1 = JString s /\ unhex s = ecm c) /\
    (exists s, (json_key obj kPAT).1 = JString s /\ unhex s = pat c) /\
    (exists s, (json_key obj kPMT).1 = JString s /\ unhex s = pmt c).
Proof.
  destruct (hex_clean _ Hecm) as [E1 E2], (hex_clean _ Hpat) as [A1 A2], (hex_clean _ Hpmt) as [M1 M2].
  set (e := StreamProtectionConfigExport_new c); exists (reread (compacted (export_object e))).
  assert (Hc : compacted (export_object e) = JObject [(kCHANNEL, JString (unblank (text_of (channelInfo c))));
    (kCLEAR, JBoolean (isClearStream c)); (kECM, JString (mEcm e)); (kPAT, JString (mPat e)); (kPMT, JString (mPmt e))]).
  { rewrite export_object_members; cbn [compacted map fst snd]; unfold e; cbn [mEcm mPat mPmt StreamProtectionConfigExport_new].
    by rewrite (unblank_none _ E1), (unblank_none _ A1), (unblank_none _ M1). }
  split.
  - unfold getJsonAsString; fold (strip (dump 1 (text_of "  ") (export_object e))).
    rewrite strip_dump, Load_render; [done|apply compact_layout_ok|rewrite Hc|by rewrite Hc|by vm_compute; repeat constructor|].
    + apply pr_object.
      * repeat constructor.
      * repeat (apply Forall_cons_2; [split; [reflexivity|by repeat (apply Forall_cons_2; [discriminate|])]|]).
        apply Forall_nil_2.
      * apply Forall_cons_2; [constructor; unfold unblank|repeat (apply Forall_cons_2; [by constructor|]); apply Forall_nil_2].
        rewrite Forall_forall in *; intros x [_ Hx]%list_elem_of_filter; by apply Hnul.
    + rewrite export_object_members; apply cp_object.
      * repeat (apply Forall_cons_2; [by repeat (apply Forall_cons_2; [reflexivity|])|]); apply Forall_nil_2.
      * repeat (apply Forall_cons_2; [by constructor|]); apply Forall_nil_2.
  - rewrite Hc; split; [done|]; split; [done|].
    repeat split; eexists; (split; [reflexivity|by apply unhex_hex]).
Qed.

(** C17. A reader of the exported text gets back what the parser has published: the tables and
    the ECM, byte by byte from their hexadecimal digits, whether the stream is clear, and the
    channel without its blanks and vertical tabs, which are removed with the white space between
    the tokens. The channel must not have a NUL in it, where the reader would stop. *)
Theorem export_roundtrip c (Hecm : is_bytes (ecm c)) (Hpat : is_bytes (pat c)) (Hpmt : is_bytes (pmt c))
    (Hnul : Forall (fun x => x <> NUL) (text_of (channelInfo c))) :
  exists obj, Load pow10 (getJsonAsString (StreamProtectionConfigExport_new c)) = Done obj /\
    (json_key obj kCHANNEL).1 = JString (unblank (text_of (channelInfo c))) /\
    ToBool (json_key obj kCLEAR).1 = (isClearStream c, true) /\
    (exists s, (json_key obj kECM).1 = JString s /\ unhex s = ecm c) /\
    (exists s, (json_key obj kPAT).1 = JString s /\ unhex s = pat c) /\
    (exists s, (json_key obj kPMT).1 = JString s /\ unhex s = pmt c).
Proof. by apply export_decodes. Qed.

End roundtrip.

(** * Examples

    Sample JSON texts, and the theorems on the parser and the export at them. *)

Definition pow10_exact (e : Z) : spec_float :=
  if 0 <=? e then f64_of_Z (10 ^ e) else f64_div (f64_of_Z 1) (f64_of_Z (10 ^ (- e))).

#[export] Instance boost_hex : BoostHex :=
  flat_map (fun c => [hex_digit (code c / 16); hex_digit (code c mod 16)]).

#[export] Instance boost_hex_laws : BoostHexLaws.
Proof. done. Qed.

Definition sample_value : JSON :=
  JObject [(text_of "a", JArray [JIntegral (-12); JUIntegral 7; JNull]);
           (text_of "b", JString (text_of "tab:" ++ [TAB; QUOTE; BACKSLASH]));
           (text_of "c", JObject [(text_of "d", JBoolean true)])].

Lemma Load_dump_witness :
  Load pow10_exact (dump 1 (text_of "  ") sample_value) = Done (reread sample_value).
Proof.
  apply Load_dump; [|reflexivity|by repeat (apply Forall_cons_2; [reflexivity|])].
  unfold sample_value; apply pr_object.
  - repeat constructor.
  - repeat (apply Forall_cons_2; [split; [reflexivity|by repeat (apply Forall_cons_2; [discriminate|])]|]).
    apply Forall_nil_2.
  - apply Forall_cons_2; [apply pr_array; [reflexivity|]; repeat (apply Forall_cons_2; [constructor; lia|]); apply Forall_nil_2|].
    apply Forall_cons_2; [apply pr_string; by repeat (apply Forall_cons_2; [discriminate|])|].
    apply Forall_cons_2; [|apply Forall_nil_2]; apply pr_object.
    + repeat constructor.
    + apply Forall_cons_2; [split; [reflexivity|by repeat (apply Forall_cons_2; [discriminate|])]|apply Forall_nil_2].
    + apply Forall_cons_2; [constructor|apply Forall_nil_2].
Defined.

Lemma Load_cut_off_witness : Load pow10_exact ("["%char :: QUOTE :: text_of "abc") = Stop Ub.
Proof.
  apply (Load_cut_off pow10_exact (text_of "abc")); by repeat (apply Forall_cons_2; [discriminate|]).
Defined.

Lemma exponent_digit_lost_witness :
  parse_number pow10_exact (text_of "[12e3]") 1 = Stop (Throw InvalidArgument).
Proof.
  apply (exponent_digit_lost pow10_exact _ 1 12 "3"%char "]"%char []); [reflexivity|reflexivity|].
  exists (text_of "["); split; reflexivity.
Defined.

Definition sample_protection : StreamProtectionConfig :=
  mkStreamProtectionConfig HIGH "239.100.0.1:5000" [128; 112; 0; 255] [71; 0] [71; 2; 176] false.

Lemma export_roundtrip_witness : exists obj,
  Load pow10_exact (getJsonAsString (StreamProtectionConfigExport_new sample_protection)) = Done obj /\
  (exists s, (json_key obj kECM).1 = JString s /\ unhex s = [128; 112; 0; 255]).
Proof.
  destruct (export_roundtrip pow10_exact sample_protection) as (obj & H & _ & _ & He & _);
    try (repeat (apply Forall_cons_2; [done|]); by apply Forall_nil_2).
  exists obj; split; [exact H|exact He].
Defined.
