(* ===== verification/MVar.v ===== *)
(** Class template [MVar] of include/utils/MonitoredVariable.h, with class
    [VariableMonitorDispatcher]: global variables by name, and the watchers that are called
    when one of them is assigned to. *)

From S2P Require Import Prelude Json.

(** A [std::weak_ptr] to a callback: the callback is known by a number, its owner may be gone,
    and it may be an empty function. *)
Record watcher := mkWatcher { w_id : Z; w_expired : bool; w_empty : bool }.

(** [called] are the calls of watchers, with the old value and the new one. *)
Record MVar (T : Type) := mkMVar {
  mValue : T;
  mId : text;
  mWatchers : list watcher;
  called : list (Z * T * T);
}.
Arguments mkMVar {T} _ _ _ _.
Arguments mValue {T} _.
Arguments mId {T} _.
Arguments mWatchers {T} _.
Arguments called {T} _.

#[export] Instance MVar_eta T : Eta (MVar T) := fun r => mkMVar (mValue r) (mId r) (mWatchers r) (called r).

Section mvar.
Context {T : Type} `{Inhabited T} `{EqDecision T}.
Implicit Types (v : MVar T) (x : T).

Definition MVar_new : MVar T := mkMVar inhabitant [] [] [].

Definition getValue v : T := mValue v.

(** The loop of the assignment; [it] is the index of the iterator. An expired watcher is
    skipped without advancing. [erase] invalidates the iterator the loop goes on with. *)
Fixpoint assign_loop (fuel : nat) (it : Z) x v : outcome (MVar T) :=
  match fuel with
  | O => Stop OutOfFuel
  | S fuel =>
    if it <? zlen (mWatchers v) then
      w ← rd (mWatchers v) it;
      if w_expired w then assign_loop fuel it x v
      else if w_empty w then Stop Ub
      else assign_loop fuel (it + 1) x (v <| called := called v ++ [(w_id w, mValue v, x)] |>)
    else Done v
  end.

Definition mvar_assign (fuel : nat) x v : outcome (MVar T) :=
  v ← assign_loop fuel 0 x v;
  Done (v <| mValue := x |>).

Definition cleanExpiredCallbacks v : MVar T := v <| mWatchers := filter (fun w => w_expired w = false) (mWatchers v) |>.

Definition registerWatcher (w : watcher) v : MVar T :=
  let v := cleanExpiredCallbacks v in
  v <| mWatchers := mWatchers v ++ [w] |>.

Definition mvar_eq v x : bool := bool_decide (mValue v = x).

(** [operator!=] is written with itself. *)
Fixpoint mvar_neq (fuel : nat) v x : outcome bool :=
  match fuel with O => Stop OutOfFuel | S fuel => mvar_neq fuel v x end.

(** An assignment through the reference that [operator*] returns: no lock, no watcher. *)
Definition deref_assign x v : MVar T := v <| mValue := x |>.

(** The timed [waitForValue]: [tests] are the values the variable has when the predicate is
    tested, at first and after each wake-up, and [last] the one when the time is over. *)
Fixpoint wait_for (tests : list T) (last : T) x : bool :=
  match tests with
  | [] => bool_decide (last = x)
  | y :: tests => if bool_decide (y = x) then true else wait_for tests last x
  end.

(** * The variables *)

(** [VariableMonitorDispatcher::mConfigMap], of the variables of one type. *)
Local Abbreviation dispatcher := (gmap text (MVar T)).

Definition dispatcher_find (id : text) (d : dispatcher) : option (MVar T) := d !! id.

Definition registerVariable (id : text) (value : MVar T) (d : dispatcher) : Z * dispatcher :=
  match d !! id with Some _ => (-1, d) | None => (0, <[id := value]> d) end.

(** The variable is made when it is not there; the [throw] without an exception ends the
    program. *)
Definition getVariable (id : text) (d : dispatcher) : outcome (MVar T * dispatcher) :=
  match dispatcher_find id d with
  | None =>
    let var := MVar_new <| mId := id |> in
    let '(r, d) := registerVariable id var d in
    if r =? 0 then Done (var, d) else Stop Abort
  | Some val => Done (val, d)
  end.

Definition watch (id : text) (w : watcher) (d : dispatcher) : outcome dispatcher :=
  '(var, d) ← getVariable id d;
  Done (<[id := registerWatcher w var]> d).

(** The registration part of [getWatcher]; [ids] are the keys of the map it is given. *)
Fixpoint watch_all (ids : list text) (w : watcher) (d : dispatcher) : outcome dispatcher :=
  match ids with
  | [] => Done d
  | id :: ids => d ← watch id w d; watch_all ids w d
  end.

(** An assignment to a variable by its name. *)
Definition set_variable (fuel : nat) (id : text) x (d : dispatcher) : outcome dispatcher :=
  '(var, d) ← getVariable id d;
  var ← mvar_assign fuel x var;
  Done (<[id := var]> d).

(** * Properties *)

Definition callable (w : watcher) : Prop := w_expired w = false /\ w_empty w = false.

Lemma assign_loop_spec x ws : forall fuel before v, mWatchers v = before ++ ws -> Forall callable ws ->
  (length ws < fuel)%nat ->
  assign_loop fuel (zlen before) x v = Done (v <| called := called v ++ ((fun w => (w_id w, mValue v, x)) <$> ws) |>).
Proof.
  induction ws as [|w ws IH]; intros fuel before v Hv Hc Hf; destruct fuel as [|fuel]; cbn in Hf; try lia; cbn [assign_loop].
  - rewrite Hv, app_nil_r, Z.ltb_irrefl; destruct v; cbn; by rewrite app_nil_r.
  - apply Forall_cons in Hc as [[He Hm] Hc]; rewrite Hv, zlen_app, zlen_cons.
    pose proof (zlen_nonneg ws); rewrite (proj2 (Z.ltb_lt _ _)) by lia.
    rewrite rd_app_r, Z.sub_diag by lia; change (rd (w :: ws) 0) with (Done w); rewrite bind_Done, He, Hm.
    replace (zlen before + 1) with (zlen (before ++ [w])) by (rewrite zlen_app; done).
    rewrite IH; [|cbn; by rewrite <- app_assoc|done|lia].
    f_equal; destruct v; cbn; by rewrite <- app_assoc.
Qed.

(** An assignment to a variable whose watchers are all there returns, has called each of them
    once, in the order of their registration, with the old value and the new one, and leaves
    the new value. *)
Lemma mvar_assign_notifies v x fuel : Forall callable (mWatchers v) -> (length (mWatchers v) < fuel)%nat ->
  mvar_assign fuel x v =
  Done (v <| called := called v ++ ((fun w => (w_id w, mValue v, x)) <$> mWatchers v) |> <| mValue := x |>).
Proof.
  intros Hc Hf; unfold mvar_assign; change 0 with (zlen (@nil watcher)).
  by rewrite (assign_loop_spec x (mWatchers v) fuel [] v).
Qed.

Lemma assign_loop_stuck x w fuel : forall it v, rd (mWatchers v) it = Done w -> w_expired w = true ->
  assign_loop fuel it x v = Stop OutOfFuel.
Proof.
  induction fuel as [|fuel IH]; intros it v Hr He; [done|]; cbn [assign_loop].
  rewrite (proj2 (Z.ltb_lt _ _)) by (by eapply rd_range_inv).
  rewrite Hr, bind_Done, He; by apply IH.
Qed.

Lemma assign_loop_reach x ws w rest fuel : forall before v, mWatchers v = before ++ ws ++ w :: rest ->
  Forall callable ws -> w_expired w = true -> assign_loop fuel (zlen before) x v = Stop OutOfFuel.
Proof.
  revert ws; induction fuel as [|fuel IH]; intros ws before v Hv Hc He; [done|].
  destruct ws as [|u ws].
  - eapply (assign_loop_stuck x w (S fuel)); [|done]; rewrite Hv, rd_app_r, Z.sub_diag by lia; done.
  - apply Forall_cons in Hc as [[Hu Hm] Hc]; cbn [assign_loop].
    rewrite Hv, zlen_app, zlen_app, zlen_cons, zlen_cons.
    pose proof (zlen_nonneg ws); pose proof (zlen_nonneg rest); rewrite (proj2 (Z.ltb_lt _ _)) by lia.
    rewrite rd_app_r, Z.sub_diag by lia; cbn [app]; change (rd (u :: ?l) 0) with (Done u); rewrite bind_Done, Hu, Hm.
    replace (zlen before + 1) with (zlen (before ++ [u])) by (rewrite zlen_app; done).
    eapply (IH ws); [|done|done]; cbn; by rewrite Hv, <- app_assoc.
Qed.

(** An assignment never returns once the owner of a watcher is gone: the loop goes on with the
    same iterator for ever, with the lock of all variables held. *)
Lemma mvar_assign_hangs v x ws w rest fuel : mWatchers v = ws ++ w :: rest -> Forall callable ws ->
  w_expired w = true -> mvar_assign fuel x v = Stop OutOfFuel.
Proof.
  intros Hv Hc He; unfold mvar_assign; change 0 with (zlen (@nil watcher)).
  by rewrite (assign_loop_reach x ws w rest fuel [] v).
Qed.

(** Variables live in one place per name: assigning to a variable is seen by every later
    reader of that name and by no other, and it calls exactly the watchers that were
    registered for the name and whose owners are there, with the old value and the new one;
    but with a watcher whose owner is gone registered before them, no amount of turns of the
    loop is enough. *)
Theorem set_variable_correct (id : text) (x : T) (d : dispatcher) (v : MVar T) (fuel : nat) :
  dispatcher_find id d = Some v -> (length (mWatchers v) < fuel)%nat ->
  (Forall callable (mWatchers v) ->
   exists v' d', set_variable fuel id x d = Done d' /\ dispatcher_find id d' = Some v' /\ getValue v' = x /\
     called v' = called v ++ ((fun w => (w_id w, getValue v, x)) <$> mWatchers v) /\
     forall id', id' <> id -> dispatcher_find id' d' = dispatcher_find id' d) /\
  (forall ws w rest, mWatchers v = ws ++ w :: rest -> Forall callable ws -> w_expired w = true ->
   set_variable fuel id x d = Stop OutOfFuel).
Proof.
  intros Hd Hf; unfold set_variable, getVariable; rewrite Hd, bind_Done; cbv beta iota; split.
  - intros Hc; rewrite mvar_assign_notifies, bind_Done by done.
    do 2 eexists; split; [reflexivity|]; unfold dispatcher_find; rewrite lookup_insert_eq; split_and!; try done.
    intros id' Hne; by rewrite lookup_insert_ne.
  - intros ws w rest Hv Hc He; by erewrite mvar_assign_hangs.
Qed.

(** Registering cleans up: after it an assignment returns. *)
Lemma registerWatcher_callable w v : callable w -> Forall (fun u => w_empty u = false) (mWatchers v) ->
  Forall callable (mWatchers (registerWatcher w v)).
Proof.
  intros Hw Hv; apply Forall_app_2; [|by constructor]; cbn.
  rewrite Forall_forall in Hv |- *; intros u [He Hu]%list_elem_of_filter; split; [done|by apply Hv].
Qed.

(** * Waiting *)

(** A thread in [waitForValue]: about to test the predicate, between a test that failed and
    the sleep, asleep, or back. *)
Inductive wait_pc := Testing | Deciding | Asleep | Returned.

(** [Deciding] holds [mCvMutex] only, which an assignment does not take. *)
Inductive wait_step (x : T) : T * wait_pc -> T * wait_pc -> Prop :=
| wt_found y : y = x -> wait_step x (y, Testing) (y, Returned)
| wt_not_found y : y <> x -> wait_step x (y, Testing) (y, Deciding)
| wt_sleep y : wait_step x (y, Deciding) (y, Asleep)
| wt_assign y z pc : wait_step x (y, pc) (z, match pc with Asleep => Testing | _ => pc end).

(** An assignment of the value between the test and the sleep is not noticed: the waiter
    sleeps although the variable has the value it waits for, and without another assignment
    nothing wakes it. *)
Lemma lost_wakeup x y : y <> x ->
  rtc (wait_step x) (y, Testing) (x, Asleep) /\
  forall s, wait_step x (x, Asleep) s -> exists z, s = (z, Testing).
Proof.
  intros Hy; split.
  - eapply rtc_l; [by apply wt_not_found|]; eapply rtc_l; [apply (wt_assign x y x Deciding)|].
    eapply rtc_l; [apply wt_sleep|apply rtc_refl].
  - intros s Hs; inversion Hs; subst; eauto.
Qed.

(** The timed wait returns true exactly when a test, the last one included, saw the value; what
    the variable held in between does not count. *)
Lemma wait_for_sees tests last x : wait_for tests last x = true <-> x ∈ tests \/ last = x.
Proof.
  induction tests as [|y tests IH]; cbn; [rewrite bool_decide_eq_true, elem_of_nil; tauto|].
  rewrite elem_of_cons; case_bool_decide; [naive_solver|]; rewrite IH; naive_solver.
Qed.

(** Comparing with [operator!=] never returns. *)
Lemma mvar_neq_hangs fuel v x : mvar_neq fuel v x = Stop OutOfFuel.
Proof. by induction fuel. Qed.

(** A change through the reference is seen by readers and by no watcher. *)
Lemma deref_unnoticed x v : getValue (deref_assign x v) = x /\ called (deref_assign x v) = called v.
Proof. done. Qed.

End mvar.

Definition flush_var : MVar text :=
  mkMVar (text_of "old") (text_of "streamfs.fcc.kFlush0") [mkWatcher 1 false false; mkWatcher 2 false false] [].

Lemma set_variable_correct_witness :
  exists v' d', set_variable 3 (mId flush_var) (text_of "new") {[mId flush_var := flush_var]} = Done d' /\
    dispatcher_find (mId flush_var) d' = Some v' /\ getValue v' = text_of "new".
Proof.
  destruct (set_variable_correct (mId flush_var) (text_of "new") {[mId flush_var := flush_var]} flush_var 3)
    as [H _]; [by vm_compute|cbn; lia|].
  destruct H as (v' & d' & E & Hf & Hv & _); [by repeat constructor|].
  exists v', d'; split; [exact E|split; [exact Hf|exact Hv]].
Defined.
