(* ===== verification/Rtp.v ===== *)
(** Class [RtpStreamListener] of 3rdparty/rtp/RtpStreamListener.cpp: the RTP header, the
    reordering of packets by their sequence numbers, and their delivery to the buffer queue
    of the media source handler. *)

From S2P Require Import Prelude.

(** [BUF_SIZE], which is FEIP_BUFFER_SIZE. *)
Definition BUF_SIZE : Z := 32 * 7 * 188.
Definition MAX_RTP_BUFFER_CACHE : Z := 5.
Definition MAX_SEQNUM_DIFF_FOR_DISCONTINUITY : Z := 10.
Definition MID_SEQUENCE_NUMBER : Z := 32768.

(** A packet whose turn has not come. *)
Record BufferInfo := mkBufferInfo { mSequenceNumber : Z; mBuffer : list Z }.

#[export] Instance BufferInfo_eq_dec : EqDecision BufferInfo.
Proof. solve_decision. Defined.

(** [queued] are the buffers pushed to the media source handler, the oldest first, each with
    the sequence number it was pushed for. *)
Record RtpStreamListener := mkRtp {
  mNextSequenceNumber : Z;
  mBufferCache : list BufferInfo;
  queued : list BufferInfo;
}.

#[export] Instance RtpStreamListener_eta : Eta RtpStreamListener := fun r =>
  mkRtp (mNextSequenceNumber r) (mBufferCache r) (queued r).

Definition RtpStreamListener_new : RtpStreamListener := mkRtp (-1) [] [].

Definition diffSequenceNumber (first second : Z) : Z :=
  if second <? first then
    if MID_SEQUENCE_NUMBER <? first - second then - (65536 + second - first) else first - second
  else
    if MID_SEQUENCE_NUMBER <? second - first then 65536 + second - first else - (second - first).

(** The handler is set when the socket is. *)
Definition pushBuffertoBQ (s : RtpStreamListener) (buf : list Z) (sequenceNumber : Z) : RtpStreamListener :=
  s <| queued := queued s ++ [mkBufferInfo sequenceNumber buf] |>
    <| mNextSequenceNumber := Z.land (sequenceNumber + 1) 65535 |>.

(** The [for] loop of [processCachedBuffers]: the cache that is left and whether a buffer was
    pushed. *)
Fixpoint push_matching (s : RtpStreamListener) (cache : list BufferInfo)
  : RtpStreamListener * list BufferInfo * bool :=
  match cache with
  | [] => (s, [], false)
  | it :: cache =>
    if mSequenceNumber it =? mNextSequenceNumber s then
      let '(s, rest, _) := push_matching (pushBuffertoBQ s (mBuffer it) (mSequenceNumber it)) cache in
      (s, rest, true)
    else
      let '(s, rest, pushed) := push_matching s cache in
      (s, it :: rest, pushed)
  end.

Fixpoint cached_loop (fuel : nat) (s : RtpStreamListener) : outcome RtpStreamListener :=
  match fuel with
  | O => Stop OutOfFuel
  | S fuel =>
    let '(s, cache, pushed) := push_matching s (mBufferCache s) in
    let s := s <| mBufferCache := cache |> in
    if (0 <? zlen cache) && pushed then cached_loop fuel s
    else if zlen cache =? MAX_RTP_BUFFER_CACHE then
      cached_loop fuel (s <| mNextSequenceNumber := Z.land (mNextSequenceNumber s + 1) 65535 |>)
    else Done s
  end.

(** A full cache skips sequence numbers until one of the packets in it is due, at most all
    65536 of them; after that every turn but the last one pushes a packet. *)
Definition cached_fuel : nat := Z.to_nat 65550.

Definition processCachedBuffers (s : RtpStreamListener) : outcome RtpStreamListener :=
  cached_loop cached_fuel s.

(** The packet goes before the first one in the cache that is later. *)
Fixpoint insert_cache (b : BufferInfo) (cache : list BufferInfo) : list BufferInfo :=
  match cache with
  | [] => [b]
  | it :: cache =>
    if 0 <? diffSequenceNumber (mSequenceNumber it) (mSequenceNumber b) then b :: it :: cache
    else it :: insert_cache b cache
  end.

(** The packet is pushed, or put into the cache; the flag says whether the cache is to be
    looked through afterwards. *)
Definition place_packet (s : RtpStreamListener) (payload : list Z) (sequenceNumber : Z)
  : outcome (RtpStreamListener * bool) :=
  let cachedBuffersPresent := 0 <? zlen (mBufferCache s) in
  if (sequenceNumber =? mNextSequenceNumber s) || (mNextSequenceNumber s =? -1) then
    Done (pushBuffertoBQ s payload sequenceNumber, cachedBuffersPresent)
  else
    let diff := diffSequenceNumber (mNextSequenceNumber s) sequenceNumber in
    if MAX_SEQNUM_DIFF_FOR_DISCONTINUITY <? Z.abs diff then
      let s := fold_left (fun s it => pushBuffertoBQ s (mBuffer it) (mSequenceNumber it))
                 (mBufferCache s) s in
      let s := s <| mBufferCache := [] |> in
      Done (pushBuffertoBQ s payload sequenceNumber, false)
    else if zlen (mBufferCache s) <? MAX_RTP_BUFFER_CACHE then
      Done (s <| mBufferCache := insert_cache (mkBufferInfo sequenceNumber payload) (mBufferCache s) |>,
            cachedBuffersPresent)
    else Stop Abort.

(** A packet's payload, once its header has been read. *)
Definition process_payload (s : RtpStreamListener) (payload : list Z) (sequenceNumber : Z)
  : outcome RtpStreamListener :=
  '(s, cachedBuffersPresent) ← place_packet s payload sequenceNumber;
  if (cachedBuffersPresent : bool) then processCachedBuffers s else Done s.

Section header.
(** Whether [char] is signed: it is on x86 and is not on ARM. *)
Context (char_signed : bool).

Definition char_value (b : Z) : Z := if char_signed then s8 b else b.

(** [buf[i]] as a [char]. *)
Definition rd_char (buf : list Z) (i : Z) : outcome Z := b ← rd buf i; Done (char_value b).

(** The sequence number, the offset of the payload and its size, of a packet in the first
    [len] bytes of [buf]; nothing for a packet that is refused. *)
Definition rtp_header (buf : list Z) (len : Z) : outcome (option (Z * Z * Z)) :=
  b0 ← rd_char buf 0;
  b2 ← rd_char buf 2;
  b3 ← rd_char buf 3;
  let padding := negb (Z.land b0 32 =? 0) in
  let extension := negb (Z.land b0 16 =? 0) in
  let csrcCount := Z.land b0 15 in
  let sequenceNumber := u16 (Z.lor (Z.shiftl b2 8) b3) in
  let offset := 12 + csrcCount * 4 in
  paddingLen ← (if padding then b ← rd_char buf (u64 (len - 1)); Done (u64 b) else Done 0);
  if extension && (u64 (len + 4) <? offset) then Done None
  else
    offset ← (if extension then
                x ← rd_char buf (offset + 2);
                y ← rd_char buf (offset + 3);
                let extensionLen := u64 (Z.shiftl x 8 + y) in
                Done (u64 (offset + u64 (4 * extensionLen + 4)))
              else Done offset);
    if len <? u64 (offset + paddingLen) then Done None
    else Done (Some (sequenceNumber, offset, u64 (len - offset - paddingLen))).

Definition processRtpPacket (s : RtpStreamListener) (buf : list Z) (len : Z) : outcome RtpStreamListener :=
  h ← rtp_header buf len;
  match h with
  | None => Done s
  | Some (sequenceNumber, offset, payLoadSize) =>
    payload ← slice buf offset payLoadSize;
    process_payload s payload sequenceNumber
  end.

(** One turn of [readLoop]: [n] is what [recvfrom] returns, -1 on an error, and [received]
    the bytes it has put into [buf]. *)
Definition read_turn (s : RtpStreamListener) (buf : list Z) (n : Z) (received : list Z)
  : outcome (RtpStreamListener * list Z) :=
  buf ← splice buf 0 received;
  s ← processRtpPacket s buf (u64 n);
  Done (s, buf).

End header.
