(* ===== verification/RtpProps.v ===== *)
(** Theorems on the RTP listener: it never aborts and its loops end, and packets that come
    out of order within the cache are delivered in order. *)

From S2P Require Import Prelude Rtp.

Lemma land_65535 n : 0 <= n -> Z.land n 65535 = n mod 65536.
Proof. intros; change 65535 with (Z.ones 16); by rewrite Z.land_ones by lia. Qed.

(** * Termination and the size of the cache *)

Definition seq_ok (n : Z) : Prop := 0 <= n < 65536.

Definition cache_ok (l : list BufferInfo) : Prop := Forall (fun b => seq_ok (mSequenceNumber b)) l.

Lemma push_next_ok s b n : seq_ok n -> seq_ok (mNextSequenceNumber (pushBuffertoBQ s b n)).
Proof.
  unfold seq_ok; intros; cbn; rewrite land_65535 by lia; apply Z.mod_pos_bound; lia.
Qed.

(** What one pass over the cache does. *)
Lemma push_matching_spec cache : forall s s' rest pushed,
  push_matching s cache = (s', rest, pushed) -> cache_ok cache -> seq_ok (mNextSequenceNumber s) ->
  seq_ok (mNextSequenceNumber s') /\ cache_ok rest /\
  (if pushed then (length rest < length cache)%nat
   else rest = cache /\ s' = s /\ Forall (fun b => mSequenceNumber b <> mNextSequenceNumber s) cache).
Proof.
  induction cache as [|it cache IH]; intros s s' rest pushed Hp Hc Hn; cbn in Hp.
  - injection Hp as <- <- <-; repeat split; constructor || apply Hn.
  - apply Forall_cons in Hc as [Hit Hc]; case_match eqn:E; b2p.
    + destruct (push_matching _ cache) as [[s1 r1] p1] eqn:Ep; injection Hp as <- <- <-.
      destruct (IH _ _ _ _ Ep Hc) as (H1 & H2 & H3); [by apply push_next_ok|].
      repeat split; try done; try apply H1; destruct p1; cbn; [lia|destruct H3 as (-> & _); lia].
    + destruct (push_matching s cache) as [[s1 r1] p1] eqn:Ep; injection Hp as <- <- <-.
      destruct (IH _ _ _ _ Ep Hc Hn) as (H1 & H2 & H3); repeat split; try apply H1;
        [by apply Forall_cons_2|]; destruct p1; cbn; [lia|].
      destruct H3 as (-> & -> & H3); repeat split; by apply Forall_cons_2.
Qed.

(** The state the loop may leave. *)
Definition loop_ok (s : RtpStreamListener) : Prop :=
  seq_ok (mNextSequenceNumber s) /\ cache_ok (mBufferCache s) /\ zlen (mBufferCache s) < 5.

Lemma cached_loop_small n : forall s fuel, seq_ok (mNextSequenceNumber s) -> cache_ok (mBufferCache s) ->
  (length (mBufferCache s) <= n)%nat -> (n < 5)%nat -> (n < fuel)%nat ->
  exists s', cached_loop fuel s = Done s' /\ loop_ok s'.
Proof.
  induction n as [|n IH]; intros s [|fuel] Hs Hc Hlen Hn Hf; try lia; cbn [cached_loop];
    destruct (push_matching s (mBufferCache s)) as [[s1 rest] pushed] eqn:Ep;
    destruct (push_matching_spec _ _ _ _ _ Ep Hc Hs) as (H1 & H2 & H3).
  - assert (Hr : rest = []) by (destruct pushed; [lia|destruct H3 as (-> & _); by apply nil_length_inv; lia]).
    subst rest; cbn; eexists; split; [done|]; repeat split; try apply H1; constructor || cbn; lia.
  - assert (Hl : (length rest <= S n)%nat) by (destruct pushed; [lia|destruct H3 as (-> & _); lia]).
    destruct ((0 <? zlen rest) && pushed) eqn:E.
    + apply andb_prop in E as [_ ->]; apply IH; cbn; try done; lia.
    + rewrite (proj2 (Z.eqb_neq _ _)) by (unfold zlen, MAX_RTP_BUFFER_CACHE; lia).
      eexists; split; [done|]; repeat split; cbn; try apply H1; try done; unfold zlen; lia.
Qed.

Lemma cached_loop_full (d : nat) : forall s it fuel, seq_ok (mNextSequenceNumber s) ->
  cache_ok (mBufferCache s) -> length (mBufferCache s) = 5%nat -> it ∈ mBufferCache s ->
  (mSequenceNumber it - mNextSequenceNumber s) mod 65536 = Z.of_nat d -> (d + 7 < fuel)%nat ->
  exists s', cached_loop fuel s = Done s' /\ loop_ok s'.
Proof.
  induction d as [|d IH]; intros s it [|fuel] Hs Hc Hlen Hit Hd Hf; try lia; cbn [cached_loop];
    destruct (push_matching s (mBufferCache s)) as [[s1 rest] pushed] eqn:Ep;
    destruct (push_matching_spec _ _ _ _ _ Ep Hc Hs) as (H1 & H2 & H3).
  all: assert (Hpushed : pushed = true -> exists s', (if (0 <? zlen rest) && pushed then
      cached_loop fuel (s1 <| mBufferCache := rest |>)
    else if zlen rest =? MAX_RTP_BUFFER_CACHE then
      cached_loop fuel (s1 <| mBufferCache := rest |> <| mNextSequenceNumber :=
        Z.land (mNextSequenceNumber (s1 <| mBufferCache := rest |>) + 1) 65535 |>)
    else Done (s1 <| mBufferCache := rest |>)) = Done s' /\ loop_ok s').
  1,3: intros ->; case_if; [apply (cached_loop_small 4); cbn; try done; lia|];
    rewrite (proj2 (Z.eqb_neq _ _)) by (unfold zlen, MAX_RTP_BUFFER_CACHE; lia);
    eexists; split; [done|]; repeat split; cbn; try apply H1; try done; unfold zlen; lia.
  - apply Hpushed; destruct pushed; [done|]; destruct H3 as (_ & _ & H3); exfalso.
    rewrite Forall_forall in H3; unfold cache_ok in Hc; rewrite Forall_forall in Hc.
    specialize (H3 _ Hit); specialize (Hc _ Hit); apply Z.mod_divide in Hd as [k Hk]; [|lia].
    unfold seq_ok in *; lia.
  - destruct pushed; [by apply Hpushed|]; destruct H3 as (-> & -> & _).
    rewrite andb_false_r, (proj2 (Z.eqb_eq _ _)) by (unfold zlen, MAX_RTP_BUFFER_CACHE; lia).
    assert (Hnext : Z.land (mNextSequenceNumber s + 1) 65535 = (mNextSequenceNumber s + 1) mod 65536)
      by (apply land_65535; unfold seq_ok in *; lia).
    apply (IH _ it); cbn; rewrite ?Hnext; try done; try lia.
    + apply Z.mod_pos_bound; lia.
    + pose proof (Z.mod_pos_bound (mSequenceNumber it - mNextSequenceNumber s) 65536 ltac:(lia)).
      rewrite Zminus_mod_idemp_r.
      replace (mSequenceNumber it - (mNextSequenceNumber s + 1)) with (mSequenceNumber it - mNextSequenceNumber s - 1) by lia.
      rewrite <- Zminus_mod_idemp_l, Hd, Z.mod_small by lia; lia.
Qed.

Lemma processCachedBuffers_ok s : seq_ok (mNextSequenceNumber s) -> cache_ok (mBufferCache s) ->
  (length (mBufferCache s) <= 5)%nat -> exists s', processCachedBuffers s = Done s' /\ loop_ok s'.
Proof.
  intros Hn Hc Hlen; unfold processCachedBuffers, cached_fuel.
  destruct (decide (length (mBufferCache s) = 5%nat)) as [Heq|Hne].
  - destruct (mBufferCache s) as [|it cache] eqn:E; [done|].
    pose proof (Z.mod_pos_bound (mSequenceNumber it - mNextSequenceNumber s) 65536 ltac:(lia)).
    apply (cached_loop_full (Z.to_nat ((mSequenceNumber it - mNextSequenceNumber s) mod 65536)) s it);
      rewrite ?E; try done; [apply elem_of_cons; by left|lia|lia].
  - apply (cached_loop_small 4); try done; lia.
Qed.

Lemma insert_cache_perm b l : insert_cache b l ≡ₚ b :: l.
Proof.
  induction l as [|it l IH]; cbn; [done|]; case_if; [done|].
  rewrite IH; apply Permutation_swap.
Qed.

(** The state between two packets. *)
Definition rtp_ok (s : RtpStreamListener) : Prop :=
  (mNextSequenceNumber s = -1 /\ mBufferCache s = []) \/ loop_ok s.

Lemma fold_push_next l s : (mNextSequenceNumber s = -1 \/ seq_ok (mNextSequenceNumber s)) ->
  cache_ok l -> let s' := fold_left (fun s it => pushBuffertoBQ s (mBuffer it) (mSequenceNumber it)) l s in
  (mNextSequenceNumber s' = -1 \/ seq_ok (mNextSequenceNumber s')).
Proof.
  revert s; induction l as [|it l IH]; intros s Hs Hl; cbn; [done|].
  apply Forall_cons in Hl as [Hit Hl]; apply IH; [right; by apply push_next_ok|done].
Qed.

Lemma process_payload_ok s payload n : rtp_ok s -> seq_ok n ->
  exists s', process_payload s payload n = Done s' /\ loop_ok s'.
Proof.
  intros Hs Hn; unfold process_payload, place_packet; cbv zeta.
  assert (Hc : cache_ok (mBufferCache s) /\ (length (mBufferCache s) < 5)%nat).
  { destruct Hs as [[_ ->]|(_ & ? & ?)]; [split; [constructor|cbn; lia]|unfold zlen in *; split; [done|lia]]. }
  destruct Hc as [Hc Hlen]; case_if; [|case_if; [|case_if]].
  - step_done; destruct (0 <? zlen (mBufferCache s)).
    + apply processCachedBuffers_ok; cbn; try done; [exact (push_next_ok s payload n Hn)|lia].
    + eexists; split; [done|]; split; [exact (push_next_ok s payload n Hn)|split; [done|cbn; unfold zlen; lia]].
  - step_done; eexists; split; [done|]; split; [exact (push_next_ok s payload n Hn)|split; [apply Forall_nil_2|reflexivity]].
  - step_done.
    assert (Hnext : seq_ok (mNextSequenceNumber s)).
    { destruct Hs as [[Hm _]|[? _]]; [lia|done]. }
    pose proof (insert_cache_perm (mkBufferInfo n payload) (mBufferCache s)) as Hperm.
    assert (Hc' : cache_ok (insert_cache (mkBufferInfo n payload) (mBufferCache s)))
      by (unfold cache_ok; rewrite Hperm; by apply Forall_cons_2).
    destruct (0 <? zlen (mBufferCache s)) eqn:Ez; b2p.
    + apply processCachedBuffers_ok; cbn; try done; rewrite Hperm; cbn; lia.
    + eexists; split; [done|]; split; [done|split; [done|]]; cbn.
      unfold zlen in *; rewrite Hperm; cbn; lia.
  - unfold zlen, MAX_RTP_BUFFER_CACHE in *; lia.
Qed.

(** The packets that come, as payloads with their sequence numbers. *)
Fixpoint process_all (s : RtpStreamListener) (l : list (Z * list Z)) : outcome RtpStreamListener :=
  match l with
  | [] => Done s
  | (n, payload) :: l => s ← process_payload s payload n; process_all s l
  end.

(** C39. Whatever packets come, the listener goes on: the search through the cache ends, the
    cache never overflows, and the call of abort is never reached. *)
Theorem rtp_never_aborts l (Hl : Forall (fun p => seq_ok p.1) l) :
  exists s, process_all RtpStreamListener_new l = Done s /\ zlen (mBufferCache s) < 5.
Proof.
  assert (H : forall s, rtp_ok s -> exists s', process_all s l = Done s' /\ zlen (mBufferCache s') < 5).
  { induction Hl as [|[n p] l Hn _ IH]; intros s Hs; cbn.
    - exists s; split; [done|]; destruct Hs as [[_ ->]|(_ & _ & ?)]; [reflexivity|done].
    - destruct (process_payload_ok s p n Hs Hn) as (s1 & -> & H1); step_done; apply IH; by right. }
  apply H; by left.
Qed.

Lemma rtp_never_aborts_witness : exists s,
  process_all RtpStreamListener_new [(65535, [1]); (1, [3]); (9, [5]); (0, [2])] = Done s /\
  zlen (mBufferCache s) < 5.
Proof.
  apply rtp_never_aborts; repeat (apply Forall_cons_2; [split; cbn; lia|]); apply Forall_nil_2.
Defined.

(** * Delivery in order *)

(** Packets by their place in the stream; on the wire the place is cut to 16 bits. *)
Abbreviation packet := (Z * list Z)%type.

Definition seq16 (k : Z) : Z := k mod 65536.

Definition info (p : packet) : BufferInfo := mkBufferInfo (seq16 p.1) p.2.

(** [n'] is the first place from [n] on that is not in [C]. *)
Definition first_missing (n : Z) (C : gset Z) (n' : Z) : Prop :=
  n <= n' /\ (forall i, n <= i < n' -> i ∈ C) /\ n' ∉ C.

(** What a receiver has to do with packets that come early, but not more than ten places
    and not more than four at a time: [n] is the next place to deliver and [C] holds the
    places that have come early. *)
Inductive arrives : Z -> gset Z -> list Z -> Z -> gset Z -> Prop :=
| ar_nil n C : arrives n C [] n C
| ar_due n C n1 l n' C' : first_missing (n + 1) C n1 ->
    arrives n1 (filter (fun k => n1 < k) C) l n' C' -> arrives n C (n :: l) n' C'
| ar_early n C k l n' C' : n < k <= n + 10 -> k ∉ C -> (size C < 4)%nat ->
    arrives n ({[k]} ∪ C) l n' C' -> arrives n C (k :: l) n' C'.

Lemma seq16_inj k n : n - 20 <= k <= n + 20 -> seq16 k = seq16 n -> k = n.
Proof.
  unfold seq16; intros Hk Heq.
  pose proof (Z.div_mod k 65536 ltac:(lia)); pose proof (Z.div_mod n 65536 ltac:(lia)).
  assert (k / 65536 = n / 65536) by lia; lia.
Qed.

Lemma seq16_ok k : seq_ok (seq16 k).
Proof. apply Z.mod_pos_bound; lia. Qed.

Lemma seq16_next n : Z.land (seq16 n + 1) 65535 = seq16 (n + 1).
Proof.
  rewrite land_65535 by (pose proof (seq16_ok n); unfold seq_ok in *; lia).
  unfold seq16; by rewrite Zplus_mod_idemp_l.
Qed.

(** Early packets are seen as early, also across the wrap-around. *)
Lemma diff_early n k : n < k <= n + 10 -> -10 <= diffSequenceNumber (seq16 n) (seq16 k) < 0.
Proof.
  intros Hk; pose proof (seq16_ok n) as Hn; unfold seq_ok in Hn.
  assert (Hs : seq16 k = seq16 n + (k - n) \/ seq16 k = seq16 n + (k - n) - 65536).
  { replace k with (n + (k - n)) at 1 3 by lia; unfold seq16; rewrite <- !(Zplus_mod_idemp_l n).
    fold (seq16 n); destruct (Z.lt_ge_cases (seq16 n + (k - n)) 65536).
    - left; apply Z.mod_small; lia.
    - right; symmetry; apply (Z.mod_unique _ _ 1); lia. }
  unfold diffSequenceNumber, MID_SEQUENCE_NUMBER; repeat case_if; lia.
Qed.

Lemma seqZ_join n n1 n2 : n <= n1 <= n2 -> seqZ n (n1 - n) ++ seqZ n1 (n2 - n1) = seqZ n (n2 - n).
Proof.
  intros; replace (n2 - n) with ((n1 - n) + (n2 - n1)) by lia; rewrite seqZ_app by lia.
  by replace (n + (n1 - n)) with n1 by lia.
Qed.

Lemma seqZ_one n : seqZ n (n + 1 - n) = [n].
Proof. by replace (n + 1 - n) with 1 by lia. Qed.

(** One pass over a cache whose packets are at most ten places apart: it delivers packets
    of consecutive places. *)
Lemma push_matching_places a C : forall s n, mNextSequenceNumber s = seq16 n ->
  Forall (fun p => a <= p.1 <= a + 10) C -> a <= n <= a + 11 ->
  exists s' out rest n1, push_matching s (map info C) = (s', map info rest, bool_decide (out <> [])) /\
    mNextSequenceNumber s' = seq16 n1 /\ queued s' = queued s ++ map info out /\
    C ≡ₚ out ++ rest /\ out.*1 = seqZ n (n1 - n) /\ n <= n1 <= a + 11 /\
    (out = [] -> n ∉ C.*1).
Proof.
  induction C as [|[k p] C IH]; intros s n Hn HC Hr; cbn [map push_matching].
  - exists s, [], [], n; rewrite app_nil_r, Z.sub_diag; repeat split; try done; try lia; set_solver.
  - apply Forall_cons in HC as [Hk HC]; cbn [fst snd] in Hk; cbn [info mSequenceNumber mBuffer fst snd].
    rewrite Hn; destruct (seq16 k =? seq16 n) eqn:E; b2p.
    + apply seq16_inj in E; [|lia]; subst k.
      destruct (IH (pushBuffertoBQ s p (seq16 n)) (n + 1)) as (s' & out & rest & n1 & Hp & H1 & H2 & H3 & H4 & H5 & _);
        [cbn; apply seq16_next|done|lia|].
      rewrite Hp; exists s', ((n, p) :: out), rest, n1; rewrite bool_decide_true by done.
      repeat split; try done; try lia.
      * rewrite H2; cbn; by rewrite <- app_assoc.
      * by rewrite H3.
      * cbn; rewrite H4, <- (seqZ_join n (n + 1) n1), seqZ_one by lia; done.
    + destruct (IH s n Hn HC Hr) as (s' & out & rest & n1 & Hp & H1 & H2 & H3 & H4 & H5 & H6).
      rewrite Hp; exists s', out, ((k, p) :: rest), n1; repeat split; try done; try lia.
      * rewrite H3; apply Permutation_middle.
      * intros Hout; cbn; apply not_elem_of_cons; split; [congruence|by apply H6].
Qed.

Lemma cached_loop_places m : forall a C s n fuel, (length C <= m)%nat -> (m < 5)%nat -> (m < fuel)%nat ->
  mNextSequenceNumber s = seq16 n -> mBufferCache s = map info C ->
  Forall (fun p => a <= p.1 <= a + 10) C -> a <= n <= a + 11 ->
  exists s' out rest n1, cached_loop fuel s = Done s' /\
    mNextSequenceNumber s' = seq16 n1 /\ queued s' = queued s ++ map info out /\
    mBufferCache s' = map info rest /\ C ≡ₚ out ++ rest /\ out.*1 = seqZ n (n1 - n) /\
    n <= n1 /\ n1 ∉ rest.*1.
Proof.
  induction m as [|m IH]; intros a C s n [|fuel] Hm H5 Hf Hn Hc HC Hr; try lia; cbn [cached_loop];
    destruct (push_matching_places a C s n Hn HC Hr) as (s1 & out & rest & n1 & Hp & Hn1 & Hq & Hperm & Hout & Hr1 & Hnot);
    rewrite Hc, Hp; pose proof (Permutation_length Hperm) as Hlen; rewrite length_app in Hlen.
  all: assert (Hz : zlen (map info rest) = Z.of_nat (length rest)) by (unfold zlen; by rewrite length_map).
  all: assert (Hfull : (zlen (map info rest) =? MAX_RTP_BUFFER_CACHE) = false)
    by (apply Z.eqb_neq; rewrite Hz; unfold MAX_RTP_BUFFER_CACHE; lia).
  all: assert (Hstop : rest = [] \/ out = [] -> exists s' out' rest' n', Done (s1 <| mBufferCache := map info rest |>) = Done s' /\
    mNextSequenceNumber s' = seq16 n' /\ queued s' = queued s ++ map info out' /\
    mBufferCache s' = map info rest' /\ C ≡ₚ out' ++ rest' /\ out'.*1 = seqZ n (n' - n) /\
    n <= n' /\ n' ∉ rest'.*1).
  1,3: intros Hcase; exists (s1 <| mBufferCache := map info rest |>), out, rest, n1; repeat split; try done; try lia;
    destruct Hcase as [->| ->]; [set_solver|];
    assert (n1 = n) as -> by (destruct (decide (n1 = n)); [done|];
      rewrite seqZ_cons in Hout by lia; discriminate);
    rewrite app_nil_l in Hperm; rewrite <- Hperm; by apply Hnot.
  - assert (rest = []) as -> by (apply nil_length_inv; lia); cbn; apply Hstop; by left.
  - destruct ((0 <? zlen (map info rest)) && bool_decide (out <> [])) eqn:E.
    + apply andb_prop in E as [_ Hne%bool_decide_eq_true].
      destruct (IH a rest (s1 <| mBufferCache := map info rest |>) n1 fuel)
        as (s2 & out2 & rest2 & n2 & -> & G1 & G2 & G3 & G4 & G5 & G6 & G7); try done; try lia.
      * destruct out; [done|cbn in Hlen; lia].
      * rewrite Hperm in HC; by apply Forall_app in HC as [_ ?].
      * exists s2, (out ++ out2), rest2, n2; repeat split; try done; try lia.
        -- rewrite G2; cbn; by rewrite Hq, map_app, app_assoc.
        -- by rewrite Hperm, G4, app_assoc.
        -- by rewrite fmap_app, Hout, G5, seqZ_join by lia.
    + rewrite Hfull; apply Hstop; apply andb_false_iff in E as [E|E]; b2p.
      * left; apply nil_length_inv; lia.
      * right; by destruct (decide (out = [])); [|contradict E].
Qed.

(** The cache of the listener holds the early packets [E], whose places are [C]. *)
Record holds (s : RtpStreamListener) (n : Z) (C : gset Z) (E : list packet) : Prop := {
  h_next : mNextSequenceNumber s = seq16 n;
  h_cache : mBufferCache s = map info E;
  h_early : Forall (fun p => n < p.1 <= n + 10) E;
  h_nodup : NoDup E.*1;
  h_places : C = list_to_set E.*1;
  h_few : (size C <= 4)%nat;
}.

Lemma holds_size s n C E : holds s n C E -> size C = length E.
Proof. intros [_ _ _ Hd -> _]; rewrite size_list_to_set, length_fmap by done; done. Qed.

Lemma holds_not_new s n C E : holds s n C E -> (mNextSequenceNumber s =? -1) = false.
Proof. intros [-> _ _ _ _ _]; apply Z.eqb_neq; pose proof (seq16_ok n); unfold seq_ok in *; lia. Qed.

(** The cache after packets of the places from [m] on have been delivered up to [n']. *)
Lemma holds_rest (E out rest : list packet) (C : gset Z) m n' top :
  E ≡ₚ out ++ rest -> NoDup E.*1 -> C = list_to_set E.*1 -> Forall (fun p => m <= p.1 <= top) E ->
  out.*1 = seqZ m (n' - m) -> m <= n' -> n' ∉ rest.*1 ->
  first_missing m C n' /\ NoDup rest.*1 /\ list_to_set rest.*1 = filter (fun k => n' < k) C /\
  Forall (fun p => n' < p.1 <= top) rest.
Proof.
  intros Hperm Hd -> HE Hout Hm Hn'; rewrite Hperm in HE |- *; rewrite Hperm in Hd.
  rewrite fmap_app in *; apply NoDup_app in Hd as (_ & Hdisj & Hdr).
  rewrite Hout in *; apply Forall_app in HE as [_ HE].
  assert (Hrest : forall k, k ∈ rest.*1 -> n' < k <= top).
  { intros k Hk; assert (Hbound : m <= k <= top).
    { apply list_elem_of_fmap in Hk as (p & -> & Hp); rewrite Forall_forall in HE; by apply HE. }
    assert (Hno : k ∉ seqZ m (n' - m)) by (intros Hk'; by apply (Hdisj k)).
    rewrite elem_of_seqZ in Hno; assert (k <> n') by (by intros ->); lia. }
  split; [|split; [done|split]].
  - split; [done|]; split; [intros i Hi; apply elem_of_list_to_set, elem_of_app; left; apply elem_of_seqZ; lia|].
    rewrite elem_of_list_to_set, elem_of_app, elem_of_seqZ; intros [?|?]; [lia|done].
  - apply set_eq; intros k; rewrite elem_of_filter, !elem_of_list_to_set, elem_of_app, elem_of_seqZ.
    split; [intros Hk; split; [by apply Hrest|by right]|]; intros [? [?|?]]; [lia|done].
  - apply Forall_forall; intros p Hp; apply Hrest, list_elem_of_fmap; by exists p.
Qed.

Lemma first_missing_unique n C a b : first_missing n C a -> first_missing n C b -> a = b.
Proof.
  intros (Ha1 & Ha2 & Ha3) (Hb1 & Hb2 & Hb3).
  destruct (Z.lt_trichotomy a b) as [?|[?|?]]; [|done|].
  - contradict Ha3; apply Hb2; lia.
  - contradict Hb3; apply Ha2; lia.
Qed.

Lemma filter_size (P : Z -> Prop) `{forall x, Decision (P x)} (C : gset Z) : (size (filter P C) <= size C)%nat.
Proof. apply subseteq_size; set_solver. Qed.

(** A packet that is due. *)
Lemma due_packet s n C E payload n1 : holds s n C E -> first_missing (n + 1) C n1 ->
  exists s' out E', process_payload s payload (seq16 n) = Done s' /\
    holds s' n1 (filter (fun k => n1 < k) C) E' /\
    queued s' = queued s ++ map info out /\ (n, payload) :: E ≡ₚ out ++ E' /\ out.*1 = seqZ n (n1 - n).
Proof.
  intros Hh Hmiss; assert (Hsz := holds_size _ _ _ _ Hh); destruct Hh as [Hn Hc Hearly Hd HC Hfew].
  unfold process_payload, place_packet; rewrite Hn, Z.eqb_refl; cbn [orb]; step_done.
  assert (Hz : (0 <? zlen (mBufferCache s)) = bool_decide (E <> [])).
  { rewrite Hc; unfold zlen; rewrite length_map; destruct E; [done|by rewrite bool_decide_true]. }
  rewrite Hz; set (s1 := pushBuffertoBQ s payload (seq16 n)).
  assert (Hloop : exists s' out rest n2, (if bool_decide (E <> []) then processCachedBuffers s1 else Done s1) = Done s' /\
    mNextSequenceNumber s' = seq16 n2 /\ queued s' = queued s1 ++ map info out /\
    mBufferCache s' = map info rest /\ E ≡ₚ out ++ rest /\ out.*1 = seqZ (n + 1) (n2 - (n + 1)) /\
    n + 1 <= n2 /\ n2 ∉ rest.*1).
  { case_bool_decide as HE.
    - apply (cached_loop_places 4 (n + 1) E s1 (n + 1)); try done; try lia; [apply Nat.ltb_lt; reflexivity|apply seq16_next|].
      eapply Forall_impl; [exact Hearly|]; cbn; intros; lia.
    - assert (E = []) as -> by (destruct (decide (E = [])); [done|contradict HE; done]).
      exists s1, [], [], (n + 1); rewrite app_nil_r, Z.sub_diag; repeat split; try done; try lia.
      + apply seq16_next.
      + set_solver. }
  destruct Hloop as (s' & out & rest & n2 & -> & H1 & H2 & H3 & H4 & H5 & H6 & H7).
  assert (Hbound : Forall (fun p => n + 1 <= p.1 <= n + 10) E)
    by (eapply Forall_impl; [exact Hearly|]; cbn; intros; lia).
  destruct (holds_rest E out rest C (n + 1) n2 (n + 10) H4 Hd HC Hbound H5 H6 H7) as (G1 & G2 & G3 & G4).
  pose proof (first_missing_unique _ _ _ _ Hmiss G1) as ->.
  exists s', ((n, payload) :: out), rest; split; [done|]; split; [|repeat split].
  - split; try done.
    + eapply Forall_impl; [exact G4|]; cbn; intros; lia.
    + etrans; [apply filter_size|done].
  - rewrite H2; cbn; by rewrite <- app_assoc.
  - by rewrite H4.
  - cbn; rewrite H5, <- (seqZ_join n (n + 1) n2), seqZ_one by lia; done.
Qed.

Lemma insert_cache_info p E : exists E', insert_cache (info p) (map info E) = map info E' /\ E' ≡ₚ p :: E.
Proof.
  induction E as [|q E IH]; cbn [map insert_cache]; [by exists [p]|].
  case_if; [by exists (p :: q :: E)|].
  destruct IH as (E' & -> & HE'); exists (q :: E'); split; [done|]; rewrite HE'; apply Permutation_swap.
Qed.

(** A packet that comes early. *)
Lemma early_packet s n C E k payload : holds s n C E -> n < k <= n + 10 -> k ∉ C -> (size C < 4)%nat ->
  exists s' E', process_payload s payload (seq16 k) = Done s' /\
    holds s' n ({[k]} ∪ C) E' /\ queued s' = queued s /\ (k, payload) :: E ≡ₚ E'.
Proof.
  intros Hh Hk HkC Hsize; assert (Hsz := holds_size _ _ _ _ Hh); assert (Hnew := holds_not_new _ _ _ _ Hh).
  destruct Hh as [Hn Hc Hearly Hd HC Hfew]; unfold process_payload, place_packet; rewrite Hnew, Hn.
  rewrite (proj2 (Z.eqb_neq (seq16 k) (seq16 n))) by (intros Heq; apply seq16_inj in Heq; lia); cbn [orb].
  pose proof (diff_early n k Hk); unfold MAX_SEQNUM_DIFF_FOR_DISCONTINUITY.
  rewrite (proj2 (Z.ltb_ge _ (Z.abs _))) by lia.
  rewrite (proj2 (Z.ltb_lt (zlen (mBufferCache s)) _))
    by (rewrite Hc; unfold zlen, MAX_RTP_BUFFER_CACHE; rewrite length_map; lia).
  step_done; rewrite Hc.
  destruct (insert_cache_info (k, payload) E) as (E1 & HE1 & Hperm).
  change (mkBufferInfo (seq16 k) payload) with (info (k, payload)); rewrite HE1.
  set (s1 := s <| mBufferCache := map info E1 |>).
  assert (Hbound : Forall (fun p => n < p.1 <= n + 10) E1) by (rewrite Hperm; by apply Forall_cons_2).
  assert (Hfin : forall s' rest, mNextSequenceNumber s' = seq16 n -> mBufferCache s' = map info rest -> E1 ≡ₚ rest ->
    holds s' n ({[k]} ∪ C) rest).
  { intros s' rest G1 G2 G3; split; [done|done|by rewrite <- G3| | |].
    - rewrite <- G3, Hperm; cbn; apply NoDup_cons; split; [|done].
      by rewrite HC, elem_of_list_to_set in HkC.
    - by rewrite <- G3, Hperm, HC.
    - rewrite size_union, size_singleton by (apply disjoint_singleton_l; done); lia. }
  destruct (0 <? zlen (map info E)) eqn:Ez.
  - destruct (cached_loop_places 4 n E1 s1 n cached_fuel)
      as (s' & out & rest & n1 & Hs' & H1 & H2 & H3 & H4 & H5 & H6 & H7); try done; try lia.
    { rewrite Hperm; cbn; lia. }
    { apply Nat.ltb_lt; reflexivity. }
    { eapply Forall_impl; [exact Hbound|]; cbn; intros; lia. }
    assert (n1 = n) as ->.
    { destruct (decide (n1 = n)); [done|exfalso].
      assert (Hin : n ∈ out.*1) by (rewrite H5; apply elem_of_seqZ; lia).
      apply list_elem_of_fmap in Hin as (p & Hp & Hin); rewrite Forall_forall in Hbound.
      assert (p ∈ E1) as Hp1 by (rewrite H4; apply elem_of_app; by left).
      specialize (Hbound p Hp1); cbn in *; lia. }
    rewrite Z.sub_diag in H5; destruct out; [|done]; rewrite app_nil_l in H4; rewrite app_nil_r in H2.
    exists s', rest; split; [done|split; [by apply Hfin|split; [done|by rewrite <- H4, Hperm]]].
  - exists s1, E1; split; [done|split; [by apply Hfin|split; [done|by rewrite Hperm]]].
Qed.

(** The listener is at place [n]: that is the next one, or nothing has come and the packets to
    come begin with it. *)
Definition at_place (s : RtpStreamListener) (n : Z) (l : list packet) : Prop :=
  mNextSequenceNumber s = seq16 n \/ mNextSequenceNumber s = -1 /\ head l.*1 = Some n.

Lemma reorders_next s n l n' C' : mNextSequenceNumber s = seq16 n -> mBufferCache s = [] -> arrives n ∅ l.*1 n' C' ->
  exists s' out early, process_all s (map (fun p => (seq16 p.1, p.2)) l) = Done s' /\
    queued s' = queued s ++ map info out /\ out.*1 = seqZ n (n' - n) /\
    mBufferCache s' = map info early /\ list_to_set early.*1 = C' /\ l ≡ₚ out ++ early.
Proof.
  intros Hn Hc Harr.
  assert (H : forall s E, holds s n ∅ E -> exists s' out early,
    process_all s (map (fun p => (seq16 p.1, p.2)) l) = Done s' /\
    queued s' = queued s ++ map info out /\ out.*1 = seqZ n (n' - n) /\ n <= n' /\
    mBufferCache s' = map info early /\ list_to_set early.*1 = C' /\ E ++ l ≡ₚ out ++ early).
  { clear s Hn Hc; remember (∅ : gset Z) as C eqn:HC; clear HC; remember l.*1 as ks eqn:Hks; revert l Hks.
    induction Harr as [n C|n C n1 ks n' C' Hmiss _ IH|n C k ks n' C' Hk HkC Hsz _ IH];
      intros l Hks s E Hh; destruct l as [|[k' payload] l]; try discriminate; cbn [map process_all].
    - exists s, [], E; rewrite Z.sub_diag; destruct Hh; cbn; rewrite !app_nil_r.
      repeat split; done || lia.
    - injection Hks as -> Hks; cbn [fst snd]; destruct (due_packet s k' C E payload n1 Hh Hmiss)
        as (s1 & out1 & E1 & -> & Hh1 & Hq & Hp & Ho); step_done.
      destruct (IH l Hks s1 E1 Hh1) as (s2 & out2 & early & -> & G1 & G2 & G3 & G4 & G5 & G6).
      destruct Hmiss as (Hle & _ & _).
      exists s2, (out1 ++ out2), early; repeat split; try done; try lia.
      + by rewrite G1, Hq, map_app, app_assoc.
      + by rewrite fmap_app, Ho, G2, seqZ_join by lia.
      + rewrite <- app_assoc, <- G6, app_assoc, <- Hp; cbn; by rewrite Permutation_middle.
    - injection Hks as -> Hks; cbn [fst snd]; destruct (early_packet s n C E k' payload Hh Hk HkC Hsz)
        as (s1 & E1 & -> & Hh1 & Hq & Hp); step_done.
      destruct (IH l Hks s1 E1 Hh1) as (s2 & out2 & early & -> & G1 & G2 & G3 & G4 & G5 & G6).
      exists s2, out2, early; repeat split; try done; [by rewrite G1, Hq|].
      rewrite <- G6, <- Hp; cbn; by rewrite Permutation_middle. }
  destruct (H s []) as (s' & out & early & ? & ? & ? & _ & ? & ? & ?); [|by exists s', out, early].
  split; cbn; try done; [apply NoDup_nil_2|rewrite size_empty; lia].
Qed.

(** The first packet of a new listener is pushed as the next one of an old listener is. *)
Lemma reorders s n l n' C' : at_place s n l -> mBufferCache s = [] -> arrives n ∅ l.*1 n' C' ->
  exists s' out early, process_all s (map (fun p => (seq16 p.1, p.2)) l) = Done s' /\
    queued s' = queued s ++ map info out /\ out.*1 = seqZ n (n' - n) /\
    mBufferCache s' = map info early /\ list_to_set early.*1 = C' /\ l ≡ₚ out ++ early.
Proof.
  intros [Hn|[Hn Hh]] Hc Harr; [by apply reorders_next|].
  set (s1 := s <| mNextSequenceNumber := seq16 n |>).
  destruct (reorders_next s1 n l n' C' eq_refl Hc Harr) as (s' & out & early & Hp & Hrest).
  exists s', out, early; split; [|exact Hrest]; rewrite <- Hp.
  destruct l as [|[k payload] l]; [done|]; injection Hh as ->; cbn [map process_all fst snd].
  unfold process_payload, place_packet; rewrite Hn, orb_true_r.
  change (mNextSequenceNumber s1) with (seq16 n); rewrite Z.eqb_refl; done.
Qed.

(** C12. Packets that come out of order, early by at most ten places and with at most four of
    them early at a time, are delivered in order and without loss, across the wrap-around of
    the sequence numbers too: what has been pushed are the places from the first one on,
    each with the payload it came with, and the early ones are waiting in the cache. *)
Theorem rtp_reorders s n l n' C' (Hn : at_place s n l) (Hc : mBufferCache s = [])
    (Harr : arrives n ∅ l.*1 n' C') :
  exists s' out early, process_all s (map (fun p => (seq16 p.1, p.2)) l) = Done s' /\
    queued s' = queued s ++ map info out /\ out.*1 = seqZ n (n' - n) /\
    mBufferCache s' = map info early /\ list_to_set early.*1 = C' /\ l ≡ₚ out ++ early.
Proof. exact (reorders s n l n' C' Hn Hc Harr). Qed.

Lemma rtp_reorders_witness : exists s' out early,
  process_all RtpStreamListener_new [(65534, [1]); (1, [4]); (0, [3]); (65535, [2]); (4, [6])] = Done s' /\
  queued s' = map info out /\ out.*1 = seqZ 65534 4 /\
  mBufferCache s' = map info early /\ list_to_set early.*1 = ({[65540]} ∪ ∅ : gset Z) /\
  [(65534, [1]); (65537, [4]); (65536, [3]); (65535, [2]); (65540, [6])] ≡ₚ out ++ early.
Proof.
  apply (rtp_reorders RtpStreamListener_new 65534
    [(65534, [1]); (65537, [4]); (65536, [3]); (65535, [2]); (65540, [6])] 65538 ({[65540]} ∪ ∅));
    [by right|reflexivity|]; cbn [fmap list_fmap fst].
  assert (Hm : first_missing 65535 ∅ 65535) by (split; [lia|split; [lia|set_solver]]).
  eapply ar_due; [exact Hm|].
  replace (filter (fun k => 65535 < k) ∅) with (∅ : gset Z) by set_solver.
  apply ar_early; [lia|set_solver|rewrite size_empty; lia|].
  apply ar_early; [lia|set_solver|rewrite union_empty_r_L, size_singleton; lia|].
  assert (Hm2 : first_missing 65536 ({[65536]} ∪ ({[65537]} ∪ ∅)) 65538).
  { split; [lia|split; [|set_solver]]; intros i Hi.
    assert (i = 65536 \/ i = 65537) as [-> | ->] by lia; set_solver. }
  eapply ar_due; [exact Hm2|].
  replace (filter (fun k => 65538 < k) ({[65536]} ∪ ({[65537]} ∪ ∅))) with (∅ : gset Z).
  2: { symmetry; apply set_eq; intros k; rewrite elem_of_filter; split; [|set_solver].
       intros [Hk Hin]; rewrite !elem_of_union, !elem_of_singleton in Hin; set_solver by lia. }
  apply ar_early; [lia|set_solver|rewrite size_empty; lia|]; apply ar_nil.
Defined.

(** * What goes wrong *)

(** A packet that comes late by three places, when the sequence numbers have just wrapped
    around, is taken for a discontinuity: the difference of two numbers on either side of
    the wrap-around is more than 65536. *)
Lemma late_packet_after_wrap : diffSequenceNumber 2 65535 = 131069.
Proof. reflexivity. Qed.

Lemma diff_late_wrap first second : 0 <= first -> second < 65536 -> MID_SEQUENCE_NUMBER < second - first ->
  65536 < diffSequenceNumber first second.
Proof.
  unfold diffSequenceNumber, MID_SEQUENCE_NUMBER; intros.
  rewrite (proj2 (Z.ltb_ge second first)), (proj2 (Z.ltb_lt 32768 _)) by lia; lia.
Qed.

Lemma lor_sign_extended z x : -256 <= x < 0 -> Z.lor (Z.shiftl z 8) x = x.
Proof.
  intros Hx; apply Z.bits_inj'; intros i Hi; rewrite Z.lor_spec.
  destruct (Z.lt_ge_cases i 8).
  - by rewrite Z.shiftl_spec_low by lia.
  - rewrite (Z.bits_above_log2_neg x), orb_true_r; [done|lia|].
    apply Z.lt_le_trans with 8; [|done]; destruct (Z.eq_dec x (-1)) as [->|]; [reflexivity|].
    apply Z.log2_lt_pow2; lia.
Qed.

(** Where [char] is signed, a low byte of the sequence number above 127 hides the high
    byte: the packet gets a number from 65408 on, whatever its high byte. *)
Theorem signed_char_sequence buf len b3 n o k (H3 : rd buf 3 = Done b3) (Hb : 128 <= b3 < 256)
    (Hh : rtp_header true buf len = Done (Some (n, o, k))) :
  n = 65280 + b3.
Proof.
  unfold rtp_header in Hh; apply bind_done_inv in Hh as (c0 & _ & Hh).
  apply bind_done_inv in Hh as (c2 & _ & Hh).
  apply bind_done_inv in Hh as (c3 & Hc & Hh); unfold rd_char in Hc; rewrite H3, bind_Done in Hc.
  assert (Hc3 : c3 = b3 - 256).
  { assert (c3 = char_value true b3) as -> by congruence; unfold char_value, s8, signed_wrap.
    by rewrite Z.mod_small, (proj2 (Z.ltb_ge _ _)) by lia. }
  apply bind_done_inv in Hh as (pl & _ & Hh); destruct (_ && _); [done|].
  apply bind_done_inv in Hh as (off & _ & Hh); destruct (_ <? _); [done|]; injection Hh as <- _ _.
  rewrite Hc3, lor_sign_extended by lia; unfold u16.
  symmetry; apply (Z.mod_unique _ _ (-1)); lia.
Qed.

Lemma signed_char_sequence_witness : exists o k,
  rtp_header true ([128; 33; 5; 200] ++ replicate 20 0) 24 = Done (Some (65480, o, k)) /\ 65480 = 65280 + 200.
Proof.
  exists 12, 12; split; [reflexivity|].
  apply (signed_char_sequence ([128; 33; 5; 200] ++ replicate 20 0) 24 200 65480 12 12);
    [reflexivity|lia|reflexivity].
Defined.
