(* ===== verification/BufferQueue.v ===== *)
(** Class template [BufferQueue] of include/BufferQueue.h: the buffers that go round between
    a producer, which takes an empty one, fills it and queues it, and a consumer, which takes
    a filled one, reads it and releases it.

    A call is one step, taken when its wait ends; a call that has to wait has no step.
    [bq_step] adds to the queue the buffers each side holds, and orders the calls of the
    two sides in every possible way. *)

From S2P Require Import Prelude.

Record BufferQueue (T : Type) := mkBufferQueue {
  consumerQueue : list T;
  producerQueue : list T;
  mMaxDepth : Z;
  exitPending : bool;
}.
Arguments mkBufferQueue {T} _ _ _ _.
Arguments consumerQueue {T} _.
Arguments producerQueue {T} _.
Arguments mMaxDepth {T} _.
Arguments exitPending {T} _.

#[export] Instance BufferQueue_eta T : Eta (BufferQueue T) := fun r =>
  mkBufferQueue (consumerQueue r) (producerQueue r) (mMaxDepth r) (exitPending r).

Section buffer_queue.
Context {T : Type}.
Implicit Types (q : BufferQueue T) (req : T).

Definition BufferQueue_new (queueSize : Z) : BufferQueue T := mkBufferQueue [] [] queueSize false.

Definition getQueueSize q : Z := u32 (mMaxDepth q).

Definition isConsumerQueueFull q : bool := mMaxDepth q <=? zlen (consumerQueue q).
Definition isConsumerQueueEmpty q : bool := zlen (consumerQueue q) =? 0.
Definition isProducerQueueFull q : bool := mMaxDepth q <=? zlen (producerQueue q).
Definition isProducerQueueEmpty q : bool := zlen (producerQueue q) =? 0.

(** [front()] and [pop()] of a [std::queue]: undefined on an empty one. *)
Definition front_pop (l : list T) : outcome (T * list T) :=
  match l with [] => Stop Ub | x :: l => Done (x, l) end.

(** The calls; [Blocked] is one whose wait does not end yet. What is returned beside the
    queue is the pointer written through [req], if one is. *)
Definition bq_queue req q : outcome (BufferQueue T) :=
  if negb (isConsumerQueueFull q) || exitPending q then
    if exitPending q then Done q
    else Done (q <| consumerQueue := consumerQueue q ++ [req] |>)
  else Stop Blocked.

Definition acquire_ready q : bool := negb (isProducerQueueEmpty q) || exitPending q.

(** [acquire] behind its wait. *)
Definition acquire_take q : outcome (BufferQueue T * option T) :=
  if exitPending q then Done (q, None)
  else
    '(req, l) ← front_pop (producerQueue q);
    Done (q <| producerQueue := l |>, Some req).

Definition bq_acquire q : outcome (BufferQueue T * option T) :=
  if acquire_ready q then acquire_take q else Stop Blocked.

Definition consume_ready q : bool := negb (isConsumerQueueEmpty q) || exitPending q.

Definition bq_consume q : outcome (BufferQueue T * option T) :=
  if consume_ready q then
    if exitPending q then Done (q, None)
    else
      '(req, l) ← front_pop (consumerQueue q);
      Done (q <| consumerQueue := l |>, Some req)
  else Stop Blocked.

(** [consume] with a timeout, at the end of its wait: [done] is what the wait returns, the
    value of its predicate. *)
Definition bq_consume_timed q : outcome (BufferQueue T * option T) :=
  let done := consume_ready q in
  if exitPending q then Done (q, None)
  else if negb done then Done (q, None)
  else
    '(req, l) ← front_pop (consumerQueue q);
    Done (q <| consumerQueue := l |>, Some req).

Definition bq_release req q : outcome (BufferQueue T) :=
  if negb (isProducerQueueFull q) || exitPending q then
    Done (q <| producerQueue := producerQueue q ++ [req] |>)
  else Stop Blocked.

(** The two loops of [clear]. *)
Fixpoint pop_consumer (fuel : nat) q : BufferQueue T :=
  match fuel with
  | O => q
  | S fuel =>
    if negb (isConsumerQueueEmpty q)
    then pop_consumer fuel (q <| consumerQueue := tail (consumerQueue q) |>) else q
  end.

Fixpoint pop_producer (fuel : nat) q : BufferQueue T :=
  match fuel with
  | O => q
  | S fuel =>
    if negb (isProducerQueueEmpty q)
    then pop_producer fuel (q <| producerQueue := tail (producerQueue q) |>) else q
  end.

(** One turn for every element. *)
Definition bq_clear q : BufferQueue T :=
  let q := pop_consumer (length (consumerQueue q)) q in
  pop_producer (length (producerQueue q)) q.

Definition BufferQueue_destroy q : BufferQueue T := (bq_clear q) <| exitPending := true |>.

(** * Where the buffers are

    [filling] are the buffers the producers have acquired, [reading] those the consumer has
    consumed. *)

Definition places q (filling reading : list T) : list T :=
  consumerQueue q ++ producerQueue q ++ filling ++ reading.

(** Every buffer is in one place, and there are no more buffers than either queue has room
    for. *)
Record bq_placed (bufs : list T) q (filling reading : list T) : Prop := {
  ok_places : places q filling reading ≡ₚ bufs;
  ok_depth : zlen bufs <= mMaxDepth q;
  ok_running : exitPending q = false;
}.

Lemma places_zlen bufs q f r : bq_placed bufs q f r ->
  zlen (consumerQueue q) + zlen (producerQueue q) + zlen f + zlen r <= mMaxDepth q.
Proof.
  intros [Hp Hd _]; apply Permutation_length in Hp; unfold places in Hp.
  rewrite !length_app in Hp; unfold zlen in *; lia.
Qed.

(** What the calls do to a queue with room for all its buffers: [queue] and [release] of a
    buffer somebody holds never wait. *)
Lemma placed_queue bufs q l1 b l2 r : bq_placed bufs q (l1 ++ b :: l2) r ->
  let q' := q <| consumerQueue := consumerQueue q ++ [b] |> in
  bq_queue b q = Done q' /\ bq_placed bufs q' (l1 ++ l2) r.
Proof.
  intros Hok; pose proof (places_zlen _ _ _ _ Hok) as Hz; destruct Hok as [Hp Hd Hr]; split.
  - unfold bq_queue, isConsumerQueueFull; rewrite Hr.
    unfold zlen in *; rewrite length_app in Hz; cbn in Hz.
    rewrite (proj2 (Z.leb_gt _ _)); [done|lia].
  - split; [|done..]; unfold places in *; cbn; rewrite <- Hp; solve_Permutation.
Qed.

Lemma placed_release_held bufs q f l1 b l2 : bq_placed bufs q f (l1 ++ b :: l2) ->
  let q' := q <| producerQueue := producerQueue q ++ [b] |> in
  bq_release b q = Done q' /\ bq_placed bufs q' f (l1 ++ l2).
Proof.
  intros Hok; pose proof (places_zlen _ _ _ _ Hok) as Hz; destruct Hok as [Hp Hd Hr]; split.
  - unfold bq_release, isProducerQueueFull; rewrite Hr.
    unfold zlen in *; rewrite length_app in Hz; cbn in Hz.
    rewrite (proj2 (Z.leb_gt _ _)); [done|lia].
  - split; [|done..]; unfold places in *; cbn; rewrite <- Hp; solve_Permutation.
Qed.

Lemma placed_swap bufs q f r : bq_placed bufs q f r -> bq_placed bufs q r f.
Proof. intros [Hp Hd Hr]; split; [|done..]; rewrite <- Hp; unfold places; solve_Permutation. Qed.

Lemma placed_release bufs q l1 b l2 r : bq_placed bufs q (l1 ++ b :: l2) r ->
  let q' := q <| producerQueue := producerQueue q ++ [b] |> in
  bq_release b q = Done q' /\ bq_placed bufs q' (l1 ++ l2) r.
Proof.
  intros Hok%placed_swap; destruct (placed_release_held _ _ _ _ _ _ Hok) as [E ?%placed_swap]; done.
Qed.

Lemma placed_acquire bufs q f r : bq_placed bufs q f r ->
  match producerQueue q with
  | [] => bq_acquire q = Stop Blocked
  | b :: l => bq_acquire q = Done (q <| producerQueue := l |>, Some b) /\
              bq_placed bufs (q <| producerQueue := l |>) (b :: f) r
  end.
Proof.
  intros [Hp Hd Hr]; unfold bq_acquire, acquire_ready, acquire_take, isProducerQueueEmpty, places in *.
  rewrite Hr; destruct (producerQueue q) as [|b l] eqn:E; [done|split; [done|]].
  split; [|done..]; unfold places; cbn; rewrite <- Hp; solve_Permutation.
Qed.

Lemma placed_consume bufs q f r : bq_placed bufs q f r ->
  match consumerQueue q with
  | [] => bq_consume_timed q = Done (q, None)
  | b :: l => bq_consume_timed q = Done (q <| consumerQueue := l |>, Some b) /\
              bq_placed bufs (q <| consumerQueue := l |>) f (b :: r)
  end.
Proof.
  intros [Hp Hd Hr]; unfold bq_consume_timed, consume_ready, isConsumerQueueEmpty, places in *.
  rewrite Hr; destruct (consumerQueue q) as [|b l] eqn:E; [done|split; [done|]].
  split; [|done..]; unfold places; cbn; rewrite <- Hp; solve_Permutation.
Qed.

(** * The two sides *)

(** [queued_log] and [consumed_log] are the buffers in the order of the calls. *)
Record bq_system := mkBqSystem {
  bq : BufferQueue T;
  filling : list T;
  reading : list T;
  queued_log : list T;
  consumed_log : list T;
}.

#[export] Instance bq_system_eta : Eta bq_system := fun r =>
  mkBqSystem (bq r) (filling r) (reading r) (queued_log r) (consumed_log r).

(** A producer queues or gives back any buffer it holds; the consumer releases any it
    holds. *)
Inductive bq_step : bq_system -> bq_system -> Prop :=
| bs_acquire s q b :
    bq_acquire (bq s) = Done (q, Some b) ->
    bq_step s (s <| bq := q |> <| filling := b :: filling s |>)
| bs_queue s q b l1 l2 :
    filling s = l1 ++ b :: l2 -> bq_queue b (bq s) = Done q ->
    bq_step s (s <| bq := q |> <| filling := l1 ++ l2 |> <| queued_log := queued_log s ++ [b] |>)
| bs_give_back s q b l1 l2 :
    filling s = l1 ++ b :: l2 -> bq_release b (bq s) = Done q ->
    bq_step s (s <| bq := q |> <| filling := l1 ++ l2 |>)
| bs_consume s q b :
    bq_consume_timed (bq s) = Done (q, Some b) ->
    bq_step s (s <| bq := q |> <| reading := b :: reading s |> <| consumed_log := consumed_log s ++ [b] |>)
| bs_timeout s q :
    bq_consume_timed (bq s) = Done (q, None) -> bq_step s (s <| bq := q |>)
| bs_release s q b l1 l2 :
    reading s = l1 ++ b :: l2 -> bq_release b (bq s) = Done q ->
    bq_step s (s <| bq := q |> <| reading := l1 ++ l2 |>).

(** A queue given its buffers. *)
Definition bq_filled (queueSize : Z) (bufs : list T) : bq_system :=
  mkBqSystem ((BufferQueue_new queueSize) <| producerQueue := bufs |>) [] [] [] [].

Definition bq_ok (bufs : list T) (s : bq_system) : Prop :=
  bq_placed bufs (bq s) (filling s) (reading s) /\
  queued_log s = consumed_log s ++ consumerQueue (bq s).

Lemma bq_ok_step bufs s s' : bq_step s s' -> bq_ok bufs s -> bq_ok bufs s'.
Proof.
  intros Hs [Hp Hf].
  destruct Hs as [s q b Ha|s q b l1 l2 Hl Ha|s q b l1 l2 Hl Ha|s q b Ha|s q Ha|s q b l1 l2 Hl Ha].
  - apply placed_acquire in Hp; destruct (producerQueue (bq s)) as [|c l]; [congruence|].
    destruct Hp as [E Hp]; rewrite E in Ha; by simplify_eq.
  - rewrite Hl in Hp; apply placed_queue in Hp as [E Hp]; rewrite E in Ha; simplify_eq.
    split; [done|]; cbn; by rewrite Hf, app_assoc.
  - rewrite Hl in Hp; apply placed_release in Hp as [E Hp]; rewrite E in Ha; by simplify_eq.
  - apply placed_consume in Hp; destruct (consumerQueue (bq s)) as [|c l]; [congruence|].
    destruct Hp as [E Hp]; rewrite E in Ha; simplify_eq; split; [done|]; cbn; by rewrite Hf, <- app_assoc.
  - pose proof (placed_consume _ _ _ _ Hp) as Hc.
    destruct (consumerQueue (bq s)) as [|c l] eqn:E; [|destruct Hc; congruence].
    rewrite Ha in Hc; simplify_eq; split; [done|]; cbn; by rewrite E.
  - rewrite Hl in Hp; apply placed_release_held in Hp as [E Hp]; rewrite E in Ha; by simplify_eq.
Qed.

Lemma bq_ok_filled bufs n : zlen bufs <= n -> bq_ok bufs (bq_filled n bufs).
Proof. intros Hn; split; [|done]; split; [unfold places; cbn; by rewrite !app_nil_r|done..]. Qed.

Lemma bq_ok_reach bufs n s : zlen bufs <= n -> rtc bq_step (bq_filled n bufs) s -> bq_ok bufs s.
Proof.
  intros Hn Hr; apply bq_ok_filled in Hn; revert Hn.
  induction Hr; eauto using bq_ok_step.
Qed.

(** C32. A queue with room for all its buffers never loses, duplicates or reorders one and
    never gets stuck, in whatever order producers and consumer call it: at any time every
    buffer is in exactly one place, the buffers consumed so far are the first ones queued, a
    producer that holds a buffer can queue it or give it back and a consumer that holds one
    can release it without waiting, and when nobody holds a buffer a call of one of the two
    sides is ready. *)
Theorem buffers_go_round (bufs : list T) (n : Z) (s : bq_system) :
  zlen bufs <= n -> rtc bq_step (bq_filled n bufs) s ->
  places (bq s) (filling s) (reading s) ≡ₚ bufs /\
  queued_log s = consumed_log s ++ consumerQueue (bq s) /\
  (forall b, b ∈ filling s -> is_done (bq_queue b (bq s)) = true) /\
  (forall b, b ∈ filling s \/ b ∈ reading s -> is_done (bq_release b (bq s)) = true) /\
  (bufs <> [] -> filling s = [] -> reading s = [] ->
   acquire_ready (bq s) || consume_ready (bq s) = true).
Proof.
  intros Hn Hr; destruct (bq_ok_reach _ _ _ Hn Hr) as [Hok Hf].
  split; [apply Hok|split; [done|split; [|split]]].
  - intros b (l1&l2&Hb)%list_elem_of_split; rewrite Hb in Hok.
    by destruct (placed_queue _ _ _ _ _ _ Hok) as [-> _].
  - intros b [(l1&l2&Hb)%list_elem_of_split|(l1&l2&Hb)%list_elem_of_split]; rewrite Hb in Hok.
    + by destruct (placed_release _ _ _ _ _ _ Hok) as [-> _].
    + by destruct (placed_release_held _ _ _ _ _ _ Hok) as [-> _].
  - intros Hne Hf' Hg; pose proof (ok_places _ _ _ _ Hok) as Hp; unfold places in Hp.
    unfold acquire_ready, consume_ready, isProducerQueueEmpty, isConsumerQueueEmpty.
    rewrite Hf', Hg, !app_nil_r in Hp.
    destruct (producerQueue (bq s)); [|done].
    destruct (consumerQueue (bq s)); [|by destruct (exitPending (bq s))].
    by apply Permutation_nil_l in Hp.
Qed.

(** ** Clearing *)

Lemma pop_consumer_all l q : consumerQueue q = l ->
  pop_consumer (length l) q = q <| consumerQueue := [] |>.
Proof.
  revert q; induction l as [|x l IH]; intros q Hl; cbn.
  - by destruct q; cbn in *; subst.
  - unfold isConsumerQueueEmpty; rewrite Hl; cbn; by rewrite IH.
Qed.

Lemma pop_producer_all l q : producerQueue q = l ->
  pop_producer (length l) q = q <| producerQueue := [] |>.
Proof.
  revert q; induction l as [|x l IH]; intros q Hl; cbn.
  - by destruct q; cbn in *; subst.
  - unfold isProducerQueueEmpty; rewrite Hl; cbn; by rewrite IH.
Qed.

Lemma bq_clear_empty q : bq_clear q = q <| consumerQueue := [] |> <| producerQueue := [] |>.
Proof. unfold bq_clear; by rewrite (pop_consumer_all _ _ eq_refl), (pop_producer_all _ _ eq_refl). Qed.

(** [clear] empties the producers' queue without the mutex of [acquire]: an [acquire] that
    has seen a buffer and not yet taken it reads the front of an empty queue. *)
Lemma clear_races_acquire q :
  exitPending q = false -> producerQueue q <> [] ->
  acquire_ready q = true /\ acquire_take (bq_clear q) = Stop Ub.
Proof.
  intros He Hp; rewrite bq_clear_empty; unfold acquire_ready, acquire_take, isProducerQueueEmpty; cbn.
  rewrite He; destruct (producerQueue q); done.
Qed.

End buffer_queue.

Arguments bq_system : clear implicits.

(** Two buffers, the first of which is queued and consumed while the second is filled. *)
Definition two_buffers : bq_system nat :=
  mkBqSystem (mkBufferQueue [] [] 2 false) [2%nat] [1%nat] [1%nat] [1%nat].

Lemma two_buffers_reach : rtc bq_step (bq_filled 2 [1; 2]%nat) two_buffers.
Proof.
  eapply rtc_l; [by eapply bs_acquire|cbn].
  eapply rtc_l; [by eapply (bs_queue _ _ _ [] [])|cbn].
  eapply rtc_l; [by eapply bs_consume|cbn].
  eapply rtc_l; [by eapply bs_acquire|cbn].
  apply rtc_refl.
Qed.

Lemma buffers_go_round_witness :
  zlen [1; 2]%nat <= 2 /\ rtc bq_step (bq_filled 2 [1; 2]%nat) two_buffers /\
  places (bq two_buffers) [2%nat] [1%nat] ≡ₚ [1; 2]%nat.
Proof.
  split; [done|split; [apply two_buffers_reach|]].
  apply (buffers_go_round [1; 2]%nat 2 two_buffers); [done|apply two_buffers_reach].
Defined.
