(* ===== verification/Regex.v ===== *)
(** Regular expressions as ChannelConfig.h uses them, through [boost::regex_match]: their
    meaning with the text of every group, the promise of the library as a type class, and a
    backtracking matcher that keeps it. *)

From Stdlib Require Import Ascii.
From S2P Require Import Prelude Json.

(** The sources repeat character classes only. A set of characters is a predicate. *)
Inductive regex :=
| Lit (c : ascii)
| Many (p : ascii -> bool)
| Some1 (p : ascii -> bool)
| Cat (r1 r2 : regex)
| Opt (r : regex)
| Group (r : regex).

Definition all_in (p : ascii -> bool) (s : text) : Prop := Forall (fun c => p c = true) s.

(** The number of groups. *)
Fixpoint groups (r : regex) : nat :=
  match r with
  | Lit _ | Many _ | Some1 _ => 0
  | Cat r1 r2 => groups r1 + groups r2
  | Opt r => groups r
  | Group r => S (groups r)
  end.

(** [rmatch r s c]: [r] matches [s] with the groups [c], in the order of their opening
    brackets; a group that takes no part in the match is [None]. *)
Inductive rmatch : regex -> text -> list (option text) -> Prop :=
| m_lit c : rmatch (Lit c) [c] []
| m_many p s : all_in p s -> rmatch (Many p) s []
| m_some p s : s <> [] -> all_in p s -> rmatch (Some1 p) s []
| m_cat r1 r2 s1 s2 c1 c2 : rmatch r1 s1 c1 -> rmatch r2 s2 c2 -> rmatch (Cat r1 r2) (s1 ++ s2) (c1 ++ c2)
| m_opt_none r : rmatch (Opt r) [] (replicate (groups r) None)
| m_opt_some r s c : rmatch r s c -> rmatch (Opt r) s c
| m_group r s c : rmatch r s c -> rmatch (Group r) s (Some s :: c).

(** [boost::regex_match]: the groups of a match of the whole text. *)
Class BoostRegex := regex_match : regex -> text -> option (list (option text)).

Class BoostRegexLaws `{BoostRegex} : Prop := {
  regex_match_sound : forall r s c, regex_match r s = Some c -> rmatch r s c;
  regex_match_complete : forall r s c, rmatch r s c -> is_Some (regex_match r s);
}.

(** * A backtracking matcher *)

(** Every way to take a prefix of [s] in [p], the longest first. *)
Fixpoint prefixes (p : ascii -> bool) (s : text) : list (text * text) :=
  match s with
  | c :: s' =>
    (if p c then map (fun '(t, u) => (c :: t, u)) (prefixes p s') else []) ++ [([], s)]
  | [] => [([], [])]
  end.

(** Every way for [r] to match a prefix of [s]: the groups, the prefix and the rest. *)
Fixpoint run (r : regex) (s : text) : list (list (option text) * text * text) :=
  match r with
  | Lit c => match s with c' :: s => if ceq c' c then [([], [c'], s)] else [] | [] => [] end
  | Many p => map (fun '(t, u) => ([], t, u)) (prefixes p s)
  | Some1 p =>
    match s with
    | c :: s => if p c then map (fun '(t, u) => ([], c :: t, u)) (prefixes p s) else []
    | [] => []
    end
  | Cat r1 r2 =>
    concat (map (fun '(c1, t1, u1) => map (fun '(c2, t2, u2) => (c1 ++ c2, t1 ++ t2, u2)) (run r2 u1))
              (run r1 s))
  | Opt r => run r s ++ [(replicate (groups r) None, [], s)]
  | Group r => map (fun '(c, t, u) => (Some t :: c, t, u)) (run r s)
  end.

Definition match_all (r : regex) (s : text) : option (list (option text)) :=
  match filter (fun x : _ * text => snd x = []) (run r s) with
  | (c, _, _) :: _ => Some c
  | [] => None
  end.

Lemma prefixes_spec p s t u : (t, u) ∈ prefixes p s <-> s = t ++ u /\ all_in p t.
Proof.
  revert t u; induction s as [|c s IH]; intros t u; cbn.
  - rewrite list_elem_of_singleton; split.
    + intros [= -> ->]; split; [done|constructor].
    + by intros [[-> ->]%eq_sym%app_nil _].
  - rewrite elem_of_app, list_elem_of_singleton; split.
    + intros [H|[= -> ->]]; [|split; [done|constructor]].
      destruct (p c) eqn:Hp; [|by apply not_elem_of_nil in H].
      apply list_elem_of_fmap in H as ([t' u']&[= -> ->]&[-> Ht]%IH); split; [done|by constructor].
    + intros [E Ht]; destruct t as [|c' t]; cbn in E; [right; by subst|left].
      injection E as <- E; apply Forall_cons in Ht as [-> Ht].
      apply list_elem_of_fmap; exists (t, u); split; [done|by apply IH].
Qed.

Lemma run_sound r s c t u : (c, t, u) ∈ run r s -> s = t ++ u /\ rmatch r t c.
Proof.
  revert s c t u; induction r as [x|p|p|r1 IH1 r2 IH2|r IH|r IH]; intros s c t u; cbn.
  - destruct s as [|y s]; [by intros ?%not_elem_of_nil|].
    unfold ceq; case_bool_decide; subst; [|by intros ?%not_elem_of_nil].
    intros [= -> -> ->]%list_elem_of_singleton; split; [done|constructor].
  - intros ([t' u']&[= -> -> ->]&[-> Ht]%prefixes_spec)%list_elem_of_fmap; split; [done|by constructor].
  - destruct s as [|y s]; [by intros ?%not_elem_of_nil|].
    destruct (p y) eqn:Hy; [|by intros ?%not_elem_of_nil].
    intros ([t' u']&[= -> -> ->]&[-> Ht]%prefixes_spec)%list_elem_of_fmap.
    split; [done|constructor; [done|by constructor]].
  - intros H; apply list_elem_of_In, in_concat in H as (l&Hl&H).
    apply list_elem_of_In, list_elem_of_fmap in Hl as ([[c1 t1] u1]&->&[-> H1]%IH1).
    apply list_elem_of_In, list_elem_of_fmap in H as ([[c2 t2] u2]&[= -> -> ->]&[-> H2]%IH2).
    split; [by rewrite app_assoc|by constructor].
  - rewrite elem_of_app, list_elem_of_singleton; intros [[-> H]%IH|[= -> -> ->]].
    + split; [done|by constructor].
    + split; [done|constructor].
  - intros ([[c' t'] u']&[= -> -> ->]&[-> H]%IH)%list_elem_of_fmap; split; [done|by constructor].
Qed.

Lemma run_complete r t u c : rmatch r t c -> (c, t, u) ∈ run r (t ++ u).
Proof.
  intros H; revert u; induction H as [x|p s Hs|p s Hne Hs|r1 r2 s1 s2 c1 c2 _ IH1 _ IH2|r|r s c _ IH|r s c _ IH];
    intros u; cbn.
  - unfold ceq; rewrite bool_decide_eq_true_2 by done; constructor.
  - apply list_elem_of_fmap; exists (s, u); split; [done|by apply prefixes_spec].
  - destruct s as [|y s]; [done|]; cbn; apply Forall_cons in Hs as [-> Hs].
    apply list_elem_of_fmap; exists (s, u); split; [done|by apply prefixes_spec].
  - apply list_elem_of_In, in_concat; rewrite <- app_assoc.
    eexists; split; [apply list_elem_of_In, list_elem_of_fmap; eexists (c1, s1, s2 ++ u); split; [done|apply IH1]|].
    apply list_elem_of_In, list_elem_of_fmap; by exists (c2, s2, u).
  - apply elem_of_app; right; by apply list_elem_of_singleton.
  - apply elem_of_app; left; apply IH.
  - apply list_elem_of_fmap; by exists (c, s, u).
Qed.

#[export] Instance match_all_boost : BoostRegex := match_all.

#[export] Instance match_all_laws : BoostRegexLaws.
Proof.
  split; unfold regex_match, match_all_boost, match_all; intros r s c H.
  - destruct (filter _ (run r s)) as [|[[c' t] u] l] eqn:E; [done|].
    injection H as <-; assert (Hin : (c', t, u) ∈ filter (fun x : _ * text => snd x = []) (run r s))
      by (rewrite E; constructor).
    apply list_elem_of_filter in Hin as [Hu [-> Hm]%run_sound]; cbn in Hu; subst; by rewrite app_nil_r.
  - apply (run_complete _ _ []) in H; rewrite app_nil_r in H.
    destruct (filter _ (run r s)) as [|[[c' t] u] l] eqn:E; [|eauto].
    exfalso; apply (not_elem_of_nil (c, s, [] : text)); rewrite <- E.
    by apply list_elem_of_filter.
Qed.

(** * Matching by hand *)

(** A run of characters of a class is determined by what follows it. *)
Definition ends_class (p : ascii -> bool) (s : text) : Prop :=
  match s with [] => True | c :: _ => p c = false end.

Lemma span_unique p s1 s2 u1 u2 : all_in p s1 -> all_in p s2 -> ends_class p u1 -> ends_class p u2 ->
  s1 ++ u1 = s2 ++ u2 -> s1 = s2 /\ u1 = u2.
Proof.
  intros H1; revert s2; induction H1 as [|c s1 Hc _ IH]; intros s2 H2 Hu1 Hu2 E.
  - destruct H2 as [|c' s2 Hc' _]; cbn in *; [done|]; subst; cbn in Hu1; congruence.
  - destruct H2 as [|c' s2 Hc' H2]; cbn in *; [subst; cbn in Hu2; congruence|].
    injection E as <- E; by destruct (IH s2) as [-> ->].
Qed.

Lemma match_lit c s caps : rmatch (Lit c) s caps -> s = [c] /\ caps = [].
Proof. by inversion 1. Qed.

Lemma match_many p s caps : rmatch (Many p) s caps -> all_in p s /\ caps = [].
Proof. by inversion 1. Qed.

Lemma match_some p s caps : rmatch (Some1 p) s caps -> s <> [] /\ all_in p s /\ caps = [].
Proof. by inversion 1. Qed.

Lemma match_cat r1 r2 s caps : rmatch (Cat r1 r2) s caps ->
  exists s1 s2 c1 c2, s = s1 ++ s2 /\ caps = c1 ++ c2 /\ rmatch r1 s1 c1 /\ rmatch r2 s2 c2.
Proof. inversion 1; subst; by do 4 eexists. Qed.

Lemma match_opt r s caps : rmatch (Opt r) s caps ->
  (s = [] /\ caps = replicate (groups r) None) \/ rmatch r s caps.
Proof. inversion 1; subst; auto. Qed.

Lemma match_group r s caps : rmatch (Group r) s caps -> exists c, caps = Some s :: c /\ rmatch r s c.
Proof. inversion 1; subst; eauto. Qed.

(** Take a match of a concrete expression apart. *)
Ltac match_inv :=
  repeat match goal with
  | H : rmatch (Lit _) _ _ |- _ => apply match_lit in H as [? ?]; subst
  | H : rmatch (Many _) _ _ |- _ => apply match_many in H as [? ?]; subst
  | H : rmatch (Some1 _) _ _ |- _ => apply match_some in H as (? & ? & ?); subst
  | H : rmatch (Cat _ _) _ _ |- _ => apply match_cat in H as (? & ? & ? & ? & ? & ? & ? & ?); subst
  | H : rmatch (Opt _) _ _ |- _ => apply match_opt in H as [[? ?]|?]; subst
  | H : rmatch (Group _) _ _ |- _ => apply match_group in H as (? & ? & ?); subst
  end.
