(* ===== verification/StdString.v ===== *)
(** The conversions of [std::string] to numbers that the configuration files go through:
    [std::stoi] and [std::stoull], with what [strtol] and [strtoull] accept in base 10. *)

From Stdlib Require Import Ascii.
From S2P Require Import Prelude Json JsonParser JsonProps.

(** The white space in front of a number is skipped. *)
Fixpoint skip_space (l : text) : text :=
  match l with c :: l' => if isspace c then skip_space l' else l | [] => [] end.

(** A sign, and what is behind it. *)
Definition number_sign (l : text) : bool * text :=
  match l with
  | c :: l' => if ceq c "-"%char then (true, l') else if ceq c "+"%char then (false, l') else (false, l)
  | [] => (false, [])
  end.

(** The sign and the value of the number a text starts with. *)
Definition read_number (l : text) : outcome (bool * Z) :=
  let '(neg, l) := number_sign (skip_space l) in
  match digit_prefix l with
  | ([], _) => Stop (Throw InvalidArgument)
  | (d, _) => Done (neg, digits_value d)
  end.

Definition stoi (l : text) : outcome Z :=
  '(neg, v) ← read_number l;
  let v := if (neg : bool) then - v else v in
  if (-2147483648 <=? v) && (v <=? 2147483647) then Done v else Stop (Throw OutOfRange).

(** A negative number is accepted, and wraps around. *)
Definition stoull (l : text) : outcome Z :=
  '(neg, v) ← read_number l;
  if v <=? 18446744073709551615 then Done (u64 (if (neg : bool) then - v else v))
  else Stop (Throw OutOfRange).

(** [std::remove] of a character and [erase]. *)
Definition erase_char (c : ascii) (l : text) : text := filter (fun x => x <> c) l.

Lemma digit_head c : is_digit c = true ->
  isspace c = false /\ ceq c "-"%char = false /\ ceq c "+"%char = false.
Proof.
  unfold is_digit, isspace; intros H; b2p.
  assert (Hne : forall x, (code x < 48)%Z -> ceq c x = false).
  { intros x Hx; unfold ceq; apply bool_decide_eq_false_2; intros ->; lia. }
  split_and!; [|apply Hne; by vm_compute..].
  rewrite (proj2 (Z.eqb_neq _ _)), (proj2 (Z.leb_gt _ 13)) by lia; by rewrite andb_false_r.
Qed.

Lemma read_number_digits n rest : 0 <= n ->
  match rest with c :: _ => is_digit c = false | [] => True end ->
  read_number (digits_of n ++ rest) = Done (false, n).
Proof.
  intros Hn Hr; destruct (digits_of_spec n Hn) as (d & ds & -> & Hv & Hd).
  pose proof (digit_prefix_all (d :: ds) rest Hd Hr) as Hp.
  apply Forall_cons in Hd as [(H1 & H2 & H3)%digit_head _].
  unfold read_number; cbn [app skip_space]; rewrite H1; cbn [number_sign]; rewrite H2, H3.
  cbn [app] in Hp; by rewrite Hp, Hv.
Qed.

Lemma stoi_digits n : 0 <= n <= 2147483647 -> stoi (digits_of n) = Done n.
Proof.
  intros Hn; unfold stoi; rewrite <- (app_nil_r (digits_of n)), read_number_digits by done || lia.
  rewrite bind_Done; cbv beta iota zeta; rewrite !(proj2 (Z.leb_le _ _)) by lia; done.
Qed.

Lemma stoull_digits n : 0 <= n < 18446744073709551616 -> stoull (digits_of n) = Done n.
Proof.
  intros Hn; unfold stoull; rewrite <- (app_nil_r (digits_of n)), read_number_digits by done || lia.
  rewrite bind_Done; cbv beta iota zeta; rewrite !(proj2 (Z.leb_le _ _)) by lia.
  by rewrite u64_small by lia.
Qed.

Lemma stoi_range l n : stoi l = Done n -> -2147483648 <= n <= 2147483647.
Proof.
  unfold stoi; intros ([neg v]&_&H)%bind_done_inv; revert H; cbv beta iota zeta.
  case_if; [|done]; intros [= <-]; lia.
Qed.

(** [std::stoi] fails with one of the two exceptions only. *)
Lemma stoi_wp l : wp (fun s => exists e, s = Throw e) (stoi l) (fun n => -2147483648 <= n <= 2147483647).
Proof.
  destruct (stoi l) eqn:E; [by apply stoi_range in E|]; cbn; revert E.
  unfold stoi, read_number; destruct (number_sign _) as [neg l'], (digit_prefix l') as [[|c d] r]; cbn.
  - intros [= <-]; eauto.
  - case_if; [done|]; intros [= <-]; eauto.
Qed.
