(* ===== verification/ChannelConfig.v ===== *)
(** Struct [ChannelConfig] of include/ChannelConfig.h: the multicast address, the port and the
    IGMPv3 source address of a channel, read out of its URI. *)

From Stdlib Require Import Ascii.
From S2P Require Import Prelude Json JsonProps StdString Regex.

(** [to_lower] of Boost, and [inet_aton] of the C library: the four bytes of the address, in
    network order, or nothing. *)
Class BoostToLower := to_lower : text -> text.
Class InetAton := inet_aton : text -> option (list Z).

Definition lower_char (c : ascii) : ascii :=
  if (65 <=? code c) && (code c <=? 90) then chr (code c + 32) else c.

(** Four numbers between dots. *)
Definition dotted (sep : text) (a b c d : text) : text :=
  a ++ sep ++ b ++ sep ++ c ++ sep ++ d.

Definition ip_text (a b c d : Z) : text :=
  dotted (text_of ".") (digits_of a) (digits_of b) (digits_of c) (digits_of d).

(** [to_lower] turns every letter into a lower case one. [inet_aton] reads the four parts of a
    dotted address as bytes, and fails when one of them is too large. *)
Class ChannelLaws `{BoostToLower} `{InetAton} : Prop := {
  to_lower_map : forall s, to_lower s = map lower_char s;
  inet_aton_bytes : forall a b c d, is_bytes [a; b; c; d] -> inet_aton (ip_text a b c d) = Some [a; b; c; d];
  inet_aton_large : forall a b c d, Forall (fun n => 0 <= n) [a; b; c; d] -> ~ is_bytes [a; b; c; d] ->
    inet_aton (ip_text a b c d) = None;
  inet_aton_four : forall s l, inet_aton s = Some l -> length l = 4%nat /\ is_bytes l;
}.

Definition DEFAULT_SOCKET_PORT : Z := 8433.
Definition SOURCE_IP_STR : text := text_of "sourceip".
Definition USHRT_MAX : Z := 65535.

Record ChannelConfig := mkChannelConfig {
  mIsValid : bool;
  destinationIp : Z;
  destIPDotDecimal : text;
  port : Z;
  sourceIp : Z;
  srcIPDotDecimal : text;
}.

#[export] Instance ChannelConfig_eta : Eta ChannelConfig := fun r =>
  mkChannelConfig (mIsValid r) (destinationIp r) (destIPDotDecimal r) (port r) (sourceIp r)
    (srcIPDotDecimal r).

(** The members' initialisers, and the constructor without arguments. *)
Definition ChannelConfig_default : ChannelConfig := mkChannelConfig false 0 [] 0 0 [].

Definition IsValid (c : ChannelConfig) : bool := mIsValid c.

(** A word character of a regular expression. *)
Definition is_word (c : ascii) : bool :=
  is_digit c || ((65 <=? code c) && (code c <=? 90)) || ((97 <=? code c) && (code c <=? 122)) ||
  (code c =? 95).

Definition not_newline (c : ascii) : bool := negb (ceq c CR || ceq c NL).

Definition quad : regex :=
  let number := Some1 is_digit in
  let dot := Lit "."%char in
  Cat number (Cat dot (Cat number (Cat dot (Cat number (Cat dot number))))).

(** The two expressions of [extract]. *)
Definition uri_regex : regex :=
  Cat (Group quad)
    (Cat (Opt (Group (Cat (Lit ":"%char) (Some1 is_digit))))
         (Opt (Group (Cat (Lit "/"%char) (Many not_newline))))).

Definition matchSourceIp : regex :=
  Cat (Lit "/"%char)
    (Cat (Lit "?"%char) (Cat (Group (Some1 is_word)) (Cat (Lit "="%char) (Group quad)))).

(** A group that took no part is the empty string. *)
Definition group_text (g : option text) : text := default [] g.

Section channel.
Context `{BoostRegex} `{BoostToLower} `{InetAton}.

(** The address, the port and the source address of a URI; the empty string for what it does
    not have. *)
Definition extract (URI : text) : text * text * text :=
  let '(address, p, srcS) :=
    match regex_match uri_regex URI with
    | Some [address; tmp; srcS] =>
      (group_text address, if 1 <? zlen (group_text tmp) then zdrop 1 (group_text tmp) else [], group_text srcS)
    | _ => ([], [], [])
    end in
  let sIp :=
    match regex_match matchSourceIp srcS with
    | Some [sip; ip] => if bool_decide (to_lower (group_text sip) = SOURCE_IP_STR) then group_text ip else []
    | _ => []
    end in
  (address, p, sIp).

(** [ntohl] of an address in network order. *)
Definition ntohl (bytes : list Z) : Z := fold_left (fun v b => v * 256 + b) bytes 0.

(** When [inet_aton] fails, [addr] is read without ever having been written. *)
Definition parseIPV4string (ipAddress : text) : outcome Z :=
  match inet_aton ipAddress with Some addr => Done (ntohl addr) | None => Stop Ub end.

(** [std::stoi] of the port; every exception gives the default. *)
Definition port_number (dstPort : text) (defaultPort : Z) : Z :=
  if 0 <? zlen dstPort then
    match stoi dstPort with Done n => n | Stop _ => defaultPort end
  else defaultPort.

Definition ChannelConfig_new (uri : text) (defaultPort : Z) : outcome ChannelConfig :=
  let '(dstIp, dstPort, srcIp) := extract uri in
  let c := ChannelConfig_default in
  if zlen dstIp =? 0 then Done c
  else
    let portIn := port_number dstPort defaultPort in
    if (portIn <=? 0) || (USHRT_MAX <=? portIn) then Done (c <| mIsValid := false |>)
    else
      let c := c <| port := u16 portIn |> in
      ip ← parseIPV4string dstIp;
      let c := c <| destinationIp := ip |> <| destIPDotDecimal := dstIp |> <| mIsValid := true |> in
      if 0 <? zlen srcIp then
        ip ← parseIPV4string srcIp;
        Done (c <| sourceIp := ip |> <| srcIPDotDecimal := srcIp |> <| mIsValid := true |>)
      else Done (c <| sourceIp := 0 |> <| mIsValid := true |>).

End channel.
