(* ===== verification/ChannelProps.v ===== *)
(** What [ChannelConfig] makes of a URI: the configuration a well-formed one describes, and
    the range of the members whatever the URI is. *)

From Stdlib Require Import Ascii.
From S2P Require Import Prelude Json JsonParser JsonProps StdString Regex ChannelConfig.

(** * The texts of a URI *)

Record ip_parts := mkIp { ip_a : Z; ip_b : Z; ip_c : Z; ip_d : Z }.

Definition ip_bytes (i : ip_parts) : list Z := [ip_a i; ip_b i; ip_c i; ip_d i].

Definition show_ip (i : ip_parts) : text := ip_text (ip_a i) (ip_b i) (ip_c i) (ip_d i).

Definition show_port (p : option Z) : text :=
  match p with Some p => ":"%char :: digits_of p | None => [] end.

(** The source address under the name [key], of which only the spelling counts. *)
Definition show_source (s : option (text * ip_parts)) : text :=
  match s with Some (key, i) => text_of "/?" ++ key ++ text_of "=" ++ show_ip i | None => [] end.

Definition channel_uri (dst : ip_parts) (p : option Z) (src : option (text * ip_parts)) : text :=
  show_ip dst ++ show_port p ++ show_source src.

(** The configuration it describes. *)
Definition described (dst : ip_parts) (p : option Z) (src : option (text * ip_parts)) : ChannelConfig :=
  mkChannelConfig true (ntohl (ip_bytes dst)) (show_ip dst) (default DEFAULT_SOCKET_PORT p)
    (match src with Some (_, i) => ntohl (ip_bytes i) | None => 0 end)
    (match src with Some (_, i) => show_ip i | None => [] end).

Record uri_parts_ok (dst : ip_parts) (p : option Z) (src : option (text * ip_parts)) : Prop := {
  dst_bytes : is_bytes (ip_bytes dst);
  port_range : match p with Some p => 0 < p < USHRT_MAX | None => True end;
  src_ok : match src with
           | Some (key, i) => all_in is_word key /\ map lower_char key = SOURCE_IP_STR /\ is_bytes (ip_bytes i)
           | None => True
           end;
}.

(** * Matching *)

(** Digits, and at least one. *)
Definition number_text (t : text) : Prop := t <> [] /\ all_in is_digit t.

Lemma digits_number n : 0 <= n -> number_text (digits_of n).
Proof. by intros (d & ds & -> & _ & Hd)%digits_of_spec. Qed.

Lemma quad_match t caps : rmatch quad t caps -> exists a b c d,
  Forall number_text [a; b; c; d] /\ t = dotted (text_of ".") a b c d /\ caps = [].
Proof.
  unfold quad; intros H; match_inv; do 4 eexists; split; [|split; reflexivity].
  by repeat constructor.
Qed.

Lemma match_quad a b c d : Forall number_text [a; b; c; d] ->
  rmatch quad (dotted (text_of ".") a b c d) [].
Proof.
  intros H; decompose_Forall_hyps.
  repeat match goal with H : number_text _ |- _ => destruct H as [? ?] end.
  unfold quad, dotted; repeat (apply (m_cat _ _ _ _ [] []); [by constructor|]); by constructor.
Qed.

(** Addresses are determined by what follows them. *)
Lemma dotted_unique a b c d a' b' c' d' u u' :
  Forall number_text [a; b; c; d] -> Forall number_text [a'; b'; c'; d'] ->
  ends_class is_digit u -> ends_class is_digit u' ->
  dotted (text_of ".") a b c d ++ u = dotted (text_of ".") a' b' c' d' ++ u' ->
  dotted (text_of ".") a b c d = dotted (text_of ".") a' b' c' d' /\ u = u'.
Proof.
  intros H H' Hu Hu' E; decompose_Forall_hyps; unfold dotted in *.
  repeat match goal with H : number_text _ |- _ => destruct H as [_ H] end.
  rewrite <- !app_assoc in E; cbn in E.
  apply (span_unique is_digit) in E as [-> [= E]]; [|done..].
  apply (span_unique is_digit) in E as [-> [= E]]; [|done..].
  apply (span_unique is_digit) in E as [-> [= E]]; [|done..].
  by apply (span_unique is_digit) in E as [-> ->].
Qed.

Lemma ends_digit_cons c u : is_digit c = false -> ends_class is_digit (c :: u).
Proof. done. Qed.

(** A text for an optional group, and the group. *)
Definition optional (t : text) : option text := match t with [] => None | _ => Some t end.

Definition port_text (t : text) : Prop := t = [] \/ exists d, t = ":"%char :: d /\ number_text d.
Definition path_text (t : text) : Prop := t = [] \/ exists d, t = "/"%char :: d /\ all_in not_newline d.

Lemma path_ends t : path_text t -> ends_class is_digit t.
Proof. by intros [->|(d & -> & _)]. Qed.

Lemma port_path_ends p t : port_text p -> path_text t -> ends_class is_digit (p ++ t).
Proof. intros [->|(d & -> & _)] Ht; [by apply path_ends|done]. Qed.

Lemma port_path_unique p t p' t' : port_text p -> path_text t -> port_text p' -> path_text t' ->
  p ++ t = p' ++ t' -> p = p' /\ t = t'.
Proof.
  intros [->|(d & -> & Hd)] Ht [->|(d' & -> & Hd')] Ht' E; cbn in E; [done| | |].
  - by destruct Ht as [->|(x & -> & _)].
  - by destruct Ht' as [->|(x & -> & _)].
  - injection E as E; apply (span_unique is_digit) in E as [-> ->];
      [done|apply Hd|apply Hd'|by apply path_ends..].
Qed.

Lemma port_match t caps : rmatch (Opt (Group (Cat (Lit ":"%char) (Some1 is_digit)))) t caps ->
  port_text t /\ caps = [optional t].
Proof. intros H; match_inv; (split; [|done]); [by left|right; by eexists]. Qed.

Lemma path_match t caps : rmatch (Opt (Group (Cat (Lit "/"%char) (Many not_newline)))) t caps ->
  path_text t /\ caps = [optional t].
Proof. intros H; match_inv; (split; [|done]); [by left|right; by eexists]. Qed.

Section uri.
Context `{HR : BoostRegexLaws}.

Lemma uri_parts t caps : rmatch uri_regex t caps -> exists a b c d p s,
  Forall number_text [a; b; c; d] /\ port_text p /\ path_text s /\
  t = dotted (text_of ".") a b c d ++ p ++ s /\
  caps = [Some (dotted (text_of ".") a b c d); optional p; optional s].
Proof.
  unfold uri_regex; intros H'.
  apply match_cat in H' as (s1 & s2 & c1 & c2 & -> & -> & H1 & H2).
  apply match_group in H1 as (c & -> & (a & b & c' & d & Hq & -> & ->)%quad_match).
  apply match_cat in H2 as (p & s & c3 & c4 & -> & -> & [Hp ->]%port_match & [Hs ->]%path_match).
  by exists a, b, c', d, p, s.
Qed.

(** The groups of a URI made of these parts. *)
Lemma uri_groups a b c d p s :
  Forall number_text [a; b; c; d] -> port_text p -> path_text s ->
  regex_match uri_regex (dotted (text_of ".") a b c d ++ p ++ s) =
  Some [Some (dotted (text_of ".") a b c d); optional p; optional s].
Proof.
  intros Hq Hp Hs.
  assert (rmatch uri_regex (dotted (text_of ".") a b c d ++ p ++ s)
            ([Some (dotted (text_of ".") a b c d)] ++ [optional p] ++ [optional s])) as Hm.
  { constructor; [by constructor; apply match_quad|constructor].
    - destruct Hp as [->|(x & -> & Hx & Hx')];
        [exact (m_opt_none (Group (Cat (Lit ":"%char) (Some1 is_digit))))|apply m_opt_some, m_group].
      by apply (m_cat _ _ [_] _ [] []); constructor.
    - destruct Hs as [->|(x & -> & Hx)];
        [exact (m_opt_none (Group (Cat (Lit "/"%char) (Many not_newline))))|apply m_opt_some, m_group].
      by apply (m_cat _ _ [_] _ [] []); constructor. }
  apply regex_match_complete in Hm as [caps Hm]; rewrite Hm; f_equal.
  apply regex_match_sound, uri_parts in Hm as (a' & b' & c' & d' & p' & s' & Hq' & Hp' & Hs' & E & ->).
  apply dotted_unique in E as [-> E]; [|done|done|by apply port_path_ends..].
  by apply port_path_unique in E as [-> ->].
Qed.

Lemma word_not_eq : ends_class is_word (text_of "=").
Proof. done. Qed.

(** The groups of a path with a source address. *)
Lemma source_groups key a b c d :
  key <> [] -> all_in is_word key -> Forall number_text [a; b; c; d] ->
  regex_match matchSourceIp (text_of "/?" ++ key ++ text_of "=" ++ dotted (text_of ".") a b c d) =
  Some [Some key; Some (dotted (text_of ".") a b c d)].
Proof.
  intros Hne Hk Hq.
  assert (rmatch matchSourceIp (text_of "/?" ++ key ++ text_of "=" ++ dotted (text_of ".") a b c d)
            [Some key; Some (dotted (text_of ".") a b c d)]) as Hm.
  { apply (m_cat _ _ [_] (_ :: _) [] [_; _]); [constructor|].
    apply (m_cat _ _ [_] _ [] [_; _]); [constructor|].
    apply (m_cat _ _ key _ [_] [_]); [by constructor; constructor|].
    apply (m_cat _ _ [_] _ [] [_]); [constructor|]; constructor; by apply match_quad. }
  apply regex_match_complete in Hm as [caps Hm]; rewrite Hm; f_equal.
  apply regex_match_sound in Hm; unfold matchSourceIp in Hm.
  apply match_cat in Hm as (s1 & s2 & c1 & c2 & E & -> & H1 & Hm).
  apply match_cat in Hm as (s3 & s4 & c3 & c4 & -> & -> & H3 & Hm).
  apply match_cat in Hm as (s5 & s6 & c5 & c6 & -> & -> & H5 & Hm).
  apply match_cat in Hm as (s7 & s8 & c7 & c8 & -> & -> & H7 & Hm).
  apply match_group in Hm as (c9 & -> & (a' & b' & c' & d' & Hq' & -> & ->)%quad_match).
  match_inv; cbn in E; injection E as E.
  apply (span_unique is_word) in E as [-> [= E]]; [|done..].
  rewrite <- (app_nil_r (dotted _ a b c d)), <- (app_nil_r (dotted _ a' b' c' d')) in E.
  by apply dotted_unique in E as [-> _].
Qed.

End uri.

(** * The configuration of a URI *)

Lemma digits_not_nil n : 0 <= n -> 0 < zlen (digits_of n).
Proof. intros (d & ds & -> & _)%digits_of_spec; rewrite zlen_cons; pose proof (zlen_nonneg ds); lia. Qed.

Lemma bytes_nonneg l : is_bytes l -> Forall (fun n => 0 <= n) l.
Proof. intros Hl; eapply Forall_impl; [exact Hl|]; unfold is_byte; lia. Qed.

Lemma ip_numbers i : Forall (fun n => 0 <= n) (ip_bytes i) ->
  Forall number_text [digits_of (ip_a i); digits_of (ip_b i); digits_of (ip_c i); digits_of (ip_d i)].
Proof.
  intros Hb; unfold ip_bytes in Hb; decompose_Forall_hyps.
  repeat constructor; by apply digits_number.
Qed.

Lemma word_newline c : is_word c = true -> not_newline c = true.
Proof. unfold not_newline, ceq; intros Hc; by repeat case_bool_decide; subst. Qed.

Lemma digit_word c : is_digit c = true -> is_word c = true.
Proof. unfold is_word; by intros ->. Qed.

Lemma all_in_impl (p q : ascii -> bool) t : (forall c, p c = true -> q c = true) -> all_in p t -> all_in q t.
Proof. intros Hi Ht; by eapply Forall_impl; [exact Ht|]. Qed.

Lemma number_no_newline t : number_text t -> all_in not_newline t.
Proof. intros [_ Ht]; eapply all_in_impl; [|exact Ht]; auto using word_newline, digit_word. Qed.

Lemma show_ip_no_newline i : is_bytes (ip_bytes i) -> all_in not_newline (show_ip i).
Proof.
  intros Hi%bytes_nonneg%ip_numbers; decompose_Forall_hyps.
  unfold show_ip, ip_text, dotted; repeat apply Forall_app_2; try by apply number_no_newline.
  all: by repeat constructor.
Qed.

Lemma show_port_text p : match p with Some p => 0 < p < USHRT_MAX | None => True end -> port_text (show_port p).
Proof. destruct p as [p|]; [|by left]; intros Hp; right; eexists; split; [done|apply digits_number; lia]. Qed.

Lemma show_source_text s :
  match s with
  | Some (key, i) => all_in is_word key /\ map lower_char key = SOURCE_IP_STR /\ is_bytes (ip_bytes i)
  | None => True
  end -> path_text (show_source s).
Proof.
  destruct s as [[key i]|]; [|by left]; intros (Hk & _ & Hi); right.
  exists ("?"%char :: key ++ text_of "=" ++ show_ip i); split; [done|].
  apply Forall_cons_2; [done|]; apply Forall_app_2; [eapply all_in_impl; [apply word_newline|done]|].
  apply Forall_app_2; [by repeat constructor|by apply show_ip_no_newline].
Qed.

Lemma show_ip_not_nil i : (zlen (show_ip i) =? 0) = false.
Proof.
  apply Z.eqb_neq; unfold show_ip, ip_text, dotted; cbn; rewrite zlen_app, zlen_cons.
  match goal with |- zlen ?a + (1 + zlen ?b) <> 0 => pose proof (zlen_nonneg a); pose proof (zlen_nonneg b) end.
  lia.
Qed.

Section config.
Context `{HR : BoostRegexLaws} `{HC : ChannelLaws}.

Lemma source_key key : map lower_char key = SOURCE_IP_STR -> key <> [].
Proof. by intros Hk ->. Qed.

Lemma extract_channel dst p src : Forall (fun n => 0 <= n) (ip_bytes dst) ->
  match p with Some p => 0 < p < USHRT_MAX | None => True end ->
  match src with
  | Some (key, i) => all_in is_word key /\ map lower_char key = SOURCE_IP_STR /\ is_bytes (ip_bytes i)
  | None => True
  end ->
  extract (channel_uri dst p src) =
  (show_ip dst, match p with Some p => digits_of p | None => [] end,
   match src with Some (_, i) => show_ip i | None => [] end).
Proof.
  intros Hd Hp Hs; unfold extract, channel_uri.
  rewrite (uri_groups _ _ _ _ _ _ (ip_numbers _ Hd) (show_port_text _ Hp) (show_source_text _ Hs)).
  f_equal; [f_equal|].
  - destruct p as [p|]; [|done]; unfold group_text; cbn [show_port optional from_option id].
    rewrite zlen_cons; rewrite (proj2 (Z.ltb_lt _ _)) by (pose proof (digits_not_nil p); lia); done.
  - destruct src as [[key i]|]; cbn [show_source].
    + destruct Hs as (Hk & Hl & Hi).
      replace (group_text (optional (text_of "/?" ++ key ++ text_of "=" ++ show_ip i)))
        with (text_of "/?" ++ key ++ text_of "=" ++ show_ip i) by done.
      unfold show_ip, ip_text; rewrite source_groups by eauto using source_key, ip_numbers, bytes_nonneg.
      unfold group_text; cbn [from_option id]; by rewrite to_lower_map, bool_decide_eq_true_2.
    + destruct (regex_match matchSourceIp (group_text (optional []))) as [caps|] eqn:E; [|done].
      apply regex_match_sound, match_cat in E as (s1 & s2 & c1 & c2 & E & _ & [-> _]%match_lit & _); done.
Qed.

Lemma port_number_show p : match p with Some p => 0 < p < USHRT_MAX | None => True end ->
  port_number (match p with Some p => digits_of p | None => [] end) DEFAULT_SOCKET_PORT =
  default DEFAULT_SOCKET_PORT p.
Proof.
  destruct p as [p|]; [|done]; unfold USHRT_MAX; intros Hp; unfold port_number.
  rewrite (proj2 (Z.ltb_lt _ _)) by (apply digits_not_nil; lia); by rewrite stoi_digits by lia.
Qed.

Lemma parse_show_ip i : is_bytes (ip_bytes i) -> parseIPV4string (show_ip i) = Done (ntohl (ip_bytes i)).
Proof. intros Hi; unfold parseIPV4string, show_ip; by rewrite inet_aton_bytes. Qed.

Lemma channel_described (dst : ip_parts) (p : option Z) (src : option (text * ip_parts)) :
  uri_parts_ok dst p src ->
  ChannelConfig_new (channel_uri dst p src) DEFAULT_SOCKET_PORT = Done (described dst p src).
Proof.
  intros Hok; pose proof Hok as [Hd Hp Hs].
  unfold ChannelConfig_new; rewrite extract_channel, show_ip_not_nil, port_number_show by eauto using bytes_nonneg.
  set (q := default DEFAULT_SOCKET_PORT p).
  assert (0 < q < USHRT_MAX) as Hq by (unfold q; destruct p; [done|by vm_compute]).
  rewrite !(proj2 (Z.leb_gt _ _)) by lia; cbn [orb].
  rewrite parse_show_ip, bind_Done by done; unfold described; fold q.
  unfold USHRT_MAX in Hq; rewrite u16_small by lia.
  destruct src as [[key i]|]; [|done].
  rewrite (proj2 (Z.ltb_lt _ _)).
  - destruct Hs as (_ & _ & Hi); by rewrite parse_show_ip.
  - pose proof (show_ip_not_nil i) as ?; pose proof (zlen_nonneg (show_ip i)); b2p; lia.
Qed.

(** C34. The configuration of a URI made of an IPv4 address, with or without a port from 1 to
    65534, with or without a source address named sourceIp in any spelling, has exactly
    these parts; the port is the default one when there is none. *)
Theorem ChannelConfig_reads (dst : ip_parts) (p : option Z) (src : option (text * ip_parts)) :
  uri_parts_ok dst p src ->
  ChannelConfig_new (channel_uri dst p src) DEFAULT_SOCKET_PORT = Done (described dst p src).
Proof. apply channel_described. Qed.

(** ** Any URI *)

Lemma ntohl_range l : length l = 4%nat -> is_bytes l -> 0 <= ntohl l < 4294967296.
Proof.
  intros Hl Hb; destruct l as [|a [|b [|c [|d []]]]]; try done; unfold is_bytes in Hb; decompose_Forall_hyps.
  unfold ntohl, is_byte in *; cbn; lia.
Qed.

Definition is_u32 (n : Z) : Prop := 0 <= n < 4294967296.

(** A valid configuration has a port and addresses of their types; an invalid one is
    untouched. *)
Definition config_ok (c : ChannelConfig) : Prop :=
  if mIsValid c then
    0 < port c < USHRT_MAX /\ is_u32 (destinationIp c) /\ is_u32 (sourceIp c) /\
    destIPDotDecimal c <> [] /\ (srcIPDotDecimal c = [] -> sourceIp c = 0)
  else c = ChannelConfig_default.

Lemma parseIPV4string_range s : wp (fun e => e = Ub /\ inet_aton s = None) (parseIPV4string s) is_u32.
Proof.
  unfold parseIPV4string; destruct (inet_aton s) as [l|] eqn:E; cbn; [|done].
  apply inet_aton_four in E as [Hl Hb]; by apply ntohl_range.
Qed.

(** C40. Whatever the URI is, the configuration is valid, with a port from 1 to 65534 and
    addresses of 32 bits, or is left as it was initialised; the only other outcome is the read
    of an address that [inet_aton] refused and left unwritten. *)
Theorem ChannelConfig_type (uri : text) (defaultPort : Z) :
  wp (fun e => e = Ub /\ exists s, (s = (extract uri).1.1 \/ s = (extract uri).2) /\ inet_aton s = None)
     (ChannelConfig_new uri defaultPort) config_ok.
Proof.
  unfold ChannelConfig_new; destruct (extract uri) as [[dst p] src]; cbn [fst snd].
  case_if; [done|]; case_if; [done|]; unfold USHRT_MAX in *; b2p.
  assert (dst <> []) as Hd by (intros ->; done).
  pose proof (parseIPV4string_range dst) as Hip; destruct (parseIPV4string dst) as [ip|e]; cbn in Hip |- *;
    [|naive_solver].
  case_if.
  - pose proof (parseIPV4string_range src) as His; destruct (parseIPV4string src) as [sip|e]; cbn in His |- *;
      [|naive_solver].
    unfold config_ok, USHRT_MAX; cbn; rewrite u16_small by lia; split_and!; try done; try lia.
    by intros ->.
  - unfold config_ok, USHRT_MAX; cbn; rewrite u16_small by lia; split_and!; done || lia.
Qed.

(** An address with a part above 255 is matched and then refused by [inet_aton]. *)
Lemma ChannelConfig_large_part dst p : Forall (fun n => 0 <= n) (ip_bytes dst) -> ~ is_bytes (ip_bytes dst) ->
  match p with Some p => 0 < p < USHRT_MAX | None => True end ->
  ChannelConfig_new (channel_uri dst p None) DEFAULT_SOCKET_PORT = Stop Ub.
Proof.
  intros Hd Hn Hp; unfold ChannelConfig_new.
  rewrite extract_channel, show_ip_not_nil, port_number_show by done.
  set (q := default DEFAULT_SOCKET_PORT p).
  assert (0 < q < USHRT_MAX) as Hq by (unfold q; destruct p; [done|by vm_compute]).
  rewrite !(proj2 (Z.leb_gt _ _)) by lia; cbn [orb].
  unfold parseIPV4string, show_ip; by rewrite inet_aton_large.
Qed.

End config.

(** * The library functions, concretely *)

Fixpoint split_dots (s : text) : list text :=
  match s with
  | [] => [[]]
  | c :: s =>
    if ceq c "."%char then [] :: split_dots s
    else match split_dots s with t :: l => (c :: t) :: l | [] => [[c]] end
  end.

#[export] Instance lower_ascii : BoostToLower := map lower_char.

#[export] Instance aton_decimal : InetAton := fun s =>
  let l := map digits_value (split_dots s) in
  if bool_decide (length l = 4%nat) && bool_decide (is_bytes l) then Some l else None.

Lemma split_number t u : all_in is_digit t -> split_dots (t ++ text_of "." ++ u) = t :: split_dots u.
Proof.
  intros Ht; induction Ht as [|c t Hc _ IH]; [done|]; cbn [app split_dots].
  assert (ceq c "."%char = false) as -> by (apply bool_decide_eq_false_2; by intros ->).
  by rewrite IH.
Qed.

Lemma split_last t : all_in is_digit t -> split_dots t = [t].
Proof.
  intros Ht; induction Ht as [|c t Hc _ IH]; [done|]; cbn [split_dots].
  assert (ceq c "."%char = false) as -> by (apply bool_decide_eq_false_2; by intros ->).
  by rewrite IH.
Qed.

Lemma split_ip a b c d : Forall (fun n => 0 <= n) [a; b; c; d] ->
  map digits_value (split_dots (ip_text a b c d)) = [a; b; c; d].
Proof.
  intros H; decompose_Forall_hyps; unfold ip_text, dotted.
  repeat match goal with H : 0 <= ?n |- _ =>
    let d := fresh "d" in let ds := fresh "ds" in let Hv := fresh "Hv" in let Hd := fresh "Hd" in
    let E := fresh "E" in
    destruct (digits_of_spec n H) as (d & ds & E & Hv & Hd); rewrite <- E in Hv, Hd; clear E H end.
  rewrite !split_number, split_last by done; cbn [map]; congruence.
Qed.

#[export] Instance channel_laws : ChannelLaws.
Proof.
  split; [done|..]; unfold inet_aton, aton_decimal.
  - intros a b c d Hb; rewrite split_ip by by apply bytes_nonneg.
    by rewrite !bool_decide_eq_true_2.
  - intros a b c d Hn Hb; rewrite split_ip by done; by rewrite (bool_decide_eq_false_2 (is_bytes _)), andb_false_r.
  - intros s l; case_if; [|done]; by intros [= <-].
Qed.

Definition sample_dst : ip_parts := mkIp 234 80 160 204.
Definition sample_src : option (text * ip_parts) := Some (text_of "sourceIp", mkIp 2 3 4 5).

Lemma sample_uri_ok : uri_parts_ok sample_dst (Some 5900) sample_src.
Proof. split; [by apply (bool_decide_unpack _); vm_compute|done|split_and!; [|done|]; by repeat constructor]. Qed.

Lemma ChannelConfig_reads_witness :
  channel_uri sample_dst (Some 5900) sample_src = text_of "234.80.160.204:5900/?sourceIp=2.3.4.5" /\
  ChannelConfig_new (text_of "234.80.160.204:5900/?sourceIp=2.3.4.5") DEFAULT_SOCKET_PORT =
  Done (described sample_dst (Some 5900) sample_src).
Proof.
  split; [by vm_compute|].
  apply (ChannelConfig_reads sample_dst (Some 5900) sample_src sample_uri_ok).
Defined.

Lemma ChannelConfig_type_witness :
  wp (fun e => e = Ub /\ exists s, (s = (extract (text_of "1.2.3.999:80")).1.1 \/
                                  s = (extract (text_of "1.2.3.999:80")).2) /\ inet_aton s = None)
     (ChannelConfig_new (text_of "1.2.3.999:80") 1) config_ok.
Proof. apply (ChannelConfig_type (text_of "1.2.3.999:80") 1). Defined.
