(* ===== verification/MediaSource.v ===== *)
(** Class [MediaSourceHandler] of include/MediaSourceHandler.h and src/MediaSourceHandler.cpp:
    the channel that is tuned to, the connection of its demuxer, the buffers that go from the
    demuxer to the consumer thread, and the monitors of the data and of the network. Also the
    allocator of src/externals.cpp, class [Demuxer] of include/Demuxer.h as an interface, and
    the messages of include/network/NetworkRouteObserver.h.

    Every operation is one step of the thread that runs it; a body of a thread's loop is an
    operation, except that the reaction of [messageLoop] to a message that it handles without a
    mutex is one step for each access. A pointer is a number, [nullptr] is 0, and [heap] holds what the pointers to
    buffers point to. *)

From stdpp Require Import sorting.
From S2P Require Import Prelude Interfaces Json Regex ChannelConfig BufferQueue.

(** * Buffers *)

(** [char *channelInfo]: null, a string made by [strdup], or what [malloc] left there. *)
Inductive channel_ptr := NoChannel | Channel (t : text) | Indeterminate.

#[export] Instance channel_ptr_eq_dec : EqDecision channel_ptr.
Proof. solve_decision. Defined.

Record bq_buffer := mkBuffer {
  magic : list Z;
  channelInfo : channel_ptr;
  buf_id : Z;
  size : Z;
  capacity : Z;
  buffer : list Z;
}.

#[export] Instance bq_buffer_eta : Eta bq_buffer := fun r =>
  mkBuffer (magic r) (channelInfo r) (buf_id r) (size r) (capacity r) (buffer r).

Definition FEIP_BUFFER_SIZE : Z := 32 * 7 * 188.
Definition FEIP_DEFAULT_BUFFER_COUNT : nat := 64.
Definition NOKIA_BUFFER_MAGIC : list Z := [110; 107; 105; 97].

(** [mem] is what [malloc] returns: an address and the contents of the memory there, or
    nothing. The constructor of [bq_buffer] is not run. *)
Definition alloc_bq_buffer (mem : option (Z * bq_buffer)) (sz : Z) (heap : gmap Z bq_buffer) (counter : Z)
  : Z * gmap Z bq_buffer * Z :=
  let counter := u64 (counter + 1) in
  match mem with
  | None => (0, heap, counter)
  | Some (p, result) =>
    let result := result <| buf_id := counter |> <| magic := NOKIA_BUFFER_MAGIC |> <| size := u32 sz |>
                         <| capacity := u32 sz |> in
    (p, <[p := result]> heap, counter)
  end.

Definition free_bq_buffer (buf : Z) (heap : gmap Z bq_buffer) : outcome (gmap Z bq_buffer) :=
  if buf =? 0 then Done heap
  else match heap !! buf with Some _ => Done (delete buf heap) | None => Stop Ub end.

(** * Interfaces *)

(** The virtual functions of class [Demuxer] that the handler calls. *)
Class Demuxer (D : Type) := {
  dx_init : D -> D;
  dx_connect : D -> D * Z;
  dx_start : Z -> D -> D;
  dx_informFirstFrameReceived : D -> D;
  dx_disconnect : Z -> D -> D;
  dx_open : text -> text -> D -> D;
  dx_getGlobalStats : D -> text;
  dx_getChannelStats : bool -> D -> D * text;
}.

Inductive MessageType := MSG_UNDEFINED | NO_GATEWAY | NEW_GATEWAY | NO_MULTICAST.

Record NetworkMessage := mkMessage { what : MessageType; interface : text }.

Inductive demuxer_status := OPENED | PAT_PMT_UPDATED | ECM_UPDATED.

(** What is left to do of the reaction to a message, for the session [k]: the demuxer is
    disconnected; the connection is forgotten; the demuxer is connected; the connection [id] is
    noted; the demuxer is opened with the current URI; or with none. *)
Inductive reaction :=
| RLeave (k : Z) | RForget (k : Z) | RJoin (k : Z) | RKnow (k id : Z) | ROpen (k : Z) | ROffline (k : Z).

(** What the handler tells the others: the callback handler of the demuxer, the stream
    processor, the reader that waits for data, the socket server, and the variable
    [kBufferSrcLost0]. *)
Inductive source_event :=
| StreamSwitched (uri : text)
| OnOpen (uri : text)
| OnEndOfStream (uri : text)
| Post (channel : channel_ptr) (chunk : list Z)
| DataReceived
| SocketSend (buf : list Z) (size : Z)
| BufferSrcLost (value : text).

(** * State *)

Definition FEIP_CONNECTION_UNINITIALIZED : Z := -255.

Record FeipSession (D : Type) := mkSession {
  mDemuxer : D;
  connectionId : Z;
  firstBufferDisplayed : bool;
}.
Arguments mkSession {D} _ _ _.
Arguments mDemuxer {D} _.
Arguments connectionId {D} _.
Arguments firstBufferDisplayed {D} _.

#[export] Instance FeipSession_eta D : Eta (FeipSession D) := fun r =>
  mkSession (mDemuxer r) (connectionId r) (firstBufferDisplayed r).

Definition FeipSession_new {D} (dMux : D) : FeipSession D := mkSession dMux 0 false.

Record MediaSourceHandler (D : Type) := mkSource {
  mFccBufferQueue : BufferQueue Z;
  heap : gmap Z bq_buffer;
  bufferRefs : list Z;
  mSessions : gmap Z (FeipSession D);
  mExitRequested : bool;
  mCurrentUri : text;
  mCurrentChannelConfig : ChannelConfig;
  mLastValidBufferTimeMs : Z;
  mBufferSourceLost : bool;
  mSourceLostCounter : Z;
  mMessageHandler : list NetworkMessage;
  mReaction : list reaction;
  events : list source_event;
}.
Arguments mkSource {D} _ _ _ _ _ _ _ _ _ _ _ _ _.
Arguments mFccBufferQueue {D} _.
Arguments heap {D} _.
Arguments bufferRefs {D} _.
Arguments mSessions {D} _.
Arguments mExitRequested {D} _.
Arguments mCurrentUri {D} _.
Arguments mCurrentChannelConfig {D} _.
Arguments mLastValidBufferTimeMs {D} _.
Arguments mBufferSourceLost {D} _.
Arguments mSourceLostCounter {D} _.
Arguments mMessageHandler {D} _.
Arguments mReaction {D} _.
Arguments events {D} _.

#[export] Instance MediaSourceHandler_eta D : Eta (MediaSourceHandler D) := fun r =>
  mkSource (mFccBufferQueue r) (heap r) (bufferRefs r) (mSessions r) (mExitRequested r) (mCurrentUri r)
    (mCurrentChannelConfig r) (mLastValidBufferTimeMs r) (mBufferSourceLost r) (mSourceLostCounter r)
    (mMessageHandler r) (mReaction r) (events r).

Definition NO_BUFFER_RECEIVED_THRESHOLD_MS : Z := 2000.
Definition NO_BUFFER_RECEIVED_RECONFIGURE_THRESHOLD_MS : Z := 5000.
Definition NO_CHANNEL_URL : text := text_of "0.0.0.0:5900".

(** * Operations *)

Section handler.
Context {D : Type} `{Demuxer D} `{BoostRegex} `{BoostToLower} `{InetAton} `{StreamfsConfig}.
Implicit Types (s : MediaSourceHandler D) (sess : FeipSession D).

Definition emit (e : source_event) s : MediaSourceHandler D := s <| events := events s ++ [e] |>.

(** The buffer a pointer leads to. *)
Definition deref (p : Z) s : outcome bq_buffer :=
  match heap s !! p with Some b => Done b | None => Stop Ub end.

Definition returnBufferToBQ (pBuffer : Z) s : outcome (MediaSourceHandler D) :=
  if pBuffer =? 0 then Done s
  else
    q ← bq_release pBuffer (mFccBufferQueue s);
    Done (s <| mFccBufferQueue := q |>).

(** The pointer stays null when the queue is being destroyed. *)
Definition acquireBuffer s : outcome (MediaSourceHandler D * Z) :=
  '(q, res) ← bq_acquire (mFccBufferQueue s);
  Done (s <| mFccBufferQueue := q |>, default 0 res).

(** The session is looked up first and used last, whether it was found or not. The socket
    server gets a copy of the buffer before it is queued. *)
Definition pushBuffertoBQ (pBuffer demuxId : Z) s : outcome (MediaSourceHandler D) :=
  let session := mSessions s !! demuxId in
  b ← deref pBuffer s;
  let s := emit (SocketSend (buffer b) (size b)) s in
  q ← bq_queue pBuffer (mFccBufferQueue s);
  let s := emit DataReceived (s <| mFccBufferQueue := q |>) in
  match session with
  | None => Stop Ub
  | Some sess =>
    if negb (firstBufferDisplayed sess) then
      let sess := sess <| mDemuxer := dx_informFirstFrameReceived (mDemuxer sess) |>
                       <| firstBufferDisplayed := true |> in
      Done (s <| mSessions := <[demuxId := sess]> (mSessions s) |>)
    else Done s
  end.

(** ** The channel *)

Definition disconnect sess s : FeipSession D * MediaSourceHandler D :=
  if connectionId sess =? FEIP_CONNECTION_UNINITIALIZED then (sess, s)
  else
    let sess := sess <| mDemuxer := dx_disconnect (connectionId sess) (mDemuxer sess) |>
                     <| connectionId := FEIP_CONNECTION_UNINITIALIZED |> in
    (sess, emit (OnEndOfStream (mCurrentUri s)) s).

Definition connect sess : FeipSession D :=
  let '(d, id) := dx_connect (mDemuxer sess) in
  let sess := sess <| mDemuxer := d |> in
  if 0 <=? id then sess <| connectionId := id |> else sess.

(** [now] is the time on [steady_clock], in milliseconds. *)
Definition source_open (uri : text) (demuxer now : Z) s : outcome (MediaSourceHandler D * Z) :=
  if bool_decide (mCurrentUri s = uri) then Done (s, -1)
  else
    match mSessions s !! demuxer with
    | None => Done (s, -1)
    | Some feip =>
      let '(d, _) := dx_getChannelStats true (mDemuxer feip) in
      let feip := feip <| mDemuxer := d |> in
      config ← ChannelConfig_new uri DEFAULT_SOCKET_PORT;
      let s := s <| mCurrentChannelConfig := config |> <| mCurrentUri := uri |> in
      let '(feip, s) := disconnect feip s in
      let s := emit (StreamSwitched uri) s in
      match uri with
      | [] => Done (s <| mSessions := <[demuxer := feip]> (mSessions s) |>, 0)
      | _ =>
        let feip := connect (feip <| firstBufferDisplayed := false |>) in
        let feip := feip <| mDemuxer := dx_open uri [] (mDemuxer feip) |> in
        let s := emit (OnOpen uri) (s <| mSessions := <[demuxer := feip]> (mSessions s) |>) in
        Done (s <| mLastValidBufferTimeMs := now |>, 0)
      end
    end.

Definition getCurrentUri s : text := mCurrentUri s.

Definition isChannelActive s : bool :=
  negb (destinationIp (mCurrentChannelConfig s) =? 0) ||
  bool_decide (ztake 4 (mCurrentUri s) = text_of "http").

Definition getGlobalStats (demuxerId : Z) s : text :=
  match mSessions s !! demuxerId with Some sess => dx_getGlobalStats (mDemuxer sess) | None => [] end.

Definition getChannelStats (demuxerId : Z) s : MediaSourceHandler D * text :=
  match mSessions s !! demuxerId with
  | Some sess =>
    let '(d, stats) := dx_getChannelStats false (mDemuxer sess) in
    (s <| mSessions := <[demuxerId := sess <| mDemuxer := d |>]> (mSessions s) |>, stats)
  | None => (s, [])
  end.

Definition notifyStatusChanged (status : demuxer_status) (feipId demuxSessionId : Z) s : MediaSourceHandler D :=
  match mSessions s !! demuxSessionId with
  | None => s
  | Some sess =>
    match status with
    | PAT_PMT_UPDATED =>
      let sess := sess <| mDemuxer := dx_start feipId (mDemuxer sess) |> in
      s <| mSessions := <[demuxSessionId := sess]> (mSessions s) |>
    | _ => s
    end
  end.

(** ** The network *)

Definition reopen (uri hwInterface : text) sess : FeipSession D :=
  sess <| mDemuxer := dx_open uri hwInterface (mDemuxer sess) |>.

Definition on_session (k : Z) (f : FeipSession D -> FeipSession D) s : MediaSourceHandler D :=
  s <| mSessions := alter f k (mSessions s) |>.

(** One access of [messageLoop] to a session or to its demuxer. The reactions to [NO_GATEWAY] and
    [NO_MULTICAST] take no mutex, so that other threads run between any two of them. *)
Definition react (r : reaction) s : MediaSourceHandler D :=
  match r with
  | RLeave k =>
    match mSessions s !! k with
    | Some sess =>
      if negb (connectionId sess =? FEIP_CONNECTION_UNINITIALIZED) then
        on_session k (fun sess => sess <| mDemuxer := dx_disconnect (connectionId sess) (mDemuxer sess) |>)
          (s <| mReaction := RForget k :: mReaction s |>)
      else s
    | None => s
    end
  | RForget k => on_session k (fun sess => sess <| connectionId := FEIP_CONNECTION_UNINITIALIZED |>) s
  | RJoin k =>
    match mSessions s !! k with
    | Some sess =>
      let '(d, id) := dx_connect (mDemuxer sess) in
      on_session k (fun sess => sess <| mDemuxer := d |>) (s <| mReaction := RKnow k id :: mReaction s |>)
    | None => s
    end
  | RKnow k id => if 0 <=? id then on_session k (fun sess => sess <| connectionId := id |>) s else s
  | ROpen k => on_session k (reopen (mCurrentUri s) []) s
  | ROffline k => on_session k (reopen NO_CHANNEL_URL (text_of "lo")) s
  end.

(** The sessions in the order of [mSessions]. *)
Definition session_ids s : list Z := merge_sort Z.le (map_to_list (mSessions s)).*1.

(** What [messageLoop] does with a message: [NEW_GATEWAY] is handled under [mFeipConfMutex], the
    mutex of [open], and is one step; of the others the accesses to the sessions are left to do. *)
Definition handle_message (msg : NetworkMessage) (now : Z) s : MediaSourceHandler D :=
  match what msg with
  | NO_GATEWAY => s <| mReaction := ROffline <$> session_ids s |>
  | NEW_GATEWAY =>
    let s := s <| mLastValidBufferTimeMs := now |> in
    s <| mSessions := reopen (mCurrentUri s) (interface msg) <$> mSessions s |>
  | NO_MULTICAST =>
    let s := s <| mLastValidBufferTimeMs := now |> in
    s <| mReaction := concat ((fun k => [RLeave k; RJoin k; ROpen k]) <$> session_ids s) |>
  | MSG_UNDEFINED => s
  end.

(** A step of [messageLoop]: of the reaction to the last message, or, when that is done, of the
    next message; it waits when there is none. *)
Definition messageLoop (now : Z) s : outcome (MediaSourceHandler D) :=
  match mReaction s with
  | r :: rest => Done (react r (s <| mReaction := rest |>))
  | [] =>
    match mMessageHandler s with
    | [] => Stop Blocked
    | msg :: l => Done (handle_message msg now (s <| mMessageHandler := l |>))
    end
  end.

(** [NetworkRouteObserver::defaultRouteChanged]. *)
Definition defaultRouteChanged (iface : text) s : MediaSourceHandler D :=
  let msg := match iface with [] => mkMessage NO_GATEWAY [] | _ => mkMessage NEW_GATEWAY iface end in
  s <| mMessageHandler := mMessageHandler s ++ [msg] |>.

(** ** The monitor of the data *)

Definition srcStateToMVar (state : bool) (counter : Z) : text :=
  (if state then text_of "1" else text_of "0") ++ text_of "," ++ digits_of counter.

Definition set_lost (state : bool) s : MediaSourceHandler D :=
  let s := s <| mBufferSourceLost := state |> in
  emit (BufferSrcLost (srcStateToMVar state (mSourceLostCounter s))) s.

Definition reportTSBufferQueued (now : Z) s : MediaSourceHandler D :=
  let s := s <| mLastValidBufferTimeMs := now |> in
  if mBufferSourceLost s then set_lost false s else s.

(** One null packet: the PID is 0x1fff. *)
Definition null_packet : list Z := [71; 31; 255; 16] ++ replicate (Z.to_nat (TS_PACKAGE_SIZE - 4)) 0.

(** The [do] loop over the buffer: [b] is the offset that is written to. *)
Fixpoint null_loop (fuel : nat) (buf : bq_buffer) (b : Z) : outcome bq_buffer :=
  match fuel with
  | O => Stop OutOfFuel
  | S fuel =>
    bytes ← splice (buffer buf) b null_packet;
    let buf := buf <| buffer := bytes |> in
    let b := b + TS_PACKAGE_SIZE in
    if b <? size buf then null_loop fuel buf b else Done buf
  end.

(** Every turn but the first is for at least one more byte of the buffer. *)
Definition write_nulls (buf : bq_buffer) : outcome bq_buffer := null_loop (S (Z.to_nat (size buf))) buf 0.

Definition injectNullBuffers s : outcome (MediaSourceHandler D) :=
  '(s, buf) ← acquireBuffer s;
  b ← deref buf s;
  b ← write_nulls b;
  pushBuffertoBQ buf 0 (s <| heap := <[buf := b]> (heap s) |>).

(** A turn of [dataMonitorLoop], after its sleep. *)
Definition dataMonitorLoop (now : Z) s : outcome (MediaSourceHandler D) :=
  if negb (destinationIp (mCurrentChannelConfig s) =? 0) then
    let diff := now - mLastValidBufferTimeMs s in
    if NO_BUFFER_RECEIVED_RECONFIGURE_THRESHOLD_MS <? diff then
      Done (s <| mMessageHandler := mMessageHandler s ++ [mkMessage NO_MULTICAST []] |>)
    else if NO_BUFFER_RECEIVED_THRESHOLD_MS <? diff then
      let s := if negb (mBufferSourceLost s)
               then set_lost true (s <| mSourceLostCounter := u32 (mSourceLostCounter s + 1) |>) else s in
      injectNullBuffers s
    else Done s
  else Done s.

(** ** The consumer *)

(** The locals of [consumerLoop] that live across its turns. *)
Record consumer_locals := mkConsumer { chunk : list Z; offset : Z }.

#[export] Instance consumer_locals_eta : Eta consumer_locals := fun r => mkConsumer (chunk r) (offset r).

(** The inner loop, over the [remainingInputBytes] of the buffer [data] from [pos] on. *)
Fixpoint copy_loop (fuel : nat) (channel : channel_ptr) (data : list Z) (pos remainingInputBytes : Z)
  (c : consumer_locals) s : outcome (consumer_locals * MediaSourceHandler D) :=
  match fuel with
  | O => Stop OutOfFuel
  | S fuel =>
    if 0 <? remainingInputBytes then
      let remaining_bytes := u32 (BUFFER_CHUNK_SIZE - offset c) in
      let copy_bytes := Z.min remaining_bytes remainingInputBytes in
      bytes ← slice data pos copy_bytes;
      l ← splice (chunk c) (offset c) bytes;
      let c := c <| chunk := l |> in
      let s := if copy_bytes + offset c =? BUFFER_CHUNK_SIZE then emit (Post channel l) s else s in
      let c := c <| offset := (offset c + copy_bytes) mod BUFFER_CHUNK_SIZE |> in
      copy_loop fuel channel data (pos + copy_bytes) (u32 (remainingInputBytes - copy_bytes)) c s
    else Done (c, s)
  end.

(** Every turn of the loop takes a byte or more. *)
Definition copy_buffer (b : bq_buffer) (c : consumer_locals) s : outcome (consumer_locals * MediaSourceHandler D) :=
  copy_loop (S (Z.to_nat (size b))) (channelInfo b) (buffer b) 0 (size b) c s.

(** The buffer [p] is cut into chunks and released. *)
Definition consume_buffer (p : Z) (c : consumer_locals) s : outcome (consumer_locals * MediaSourceHandler D) :=
  b ← deref p s;
  '(c, s) ← copy_buffer b c s;
  q ← bq_release p (mFccBufferQueue s);
  Done (c, s <| mFccBufferQueue := q |>).

(** The start of a turn of [consumerLoop]: the buffer it takes, if one comes in time. *)
Definition take_buffer s : outcome (MediaSourceHandler D * option Z) :=
  '(q, p) ← bq_consume_timed (mFccBufferQueue s);
  Done (s <| mFccBufferQueue := q |>, p).

(** ** Construction *)

(** The loop of the constructor; [mems] is what [malloc] returns, call by call. *)
Fixpoint alloc_buffers (mems : list (option (Z * bq_buffer))) (counter : Z) s : outcome (MediaSourceHandler D) :=
  match mems with
  | [] => Done s
  | mem :: mems =>
    let '(buf, h, counter) := alloc_bq_buffer mem FEIP_BUFFER_SIZE (heap s) counter in
    let s := s <| heap := h |> <| bufferRefs := bufferRefs s ++ [buf] |> in
    q ← bq_release buf (mFccBufferQueue s);
    alloc_buffers mems counter (s <| mFccBufferQueue := q |>)
  end.

(** [mLastValidBufferTimeMs] has no initialiser; [time] is what it holds. The threads start
    when the handler is used. Nothing when the process exits for want of a callback
    handler. *)
Definition MediaSourceHandler_new (dMux : D) (id : Z) (hasCallback : bool) (time : Z)
  (mems : list (option (Z * bq_buffer))) : outcome (option (MediaSourceHandler D)) :=
  let s := mkSource (BufferQueue_new (Z.of_nat FEIP_DEFAULT_BUFFER_COUNT)) ∅ [] ∅ false [] ChannelConfig_default
             time false 0 [] [] [] in
  let s := set_lost false s in
  s ← alloc_buffers (take FEIP_DEFAULT_BUFFER_COUNT mems) 0 s;
  let dMux := dx_init dMux in
  let sess := (FeipSession_new dMux) <| connectionId := FEIP_CONNECTION_UNINITIALIZED |> in
  let s := s <| mSessions := <[id := sess]> (mSessions s) |> in
  Done (if hasCallback then Some s else None).

Fixpoint free_buffers (bufs : list Z) s : outcome (MediaSourceHandler D) :=
  match bufs with
  | [] => Done s
  | buf :: bufs =>
    h ← free_bq_buffer buf (heap s);
    free_buffers bufs (s <| heap := h |>)
  end.

(** The destructor, once the threads have been joined. *)
Definition MediaSourceHandler_destroy s : outcome (MediaSourceHandler D) :=
  let s := s <| mExitRequested := true |> in
  free_buffers (bufferRefs s) (s <| mFccBufferQueue := bq_clear (mFccBufferQueue s) |>).

End handler.
