(* ===== verification/CallbackHandler.v ===== *)
(** Class [DemuxerCallbackHandler] of include/DemuxerCallbackHandler.h as an interface: what a
    demuxer has besides the stream. The handlers of the HTTP, UDP, RTP and DVB demuxers do
    nothing; that of the set-top box reports the tables of a channel (Nokia.v). *)

From S2P Require Import Prelude Json Protection MediaSource.

(** The monitored variables of type [ByteVectorType]. *)
Inductive bytes_variable := kEcm0 | kPmt0 | kPat0.

#[export] Instance bytes_variable_eq_dec : EqDecision bytes_variable.
Proof. solve_decision. Defined.

(** What a handler does to the others: an assignment to a monitored variable, or a call of the
    status callback. *)
Inductive handler_event :=
| SetBytes (v : bytes_variable) (value : list Z)
| SetDrm0 (value : StreamProtectionConfig)
| StatusChanged (status : demuxer_status) (feipId : Z).

(** [ch_events] are the events so far, the oldest first. *)
Class CallbackHandler (H : Type) := {
  ch_switched : text -> H -> H;
  ch_events : H -> list handler_event;
}.

(** [HttpCBHandler], [UdpCbHandler], [RtpCbHandler] and [DvbCbHandler]. *)
#[export] Instance quiet_handler : CallbackHandler unit := {
  ch_switched uri h := h;
  ch_events h := [];
}.

(** [DemuxerCallbackHandler::setCallbackHandler]: a null pointer leaves what there was. *)
Record DemuxerCallbackHandler := mkCallbackHandler { mCb : option Z; mDemuxId : Z }.

Definition DemuxerCallbackHandler_new : DemuxerCallbackHandler := mkCallbackHandler None 0.

Definition setCallbackHandler (cb : option Z) (demuxerId : Z) (s : DemuxerCallbackHandler) : DemuxerCallbackHandler :=
  match cb with Some _ => mkCallbackHandler cb demuxerId | None => s end.
