(* ===== verification/SourceData.v ===== *)
(** The data path of the media source handler: the consumer cuts the bytes of the buffers,
    whatever their sizes, into chunks, and the monitor fills a buffer with null packets. *)

From S2P Require Import Prelude Interfaces Json Regex ChannelConfig BufferQueue MediaSource.

(** * Cutting into chunks *)

(** The reference: the full pieces of [n] elements of [l], and what is left. *)
Definition pieces {A} (n : Z) (l : list A) : list (list A) :=
  (fun i => ztake n (zdrop (i * n) l)) <$> seqZ 0 (zlen l / n).

Definition leftover {A} (n : Z) (l : list A) : list A := zdrop (zlen l / n * n) l.

Lemma pieces_nil {A} n : pieces n (@nil A) = [].
Proof. unfold pieces; change (zlen (@nil A)) with 0; by rewrite Zdiv_0_l. Qed.

Lemma pieces_cons {A} n (x l : list A) : zlen x = n -> 0 < n -> pieces n (x ++ l) = x :: pieces n l.
Proof.
  intros Hx Hn; unfold pieces; rewrite zlen_app, Hx.
  pose proof (zlen_nonneg l).
  replace ((n + zlen l) / n) with (zlen l / n + 1)
    by (rewrite <- (Z.div_add _ 1 n) by lia; f_equal; lia).
  pose proof (Z.div_pos (zlen l) n ltac:(lia) ltac:(lia)).
  rewrite seqZ_cons, fmap_cons by lia; f_equal.
  - rewrite Z.mul_0_l, zdrop_0, ztake_app_l by lia; by apply ztake_all; lia.
  - replace (Z.succ 0) with (1 + 0) by lia; replace (Z.pred (zlen l / n + 1)) with (zlen l / n) by lia.
    rewrite <- (fmap_add_seqZ 1), <- list_fmap_compose.
    apply list_fmap_ext; intros i y [Hi _]%lookup_seqZ; cbn.
    subst y; rewrite zdrop_app_r by (rewrite Hx; nia); do 2 f_equal; lia.
Qed.

Lemma pieces_unique {A} n (new : list (list A)) rest : 0 < n -> Forall (fun x => zlen x = n) new -> zlen rest < n ->
  pieces n (concat new ++ rest) = new /\ leftover n (concat new ++ rest) = rest.
Proof.
  intros Hn Hnew Hr; split.
  - induction Hnew as [|x new Hx _ IH]; cbn.
    + pose proof (zlen_nonneg rest); unfold pieces; by rewrite Z.div_small by lia.
    + rewrite <- app_assoc, pieces_cons by done; by f_equal.
  - unfold leftover; assert (zlen (concat new) = zlen new * n) as Hc.
    { induction Hnew as [|x new Hx _ IH]; [done|]; cbn [concat]; rewrite zlen_app, zlen_cons, IH; lia. }
    pose proof (zlen_nonneg rest); rewrite zlen_app, Hc, Z.add_comm, Z.div_add, Z.div_small by lia.
    rewrite Z.add_0_l, zdrop_app_r, Hc, Z.sub_diag, zdrop_0 by lia; done.
Qed.

Section data.
Context {D : Type} `{Demuxer D} {cfg : StreamfsConfig} {Hcfg : StreamfsConfigOk cfg}.
Implicit Types (s : MediaSourceHandler D) (c : consumer_locals).

Definition consumer_ok c : Prop := zlen (chunk c) = BUFFER_CHUNK_SIZE /\ 0 <= offset c < BUFFER_CHUNK_SIZE.

(** The bytes of a chunk that is not full yet. *)
Definition partial c : list Z := ztake (offset c) (chunk c).

Definition post_all (channel : channel_ptr) (chunks : list (list Z)) s : MediaSourceHandler D :=
  s <| events := events s ++ (Post channel <$> chunks) |>.

Lemma chunk_pos : 0 < BUFFER_CHUNK_SIZE < 4294967296.
Proof. pose proof chunk_holds_package; pose proof chunk_size_int; lia. Qed.

(** One turn of the loop: [n] bytes of [bytes] go into the chunk. *)
Lemma partial_step c bytes l : consumer_ok c -> zlen bytes <= BUFFER_CHUNK_SIZE - offset c ->
  splice (chunk c) (offset c) bytes = Done l ->
  let c' := mkConsumer l ((offset c + zlen bytes) mod BUFFER_CHUNK_SIZE) in
  consumer_ok c' /\
  partial c ++ bytes =
  (if zlen bytes + offset c =? BUFFER_CHUNK_SIZE then l else []) ++ partial c'.
Proof.
  intros [Hl Ho] Hb E; pose proof chunk_pos; cbv zeta.
  rewrite splice_ok in E by lia; injection E as <-; pose proof (zlen_nonneg bytes) as Hz.
  assert (Ht : zlen (ztake (offset c) (chunk c)) = offset c) by (rewrite zlen_ztake; lia).
  split; [split; cbn; [|by apply Z.mod_pos_bound; lia]|].
  - rewrite !zlen_app, Ht, zlen_zdrop by lia; lia.
  - unfold partial; cbn; case_if.
    + rewrite Z.add_comm, E, Z_mod_same_full, ztake_0, app_nil_r.
      rewrite (zdrop_all _ (chunk c)) by lia; by rewrite app_nil_r.
    + rewrite Z.mod_small by lia; rewrite app_assoc, ztake_app_l by (rewrite zlen_app; lia).
      rewrite (ztake_all (offset c + zlen bytes)); [done|rewrite zlen_app; lia].
Qed.
Lemma copy_loop_spec channel data : zlen data < 4294967296 -> forall fuel pos rem c s,
  consumer_ok c -> 0 <= pos -> 0 <= rem -> pos + rem <= zlen data -> rem < Z.of_nat fuel ->
  exists c' chunks, copy_loop fuel channel data pos rem c s = Done (c', post_all channel chunks s) /\
    consumer_ok c' /\ Forall (fun x => zlen x = BUFFER_CHUNK_SIZE) chunks /\
    partial c ++ ztake rem (zdrop pos data) = concat chunks ++ partial c'.
Proof.
  intros Hdata fuel; induction fuel as [|fuel IH]; intros pos rem c s Hc Hp Hr Hd Hf; [lia|].
  pose proof chunk_pos; pose proof Hc as [Hl Ho]; cbn [copy_loop].
  destruct (0 <? rem) eqn:E; b2p.
  2:{ assert (rem = 0) as -> by lia; exists c, []; split_and!; [|done|constructor|by rewrite ztake_0, app_nil_r].
      do 2 f_equal; destruct s; unfold post_all; cbn; by rewrite app_nil_r. }
  rewrite u32_small by lia; set (n := Z.min (BUFFER_CHUNK_SIZE - offset c) rem).
  rewrite slice_ok, bind_Done by lia; set (bytes := ztake n (zdrop pos data)).
  assert (zlen bytes = n) as Hn by (unfold bytes; rewrite zlen_ztake; [done|rewrite zlen_zdrop; lia]).
  destruct (splice (chunk c) (offset c) bytes) as [l|e] eqn:Es; [|rewrite splice_ok in Es by lia; done].
  pose proof (partial_step c bytes l Hc ltac:(lia) Es) as [Hc' Hpart]; rewrite Hn in Hc', Hpart.
  rewrite bind_Done; cbv zeta; rewrite u32_small by lia.
  change (offset (c <| chunk := l |>)) with (offset c).
  assert (ztake rem (zdrop pos data) = bytes ++ ztake (rem - n) (zdrop (pos + n) data)) as Hsplit.
  { unfold bytes; rewrite <- zdrop_zdrop by lia; rewrite <- ztake_add by lia; f_equal; lia. }
  destruct (n + offset c =? BUFFER_CHUNK_SIZE) eqn:Ep.
  - destruct (IH (pos + n) (rem - n) _ (emit (Post channel l) s) Hc') as (c' & chunks & E' & Hok & Hall & Hcat); [lia..|].
    exists c', (l :: chunks); split_and!; [|done| |].
    + etransitivity; [exact E'|]; do 2 f_equal; unfold post_all, emit; destruct s; cbn; by rewrite <- app_assoc.
    + constructor; [|done]; apply Hc'.
    + cbn [concat]; rewrite <- app_assoc, <- Hcat, Hsplit, app_assoc, Hpart, <- app_assoc; done.
  - destruct (IH (pos + n) (rem - n) _ s Hc') as (c' & chunks & E' & Hok & Hall & Hcat); [lia..|].
    exists c', chunks; split_and!; [exact E'|done..|].
    rewrite <- Hcat, Hsplit, app_assoc, Hpart; done.
Qed.

(** The bytes a buffer holds, and a buffer as the producers queue it. *)
Definition bytes_of (b : bq_buffer) : list Z := ztake (size b) (buffer b).

Definition buffer_ok (b : bq_buffer) : Prop :=
  zlen (buffer b) = FEIP_BUFFER_SIZE /\ 0 <= size b <= FEIP_BUFFER_SIZE.

Lemma copy_buffer_spec b c s : buffer_ok b -> consumer_ok c ->
  exists c' chunks, copy_buffer b c s = Done (c', post_all (channelInfo b) chunks s) /\
    consumer_ok c' /\ Forall (fun x => zlen x = BUFFER_CHUNK_SIZE) chunks /\
    partial c ++ bytes_of b = concat chunks ++ partial c'.
Proof.
  intros [Hb Hs] Hc; unfold FEIP_BUFFER_SIZE in *.
  apply (copy_loop_spec (channelInfo b) (buffer b) ltac:(lia)); lia || done.
Qed.

(** The buffers a consumer takes one after the other. *)
Fixpoint copy_all (bufs : list bq_buffer) c s : outcome (consumer_locals * MediaSourceHandler D) :=
  match bufs with
  | [] => Done (c, s)
  | b :: bufs => '(c, s) ← copy_buffer b c s; copy_all bufs c s
  end.

Definition posted_chunks s : list (list Z) :=
  omap (fun e => match e with Post _ l => Some l | _ => None end) (events s).

Lemma posted_post_all channel chunks s : posted_chunks (post_all channel chunks s) = posted_chunks s ++ chunks.
Proof.
  unfold posted_chunks, post_all; cbn; rewrite omap_app; f_equal.
  induction chunks as [|x l IH]; cbn; [done|]; by f_equal.
Qed.

Lemma partial_short c : consumer_ok c -> zlen (partial c) < BUFFER_CHUNK_SIZE.
Proof. intros [Hl Ho]; unfold partial; rewrite zlen_ztake; lia. Qed.

Lemma copy_all_spec bufs c s : Forall buffer_ok bufs -> consumer_ok c ->
  exists c' s' chunks, copy_all bufs c s = Done (c', s') /\ consumer_ok c' /\
    posted_chunks s' = posted_chunks s ++ chunks /\ Forall (fun x => zlen x = BUFFER_CHUNK_SIZE) chunks /\
    partial c ++ concat (bytes_of <$> bufs) = concat chunks ++ partial c'.
Proof.
  intros Hb; revert c s; induction Hb as [|b bufs Hb _ IH]; intros c s Hc; cbn [copy_all].
  - exists c, s, []; split_and!; [done|done|by rewrite app_nil_r|constructor|by cbn; rewrite app_nil_r].
  - destruct (copy_buffer_spec b c s Hb Hc) as (c1 & l1 & -> & Hc1 & Hl1 & E1); rewrite bind_Done; cbv beta iota.
    destruct (IH c1 (post_all (channelInfo b) l1 s) Hc1) as (c2 & s2 & l2 & -> & Hc2 & Hp & Hl2 & E2).
    exists c2, s2, (l1 ++ l2); split_and!; [done|done| |by apply Forall_app_2|].
    + by rewrite Hp, posted_post_all, app_assoc.
    + cbn; rewrite app_assoc, E1, concat_app, <- !app_assoc, E2; done.
Qed.

(** C10. The consumer posts exactly the full pieces of the byte stream its buffers make up,
    whatever the sizes of the buffers are: copying through one chunk with an offset is
    equivalent to cutting the concatenation of the bytes it had left over and of the
    buffers, and the bytes it keeps are what that leaves over. *)
Theorem consumer_cuts_stream (bufs : list bq_buffer) (c : consumer_locals) (s : MediaSourceHandler D) :
  Forall buffer_ok bufs -> consumer_ok c ->
  let stream := partial c ++ concat (bytes_of <$> bufs) in
  exists c' s', copy_all bufs c s = Done (c', s') /\ consumer_ok c' /\
    posted_chunks s' = posted_chunks s ++ pieces BUFFER_CHUNK_SIZE stream /\
    partial c' = leftover BUFFER_CHUNK_SIZE stream.
Proof.
  intros Hb Hc; destruct (copy_all_spec bufs c s Hb Hc) as (c' & s' & l & E & Hc' & Hp & Hl & Hcat).
  exists c', s'; cbv zeta; rewrite Hcat; pose proof chunk_pos.
  destruct (pieces_unique BUFFER_CHUNK_SIZE l (partial c')) as [-> ->]; [lia|done|by apply partial_short|].
  done.
Qed.

(** * Null packets *)

Lemma zlen_null_packet : zlen null_packet = 188.
Proof.
  unfold null_packet; rewrite zlen_app, package_size_188, zlen_replicate by lia; done.
Qed.

(** The packets written for a buffer of [n] bytes: at least one, and enough of them. *)
Definition null_count (n : Z) : nat := Z.to_nat (Z.max 1 ((n + 187) / 188)).

Definition null_stream (k : nat) : list Z := concat (replicate k null_packet).

Lemma zlen_null_stream k : zlen (null_stream k) = 188 * Z.of_nat k.
Proof.
  unfold null_stream; induction k as [|k IH]; [done|].
  cbn [replicate concat]; rewrite zlen_app, zlen_null_packet, IH; lia.
Qed.

Lemma null_stream_snoc k : null_stream k ++ null_packet = null_stream (S k).
Proof. unfold null_stream; by rewrite replicate_S_end, concat_app; cbn; rewrite app_nil_r. Qed.

(** The buffer with its first [k] packets replaced. *)
Definition with_nulls (k : nat) (b : bq_buffer) : bq_buffer :=
  b <| buffer := null_stream k ++ zdrop (188 * Z.of_nat k) (buffer b) |>.

Lemma null_count_room b : buffer_ok b -> 188 * Z.of_nat (null_count (size b)) <= zlen (buffer b).
Proof.
  intros [Hl Hs]; unfold null_count, FEIP_BUFFER_SIZE in *; rewrite Hl.
  pose proof (Z.mul_div_le (size b + 187) 188); pose proof (Z.div_lt_upper_bound (size b + 187) 188 225).
  lia.
Qed.

Lemma write_null b k : buffer_ok b -> (k < null_count (size b))%nat ->
  splice (buffer (with_nulls k b)) (188 * Z.of_nat k) null_packet = Done (buffer (with_nulls (S k) b)).
Proof.
  intros Hb Hk; pose proof (null_count_room b Hb); unfold with_nulls; cbn [buffer bq_buffer_eta].
  assert (zlen (null_stream k ++ zdrop (188 * Z.of_nat k) (buffer b)) = zlen (buffer b)) as Hz.
  { rewrite zlen_app, zlen_null_stream, zlen_zdrop by lia; lia. }
  change (buffer (b <| buffer := ?x |>)) with x.
  rewrite splice_ok by (rewrite ?Hz, ?zlen_null_packet; lia); f_equal.
  rewrite ztake_app_l, ztake_all by (rewrite zlen_null_stream; lia).
  rewrite zlen_null_packet, zdrop_app_r, zlen_null_stream, zdrop_zdrop by (rewrite ?zlen_null_stream; lia).
  rewrite app_assoc, null_stream_snoc; do 2 f_equal; lia.
Qed.

Lemma null_loop_spec b : buffer_ok b -> forall fuel k, (k < null_count (size b) <= k + fuel)%nat ->
  null_loop fuel (with_nulls k b) (188 * Z.of_nat k) = Done (with_nulls (null_count (size b)) b).
Proof.
  intros Hb fuel; induction fuel as [|fuel IH]; intros k Hk; [lia|]; cbn [null_loop].
  rewrite write_null, bind_Done by (done || lia); cbv zeta.
  change ((with_nulls k b) <| buffer := buffer (with_nulls (S k) b) |>) with (with_nulls (S k) b).
  change (size (with_nulls (S k) b)) with (size b); rewrite package_size_188.
  replace (188 * Z.of_nat k + 188) with (188 * Z.of_nat (S k)) by lia.
  destruct Hb as [Hl Hs]; unfold null_count in *.
  pose proof (Z.mul_div_le (size b + 187) 188); pose proof (Z.mul_succ_div_gt (size b + 187) 188).
  case_if; [apply IH; lia|].
  do 2 f_equal; lia.
Qed.

(** The monitor's filler: a buffer of the pool is overwritten with null packets that cover
    all the bytes it has, and at least one packet of them, without a byte being written
    outside it; what is queued is null packets only. *)
Lemma write_nulls_fills (b : bq_buffer) : buffer_ok b ->
  write_nulls b = Done (with_nulls (null_count (size b)) b) /\
  bytes_of (with_nulls (null_count (size b)) b) = ztake (size b) (null_stream (null_count (size b))) /\
  buffer_ok (with_nulls (null_count (size b)) b).
Proof.
  intros Hb; pose proof (null_count_room b Hb) as Hroom; pose proof Hb as [Hl Hs].
  assert (size b <= 188 * Z.of_nat (null_count (size b))) as Hcover.
  { unfold null_count; pose proof (Z.mul_succ_div_gt (size b + 187) 188); lia. }
  split; [|split].
  - unfold write_nulls; replace b with (with_nulls 0 b) at 2 by (by destruct b).
    apply (null_loop_spec b Hb _ 0); unfold null_count.
    pose proof (Z.div_le_upper_bound (size b + 187) 188 (size b + 1)); lia.
  - unfold bytes_of, with_nulls; change (size (b <| buffer := ?x |>)) with (size b).
    change (buffer (b <| buffer := ?x |>)) with x; by rewrite ztake_app_l by (rewrite zlen_null_stream; lia).
  - split; [|done]; unfold with_nulls; change (buffer (b <| buffer := ?x |>)) with x.
    rewrite zlen_app, zlen_null_stream, zlen_zdrop by lia; lia.
Qed.

End data.
