(* ===== verification/SourceQueue.v ===== *)
(** The buffers of the media source handler on their way: the queue, the memory and the events as
    the threads that fill buffers, the consumer and the monitor change them, for any demuxer. *)

From S2P Require Import Prelude Interfaces Json Regex ChannelConfig BufferQueue MediaSource SourceData.

(** What [malloc] returns to the constructor: memory for every buffer, in different places. What
    the memory holds is not known, the pointer [channelInfo] included. *)
Definition mem_ok (mem : option (Z * bq_buffer)) : Prop :=
  match mem with
  | Some (_, b) => zlen (buffer b) = FEIP_BUFFER_SIZE
  | None => False
  end.

(** The pointer is no pointer. *)
Definition uninitialised (mem : option (Z * bq_buffer)) : Prop :=
  match mem with
  | Some (_, b) => channelInfo b = Indeterminate
  | None => False
  end.

Definition mem_ptr (mem : option (Z * bq_buffer)) : Z := default 0 (fst <$> mem).

Record mems_ok (mems : list (option (Z * bq_buffer))) : Prop := {
  mems_count : length mems = FEIP_DEFAULT_BUFFER_COUNT;
  mems_all : Forall mem_ok mems;
  mems_distinct : NoDup (mem_ptr <$> mems);
}.

(** * The memory of the buffers *)

(** Whether a buffer may have a [channelInfo] that was never written. *)
Class Dirt := dirty : Prop.

(** A thread waits, or uses such a pointer. *)
Definition may_stop {dirt : Dirt} (e : stop) : Prop := e = Blocked \/ (e = Ub /\ dirty).

Section memory.
Context {dirt : Dirt}.

Lemma may_wait : may_stop Blocked.
Proof. by left. Qed.

Lemma wp_waits {A} (P : A -> Prop) : wp may_stop (Stop Blocked) P.
Proof. by left. Qed.

(** A step that only waits. *)
Lemma wp_may_stop {A} (m : outcome A) (P : A -> Prop) : wp (fun e => e = Blocked) m P -> wp may_stop m P.
Proof. destruct m; [done|]; by left. Qed.

Definition content (h : gmap Z bq_buffer) (p : Z) : list Z :=
  match h !! p with Some b => bytes_of b | None => [] end.

Definition heap_ok (bufs : list Z) (hp : gmap Z bq_buffer) : Prop :=
  Forall (fun p => exists b, hp !! p = Some b /\ buffer_ok b /\ (channelInfo b = Indeterminate -> dirty)) bufs.

Lemma content_other hp p b (l : list Z) : p ∉ l -> content (<[p := b]> hp) <$> l = content hp <$> l.
Proof.
  intros Hp; apply list_fmap_ext; intros i q Hq; unfold content.
  rewrite lookup_insert_ne; [done|]; intros ->; apply Hp; by eapply list_elem_of_lookup_2.
Qed.

Lemma content_same hp p b : content (<[p := b]> hp) p = bytes_of b.
Proof. unfold content; by rewrite lookup_insert_eq. Qed.

Lemma heap_insert bufs hp p b : heap_ok bufs hp -> buffer_ok b -> (channelInfo b = Indeterminate -> dirty) ->
  heap_ok bufs (<[p := b]> hp).
Proof.
  intros Hh Hb Hc; eapply Forall_impl; [exact Hh|]; intros q (b' & Hq & Hok); cbv beta.
  destruct (decide (p = q)) as [->|Hne]; [exists b; by rewrite lookup_insert_eq|].
  exists b'; by rewrite lookup_insert_ne.
Qed.

Lemma heap_lookup bufs hp p : heap_ok bufs hp -> p ∈ bufs ->
  exists b, hp !! p = Some b /\ buffer_ok b /\ (channelInfo b = Indeterminate -> dirty).
Proof. unfold heap_ok; rewrite Forall_forall; intros Hh Hp; exact (Hh p Hp). Qed.

End memory.

#[export] Hint Resolve may_wait wp_waits : core.

(** A buffer that is held is nowhere else. *)
Lemma held_apart (bufs : list Z) q p f tk : NoDup bufs -> bq_placed bufs q (p :: f) (option_list tk) ->
  p ∈ bufs /\ (p ∉ option_list tk ++ consumerQueue q) /\ p ∉ f.
Proof.
  intros Hn [Hp _ _]; rewrite <- Hp in Hn |- *; unfold places in *; split; [set_solver|].
  apply NoDup_app in Hn as (_ & Hc & (_ & _ & Hn)%NoDup_app).
  cbn in Hn; apply NoDup_cons in Hn as [Hn _]; split; [|set_solver].
  intros [Hin|Hin]%elem_of_app; [set_solver|by apply (Hc p Hin); set_solver].
Qed.


(** * The events *)

Section queue.
Context {Rx : BoostRegex} {Tl : BoostToLower} {Ia : InetAton} {D : Type} {DX : Demuxer D}.
Context {cfg : StreamfsConfig} {dirt : Dirt}.
Implicit Types s : MediaSourceHandler D.

(** What the socket server reads of the memory it has been given. *)
Definition dumped (s : MediaSourceHandler D) : list (outcome (list Z)) :=
  omap (fun e => match e with SocketSend buf size => Some (slice buf 0 size) | _ => None end) (events s).

Lemma posted_emit e (s : MediaSourceHandler D) :
  match e with Post _ _ => False | _ => True end -> posted_chunks (emit e s) = posted_chunks s.
Proof. intros He; unfold posted_chunks, emit; cbn; rewrite omap_app; destruct e; try done; by rewrite app_nil_r. Qed.

Lemma dumped_emit e (s : MediaSourceHandler D) :
  match e with SocketSend _ _ => False | _ => True end -> dumped (emit e s) = dumped s.
Proof. intros He; unfold dumped, emit; cbn; rewrite omap_app; destruct e; try done; by rewrite app_nil_r. Qed.

Lemma dumped_send buf size (s : MediaSourceHandler D) :
  dumped (emit (SocketSend buf size) s) = dumped s ++ [slice buf 0 size].
Proof. unfold dumped, emit; cbn -[slice]; by rewrite omap_app. Qed.


(** While a channel stays open there are chunks, and news about the data. *)
Definition quiet_event (e : source_event) : Prop :=
  match e with
  | Post channel chunk => (channel = Indeterminate -> dirty) /\ zlen chunk = BUFFER_CHUNK_SIZE
  | DataReceived | SocketSend _ _ | BufferSrcLost _ => True
  | OnOpen _ | OnEndOfStream _ | StreamSwitched _ => False
  end.

Definition event_bytes (e : source_event) : list Z :=
  match e with Post _ chunk => chunk | _ => [] end.

(** Events are added, none of which opens or ends a channel, and the channel stays. *)
Definition adds (s s' : MediaSourceHandler D) : Prop :=
  (exists new, events s' = events s ++ new /\ Forall quiet_event new) /\
  mCurrentChannelConfig s' = mCurrentChannelConfig s /\ mCurrentUri s' = mCurrentUri s.

Lemma adds_refl s : adds s s.
Proof. split; [|done]; exists []; by rewrite app_nil_r. Qed.

Lemma adds_trans s1 s2 s3 : adds s1 s2 -> adds s2 s3 -> adds s1 s3.
Proof.
  intros ((n1 & E1 & F1) & C1 & U1) ((n2 & E2 & F2) & C2 & U2); split; [|split; congruence].
  exists (n1 ++ n2); rewrite E2, E1, app_assoc; split; [done|by apply Forall_app_2].
Qed.

(** Nothing is said. *)
Lemma adds_none s s' : events s' = events s -> mCurrentChannelConfig s' = mCurrentChannelConfig s ->
  mCurrentUri s' = mCurrentUri s -> adds s s'.
Proof. intros E C U; split; [|done]; exists []; by rewrite app_nil_r. Qed.

Lemma adds_emit e s : quiet_event e -> adds s (emit e s).
Proof. intros He; split; [|done]; exists [e]; split; [done|by constructor]. Qed.

Lemma adds_push p n s s' : pushBuffertoBQ p n s = Done s' -> adds s s'.
Proof.
  unfold pushBuffertoBQ; intros (b & _ & (qu & _ & Hr)%bind_done_inv)%bind_done_inv; revert Hr; cbv zeta.
  destruct (mSessions s !! n) as [sess|]; [|done].
  pose proof (adds_emit (SocketSend (buffer b) (size b)) s I) as H0; set (s0 := emit _ s) in *.
  set (s1 := s0 <| mFccBufferQueue := qu |>); pose proof (adds_emit DataReceived s1 I) as H1.
  assert (H2 : adds s (emit DataReceived s1)).
  { eapply adds_trans; [exact H0|]; eapply adds_trans; [|exact H1]; by apply adds_none. }
  case_if; intros [= <-]; (eapply adds_trans; [exact H2|]); by apply adds_none.
Qed.

Lemma adds_acquire s s' p : acquireBuffer s = Done (s', p) -> adds s s'.
Proof. unfold acquireBuffer; intros ([qu r] & _ & Hr)%bind_done_inv; injection Hr as <- _; by apply adds_none. Qed.

Lemma adds_inject s s' : injectNullBuffers s = Done s' -> adds s s'.
Proof.
  unfold injectNullBuffers; intros ([s1 buf] & H1%adds_acquire & (b & _ & (b' & _ & H2)%bind_done_inv)%bind_done_inv)%bind_done_inv.
  apply adds_push in H2; eapply adds_trans; [exact H1|]; eapply adds_trans; [|exact H2]; by apply adds_none.
Qed.

Lemma adds_lost b (s : MediaSourceHandler D) : adds s (set_lost b s).
Proof. unfold set_lost; eapply adds_trans; [|by apply adds_emit]; by apply adds_none. Qed.

Lemma adds_monitor now (s s' : MediaSourceHandler D) : dataMonitorLoop now s = Done s' -> adds s s'.
Proof.
  unfold dataMonitorLoop; case_if; [|intros [= <-]; apply adds_refl].
  case_if; [intros [= <-]; by apply adds_none|]; case_if; [|intros [= <-]; apply adds_refl]; cbv zeta.
  intros Hi%adds_inject; eapply adds_trans; [|exact Hi]; case_if; [|apply adds_refl].
  eapply adds_trans; [|apply adds_lost]; by apply adds_none.
Qed.

Lemma adds_message now (s s' : MediaSourceHandler D) : messageLoop now s = Done s' -> adds s s'.
Proof.
  unfold messageLoop; destruct (mReaction s) as [|r rest]; [destruct (mMessageHandler s) as [|msg l]; [done|]|]; intros [= <-].
  - unfold handle_message; destruct (what msg); by apply adds_none.
  - destruct r; cbn [react]; repeat case_match; by apply adds_none.
Qed.

Lemma posted_added (s s' : MediaSourceHandler D) new : events s' = events s ++ new ->
  concat (posted_chunks s') = concat (posted_chunks s) ++ concat (event_bytes <$> new).
Proof.
  intros He; unfold posted_chunks; rewrite He, omap_app, concat_app; f_equal.
  clear He; induction new as [|e new IH]; [done|]; destruct e; cbn; by rewrite IH.
Qed.


(** * The queue *)

(** The queued buffers, the next one the consumer reads first. *)
Definition waiting (s : MediaSourceHandler D) (tk : option Z) : list Z :=
  option_list tk ++ consumerQueue (mFccBufferQueue s).

(** Where the buffers are: those of [filling] are held by the thread that brings the data, and
    [tk] by the consumer. *)
Record queue_ok (bufs : list Z) s (filling : list Z) (tk : option Z) : Prop := {
  qk_session : is_Some (mSessions s !! 0);
  qk_heap : heap_ok bufs (heap s);
  qk_nodup : NoDup bufs;
  qk_placed : bq_placed bufs (mFccBufferQueue s) filling (option_list tk);
}.

(** A buffer has a [channelInfo] that was never written. *)
Definition unlabelled s : Prop := exists p b, heap s !! p = Some b /\ channelInfo b = Indeterminate.

(** The first buffer of a channel is reported to the demuxer. *)
Definition told_session (sess : FeipSession D) : FeipSession D :=
  sess <| mDemuxer := dx_informFirstFrameReceived (mDemuxer sess) |> <| firstBufferDisplayed := true |>.

Definition told s s' : Prop :=
  mSessions s' = mSessions s \/
  exists sess, mSessions s !! 0 = Some sess /\ mSessions s' = <[0 := told_session sess]> (mSessions s).

Lemma told_is_some s s' : told s s' -> is_Some (mSessions s !! 0) -> is_Some (mSessions s' !! 0).
Proof. intros [->|(sess & _ & ->)]; [done|]; rewrite lookup_insert_eq; by eexists. Qed.

(** A buffer in which bytes have been written is queued. *)
Lemma push_spec bufs s p f tk b : is_Some (mSessions s !! 0) -> heap s !! p = Some b -> buffer_ok b ->
  bq_placed bufs (mFccBufferQueue s) (p :: f) (option_list tk) ->
  exists s', pushBuffertoBQ p 0 s = Done s' /\ heap s' = heap s /\
    mFccBufferQueue s' = (mFccBufferQueue s) <| consumerQueue := consumerQueue (mFccBufferQueue s) ++ [p] |> /\
    bq_placed bufs (mFccBufferQueue s') f (option_list tk) /\ posted_chunks s' = posted_chunks s /\
    dumped s' = dumped s ++ [Done (bytes_of b)] /\ told s s'.
Proof.
  intros [sess Es] Hb Hbok Hp; destruct (placed_queue _ _ [] p f _ Hp) as [Eq Hp']; unfold pushBuffertoBQ, deref; rewrite Hb, bind_Done.
  cbv zeta; set (s1 := emit _ s); change (mFccBufferQueue s1) with (mFccBufferQueue s); rewrite Eq, bind_Done, Es.
  set (q := _ <| consumerQueue := _ |>) in *; set (s2 := emit DataReceived (s1 <| mFccBufferQueue := q |>)).
  assert (H2 : posted_chunks s2 = posted_chunks s /\ dumped s2 = dumped s ++ [Done (bytes_of b)]).
  { split; [etransitivity; [exact (posted_emit DataReceived _ I)|exact (posted_emit (SocketSend (buffer b) (size b)) s I)]|].
    etransitivity; [exact (dumped_emit DataReceived _ I)|]; etransitivity; [exact (dumped_send (buffer b) (size b) s)|].
    destruct Hbok as [Hl Hz]; rewrite slice_ok, zdrop_0 by (unfold FEIP_BUFFER_SIZE in *; lia); done. }
  destruct (firstBufferDisplayed sess); cbn [negb]; eexists; split_and!; try done; try apply H2; [by left|].
  right; by exists sess.
Qed.

(** A free buffer is taken, written to and queued: [new] is what it is then. *)
Lemma acquire_spec bufs s f tk : queue_ok bufs s f tk ->
  wp (fun e => e = Blocked) (acquireBuffer s) (fun '(s1, p) => exists b q,
    s1 = s <| mFccBufferQueue := q |> /\ heap s !! p = Some b /\ buffer_ok b /\ (channelInfo b = Indeterminate -> dirty) /\ (p ∉ f) /\
    forall new, buffer_ok new -> (channelInfo new = Indeterminate -> dirty) ->
      exists s', pushBuffertoBQ p 0 (s1 <| heap := <[p := new]> (heap s1) |>) = Done s' /\ queue_ok bufs s' f tk /\
        heap s' = <[p := new]> (heap s) /\ posted_chunks s' = posted_chunks s /\
        dumped s' = dumped s ++ [Done (bytes_of new)] /\ told s s' /\
        content (heap s') <$> waiting s' tk = (content (heap s) <$> waiting s tk) ++ [bytes_of new]).
Proof.
  intros [Hsess Hheap Hn Hp]; unfold acquireBuffer; apply placed_acquire in Hp.
  destruct (producerQueue (mFccBufferQueue s)) as [|p l]; [by rewrite Hp|]; destruct Hp as [-> Hp].
  cbn [mbind outcome_bind default from_option id wp]; set (q := _ <| producerQueue := l |>) in *.
  destruct (held_apart _ _ _ _ _ Hn Hp) as (Hin & Hap & Hf).
  destruct (heap_lookup _ _ _ Hheap Hin) as (b & Hb & Hbok & Hbch); exists b, q; split_and!; try done.
  intros new Hnew Hch; set (s2 := _ <| heap := _ |>).
  destruct (push_spec bufs s2 p f tk new Hsess) as (s' & Hpush & Hh' & Hq' & Hp' & Hpost & Hdump & Ht);
    [apply lookup_insert_eq|done|exact Hp|].
  change (heap s2) with (<[p := new]> (heap s)) in Hh'; change (mFccBufferQueue s2) with q in Hq'.
  exists s'; split_and!; try done; [split|].
  - by apply (told_is_some s2).
  - rewrite Hh'; by apply heap_insert.
  - done.
  - done.
  - unfold waiting; rewrite Hh', Hq'; change (consumerQueue (q <| consumerQueue := ?x |>)) with x.
    rewrite app_assoc, fmap_app; cbn [fmap list_fmap]; rewrite content_same; f_equal.
    by apply (content_other (heap s) p new).
Qed.

Context {Hcfg : StreamfsConfigOk cfg}.

(** A queued buffer, and whether it is from the thread that brings the data. *)
Definition entry : Type := bool * list Z.

(** What the monitor writes into a buffer. *)
Definition null_bytes (x : list Z) : Prop :=
  exists b, buffer_ok b /\ x = ztake (size b) (null_stream (null_count (size b))).

Lemma inject_spec bufs s f tk : queue_ok bufs s f tk ->
  wp (fun e => e = Blocked) (injectNullBuffers s) (fun s' => exists x p b, null_bytes x /\
    queue_ok bufs s' f tk /\ posted_chunks s' = posted_chunks s /\ dumped s' = dumped s ++ [Done x] /\ told s s' /\
    (p ∉ f) /\ heap s' = <[p := b]> (heap s) /\
    content (heap s') <$> waiting s' tk = (content (heap s) <$> waiting s tk) ++ [x]).
Proof.
  intros Hq; pose proof (acquire_spec bufs s f tk Hq) as Ha; unfold injectNullBuffers.
  destruct (acquireBuffer s) as [[s1 p]|e]; cbn [wp mbind outcome_bind] in Ha |- *; [|done].
  destruct Ha as (b & q & -> & Hb & Hbok & Hbch & Hpf & Hpush); unfold deref.
  change (heap (s <| mFccBufferQueue := q |>)) with (heap s) in *; rewrite Hb; cbn [mbind outcome_bind].
  destruct (write_nulls_fills b Hbok) as (-> & Hbytes & Hb1); cbn [mbind outcome_bind].
  destruct (Hpush _ Hb1 Hbch) as (s' & -> & Hq' & Hh & Hpost & Hdump & Ht & Hw).
  eexists (bytes_of _), p, _; split_and!; [exists b; by split|..]; try done; exact Hh.
Qed.

Lemma take_spec bufs s f : queue_ok bufs s f None ->
  exists q tk, take_buffer s = Done (s <| mFccBufferQueue := q |>, tk) /\
    queue_ok bufs (s <| mFccBufferQueue := q |>) f tk /\
    waiting (s <| mFccBufferQueue := q |>) tk = waiting s None.
Proof.
  intros [Hg Hheap Hn Hp]; pose proof (placed_consume _ _ _ _ Hp) as Hc; unfold take_buffer, waiting.
  destruct (consumerQueue (mFccBufferQueue s)) as [|b l] eqn:E.
  - rewrite Hc; exists (mFccBufferQueue s), None; split_and!; [done|by split|cbn; by rewrite E].
  - destruct Hc as [-> Hc]; exists ((mFccBufferQueue s) <| consumerQueue := l |>), (Some b).
    split_and!; [done|by split|done].
Qed.

Lemma consume_spec bufs s f b c : queue_ok bufs s f (Some b) -> consumer_ok c ->
  exists c' s' chunks, consume_buffer b c s = Done (c', s') /\ queue_ok bufs s' f None /\ consumer_ok c' /\
    heap s' = heap s /\ mSessions s' = mSessions s /\ waiting s' None = consumerQueue (mFccBufferQueue s) /\
    posted_chunks s' = posted_chunks s ++ chunks /\ dumped s' = dumped s /\ adds s s' /\
    Forall (fun x => zlen x = BUFFER_CHUNK_SIZE) chunks /\ partial c ++ content (heap s) b = concat chunks ++ partial c'.
Proof.
  intros [Hg Hheap Hn Hp] Hc; unfold consume_buffer.
  assert (b ∈ bufs) as Hin by (rewrite <- (ok_places _ _ _ _ Hp); unfold places; set_solver).
  destruct (heap_lookup _ _ _ Hheap Hin) as (bf & Hb & Hbok & Hbch); unfold deref, content; rewrite Hb, bind_Done.
  destruct (copy_buffer_spec bf c s Hbok Hc) as (c' & chunks & -> & Hc' & Hall & Hcat).
  rewrite bind_Done; cbv beta iota.
  destruct (placed_release_held _ _ _ [] b [] Hp) as [Er Hp'].
  change (mFccBufferQueue (post_all _ _ s)) with (mFccBufferQueue s); rewrite Er, bind_Done.
  eexists c', _, chunks; split_and!; [reflexivity|by split|..]; try done.
  - exact (posted_post_all _ _ _).
  - unfold dumped; cbn; rewrite omap_app; etransitivity; [|apply app_nil_r]; f_equal.
    by clear; induction chunks.
  - split; [|done]; eexists; split; [reflexivity|]; apply Forall_fmap; eapply Forall_impl; [exact Hall|]; done.
Qed.

Lemma adds_consume bufs f b c c' s s' : queue_ok bufs s f (Some b) -> consumer_ok c ->
  consume_buffer b c s = Done (c', s') -> adds s s'.
Proof.
  intros Hq Hc He; destruct (consume_spec bufs s f b c Hq Hc) as (c1 & s1 & chunks & E & _ & _ & _ & _ & _ & _ & _ & Ha & _).
  rewrite He in E; by injection E as _ <-.
Qed.

Lemma adds_take s s' b : take_buffer s = Done (s', b) -> adds s s'.
Proof. unfold take_buffer; intros ([qu r] & _ & Ht)%bind_done_inv; injection Ht as <- _; by apply adds_none. Qed.

Lemma adds_report now s : adds s (reportTSBufferQueued now s).
Proof.
  unfold reportTSBufferQueued; case_if; [|by apply adds_none]; eapply adds_trans; [|apply adds_lost]; by apply adds_none.
Qed.

Lemma alloc_spec mems : forall counter (s : MediaSourceHandler D), Forall mem_ok mems ->
  (Exists uninitialised mems -> dirty) -> NoDup (mem_ptr <$> mems) ->
  zlen (producerQueue (mFccBufferQueue s)) + zlen mems <= mMaxDepth (mFccBufferQueue s) ->
  exists s', alloc_buffers mems counter s = Done s' /\
    mFccBufferQueue s' = (mFccBufferQueue s) <| producerQueue := producerQueue (mFccBufferQueue s) ++ (mem_ptr <$> mems) |> /\
    events s' = events s /\ mSessions s' = mSessions s /\ heap_ok (mem_ptr <$> mems) (heap s') /\
    (forall p, p ∉ mem_ptr <$> mems -> heap s' !! p = heap s !! p).
Proof.
  induction mems as [|mem mems IH]; intros counter s Hm Hi Hn Hd; cbn [alloc_buffers].
  - exists s; split_and!; try done; [|by constructor].
    destruct s as [q ? ? ? ? ? ? ? ? ? ? ?], q; cbn; by rewrite app_nil_r.
  - rewrite zlen_cons in Hd; pose proof (zlen_nonneg mems).
    apply Forall_cons in Hm as [Hb Hm]; destruct mem as [[ptr b]|]; [|done]; cbn in Hb.
    rewrite fmap_cons in Hn |- *; cbn [mem_ptr fmap option_fmap option_map default from_option id fst] in Hn |- *.
    apply NoDup_cons in Hn as [Hp Hn]; cbn [alloc_bq_buffer].
    match goal with |- context [<[ptr := ?x]> (heap s)] => set (b1 := x) end.
    set (q1 := (mFccBufferQueue s) <| producerQueue := producerQueue (mFccBufferQueue s) ++ [ptr] |>).
    assert (bq_release ptr (mFccBufferQueue s) = Done q1) as Hr.
    { unfold bq_release, isProducerQueueFull; by rewrite (proj2 (Z.leb_gt _ _)) by lia. }
    match goal with |- context [bq_release ptr ?x] => change (bq_release ptr x) with (bq_release ptr (mFccBufferQueue s)) end.
    rewrite Hr, bind_Done.
    match goal with |- context [alloc_buffers mems ?k ?x] => destruct (IH k x Hm (fun H => Hi (Exists_cons_tl _ H)) Hn) as (s' & -> & Hq & He & Hs & Hh & Ho) end.
    { change (mFccBufferQueue _) with q1; unfold q1; cbn; rewrite zlen_app; change (zlen [ptr]) with 1; lia. }
    exists s'; split_and!; try done.
    + rewrite Hq; change (mFccBufferQueue (_ <| mFccBufferQueue := q1 |>)) with q1; unfold q1; cbn; by rewrite <- app_assoc.
    + constructor; [|done]; exists b1; rewrite Ho by done; cbn; rewrite lookup_insert_eq; split; [done|].
      split; [|intros Hc; by apply Hi, Exists_cons_hd]; split; [done|].
      change (size b1) with (u32 FEIP_BUFFER_SIZE); by vm_compute.
    + intros p [Hne Hni]%not_elem_of_cons; rewrite Ho by done; cbn; by rewrite lookup_insert_ne.
Qed.

(** The constructor: all the buffers are free. *)
Lemma source_new_spec d mems time : mems_ok mems -> (Exists uninitialised mems -> dirty) ->
  exists s, MediaSourceHandler_new d 0 true time mems = Done (Some s) /\ queue_ok (mem_ptr <$> mems) s [] None /\
    mSessions s !! 0 = Some ((FeipSession_new (dx_init d)) <| connectionId := FEIP_CONNECTION_UNINITIALIZED |>) /\
    consumerQueue (mFccBufferQueue s) = [] /\ posted_chunks s = [] /\ dumped s = [].
Proof.
  intros [Hc Hm Hn] Hi; unfold MediaSourceHandler_new; rewrite take_ge by lia.
  match goal with |- context [alloc_buffers mems 0 ?x] => destruct (alloc_spec mems 0 x Hm Hi Hn)
    as (s & -> & Hq & He & Hs & Hh & _) end.
  { unfold zlen; rewrite Hc; done. }
  rewrite bind_Done; eexists; split; [reflexivity|]; split_and!; [split|..]; cbn; try done.
  - rewrite lookup_insert_eq; by eexists.
  - split; [unfold places; cbn; by rewrite Hq, !app_nil_r| |by rewrite Hq].
    rewrite Hq; cbn; unfold zlen; by rewrite length_fmap, Hc.
  - apply lookup_insert_eq.
  - by rewrite Hq.
  - unfold posted_chunks; cbn; by rewrite He.
  - unfold dumped; cbn; by rewrite He.
Qed.

End queue.
