(* ===== verification/SourceControl.v ===== *)
(** The control path of the media source handler: the connections of its demuxers, the state
    of the source that it publishes, and what a change of channel does. *)

From S2P Require Import Prelude Interfaces Json Regex ChannelConfig ChannelProps BufferQueue MediaSource.

(** * A demuxer with a record of its calls *)

Inductive dx_call :=
| Connected (id : Z)
| Disconnected (id : Z)
| DxOpened (uri hwInterface : text)
| Started (id : Z).

#[export] Instance dx_call_eq_dec : EqDecision dx_call.
Proof. solve_decision. Defined.

Section logged.
Context {D : Type} `{Demuxer D}.

Definition log_call (c : dx_call) (d : D * list dx_call) : D * list dx_call := (d.1, d.2 ++ [c]).

#[export] Instance logged_demuxer : Demuxer (D * list dx_call) := {
  dx_init d := (dx_init d.1, d.2);
  dx_connect d := let '(d', id) := dx_connect d.1 in (log_call (Connected id) (d', d.2), id);
  dx_start id d := log_call (Started id) (dx_start id d.1, d.2);
  dx_informFirstFrameReceived d := (dx_informFirstFrameReceived d.1, d.2);
  dx_disconnect id d := log_call (Disconnected id) (dx_disconnect id d.1, d.2);
  dx_open uri hw d := log_call (DxOpened uri hw) (dx_open uri hw d.1, d.2);
  dx_getGlobalStats d := dx_getGlobalStats d.1;
  dx_getChannelStats r d := let '(d', t) := dx_getChannelStats r d.1 in ((d', d.2), t);
}.

End logged.

(** The connection that is open after some calls, if they open one only when none is open
    and close the one that is open only. *)
Definition live_step (cur : option (option Z)) (c : dx_call) : option (option Z) :=
  match cur with
  | None => None
  | Some cur =>
    match c with
    | Connected id => if 0 <=? id then match cur with None => Some (Some id) | Some _ => None end else Some cur
    | Disconnected id => if bool_decide (cur = Some id) then Some None else None
    | _ => Some cur
    end
  end.

Definition live (calls : list dx_call) : option (option Z) := fold_left live_step calls (Some None).

Arguments live : simpl never.

Lemma live_snoc calls c : live (calls ++ [c]) = live_step (live calls) c.
Proof. unfold live; by rewrite fold_left_app. Qed.

(** * Runs *)

Section control.
Context {D : Type} `{Demuxer D} `{BoostRegex} `{BoostToLower} `{InetAton} `{StreamfsConfig}.
Local Abbreviation L := (D * list dx_call)%type.
Implicit Types (s : MediaSourceHandler L) (sess : FeipSession L).

(** The calls of the other components and the turns of the handler's own threads. *)
Inductive source_op :=
| OpOpen (uri : text) (demuxer now : Z)
| OpAcquire
| OpPush (p demuxId : Z)
| OpReturn (p : Z)
| OpReport (now : Z)
| OpStatus (status : demuxer_status) (feipId demuxSessionId : Z)
| OpStats (demuxerId : Z)
| OpRoute (iface : text)
| OpMessage (now : Z)
| OpMonitor (now : Z)
| OpTake
| OpCopy (p : Z) (c : consumer_locals).

Definition source_exec (op : source_op) s : outcome (MediaSourceHandler L) :=
  match op with
  | OpOpen uri demuxer now => fst <$> source_open uri demuxer now s
  | OpAcquire => fst <$> acquireBuffer s
  | OpPush p demuxId => pushBuffertoBQ p demuxId s
  | OpReturn p => returnBufferToBQ p s
  | OpReport now => Done (reportTSBufferQueued now s)
  | OpStatus status feipId id => Done (notifyStatusChanged status feipId id s)
  | OpStats id => Done (getChannelStats id s).1
  | OpRoute iface => Done (defaultRouteChanged iface s)
  | OpMessage now => messageLoop now s
  | OpMonitor now => dataMonitorLoop now s
  | OpTake => fst <$> take_buffer s
  | OpCopy p c => snd <$> consume_buffer p c s
  end.

Definition source_step s s' : Prop := exists op, source_exec op s = Done s'.

(** A step other than a call of [open] in the middle of the reaction to a message. *)
Definition calm_step s s' : Prop := exists op,
  source_exec op s = Done s' /\ match op with OpOpen _ _ _ => mReaction s = [] | _ => True end.

(** ** Connections *)

(** The connection a session believes to have is the one its demuxer has. *)
Definition session_ok sess : Prop :=
  live (mDemuxer sess).2 =
  Some (if connectionId sess =? FEIP_CONNECTION_UNINITIALIZED then None else Some (connectionId sess)).

(** The session [k] while [todo] is left to do of a reaction. *)
Definition session_at (todo : list reaction) (k : Z) sess : Prop :=
  match todo with
  | RForget j :: _ => if j =? k then live (mDemuxer sess).2 = Some None else session_ok sess
  | RJoin j :: _ => session_ok sess /\ (j = k -> connectionId sess = FEIP_CONNECTION_UNINITIALIZED)
  | RKnow j id :: _ =>
    if j =? k then live (mDemuxer sess).2 = Some (if 0 <=? id then Some id else None) /\
                   connectionId sess = FEIP_CONNECTION_UNINITIALIZED
    else session_ok sess
  | _ => session_ok sess
  end.

(** What may be left to do: the rest of the reaction for one session, and all of it for others. *)
Inductive whole : list reaction -> Prop :=
| whole_nil : whole []
| whole_rejoin k todo : whole todo -> whole (RLeave k :: RJoin k :: ROpen k :: todo)
| whole_offline k todo : whole todo -> whole (ROffline k :: todo).

Inductive rest_ok : list reaction -> Prop :=
| rest_whole todo : whole todo -> rest_ok todo
| rest_forget k todo : whole todo -> rest_ok (RForget k :: RJoin k :: ROpen k :: todo)
| rest_join k todo : whole todo -> rest_ok (RJoin k :: ROpen k :: todo)
| rest_know k id todo : whole todo -> rest_ok (RKnow k id :: ROpen k :: todo)
| rest_open k todo : whole todo -> rest_ok (ROpen k :: todo).

Lemma whole_at todo k sess : whole todo -> session_at todo k sess <-> session_ok sess.
Proof. by destruct 1. Qed.

Record sessions_ok s : Prop := {
  so_rest : rest_ok (mReaction s);
  so_session : forall k sess, mSessions s !! k = Some sess -> session_at (mReaction s) k sess;
}.

(** What does not concern connections. *)
Definition keeps_session sess sess' : Prop :=
  live (mDemuxer sess').2 = live (mDemuxer sess).2 /\ connectionId sess' = connectionId sess.

Definition keeps_sessions s s' : Prop := mReaction s' = mReaction s /\
  forall k sess', mSessions s' !! k = Some sess' -> exists sess, mSessions s !! k = Some sess /\ keeps_session sess sess'.

Lemma session_at_keeps todo k sess sess' : keeps_session sess sess' -> session_at todo k sess -> session_at todo k sess'.
Proof. intros [Hl Hc]; unfold session_at, session_ok; by rewrite Hl, Hc. Qed.

Lemma sessions_keep s s' : keeps_sessions s s' -> sessions_ok s -> sessions_ok s'.
Proof.
  intros [Hr Hk] [Hrest Hs]; split; rewrite Hr; [done|]; intros k sess' (sess & Hl & Hkeep)%Hk.
  by eapply session_at_keeps; [|apply Hs].
Qed.

Lemma keeps_same s s' : mSessions s' = mSessions s -> mReaction s' = mReaction s -> keeps_sessions s s'.
Proof. intros Hm Hr; split; [done|]; rewrite Hm; intros k sess Hk; by exists sess. Qed.

Lemma keeps_insert s k sess sess' s' : mSessions s !! k = Some sess -> keeps_session sess sess' ->
  mSessions s' = <[k := sess']> (mSessions s) -> mReaction s' = mReaction s -> keeps_sessions s s'.
Proof.
  intros Hk Hkeep Hm Hr; split; [done|]; rewrite Hm; intros j sess2 [[<- <-]|[_ Hj]]%lookup_insert_Some; [by exists sess|by exists sess2].
Qed.

Lemma keeps_reopen uri hw sess : keeps_session sess (reopen uri hw sess).
Proof. split; [|done]; cbn; rewrite live_snoc; by destruct (live _). Qed.

(** ** A connection made, closed and noted *)

Lemma live_connect sess d id : dx_connect (mDemuxer sess) = (d, id) -> live (mDemuxer sess).2 = Some None ->
  live d.2 = Some (if 0 <=? id then Some id else None).
Proof.
  cbn; destruct (dx_connect (mDemuxer sess).1) as [d' i]; intros [= <- <-] Hl; cbn; rewrite live_snoc, Hl; cbn; by case_if.
Qed.

Lemma live_disconnect sess : session_ok sess -> connectionId sess <> FEIP_CONNECTION_UNINITIALIZED ->
  live (dx_disconnect (connectionId sess) (mDemuxer sess)).2 = Some None.
Proof.
  unfold session_ok; intros Hs Hc; cbn; rewrite live_snoc, Hs, (proj2 (Z.eqb_neq _ _) Hc); cbn.
  by rewrite bool_decide_eq_true_2.
Qed.

Lemma session_forgets sess : live (mDemuxer sess).2 = Some None ->
  session_ok (sess <| connectionId := FEIP_CONNECTION_UNINITIALIZED |>).
Proof. by unfold session_ok. Qed.

Lemma session_knows sess id : live (mDemuxer sess).2 = Some (if 0 <=? id then Some id else None) ->
  connectionId sess = FEIP_CONNECTION_UNINITIALIZED ->
  session_ok (if 0 <=? id then sess <| connectionId := id |> else sess).
Proof.
  unfold session_ok; intros Hl Hc; case_if; cbn; rewrite Hl; [|by rewrite Hc].
  b2p; unfold FEIP_CONNECTION_UNINITIALIZED; by rewrite (proj2 (Z.eqb_neq _ _)) by lia.
Qed.

Lemma idle_live sess : session_ok sess -> connectionId sess = FEIP_CONNECTION_UNINITIALIZED -> live (mDemuxer sess).2 = Some None.
Proof. unfold session_ok; by intros -> ->. Qed.

Lemma session_disconnect sess s : session_ok sess ->
  session_ok (disconnect sess s).1 /\ connectionId (disconnect sess s).1 = FEIP_CONNECTION_UNINITIALIZED.
Proof.
  intros Hs; unfold disconnect; case_if; b2p; [done|]; split; [|done].
  by apply session_forgets, live_disconnect.
Qed.

Lemma session_connect sess : session_ok sess -> connectionId sess = FEIP_CONNECTION_UNINITIALIZED ->
  session_ok (connect sess).
Proof.
  intros Hs Hc; unfold connect; destruct (dx_connect (mDemuxer sess)) as [d id] eqn:E.
  by apply session_knows; [apply (live_connect sess); [|apply idle_live]|].
Qed.

(** ** The steps *)

(** A change of the session [k]. *)
Lemma on_session_ok s k f : rest_ok (mReaction s) ->
  (forall sess, mSessions s !! k = Some sess -> session_at (mReaction s) k (f sess)) ->
  (forall j sess, j <> k -> mSessions s !! j = Some sess -> session_at (mReaction s) j sess) ->
  sessions_ok (on_session k f s).
Proof.
  intros Hr Hk Ho; split; [done|]; cbn; intros j sess; destruct (decide (j = k)) as [->|Hne].
  - rewrite lookup_alter_eq; destruct (mSessions s !! k) as [x|]; [|done]; intros [= <-]; auto.
  - rewrite lookup_alter_ne by done; auto.
Qed.

Lemma session_at_here todo r k sess : session_at (r :: todo) k sess ->
  match r with
  | RForget j => j = k -> live (mDemuxer sess).2 = Some None
  | RKnow j id => j = k -> live (mDemuxer sess).2 = Some (if 0 <=? id then Some id else None) /\
                           connectionId sess = FEIP_CONNECTION_UNINITIALIZED
  | _ => True
  end.
Proof. destruct r; cbn; try done; by intros Hs ->; rewrite Z.eqb_refl in Hs. Qed.

Lemma session_at_other todo r k sess : session_at (r :: todo) k sess ->
  match r with RForget j | RKnow j _ => j <> k -> session_ok sess | RJoin _ => session_ok sess | _ => session_ok sess end.
Proof. destruct r; cbn; try done; [intros Hs Hj; by rewrite (proj2 (Z.eqb_neq _ _) Hj) in Hs|by intros []|intros Hs Hj; by rewrite (proj2 (Z.eqb_neq _ _) Hj) in Hs]. Qed.

Section react.
Context (s : MediaSourceHandler L) (r : reaction) (rest : list reaction).
Context (Hs : forall k sess, mSessions s !! k = Some sess -> session_at (r :: rest) k sess).
Let s0 : MediaSourceHandler L := s <| mReaction := rest |>.

Lemma react_open k uri hw : whole rest -> (forall j sess, mSessions s !! j = Some sess -> session_ok sess) ->
  sessions_ok (on_session k (reopen uri hw) s0).
Proof.
  intros Hw Hall; apply on_session_ok; [by constructor|..]; intros; cbn; rewrite whole_at by done; [|eauto].
  eapply (session_at_keeps [] k); [apply keeps_reopen|eapply Hall; eassumption].
Qed.

Lemma react_leave k todo : r = RLeave k -> rest = RJoin k :: ROpen k :: todo -> whole todo -> sessions_ok (react r s0).
Proof.
  intros -> -> Hw; cbn [react]; change (mSessions s0) with (mSessions s).
  destruct (mSessions s !! k) as [sess|] eqn:Ek; [destruct (negb _) eqn:Ec; b2p|].
  - apply on_session_ok; [by constructor|..]; cbn.
    + intros sess' Hk'; rewrite Z.eqb_refl; rewrite Ek in Hk'; injection Hk' as <-; by apply live_disconnect; [apply (Hs k)|].
    + intros j sess' Hj Hl; rewrite (proj2 (Z.eqb_neq _ _)) by done; by apply (Hs j).
  - split; [by constructor|]; intros j sess' Hl; split; [by apply (Hs j)|intros <-]; cbn in Hl; rewrite Ek in Hl; by injection Hl as <-.
  - split; [by constructor|]; intros j sess' Hl; split; [by apply (Hs j)|intros <-]; cbn in Hl; by rewrite Ek in Hl.
Qed.

Lemma react_forget k todo : r = RForget k -> rest = RJoin k :: ROpen k :: todo -> whole todo -> sessions_ok (react r s0).
Proof.
  intros -> -> Hw; apply on_session_ok; [by constructor|..]; cbn.
  - intros sess Hk%Hs%session_at_here; split; [by apply session_forgets, Hk|done].
  - intros j sess Hj Hl%Hs%session_at_other; split; [by apply Hl|congruence].
Qed.

Lemma react_join k todo : r = RJoin k -> rest = ROpen k :: todo -> whole todo -> sessions_ok (react r s0).
Proof.
  intros -> -> Hw; cbn [react]; change (mSessions s0) with (mSessions s).
  destruct (mSessions s !! k) as [sess|] eqn:Ek.
  - destruct (dx_connect (mDemuxer sess)) as [d id] eqn:Ed; apply on_session_ok; [by constructor|..]; cbn.
    + intros sess' Hk'; rewrite Z.eqb_refl; rewrite Ek in Hk'; injection Hk' as <-.
      destruct (Hs k sess Ek) as [Hok Hc]; split; [|by apply Hc]; by apply (live_connect sess); [|apply idle_live; [|apply Hc]].
    + intros j sess' Hj Hl; rewrite (proj2 (Z.eqb_neq _ _)) by done; by apply (Hs j).
  - split; [by constructor|]; intros j sess' Hl; by apply (Hs j).
Qed.

Lemma react_know k id todo : r = RKnow k id -> rest = ROpen k :: todo -> whole todo -> sessions_ok (react r s0).
Proof.
  intros -> -> Hw.
  assert (Hgo : sessions_ok (on_session k (fun sess => if 0 <=? id then sess <| connectionId := id |> else sess) s0)).
  { apply on_session_ok; [by constructor|..]; cbn.
    - intros sess Hk%Hs%session_at_here; by apply session_knows; apply Hk.
    - intros j sess Hj Hl%Hs%session_at_other; by apply Hl. }
  cbn [react]; destruct (0 <=? id); [exact Hgo|]; destruct Hgo as [H4 H5]; split; [done|]; intros j sess Hl; apply (H5 j); cbn.
  destruct (decide (j = k)) as [->|Hne]; [by rewrite lookup_alter_eq; cbn in Hl; rewrite Hl|by rewrite lookup_alter_ne by done].
Qed.

End react.

Lemma react_ok s r rest : sessions_ok s -> mReaction s = r :: rest -> sessions_ok (react r (s <| mReaction := rest |>)).
Proof.
  intros [Hr Hs] Er; rewrite Er in Hr, Hs; inversion Hr as [todo Hw|k todo Hw|k todo Hw|k id todo Hw|k todo Hw]; subst.
  - inversion Hw as [|k todo Hw'|k todo Hw']; subst; [by eapply react_leave|].
    apply react_open; [done|]; intros j sess Hl; by apply (Hs j).
  - by eapply react_forget.
  - by eapply react_join.
  - by eapply react_know.
  - apply react_open; [done|]; intros j sess Hl; by apply (Hs j).
Qed.

Lemma whole_rejoins ks : whole (concat ((fun k => [RLeave k; RJoin k; ROpen k]) <$> ks)).
Proof. induction ks; cbn; by constructor. Qed.

Lemma whole_offlines ks : whole (ROffline <$> ks).
Proof. induction ks; cbn; by constructor. Qed.

Lemma message_sessions now s s' : sessions_ok s -> messageLoop now s = Done s' -> sessions_ok s'.
Proof.
  intros Hok; unfold messageLoop; destruct (mReaction s) as [|r rest] eqn:Er.
  - destruct (mMessageHandler s) as [|msg l]; [done|]; intros [= <-].
    assert (Hall : forall k sess, mSessions s !! k = Some sess -> session_ok sess)
      by (intros k sess Hk; apply (so_session _ Hok) in Hk; by rewrite Er in Hk).
    unfold handle_message; destruct (what msg); cbv zeta.
    + apply (sessions_keep s); [by apply keeps_same|done].
    + split; cbn; [constructor; apply whole_offlines|]; intros k sess Hk; rewrite whole_at by apply whole_offlines; eauto.
    + eapply sessions_keep; [|exact Hok]; split; [done|]; cbn; intros k sess'.
      rewrite lookup_fmap; destruct (mSessions s !! k) as [sess|]; [|done]; intros [= <-]; exists sess; split; [done|apply keeps_reopen].
    + split; cbn; [constructor; apply whole_rejoins|]; intros k sess Hk; rewrite whole_at by apply whole_rejoins; eauto.
  - intros [= <-]; by apply react_ok.
Qed.

Lemma open_sessions uri id now s s' r : sessions_ok s -> mReaction s = [] -> source_open uri id now s = Done (s', r) -> sessions_ok s'.
Proof.
  intros Hok Er; unfold source_open; case_if; [by intros [= <- _]|].
  destruct (mSessions s !! id) as [feip|] eqn:Ef; [|by intros [= <- _]].
  assert (Hall : forall k sess, mSessions s !! k = Some sess -> session_ok sess)
    by (intros k sess Hk; apply (so_session _ Hok) in Hk; by rewrite Er in Hk).
  apply Hall in Ef; cbn [logged_demuxer dx_getChannelStats].
  destruct (dx_getChannelStats true (mDemuxer feip).1) as [d t]; cbv beta iota zeta.
  intros (cfg & _ & Hr)%bind_done_inv; revert Hr; cbv beta.
  set (f0 := feip <| mDemuxer := _ |>); set (s0 := _ <| mCurrentUri := uri |>).
  destruct (session_disconnect f0 s0 Ef) as [Hd Hc].
  assert (E2 : mSessions (disconnect f0 s0).2 = mSessions s /\ mReaction (disconnect f0 s0).2 = [])
    by (unfold disconnect; by case_if).
  destruct (disconnect f0 s0) as [f1 s1]; cbn [fst snd] in Hd, Hc, E2; destruct E2 as [E2 E3].
  assert (Hput : forall sess s2, session_ok sess -> mSessions s2 = <[id := sess]> (mSessions s) -> mReaction s2 = [] -> sessions_ok s2).
  { intros sess s2 Hsess Hm Hr2; split; rewrite Hr2; [repeat constructor|]; rewrite Hm.
    intros k x [[_ <-]|[_ Hk]]%lookup_insert_Some; [done|by eapply Hall]. }
  destruct uri as [|x uri]; intros [= <- _]; [by apply (Hput f1); cbn; rewrite ?E2|].
  apply (Hput (reopen (x :: uri) [] (connect (f1 <| firstBufferDisplayed := false |>)))); [|by cbn; rewrite E2|done].
  eapply (session_at_keeps [] id); [apply (keeps_reopen (x :: uri) [])|]; by apply session_connect.
Qed.

Lemma push_keeps p id s s' : pushBuffertoBQ p id s = Done s' -> keeps_sessions s s'.
Proof.
  unfold pushBuffertoBQ; intros (b & _ & (q & _ & Hr)%bind_done_inv)%bind_done_inv; revert Hr; cbv beta zeta.
  destruct (mSessions s !! id) as [sess|] eqn:Es; [|done].
  case_if; intros [= <-]; [eapply keeps_insert; [exact Es| |reflexivity|reflexivity]; done|by apply keeps_same].
Qed.

Lemma inject_keeps s s' : injectNullBuffers s = Done s' -> keeps_sessions s s'.
Proof.
  unfold injectNullBuffers, acquireBuffer.
  intros ([s1 buf] & ([q res] & _ & [= <- _])%bind_done_inv & Hr)%bind_done_inv; revert Hr; cbv beta iota.
  intros (b & _ & (b' & _ & Hr)%bind_done_inv)%bind_done_inv; exact (push_keeps _ _ _ _ Hr).
Qed.

Lemma copy_loop_frame fuel ch data : forall pos rem c s c' s', copy_loop fuel ch data pos rem c s = Done (c', s') ->
  exists chunks, s' = s <| events := events s ++ (Post ch <$> chunks) |>.
Proof.
  induction fuel as [|fuel IH]; intros pos rem c s c' s'; cbn [copy_loop]; [done|].
  case_if; [|intros [= _ <-]; exists []; destruct s; cbn; by rewrite app_nil_r].
  intros (bytes & _ & (l & _ & Hr)%bind_done_inv)%bind_done_inv; revert Hr; cbv beta zeta.
  case_if; intros (chunks & ->)%IH; [|by exists chunks].
  exists (l :: chunks); unfold emit; destruct s; cbn; by rewrite <- app_assoc.
Qed.

Lemma consume_keeps p c s c' s' : consume_buffer p c s = Done (c', s') -> keeps_sessions s s'.
Proof.
  unfold consume_buffer, copy_buffer; intros (b & _ & ([c1 s1] & Hc & Hr)%bind_done_inv)%bind_done_inv.
  revert Hr; cbv beta iota; intros (q & _ & [= _ <-])%bind_done_inv.
  apply copy_loop_frame in Hc as (chunks & ->); by apply keeps_same.
Qed.

Lemma monitor_keeps now s s' : dataMonitorLoop now s = Done s' -> keeps_sessions s s'.
Proof.
  unfold dataMonitorLoop; repeat case_if; try (intros [= <-]; by apply keeps_same); intros [Hr Hk]%inject_keeps; by split.
Qed.

Lemma sessions_step s s' : calm_step s s' -> sessions_ok s -> sessions_ok s'.
Proof.
  intros (op & Hop & Hcalm) Hok; destruct op; cbn in Hop; [..|by eapply message_sessions| | |].
  2-11: eapply sessions_keep; [|exact Hok].
  - destruct (source_open uri demuxer now s) as [[s1 r]|] eqn:E; [|done]; injection Hop as <-; by eapply open_sessions.
  - unfold acquireBuffer in Hop; destruct (bq_acquire _) as [[q r]|]; [|done]; injection Hop as <-; by apply keeps_same.
  - by eapply push_keeps.
  - unfold returnBufferToBQ in Hop; revert Hop; case_if; [intros [= <-]; by apply keeps_same|].
    intros (q & _ & [= <-])%bind_done_inv; by apply keeps_same.
  - injection Hop as <-; unfold reportTSBufferQueued; case_if; by apply keeps_same.
  - injection Hop as <-; unfold notifyStatusChanged.
    destruct (mSessions s !! demuxSessionId) as [sess|] eqn:Es, status; try (by apply keeps_same).
    eapply keeps_insert; [exact Es| |done|done]; split; [|done]; cbn; rewrite live_snoc; by destruct (live _).
  - injection Hop as <-; unfold getChannelStats; destruct (mSessions s !! demuxerId) as [sess|] eqn:Es; [|by apply keeps_same].
    cbn; destruct (dx_getChannelStats false (mDemuxer sess).1) as [d t]; cbn; eapply keeps_insert; [exact Es| |reflexivity|reflexivity]; done.
  - injection Hop as <-; by apply keeps_same.
  - by eapply monitor_keeps.
  - unfold take_buffer in Hop; destruct (bq_consume_timed _) as [[q r]|]; [|done]; injection Hop as <-; by apply keeps_same.
  - destruct (consume_buffer p c s) as [[c1 s1]|] eqn:E; [|done]; injection Hop as <-; by eapply consume_keeps.
Qed.

Lemma alloc_frame mems counter s s' : alloc_buffers mems counter s = Done s' ->
  mSessions s' = mSessions s /\ events s' = events s /\ mBufferSourceLost s' = mBufferSourceLost s /\
  mSourceLostCounter s' = mSourceLostCounter s /\ mReaction s' = mReaction s.
Proof.
  revert counter s; induction mems as [|mem mems IH]; intros counter s; cbn [alloc_buffers]; [by intros [= <-]|].
  destruct (alloc_bq_buffer _ _ _ _) as [[buf h] k]; cbv zeta.
  by intros (q & _ & (-> & -> & -> & -> & ->)%IH)%bind_done_inv.
Qed.

Lemma new_sessions d id cb time mems s : MediaSourceHandler_new (d, []) id cb time mems = Done (Some s) ->
  sessions_ok s.
Proof.
  unfold MediaSourceHandler_new; intros (s1 & (Hs & _ & _ & _ & Hr1)%alloc_frame & Hr)%bind_done_inv; revert Hr; cbv zeta.
  destruct cb; [|done]; intros [= <-]; split; cbn; rewrite Hr1; [repeat constructor|]; cbn; rewrite Hs; cbn.
  by intros k sess [[_ <-]|[_ Hk]]%lookup_insert_Some.
Qed.

(** C33. A demuxer has at most one connection at a time: in every sequence of calls and of steps of
    the handler's threads, whatever the demuxer answers, a connection is opened only when none is
    open, and it is the one that is open that is closed; and whenever no reaction to a message is
    under way the session knows which one is open. This is so as long as no call of [open] falls
    between the steps of such a reaction: the reaction to a lost multicast does not take the mutex
    that [open] holds, and an [open] in the middle of it leaves two connections open. *)
Theorem one_connection (d : D) (id time : Z) (cb : bool) mems (s0 s : MediaSourceHandler L) :
  MediaSourceHandler_new (d, []) id cb time mems = Done (Some s0) -> rtc calm_step s0 s ->
  forall k sess, mSessions s !! k = Some sess ->
  live (mDemuxer sess).2 <> None /\
  (mReaction s = [] -> live (mDemuxer sess).2 =
     Some (if connectionId sess =? FEIP_CONNECTION_UNINITIALIZED then None else Some (connectionId sess))).
Proof.
  intros Hn%new_sessions Hr; revert Hn; induction Hr as [s|]; [|eauto using sessions_step].
  intros [_ Hok] k sess Hk%Hok; split; [|by intros Er; rewrite Er in Hk].
  revert Hk; unfold session_at, session_ok; repeat case_match; try (by intros ->); try (by intros [-> _]).
Qed.

(** ** The state of the source *)

Definition reports s : list text := omap (fun e => match e with BufferSrcLost v => Some v | _ => None end) (events s).

(** The [k]-th value published: found, lost, found, lost and so on, with the number of losses. *)
Definition report (k : nat) : text := srcStateToMVar (Nat.odd k) (u32 (Z.of_nat (Nat.div2 (S k)))).

(** [n] losses so far. *)
Definition history_ok s : Prop := exists n : nat,
  mSourceLostCounter s = u32 (Z.of_nat n) /\ (mBufferSourceLost s = true -> (0 < n)%nat) /\
  reports s = report <$> seq 0 (2 * n + if mBufferSourceLost s then 0 else 1).

Definition quiet s s' : Prop :=
  reports s' = reports s /\ mBufferSourceLost s' = mBufferSourceLost s /\ mSourceLostCounter s' = mSourceLostCounter s.

Lemma quiet_ok s s' : quiet s s' -> history_ok s -> history_ok s'.
Proof. unfold history_ok; by intros (-> & -> & ->). Qed.

Lemma reports_emit e s : reports (emit e s) = reports s ++ match e with BufferSrcLost v => [v] | _ => [] end.
Proof. unfold reports, emit; cbn; rewrite omap_app; by destruct e. Qed.

Lemma quiet_emit e s : match e with BufferSrcLost _ => False | _ => True end -> quiet s (emit e s).
Proof. intros He; split; [|done]; rewrite reports_emit; destruct e; by rewrite ?app_nil_r. Qed.

Lemma quiet_trans s1 s2 s3 : quiet s1 s2 -> quiet s2 s3 -> quiet s1 s3.
Proof. unfold quiet; intuition congruence. Qed.

Lemma report_even n : report (2 * n) = srcStateToMVar false (u32 (Z.of_nat n)).
Proof. unfold report; by rewrite Nat.odd_even, Nat.div2_succ_double. Qed.

Lemma report_odd n : report (2 * n + 1) = srcStateToMVar true (u32 (Z.of_nat (S n))).
Proof.
  unfold report; rewrite Nat.odd_odd; do 3 f_equal.
  replace (S (2 * n + 1)) with (2 * S n)%nat by lia; apply Nat.div2_double.
Qed.

Lemma set_lost_false s : mBufferSourceLost s = true -> history_ok s -> history_ok (set_lost false s).
Proof.
  intros Hl (n & Hc & Hn & Hr); exists n; rewrite Hl in Hr; split_and!; [done|done|].
  unfold set_lost; rewrite reports_emit; change (reports (s <| mBufferSourceLost := false |>)) with (reports s).
  change (mSourceLostCounter (s <| mBufferSourceLost := false |>)) with (mSourceLostCounter s).
  rewrite Hr, Hc, <- report_even, Nat.add_0_r.
  change (mBufferSourceLost (emit ?e ?x)) with (mBufferSourceLost x); cbn [mBufferSourceLost].
  rewrite seq_app, fmap_app; done.
Qed.

Lemma set_lost_true s : mBufferSourceLost s = false -> history_ok s ->
  history_ok (set_lost true (s <| mSourceLostCounter := u32 (mSourceLostCounter s + 1) |>)).
Proof.
  intros Hl (n & Hc & _ & Hr); exists (S n); rewrite Hl in Hr.
  assert (u32 (mSourceLostCounter s + 1) = u32 (Z.of_nat (S n))) as Hc'.
  { rewrite Hc; unfold u32; rewrite Zplus_mod_idemp_l; f_equal; lia. }
  split_and!; [exact Hc'|lia|].
  set (s1 := s <| mSourceLostCounter := _ |>); unfold set_lost; rewrite reports_emit.
  change (reports (s1 <| mBufferSourceLost := true |>)) with (reports s).
  change (mSourceLostCounter (s1 <| mBufferSourceLost := true |>)) with (u32 (mSourceLostCounter s + 1)).
  change (mBufferSourceLost (emit ?e ?x)) with (mBufferSourceLost x).
  change (mBufferSourceLost (s1 <| mBufferSourceLost := true |>)) with true.
  rewrite Hr, Hc', <- report_odd; replace (2 * S n + 0)%nat with ((2 * n + 1) + 1)%nat by lia.
  by rewrite (seq_app (2 * n + 1)), fmap_app.
Qed.

Lemma quiet_push p id s s' : pushBuffertoBQ p id s = Done s' -> quiet s s'.
Proof.
  unfold pushBuffertoBQ; intros (b & _ & (q & _ & Hr)%bind_done_inv)%bind_done_inv; revert Hr; cbv beta zeta.
  destruct (mSessions s !! id) as [sess|]; [|done].
  set (s1 := emit (SocketSend (buffer b) (size b)) s); set (s2 := s1 <| mFccBufferQueue := q |>).
  assert (quiet s s1) as Hq1 by exact (quiet_emit (SocketSend (buffer b) (size b)) s I).
  assert (quiet s (emit DataReceived s2)) as Hq
    by (apply (quiet_trans s s2); [exact Hq1|exact (quiet_emit DataReceived s2 I)]).
  by case_if; intros [= <-].
Qed.

Lemma quiet_inject s s' : injectNullBuffers s = Done s' -> quiet s s'.
Proof.
  unfold injectNullBuffers, acquireBuffer.
  intros ([s1 buf] & ([q res] & _ & [= <- _])%bind_done_inv & Hr)%bind_done_inv; revert Hr; cbv beta iota.
  by intros (b & _ & (b' & _ & Hr%quiet_push)%bind_done_inv)%bind_done_inv.
Qed.

Lemma quiet_open uri id now s s' r : source_open uri id now s = Done (s', r) -> quiet s s'.
Proof.
  unfold source_open; case_if; [by intros [= <- _]|].
  destruct (mSessions s !! id) as [feip|] eqn:Ef; [|by intros [= <- _]].
  destruct (dx_getChannelStats true (mDemuxer feip)) as [d t]; cbv beta iota zeta.
  intros (cfg & _ & Hr)%bind_done_inv; revert Hr; cbv beta.
  set (f0 := feip <| mDemuxer := _ |>); set (s0 := _ <| mCurrentUri := uri |>).
  assert (quiet s (disconnect f0 s0).2) as Hq.
  { apply (quiet_trans s s0); [done|]; unfold disconnect; case_if; [done|by apply quiet_emit]. }
  destruct (disconnect f0 s0) as [f1 s1]; cbn [snd] in Hq.
  assert (quiet s (emit (StreamSwitched uri) s1)) as Hq' by (eapply quiet_trans; [exact Hq|by apply quiet_emit]).
  destruct uri as [|x uri]; intros [= <- _]; [done|].
  eapply quiet_trans; [exact Hq'|]; exact (quiet_emit (OnOpen _) _ I).
Qed.

Lemma quiet_consume p c s c' s' : consume_buffer p c s = Done (c', s') -> quiet s s'.
Proof.
  unfold consume_buffer, copy_buffer; intros (b & _ & ([c1 s1] & Hc & Hr)%bind_done_inv)%bind_done_inv.
  revert Hr; cbv beta iota; intros (q & _ & [= _ <-])%bind_done_inv.
  apply copy_loop_frame in Hc as (chunks & ->); split; [|done].
  unfold reports; cbn; rewrite omap_app.
  replace (omap _ (Post _ <$> chunks)) with (@nil text); [by rewrite app_nil_r|].
  by induction chunks.
Qed.

Lemma quiet_message now s s' : messageLoop now s = Done s' -> quiet s s'.
Proof.
  unfold messageLoop; destruct (mReaction s) as [|r rest]; [destruct (mMessageHandler s) as [|msg l]; [done|]|]; intros [= <-].
  - unfold handle_message; by destruct (what msg).
  - destruct r; cbn [react]; repeat case_match; done.
Qed.

Lemma history_step s s' : source_step s s' -> history_ok s -> history_ok s'.
Proof.
  intros [op Hop] Hok; destruct op; cbn in Hop.
  - destruct (source_open uri demuxer now s) as [[s1 r]|] eqn:E; [|done]; injection Hop as <-.
    eapply quiet_ok; [by eapply quiet_open|done].
  - unfold acquireBuffer in Hop; destruct (bq_acquire _) as [[q r]|]; [|done]; by injection Hop as <-.
  - eapply quiet_ok; [by eapply quiet_push|done].
  - unfold returnBufferToBQ in Hop; revert Hop; case_if; [by intros [= <-]|].
    by intros (q & _ & [= <-])%bind_done_inv.
  - injection Hop as <-; unfold reportTSBufferQueued; case_if; [|done]; by apply set_lost_false.
  - injection Hop as <-; unfold notifyStatusChanged.
    by destruct (mSessions s !! demuxSessionId), status.
  - injection Hop as <-; unfold getChannelStats; destruct (mSessions s !! demuxerId) as [sess|]; [|done].
    by destruct (dx_getChannelStats false (mDemuxer sess)).
  - by injection Hop as <-.
  - eapply quiet_ok; [by eapply quiet_message|done].
  - revert Hop; unfold dataMonitorLoop; case_if; [|by intros [= <-]]; case_if; [by intros [= <-]|].
    case_if; [|by intros [= <-]]; intros Hq%quiet_inject; apply (quiet_ok _ _ Hq).
    destruct (mBufferSourceLost s) eqn:El; cbn [negb]; [done|by apply set_lost_true].
  - unfold take_buffer in Hop; destruct (bq_consume_timed _) as [[q r]|]; [|done]; by injection Hop as <-.
  - destruct (consume_buffer p c s) as [[c1 s1]|] eqn:E; [|done]; injection Hop as <-.
    eapply quiet_ok; [by eapply quiet_consume|done].
Qed.

Lemma new_history d id cb time mems s : MediaSourceHandler_new d id cb time mems = Done (Some s) -> history_ok s.
Proof.
  unfold MediaSourceHandler_new; intros (s1 & (_ & He & Hl & Hc & _)%alloc_frame & Hr)%bind_done_inv; revert Hr; cbv zeta.
  destruct cb; [|done]; intros [= <-]; exists 0%nat; cbn in *; rewrite Hl, Hc; split_and!; [done|done|].
  unfold reports; cbn; by rewrite He.
Qed.

(** What readers of the stream status see: in every sequence of calls and of turns of the
    handler's threads the values published are found, lost, found, lost and so on, each loss
    with the next number and each recovery with the number of the last loss, and the last
    value is the state and the counter the handler has. *)
Theorem source_history (d : D * list dx_call) (id time : Z) (cb : bool) mems (s0 s : MediaSourceHandler L) :
  MediaSourceHandler_new d id cb time mems = Done (Some s0) -> rtc source_step s0 s ->
  exists n : nat, mSourceLostCounter s = u32 (Z.of_nat n) /\
    reports s = report <$> seq 0 (2 * n + if mBufferSourceLost s then 0 else 1) /\
    last (reports s) = Some (srcStateToMVar (mBufferSourceLost s) (mSourceLostCounter s)).
Proof.
  intros Hn%new_history Hr; revert Hn; induction Hr as [s|]; [|eauto using history_step].
  intros (n & Hc & Hn & Hr); exists n; split_and!; [done|done|]; rewrite Hr, Hc.
  destruct (mBufferSourceLost s).
  - destruct n as [|n]; [by specialize (Hn eq_refl); lia|].
    replace (2 * S n + 0)%nat with (S (2 * n + 1)) by lia; rewrite seq_S, fmap_app.
    change (report <$> [?k]) with [report k]; by rewrite last_snoc, Nat.add_0_l, report_odd.
  - replace (2 * n + 1)%nat with (S (2 * n)) by lia; rewrite seq_S, fmap_app.
    change (report <$> [?k]) with [report k]; by rewrite last_snoc, Nat.add_0_l, report_even.
Qed.

(** ** Changing the channel *)

(** What closing a session's connection adds to the calls of its demuxer, and to the events. *)
Definition close_calls sess : list dx_call :=
  if connectionId sess =? FEIP_CONNECTION_UNINITIALIZED then [] else [Disconnected (connectionId sess)].

Definition close_events sess (uri : text) : list source_event :=
  if connectionId sess =? FEIP_CONNECTION_UNINITIALIZED then [] else [OnEndOfStream uri].

(** A change of channel: for a URI other than the current one and a configuration read from
    it, [open] returns 0 and leaves the URI, the configuration and the time set; the demuxer
    is disconnected if it was connected, connected anew and opened with the URI, in this
    order and nothing else; the end of the stream, the switch and the new stream are announced;
    and the next buffer counts as the first one. Opening the same URI again is refused and
    changes nothing. *)
Theorem source_open_switches (uri : text) (id now : Z) (cfg : ChannelConfig) (s : MediaSourceHandler L)
    (sess : FeipSession L) :
  uri <> [] -> mCurrentUri s <> uri -> mSessions s !! id = Some sess ->
  ChannelConfig_new uri DEFAULT_SOCKET_PORT = Done cfg ->
  exists s' sess' conn, source_open uri id now s = Done (s', 0) /\
    mCurrentUri s' = uri /\ mCurrentChannelConfig s' = cfg /\ mLastValidBufferTimeMs s' = now /\
    mSessions s' = <[id := sess']> (mSessions s) /\ firstBufferDisplayed sess' = false /\
    (mDemuxer sess').2 = (mDemuxer sess).2 ++ close_calls sess ++ [Connected conn; DxOpened uri []] /\
    connectionId sess' = (if 0 <=? conn then conn else FEIP_CONNECTION_UNINITIALIZED) /\
    events s' = events s ++ close_events sess uri ++ [StreamSwitched uri; OnOpen uri] /\
    source_open uri id now s' = Done (s', -1).
Proof.
  intros Hne Hu Hs Hcfg; unfold source_open at 1; rewrite bool_decide_eq_false_2 by done; rewrite Hs; cbn.
  destruct (dx_getChannelStats true (mDemuxer sess).1) as [d t]; rewrite Hcfg; cbn.
  unfold disconnect, close_calls, close_events; cbn.
  destruct uri as [|x uri]; [done|]; destruct (connectionId sess =? _) eqn:Ec; unfold connect; cbn.
  - destruct (dx_connect d) as [d1 conn] eqn:Ed; cbn.
    do 3 eexists; split_and!; [reflexivity|..]; try done.
    + by case_if.
    + by case_if; rewrite ?Ec; cbn; rewrite <- app_assoc.
    + case_if; cbn; [done|by b2p].
    + cbn; by rewrite <- !app_assoc.
    + unfold source_open; by rewrite bool_decide_eq_true_2.
  - destruct (dx_connect (dx_disconnect (connectionId sess) d)) as [d1 conn] eqn:Ed; cbn.
    do 3 eexists; split_and!; [reflexivity|..]; try done.
    + by case_if.
    + by case_if; cbn; rewrite <- !app_assoc.
    + by case_if.
    + cbn; by rewrite <- !app_assoc.
    + unfold source_open; by rewrite bool_decide_eq_true_2.
Qed.

End control.
