(* ===== verification/HttpDemuxer.v ===== *)
(** Class [HttpDemuxerImpl] of include/HttpDemuxerImpl.h and src/HttpDemuxerImpl.cpp: the
    demuxer that copies what curl receives into the buffers of the media source handler. The
    demuxer lives in the session 0 of the handler it is attached to, which is what the global
    pointer of the source leads to. *)

From S2P Require Import Prelude Interfaces Json BufferQueue MediaSource.

Record HttpDemuxerImpl := mkHttp {
  http_exit : bool;
  mCurrentOffset : Z;
  mHttpBufCount : Z;
  httpBuffer : list Z;
  mUri : text;
  mHttpThread : bool;
}.

#[export] Instance HttpDemuxerImpl_eta : Eta HttpDemuxerImpl := fun r =>
  mkHttp (http_exit r) (mCurrentOffset r) (mHttpBufCount r) (httpBuffer r) (mUri r) (mHttpThread r).

(** The pointers have no initialiser; [garbage] is what they are, and [count] what
    [mHttpBufCount] is before [init]. *)
Definition HttpDemuxerImpl_new (count : Z) (garbage : list Z) : HttpDemuxerImpl :=
  mkHttp false 0 count garbage [] false.

(** [init]. *)
Definition http_init (h : HttpDemuxerImpl) : HttpDemuxerImpl := h <| mHttpBufCount := 0 |>.

(** [open]: the thread, if there is one, is told to exit and joined, and a new one started. *)
Definition http_open (uri hwInterface : text) (h : HttpDemuxerImpl) : HttpDemuxerImpl :=
  let h := if mHttpThread h then h <| http_exit := true |> else h in
  h <| mUri := uri |> <| http_exit := false |> <| mHttpThread := true |>.

#[export] Instance http_demuxer : Demuxer HttpDemuxerImpl := {
  dx_init := http_init;
  dx_connect h := (h, 0);
  dx_start _ h := h;
  dx_informFirstFrameReceived h := h;
  dx_disconnect _ h := h;
  dx_open := http_open;
  dx_getGlobalStats _ := [];
  dx_getChannelStats _ h := (h, []);
}.

Section http.
Implicit Types s : MediaSourceHandler HttpDemuxerImpl.

Definition get_demuxer s : outcome HttpDemuxerImpl :=
  match mSessions s !! 0 with Some sess => Done (mDemuxer sess) | None => Stop Ub end.

Definition set_demuxer (h : HttpDemuxerImpl) s : MediaSourceHandler HttpDemuxerImpl :=
  s <| mSessions := alter (fun sess => sess <| mDemuxer := h |>) 0 (mSessions s) |>.

(** [a[i] = x]. *)
Definition array_set {A} (a : list A) (i : Z) (x : A) : outcome (list A) := splice a i [x].

(** [free]: of null and of a string, but not of what was never set. *)
Definition free_channel (c : channel_ptr) : outcome unit :=
  match c with NoChannel | Channel _ => Done () | Indeterminate => Stop Ub end.

(** The start of a turn: a buffer is acquired when the last one is full. *)
Definition http_acquire (freeBytesInTempBuf : Z) (h : HttpDemuxerImpl) s
  : outcome (HttpDemuxerImpl * MediaSourceHandler HttpDemuxerImpl) :=
  if freeBytesInTempBuf =? FEIP_BUFFER_SIZE then
    '(s, p) ← acquireBuffer s;
    a ← array_set (httpBuffer h) (mHttpBufCount h) p;
    Done (h <| httpBuffer := a |>, s)
  else Done (h, s).

(** The end of a turn that filled the buffer [p]: it is labelled with the URI and queued. *)
Definition http_push (p : Z) (b : bq_buffer) (h : HttpDemuxerImpl) s
  : outcome (HttpDemuxerImpl * MediaSourceHandler HttpDemuxerImpl) :=
  let b := b <| size := u32 (mCurrentOffset h) |> <| capacity := u32 (mCurrentOffset h) |> in
  _ ← free_channel (channelInfo b);
  let b := b <| channelInfo := Channel (mUri h) |> in
  s ← pushBuffertoBQ p 0 (s <| heap := <[p := b]> (heap s) |>);
  let h := h <| mCurrentOffset := 0 |> <| mHttpBufCount := u32 (mHttpBufCount h + 1) |> in
  let h := if mHttpBufCount h mod Z.of_nat FEIP_DEFAULT_BUFFER_COUNT =? 0
           then h <| mHttpBufCount := 0 |> else h in
  Done (h, s).

(** A turn of the loop of [write]: [data] are the [total_size] bytes of the call. *)
Definition http_turn (data : list Z) (remaining_data : Z) s
  : outcome (MediaSourceHandler HttpDemuxerImpl * Z) :=
  h ← get_demuxer s;
  let freeBytesInTempBuf := u64 (FEIP_BUFFER_SIZE - mCurrentOffset h) in
  '(h, s) ← http_acquire freeBytesInTempBuf h s;
  let writeLength := Z.min freeBytesInTempBuf remaining_data in
  p ← rd (httpBuffer h) (mHttpBufCount h);
  b ← deref p s;
  bytes ← slice data (zlen data - remaining_data) writeLength;
  l ← splice (buffer b) (mCurrentOffset h) bytes;
  let b := b <| buffer := l |> in
  let h := h <| mCurrentOffset := u64 (mCurrentOffset h + writeLength) |> in
  '(h, s) ← (if mCurrentOffset h =? FEIP_BUFFER_SIZE then http_push p b h s
             else Done (h, s <| heap := <[p := b]> (heap s) |>));
  Done (set_demuxer h s, remaining_data - writeLength).

(** [write]: a turn takes at least a byte. It returns the number of bytes it was given. *)
Fixpoint write_loop (fuel : nat) (data : list Z) (remaining_data : Z) s
  : outcome (MediaSourceHandler HttpDemuxerImpl) :=
  match fuel with
  | O => Stop OutOfFuel
  | S fuel =>
    if 0 <? remaining_data then
      '(s, remaining_data) ← http_turn data remaining_data s;
      write_loop fuel data remaining_data s
    else Done s
  end.

Definition http_write (data : list Z) s : outcome (MediaSourceHandler HttpDemuxerImpl * Z) :=
  s ← write_loop (S (length data)) data (zlen data) s;
  Done (s, zlen data).

(** The callback of curl: a thread that is to exit takes nothing and makes curl stop. *)
Definition write_data (data : list Z) s : outcome (MediaSourceHandler HttpDemuxerImpl * Z) :=
  h ← get_demuxer s;
  if http_exit h then Done (s, u64 (-1)) else http_write data s.

End http.
