(* ===== verification/HttpPipeline.v ===== *)
(** From curl to the stream processor: the demuxer, the handler's threads and the consumer
    together. The steps of the threads interleave in every order; a turn of a loop is a step,
    and a step that would wait is skipped. *)

From S2P Require Import Prelude Interfaces Json Regex ChannelConfig BufferQueue MediaSource SourceData SourceQueue HttpDemuxer.

(** [http_data] and [http_remaining] are the arguments of the call of [write] that is running
    and the bytes it has not copied; [taking] is the buffer the consumer has taken and not
    released; [received] are all the bytes curl has delivered. *)
Record pipeline := mkPipeline {
  source : MediaSourceHandler HttpDemuxerImpl;
  consumer : consumer_locals;
  taking : option Z;
  http_data : list Z;
  http_remaining : Z;
  received : list Z;
}.

#[export] Instance pipeline_eta : Eta pipeline := fun r =>
  mkPipeline (source r) (consumer r) (taking r) (http_data r) (http_remaining r) (received r).

Section pipeline.
Context {Rx : BoostRegex} {Tl : BoostToLower} {Ia : InetAton} {cfg : StreamfsConfig} {dirt : Dirt}.

Inductive pipe_op :=
| PData (data : list Z)
| PWrite
| PTake
| PCopy
| PMonitor (now : Z)
| POpen (uri : text) (now : Z)
| PReport (now : Z)
| PRoute (iface : text)
| PMessage (now : Z).

(** A demuxer is opened when the thread it joins has left [write]. *)
Definition joined (p : pipeline) (m : outcome (MediaSourceHandler HttpDemuxerImpl)) : outcome pipeline :=
  if http_remaining p =? 0 then s ← m; Done (p <| source := s |>) else Stop Blocked.

Definition pipe_exec (op : pipe_op) (p : pipeline) : outcome pipeline :=
  match op with
  | PData data =>
    h ← get_demuxer (source p);
    if (http_remaining p =? 0) && negb (http_exit h) then
      Done (p <| http_data := data |> <| http_remaining := zlen data |> <| received := received p ++ data |>)
    else Stop Blocked
  | PWrite =>
    if 0 <? http_remaining p then
      '(s, rem) ← http_turn (http_data p) (http_remaining p) (source p);
      Done (p <| source := s |> <| http_remaining := rem |>)
    else Stop Blocked
  | PTake =>
    match taking p with
    | Some _ => Stop Blocked
    | None =>
      '(s, b) ← take_buffer (source p);
      Done (p <| source := s |> <| taking := b |>)
    end
  | PCopy =>
    match taking p with
    | None => Stop Blocked
    | Some b =>
      '(c, s) ← consume_buffer b (consumer p) (source p);
      Done (p <| source := s |> <| consumer := c |> <| taking := None |>)
    end
  | PMonitor now => s ← dataMonitorLoop now (source p); Done (p <| source := s |>)
  | POpen uri now => joined p (fst <$> source_open uri 0 now (source p))
  | PReport now => Done (p <| source := reportTSBufferQueued now (source p) |>)
  | PRoute iface => Done (p <| source := defaultRouteChanged iface (source p) |>)
  | PMessage now => joined p (messageLoop now (source p))
  end.

Fixpoint pipe_run (ops : list pipe_op) (p : pipeline) : outcome pipeline :=
  match ops with
  | [] => Done p
  | op :: ops =>
    match pipe_exec op p with
    | Done p => pipe_run ops p
    | Stop Blocked => pipe_run ops p
    | Stop e => Stop e
    end
  end.

(** The URI of a channel must not make [ChannelConfig] read an address that was refused. *)
Definition pipe_op_ok (op : pipe_op) : Prop :=
  match op with
  | PData data => zlen data < 9223372036854775808
  | POpen uri _ => is_done (ChannelConfig_new uri DEFAULT_SOCKET_PORT) = true
  | _ => True
  end.

(** ** The invariant *)

(** The buffer the demuxer is filling, if it is. *)
Definition current (h : HttpDemuxerImpl) : list Z :=
  if mCurrentOffset h =? 0 then []
  else match rd (httpBuffer h) (mHttpBufCount h) with Done p => [p] | Stop _ => [] end.

Definition filled (hp : gmap Z bq_buffer) (h : HttpDemuxerImpl) : list Z :=
  match current h with
  | p :: _ => match hp !! p with Some b => ztake (mCurrentOffset h) (buffer b) | None => [] end
  | [] => []
  end.

Record http_ok (h : HttpDemuxerImpl) : Prop := {
  ok_offset : 0 <= mCurrentOffset h < FEIP_BUFFER_SIZE;
  ok_count : 0 <= mHttpBufCount h < Z.of_nat FEIP_DEFAULT_BUFFER_COUNT;
  ok_array : zlen (httpBuffer h) = Z.of_nat FEIP_DEFAULT_BUFFER_COUNT;
}.

(** The part of the invariant about where the buffers are. *)
Record source_ok (bufs : list Z) (s : MediaSourceHandler HttpDemuxerImpl) (h : HttpDemuxerImpl) (tk : option Z)
  : Prop := {
  sok_demuxer : get_demuxer s = Done h;
  sok_http : http_ok h;
  sok_heap : heap_ok bufs (heap s);
  sok_nodup : NoDup bufs;
  sok_placed : bq_placed bufs (mFccBufferQueue s) (current h) (option_list tk);
}.

(** A buffer is full, or the monitor's. *)
Definition entry_ok (e : entry) : Prop :=
  if e.1 then zlen e.2 = FEIP_BUFFER_SIZE
  else null_bytes e.2.

Definition http_bytes (log : list entry) : list Z := concat (snd <$> filter (fun e => e.1 = true) log).

(** [log] are the buffers that were queued, of which those of [copied] have been copied into
    chunks. *)
Record stream_ok (p : pipeline) (h : HttpDemuxerImpl) (copied queue : list entry) : Prop := {
  str_consumer : consumer_ok (consumer p);
  str_remaining : 0 <= http_remaining p <= zlen (http_data p) /\ zlen (http_data p) < 9223372036854775808;
  str_queue : content (heap (source p)) <$> waiting (source p) (taking p) = snd <$> queue;
  str_chunks : Forall (fun x => zlen x = BUFFER_CHUNK_SIZE) (posted_chunks (source p));
  str_posted : concat (posted_chunks (source p)) ++ partial (consumer p) = concat (snd <$> copied);
  str_entries : Forall entry_ok (copied ++ queue);
  str_dumped : dumped (source p) = Done <$> (snd <$> (copied ++ queue));
  str_received : received p = http_bytes (copied ++ queue) ++ filled (heap (source p)) h ++
    zdrop (zlen (http_data p) - http_remaining p) (http_data p);
}.

(** Without null packets ([pure]) all of them are from the demuxer. *)
Definition pipe_inv (pure : bool) (bufs : list Z) (p : pipeline) : Prop := exists h copied queue,
  source_ok bufs (source p) h (taking p) /\ stream_ok p h copied queue /\
  (pure = true -> Forall (fun e : entry => e.1 = true) (copied ++ queue)).

(** ** Helpers *)

Lemma http_bytes_app l1 l2 : http_bytes (l1 ++ l2) = http_bytes l1 ++ http_bytes l2.
Proof. unfold http_bytes; by rewrite filter_app, fmap_app, concat_app. Qed.

Lemma http_bytes_one x : http_bytes [(true, x)] = x.
Proof. unfold http_bytes; rewrite filter_cons_True by done; cbn; apply app_nil_r. Qed.

Lemma http_bytes_null x : http_bytes [(false, x)] = [].
Proof. unfold http_bytes; by rewrite filter_cons_False by done. Qed.

Lemma source_queue bufs s h tk : source_ok bufs s h tk -> queue_ok bufs s (current h) tk.
Proof.
  intros [Hg Hh Hheap Hn Hp]; split; try done.
  unfold get_demuxer in Hg; destruct (mSessions s !! 0); [by eexists|done].
Qed.

Lemma queue_source bufs s h tk : queue_ok bufs s (current h) tk -> get_demuxer s = Done h -> http_ok h -> source_ok bufs s h tk.
Proof. by intros [Hs Hheap Hn Hp] Hg Hh; split. Qed.

(** The demuxer does nothing about its first buffer. *)
Lemma get_told s s' h : told s s' -> get_demuxer s = Done h -> get_demuxer s' = Done h.
Proof.
  unfold get_demuxer; intros [->|(sess & Es & ->)]; [done|]; rewrite Es; intros [= <-]; by rewrite lookup_insert_eq.
Qed.

Lemma get_set_demuxer h h' s : get_demuxer s = Done h -> get_demuxer (set_demuxer h' s) = Done h'.
Proof.
  unfold get_demuxer, set_demuxer; cbn; destruct (mSessions s !! 0) as [sess|] eqn:E; [|done].
  by rewrite lookup_alter_eq, E.
Qed.

Lemma array_set_done (a : list Z) i x : 0 <= i < zlen a ->
  exists a', array_set a i x = Done a' /\ zlen a' = zlen a /\ rd a' i = Done x.
Proof.
  intros Hi; unfold array_set; rewrite splice_ok by (change (zlen [x]) with 1; lia).
  change (zlen [x]) with 1; eexists; split; [done|].
  assert (zlen (ztake i a) = i) as Ht by (apply zlen_ztake; lia).
  rewrite !zlen_app, Ht, zlen_zdrop by lia; change (zlen [x]) with 1; split; [lia|].
  rewrite rd_app_r by lia; rewrite Ht, Z.sub_diag; done.
Qed.

(** After the start of a turn the demuxer holds a buffer, with the bytes it had filled. *)
Lemma http_acquire_spec bufs s h tk : source_ok bufs s h tk ->
  wp (fun e => e = Blocked) (http_acquire (u64 (FEIP_BUFFER_SIZE - mCurrentOffset h)) h s) (fun '(h', s') =>
    exists p q, s' = s <| mFccBufferQueue := q |> /\ bq_placed bufs q [p] (option_list tk) /\
      consumerQueue q = consumerQueue (mFccBufferQueue s) /\
      http_ok h' /\ mCurrentOffset h' = mCurrentOffset h /\ rd (httpBuffer h') (mHttpBufCount h') = Done p /\
      mUri h' = mUri h /\ mHttpBufCount h' = mHttpBufCount h /\
      (mCurrentOffset h <> 0 -> current h = [p])).
Proof.
  intros [Hd [Ho Hc Ha] Hh Hn Hp]; unfold http_acquire, FEIP_BUFFER_SIZE in *; rewrite u64_small by lia.
  unfold current in *; case_if.
  - assert (mCurrentOffset h = 0) as E0 by lia; rewrite E0 in *; cbn [Z.eqb] in Hp.
    apply placed_acquire in Hp; unfold acquireBuffer; destruct (producerQueue (mFccBufferQueue s)) as [|p l].
    + by rewrite Hp.
    + destruct Hp as [-> Hp]; cbn; destruct (array_set_done (httpBuffer h) (mHttpBufCount h) p) as (a & -> & Hl & Hr);
        [lia|]; cbn.
      exists p, (mFccBufferQueue s) <| producerQueue := l |>; split_and!; try done.
      split; cbn; unfold FEIP_BUFFER_SIZE; lia.
  - rewrite (proj2 (Z.eqb_neq _ 0)) in * by lia; cbn.
    destruct (rd_in_range (httpBuffer h) (mHttpBufCount h)) as [p Er]; [lia|]; rewrite Er in *.
    exists p, (mFccBufferQueue s); split_and!; try done. by destruct s.
Qed.

Lemma next_count c : 0 <= c < Z.of_nat FEIP_DEFAULT_BUFFER_COUNT ->
  0 <= (if u32 (c + 1) mod Z.of_nat FEIP_DEFAULT_BUFFER_COUNT =? 0 then 0 else u32 (c + 1))
    < Z.of_nat FEIP_DEFAULT_BUFFER_COUNT.
Proof.
  change (Z.of_nat FEIP_DEFAULT_BUFFER_COUNT) with 64; intros Hc; rewrite u32_small by lia; case_if; [lia|].
  destruct (Z.eq_dec c 63) as [->|]; [done|lia].
Qed.

(** The memory of [malloc] is not initialised: when the pointer [channelInfo] of a buffer
    does not happen to be null, the first time the buffer is queued frees it. *)
Lemma http_push_uninitialised p b h s : channelInfo b = Indeterminate -> http_push p b h s = Stop Ub.
Proof. intros Hb; unfold http_push; cbn; by rewrite Hb. Qed.

(** The buffer as [http_push] queues it. *)
Definition labelled (h : HttpDemuxerImpl) (b : bq_buffer) : bq_buffer :=
  b <| size := FEIP_BUFFER_SIZE |> <| capacity := FEIP_BUFFER_SIZE |> <| channelInfo := Channel (mUri h) |>.

Lemma http_push_spec bufs s p b h h0 tk : get_demuxer s = Done h0 ->
  bq_placed bufs (mFccBufferQueue s) [p] (option_list tk) ->
  0 <= mHttpBufCount h < Z.of_nat FEIP_DEFAULT_BUFFER_COUNT ->
  zlen (httpBuffer h) = Z.of_nat FEIP_DEFAULT_BUFFER_COUNT ->
  mCurrentOffset h = FEIP_BUFFER_SIZE -> channelInfo b <> Indeterminate -> zlen (buffer b) = FEIP_BUFFER_SIZE ->
  exists h' s', http_push p b h s = Done (h', s') /\ http_ok h' /\ mCurrentOffset h' = 0 /\
    heap s' = <[p := labelled h b]> (heap s) /\
    consumerQueue (mFccBufferQueue s') = consumerQueue (mFccBufferQueue s) ++ [p] /\
    bq_placed bufs (mFccBufferQueue s') [] (option_list tk) /\ posted_chunks s' = posted_chunks s /\
    dumped s' = dumped s ++ [Done (bytes_of (labelled h b))] /\ get_demuxer s' = Done h0.
Proof.
  intros Hd Hp Hc Ha Ho Hi Hz; unfold http_push; rewrite Ho, (u32_small FEIP_BUFFER_SIZE) by (unfold FEIP_BUFFER_SIZE; lia).
  assert (free_channel (channelInfo b) = Done ()) as Hf by (by destruct (channelInfo b)).
  cbv zeta; change (channelInfo (b <| size := ?x |> <| capacity := ?y |>)) with (channelInfo b).
  rewrite Hf, bind_Done; fold (labelled h b).
  match goal with |- context [pushBuffertoBQ p 0 ?x] => destruct (push_spec bufs x p [] tk (labelled h b))
    as (s' & E & Hh & Hq & Hp' & Hpost & Hdump & Ht); [|apply lookup_insert_eq|by split|exact Hp|] end.
  { unfold get_demuxer in Hd; cbn; destruct (mSessions s !! 0); [by eexists|done]. }
  pose proof (get_told _ _ h0 Ht Hd) as Hd'; cbn in Hq.
  rewrite E, bind_Done; pose proof (next_count _ Hc) as Hn.
  change (mHttpBufCount (h <| mCurrentOffset := 0 |> <| mHttpBufCount := ?x |>)) with x.
  eexists _, s'; split; [reflexivity|]; rewrite Hh.
  destruct (u32 (mHttpBufCount h + 1) mod _ =? 0); split_and!; try done; try (by rewrite Hq);
    split; cbn; unfold FEIP_BUFFER_SIZE; lia.
Qed.

(** Bytes written into a buffer that has [off] bytes already. *)
Definition with_bytes (off : Z) (bytes : list Z) (b : bq_buffer) : bq_buffer :=
  b <| buffer := ztake off (buffer b) ++ bytes ++ zdrop (off + zlen bytes) (buffer b) |>.

Lemma with_bytes_ok off bytes b : buffer_ok b -> 0 <= off -> off + zlen bytes <= FEIP_BUFFER_SIZE ->
  buffer_ok (with_bytes off bytes b) /\
  ztake (off + zlen bytes) (buffer (with_bytes off bytes b)) = ztake off (buffer b) ++ bytes.
Proof.
  intros [Hb Hs] Ho Hl; pose proof (zlen_nonneg bytes).
  assert (zlen (ztake off (buffer b)) = off) as Ht by (apply zlen_ztake; lia).
  unfold with_bytes; split; [split; [|done]|]; cbn [buffer]; change (buffer (b <| buffer := ?x |>)) with x.
  - rewrite !zlen_app, Ht, zlen_zdrop by lia; lia.
  - rewrite app_assoc, ztake_app_l by (rewrite zlen_app; lia); apply ztake_all; rewrite zlen_app; lia.
Qed.

(** What a turn leaves behind: [new] are the buffers it queued. *)
Definition turn_done (bufs : list Z) (s : MediaSourceHandler HttpDemuxerImpl) (h : HttpDemuxerImpl) (tk : option Z)
  (data : list Z) (rem : Z) (s' : MediaSourceHandler HttpDemuxerImpl) (rem' : Z) : Prop :=
  exists h' new, source_ok bufs s' h' tk /\ posted_chunks s' = posted_chunks s /\ 0 <= rem' <= rem /\
    Forall entry_ok new /\ Forall (fun e : entry => e.1 = true) new /\ dumped s' = dumped s ++ (Done <$> (snd <$> new)) /\
    content (heap s') <$> waiting s' tk = (content (heap s) <$> waiting s tk) ++ (snd <$> new) /\
    filled (heap s) h ++ zdrop (zlen data - rem) data =
    http_bytes new ++ filled (heap s') h' ++ zdrop (zlen data - rem') data.

Lemma filled_held hp h p b : (mCurrentOffset h <> 0 -> current h = [p]) -> hp !! p = Some b -> 0 <= mCurrentOffset h ->
  filled hp h = ztake (mCurrentOffset h) (buffer b).
Proof.
  intros Hc Hb Ho; unfold filled; destruct (Z.eq_dec (mCurrentOffset h) 0) as [E|E].
  - unfold current; by rewrite E.
  - by rewrite (Hc E), Hb.
Qed.

(** The two ends of a turn, once the demuxer holds [p] and has the [bytes] to write. *)
Section turn_end.
Context (bufs : list Z) (s : MediaSourceHandler HttpDemuxerImpl) (h h1 : HttpDemuxerImpl) (tk : option Z).
Context (data bytes : list Z) (rem p : Z) (q : BufferQueue Z) (b : bq_buffer).
Local Abbreviation off := (mCurrentOffset h).
Local Abbreviation n := (zlen bytes).
Context (Hok : source_ok bufs s h tk) (Hpl : bq_placed bufs q [p] (option_list tk)).
Context (Hq : consumerQueue q = consumerQueue (mFccBufferQueue s)) (Ho : mCurrentOffset h1 = off).
Context (Hc1 : 0 <= mHttpBufCount h1 < Z.of_nat FEIP_DEFAULT_BUFFER_COUNT).
Context (Ha1 : zlen (httpBuffer h1) = Z.of_nat FEIP_DEFAULT_BUFFER_COUNT).
Context (Hrd : rd (httpBuffer h1) (mHttpBufCount h1) = Done p).
Context (Hb : heap s !! p = Some b) (Hbok : buffer_ok b) (Hbch : channelInfo b = Indeterminate -> dirty).
Context (Hfill : filled (heap s) h = ztake off (buffer b)).
Context (Hn : 0 < n <= rem) (Hroom : off + n <= FEIP_BUFFER_SIZE).
Context (Hsplit : zdrop (zlen data - rem) data = bytes ++ zdrop (zlen data - (rem - n)) data).

Local Abbreviation b1 := (with_bytes off bytes b).
Local Abbreviation h2 := (h1 <| mCurrentOffset := off + n |>).

Lemma offset_nonneg : 0 <= off.
Proof. destruct (sok_http _ _ _ _ Hok) as [? _ _]; lia. Qed.

Lemma turn_partial : off + n <> FEIP_BUFFER_SIZE ->
  turn_done bufs s h tk data rem
    (set_demuxer h2 (s <| mFccBufferQueue := q |> <| heap := <[p := b1]> (heap s) |>)) (rem - n).
Proof.
  intros Hne; pose proof offset_nonneg as Hoff0; destruct Hok as [Hg Hh Hheap Hnd _].
  destruct (held_apart _ _ _ _ _ Hnd Hpl) as (Hin & Hap & _).
  destruct (with_bytes_ok off bytes b Hbok Hoff0 Hroom) as [Hb1 Hpre].
  assert (current h2 = [p]) as Hcur.
  { unfold current; change (mCurrentOffset h2) with (off + n); rewrite (proj2 (Z.eqb_neq _ _)) by lia.
    change (httpBuffer h2) with (httpBuffer h1); change (mHttpBufCount h2) with (mHttpBufCount h1); by rewrite Hrd. }
  exists h2, []; split_and!; [split| |lia|lia|constructor|constructor|by rewrite app_nil_r| |].
  - by eapply get_set_demuxer.
  - split; cbn; unfold FEIP_BUFFER_SIZE in *; lia.
  - by apply heap_insert.
  - done.
  - rewrite Hcur; exact Hpl.
  - done.
  - unfold waiting; cbn; rewrite app_nil_r, <- Hq; by apply content_other.
  - unfold filled at 2; rewrite Hcur; cbn [heap set_demuxer].
    change (heap (set_demuxer ?x (?y <| heap := ?z |>))) with z; rewrite lookup_insert_eq.
    change (mCurrentOffset h2) with (off + n); rewrite Hpre, Hfill, Hsplit, <- app_assoc; done.
Qed.

Lemma turn_full : off + n = FEIP_BUFFER_SIZE -> channelInfo b <> Indeterminate ->
  exists h' s', http_push p b1 h2 (s <| mFccBufferQueue := q |>) = Done (h', s') /\
    turn_done bufs s h tk data rem (set_demuxer h' s') (rem - n).
Proof.
  intros He Hptr; pose proof offset_nonneg as Hoff0; destruct Hok as [Hg Hh Hheap Hnd _].
  destruct (held_apart _ _ _ _ _ Hnd Hpl) as (Hin & Hap & _).
  destruct (with_bytes_ok off bytes b Hbok Hoff0 Hroom) as [Hb1 Hpre]; rewrite He in Hpre.
  set (s1 := s <| mFccBufferQueue := q |>); set (h2' := h2).
  destruct (http_push_spec bufs s1 p b1 h2' h tk Hg Hpl Hc1 Ha1 He Hptr (proj1 Hb1))
    as (h' & s' & E & Hh' & Hoff & Hheap' & Hcq & Hpl' & Hpost & Hdump & Hg').
  exists h', s'; split; [exact E|].
  assert (current h' = []) as Hcur by (unfold current; by rewrite Hoff).
  assert (bytes_of (labelled h2' b1) = ztake off (buffer b) ++ bytes) as Hbytes by exact Hpre.
  exists h', [(true, ztake off (buffer b) ++ bytes)]; split_and!; [split| |lia|lia|..].
  - by eapply get_set_demuxer.
  - done.
  - change (heap (set_demuxer h' s')) with (heap s'); rewrite Hheap'; apply heap_insert; [done| |done].
    destruct Hb1 as [? _]; split; [done|cbn; unfold FEIP_BUFFER_SIZE; lia].
  - done.
  - by rewrite Hcur.
  - done.
  - constructor; [|constructor]; unfold entry_ok; cbn [fst snd]; rewrite zlen_app, zlen_ztake; [done|].
    destruct Hbok; unfold FEIP_BUFFER_SIZE in *; lia.
  - by constructor.
  - by rewrite Hbytes in Hdump.
  - unfold waiting; change (mFccBufferQueue (set_demuxer h' s')) with (mFccBufferQueue s').
    change (heap (set_demuxer h' s')) with (heap s'); rewrite Hcq, Hheap', app_assoc, fmap_app; cbn [fmap list_fmap].
    change (mFccBufferQueue s1) with q; rewrite content_same, Hbytes; f_equal.
    rewrite Hq in Hap |- *; by apply content_other.
  - unfold filled at 2; rewrite Hcur, Hfill, Hsplit, http_bytes_one, <- app_assoc; done.
Qed.

End turn_end.

Lemma http_turn_spec bufs s h tk data rem : source_ok bufs s h tk -> 0 < rem <= zlen data ->
  zlen data < 9223372036854775808 ->
  wp may_stop (http_turn data rem s) (fun '(s', rem') => turn_done bufs s h tk data rem s' rem').
Proof.
  intros Hok Hr Hd; pose proof (http_acquire_spec _ _ _ _ Hok) as Ha; pose proof Hok as [Hg Hh Hheap Hn Hp].
  unfold http_turn; rewrite Hg, bind_Done; cbv zeta.
  destruct (http_acquire _ h s) as [[h1 s1]|e]; cbn in Ha; [|by left].
  destruct Ha as (p & q & -> & Hpl & Hq & [Ho1 Hc1 Ha1] & Ho & Hrd & Hu & Hcnt & Hcur).
  destruct (held_apart _ _ _ _ _ Hn Hpl) as (Hin & Hap & _).
  destruct (heap_lookup _ _ _ Hheap Hin) as (b & Hb & Hbok & Hbch).
  pose proof (filled_held (heap s) h p b Hcur Hb ltac:(lia)) as Hfill.
  rewrite bind_Done; cbv beta iota; rewrite Hrd, bind_Done; unfold deref; cbn [heap].
  change (heap (s <| mFccBufferQueue := q |>)) with (heap s); rewrite Hb, bind_Done, Ho in *.
  unfold FEIP_BUFFER_SIZE in Ho1; rewrite (u64_small (FEIP_BUFFER_SIZE - _)) by (unfold FEIP_BUFFER_SIZE; lia).
  set (off := mCurrentOffset h) in *; set (n := Z.min (FEIP_BUFFER_SIZE - off) rem).
  assert (0 < n <= rem /\ off + n <= FEIP_BUFFER_SIZE) as Hnn by (unfold n, FEIP_BUFFER_SIZE; lia).
  rewrite slice_ok, bind_Done by lia; set (bytes := ztake n (zdrop (zlen data - rem) data)).
  assert (zlen bytes = n) as Hlen by (apply zlen_ztake; rewrite zlen_zdrop; lia).
  destruct (with_bytes_ok off bytes b Hbok ltac:(lia) ltac:(lia)) as [Hb1 Hpre]; rewrite Hlen in Hpre.
  pose proof Hbok as [Hbl _]; rewrite splice_ok, bind_Done by lia.
  fold (with_bytes off bytes b); rewrite u64_small by (unfold FEIP_BUFFER_SIZE in *; lia).
  assert (zdrop (zlen data - rem) data = bytes ++ zdrop (zlen data - (rem - n)) data) as Hsplit.
  { unfold bytes; rewrite <- (ztake_zdrop n (zdrop (zlen data - rem) data)) at 1; f_equal.
    rewrite zdrop_zdrop by lia; f_equal; lia. }
  change (mCurrentOffset (h1 <| mCurrentOffset := ?x |>)) with x; rewrite <- Hlen in *.
  case_if.
  - destruct (decide (channelInfo b = Indeterminate)) as [Hptr|Hptr].
    { rewrite http_push_uninitialised by done; right; by split; [|apply Hbch]. }
    destruct (turn_full bufs s h h1 tk data bytes rem p q b) as (h' & s' & E' & Ht); try done; [lia..|].
    match goal with |- wp _ (?m ≫= _) _ => replace m with (Done (h', s')) by (symmetry; exact E') end; exact Ht.
  - apply (turn_partial bufs s h h1 tk data bytes rem p q b); done || lia.
Qed.

(** ** The other steps *)

Context {Hcfg : StreamfsConfigOk cfg}.

Lemma filled_other hp h p b : p ∉ current h -> filled (<[p := b]> hp) h = filled hp h.
Proof.
  unfold filled; destruct (current h) as [|q l]; [done|]; intros Hp.
  rewrite lookup_insert_ne; [done|set_solver].
Qed.

(** Steps that leave the buffers alone. *)
Definition http_same (h h' : HttpDemuxerImpl) : Prop :=
  mCurrentOffset h' = mCurrentOffset h /\ mHttpBufCount h' = mHttpBufCount h /\ httpBuffer h' = httpBuffer h.

Definition same_data (s s' : MediaSourceHandler HttpDemuxerImpl) : Prop :=
  heap s' = heap s /\ mFccBufferQueue s' = mFccBufferQueue s /\ posted_chunks s' = posted_chunks s /\
  dumped s' = dumped s /\ forall h, get_demuxer s = Done h -> exists h', get_demuxer s' = Done h' /\ http_same h h'.

Lemma same_current h h' : http_same h h' -> current h' = current h.
Proof. unfold current; by intros (-> & -> & ->). Qed.

Lemma same_filled hp h h' : http_same h h' -> filled hp h' = filled hp h.
Proof. intros Hs; unfold filled; rewrite (same_current _ _ Hs); by destruct Hs as (-> & _). Qed.

Lemma inv_frame pure bufs p s' : pipe_inv pure bufs p -> same_data (source p) s' -> pipe_inv pure bufs (p <| source := s' |>).
Proof.
  intros (h & copied & queue & [Hg [Ho Hc Ha] Hheap Hn Hp] & [S1 S2 S3 S4 S5 S6 S8 S7] & Hpure) (Hh' & Hq' & Hpost & Hdump & Hd).
  destruct (Hd h Hg) as (h' & Hg' & Hs); exists h', copied, queue; split_and!; [| |done].
  - split; cbn; [done| |by rewrite Hh'|done|by rewrite Hq', (same_current _ _ Hs)].
    destruct Hs as (E1 & E2 & E3); split; by rewrite ?E1, ?E2, ?E3.
  - split; cbn; [done|done| |by rewrite Hpost|by rewrite Hpost|done|by rewrite Hdump|by rewrite Hh', (same_filled _ _ _ Hs)].
    unfold waiting; by rewrite Hh', Hq'.
Qed.

Lemma same_emit e s : match e with Post _ _ | SocketSend _ _ => False | _ => True end -> same_data s (emit e s).
Proof.
  intros He; split_and!; [done|done|apply posted_emit; by destruct e|apply dumped_emit; by destruct e|].
  intros h Hg; by exists h.
Qed.

Lemma same_refl s : same_data s s.
Proof. split_and!; try done; intros h Hg; by exists h. Qed.

Lemma same_trans s1 s2 s3 : same_data s1 s2 -> same_data s2 s3 -> same_data s1 s3.
Proof.
  intros (E1 & E2 & E3 & E4 & Hd) (F1 & F2 & F3 & F4 & Hd'); split_and!; try congruence.
  intros h (h' & Hg & Hs)%Hd; destruct (Hd' h' Hg) as (h'' & Hg' & Hs'); exists h''; split; [done|].
  unfold http_same in *; intuition congruence.
Qed.

(** A session replaced by one whose demuxer has the same buffers. *)
Lemma same_session s sess sess' : mSessions s !! 0 = Some sess -> http_same (mDemuxer sess) (mDemuxer sess') ->
  same_data s (s <| mSessions := <[0 := sess']> (mSessions s) |>).
Proof.
  intros Hs Hh; split_and!; try done; intros h; unfold get_demuxer; rewrite Hs; intros [= <-]; cbn.
  rewrite lookup_insert_eq; eauto.
Qed.

Lemma same_sessions s (f : FeipSession HttpDemuxerImpl -> FeipSession HttpDemuxerImpl) :
  (forall sess, http_same (mDemuxer sess) (mDemuxer (f sess))) ->
  same_data s (s <| mSessions := f <$> mSessions s |>).
Proof.
  intros Hf; split_and!; try done; intros h; unfold get_demuxer; cbn; rewrite lookup_fmap.
  destruct (mSessions s !! 0) as [sess|]; [|done]; intros [= <-]; cbn; eauto.
Qed.

Lemma http_same_refl h : http_same h h.
Proof. done. Qed.

Lemma http_same_open uri hw h : http_same h (http_open uri hw h).
Proof. unfold http_open, http_same; by destruct (mHttpThread h). Qed.

Lemma http_same_connect (sess : FeipSession HttpDemuxerImpl) : mDemuxer (connect sess) = mDemuxer sess.
Proof. done. Qed.

Lemma same_on_session s k (f : FeipSession HttpDemuxerImpl -> FeipSession HttpDemuxerImpl) :
  (forall sess, mSessions s !! k = Some sess -> http_same (mDemuxer sess) (mDemuxer (f sess))) -> same_data s (on_session k f s).
Proof.
  intros Hf; split_and!; try done; intros h; unfold get_demuxer; cbn; destruct (decide (k = 0)) as [->|Hk].
  - rewrite lookup_alter_eq; destruct (mSessions s !! 0) as [sess|]; [|done]; intros [= <-]; cbn; eauto.
  - rewrite lookup_alter_ne by done; intros Hg; by exists h.
Qed.

Lemma react_same r s : same_data s (react r s).
Proof.
  destruct r as [k|k|k|k id|k|k]; cbn [react]; repeat case_match; try apply same_refl.
  - set (s1 := s <| mReaction := _ |>); apply (same_trans s s1); [exact (same_refl s)|]; apply same_on_session; by intros.
  - apply same_on_session; by intros.
  - set (s1 := s <| mReaction := _ |>); apply (same_trans s s1); [exact (same_refl s)|]; apply same_on_session.
    intros sess Hs; change (mSessions s1) with (mSessions s) in Hs; by simplify_eq/=.
  - apply same_on_session; by intros.
  - apply same_on_session; intros sess _; exact (http_same_open _ _ _).
  - apply same_on_session; intros sess _; exact (http_same_open _ _ _).
Qed.

Lemma open_same uri now s r s' : source_open uri 0 now s = Done (s', r) -> same_data s s'.
Proof.
  unfold source_open; case_if; [intros [= <- _]; apply same_refl|].
  destruct (mSessions s !! 0) as [feip|] eqn:Ef; [|intros [= <- _]; apply same_refl]; cbn [http_demuxer dx_getChannelStats].
  intros (cfg' & _ & Hr)%bind_done_inv; revert Hr; cbv beta.
  set (f0 := feip <| mDemuxer := _ |>); set (s0 := _ <| mCurrentUri := uri |>).
  assert (same_data s s0 /\ mSessions s0 = mSessions s) as [H0 Hs0] by (split; [exact (same_refl s)|done]).
  assert (mDemuxer (disconnect f0 s0).1 = mDemuxer feip /\ same_data s0 (disconnect f0 s0).2 /\
          mSessions (disconnect f0 s0).2 = mSessions s) as (Hm & H1 & Hs1).
  { unfold disconnect; case_if; [split_and!; [done|apply same_refl|done]|].
    split_and!; [done|by apply same_emit|done]. }
  destruct (disconnect f0 s0) as [f1 s1]; cbn [fst snd] in *.
  pose proof (same_emit (StreamSwitched uri) s1 I) as H2; set (s2 := emit (StreamSwitched uri) s1) in *.
  assert (mSessions s2 !! 0 = Some feip) as Hs2 by (by change (mSessions s2) with (mSessions s1); rewrite Hs1).
  assert (same_data s s2) as H3 by eauto using same_trans.
  destruct uri as [|x uri]; intros [= <- _]; eapply same_trans; try exact H3.
  - apply (same_session s2 feip f1 Hs2); by rewrite Hm.
  - set (f2 := _ <| mDemuxer := http_open _ _ _ |>).
    assert (http_same (mDemuxer feip) (mDemuxer f2)) as Hf2.
    { rewrite <- Hm; exact (http_same_open _ _ _). }
    eapply same_trans; [exact (same_session s2 feip f2 Hs2 Hf2)|].
    exact (same_emit (OnOpen (x :: uri)) _ I).
Qed.

Lemma message_same now s s' : messageLoop now s = Done s' -> same_data s s'.
Proof.
  unfold messageLoop; destruct (mReaction s) as [|r rest].
  2: { intros [= <-]; eapply same_trans; [|apply react_same]; exact (same_refl s). }
  destruct (mMessageHandler s) as [|msg l]; [done|]; intros [= <-].
  set (s0 := s <| mMessageHandler := l |>); apply (same_trans s s0); [exact (same_refl s)|].
  unfold handle_message; destruct (what msg); try exact (same_refl s0).
  eapply same_trans; [|apply same_sessions; intros sess; exact (http_same_open _ _ _)]; exact (same_refl s0).
Qed.

Lemma message_waits now s e : messageLoop now s = Stop e -> e = Blocked.
Proof. unfold messageLoop; destruct (mReaction s), (mMessageHandler s); by intros [= <-]. Qed.

Lemma lost_same b (s : MediaSourceHandler HttpDemuxerImpl) : same_data s (set_lost b s).
Proof.
  unfold set_lost; eapply same_trans; [|by apply same_emit]; exact (same_refl s).
Qed.

(** What a step does to the invariant. *)
Definition step_ok (pure : bool) (bufs : list Z) (m : outcome pipeline) : Prop :=
  wp may_stop m (pipe_inv pure bufs).

Lemma data_step pure bufs p data : pipe_inv pure bufs p -> zlen data < 9223372036854775808 ->
  step_ok pure bufs (pipe_exec (PData data) p).
Proof.
  intros (h & copied & queue & Hs & [S1 S2 S3 S4 S5 S6 S8 S7] & Hpure) Hd; unfold step_ok; cbn [pipe_exec].
  rewrite (sok_demuxer _ _ _ _ Hs), bind_Done; case_if; [|done].
  exists h, copied, queue; split; [done|]; split; [split; cbn; try done|].
  - pose proof (zlen_nonneg data); lia.
  - assert (http_remaining p = 0) as E0 by done; rewrite S7, E0, Z.sub_0_r, (zdrop_all (zlen (http_data p))), app_nil_r, Z.sub_diag, zdrop_0, app_assoc by lia; done.
  - done.
Qed.

Lemma write_step pure bufs p : pipe_inv pure bufs p -> step_ok pure bufs (pipe_exec PWrite p).
Proof.
  intros (h & copied & queue & Hs & [S1 S2 S3 S4 S5 S6 S8 S7] & Hpure); unfold step_ok; cbn [pipe_exec]; case_if; [|done].
  pose proof (http_turn_spec bufs (source p) h (taking p) (http_data p) (http_remaining p) Hs ltac:(lia) ltac:(lia)) as Ht.
  destruct (http_turn _ _ _) as [[s' rem']|e]; [|done]; cbn in Ht |- *.
  destruct Ht as (h' & new & Hs' & Hpost & Hrem & Hnew & Htrue & Hdump & Hcont & Heq).
  exists h', copied, (queue ++ new); split; [done|]; split; [split; cbn; try done|].
  - lia.
  - rewrite Hcont, S3, fmap_app; done.
  - by rewrite Hpost.
  - by rewrite Hpost.
  - rewrite app_assoc; by apply Forall_app_2.
  - by rewrite Hdump, S8, !fmap_app, <- app_assoc.
  - rewrite S7, Heq, !http_bytes_app, <- !app_assoc; done.
  - intros E1; rewrite app_assoc; apply Forall_app_2; [by apply Hpure|done].
Qed.

Lemma take_step pure bufs p : pipe_inv pure bufs p -> step_ok pure bufs (pipe_exec PTake p).
Proof.
  intros (h & copied & queue & Hs & [S1 S2 S3 S4 S5 S6 S8 S7] & Hpure); unfold step_ok; cbn [pipe_exec].
  destruct (taking p) as [b|] eqn:Et; [done|].
  destruct (take_spec bufs (source p) (current h) (source_queue _ _ _ _ Hs)) as (q & tk & -> & Hs' & Hw); cbn.
  exists h, copied, queue; split; [destruct Hs; by apply queue_source|]; split; [split; cbn; try done|done]; by rewrite Hw.
Qed.

Lemma copy_step pure bufs p : pipe_inv pure bufs p -> step_ok pure bufs (pipe_exec PCopy p).
Proof.
  intros (h & copied & queue & Hs & [S1 S2 S3 S4 S5 S6 S8 S7] & Hpure); unfold step_ok; cbn [pipe_exec].
  destruct (taking p) as [b|] eqn:Et; [|done].
  destruct (consume_spec bufs (source p) (current h) b (consumer p) (source_queue _ _ _ _ Hs) S1)
    as (c' & s' & chunks & -> & Hs' & Hc' & Hh & Hss & Hw & Hpost & Hdump & _ & Hall & Hcat); cbn.
  unfold waiting in S3; cbn in S3; destruct queue as [|e queue]; [done|]; injection S3 as He S3.
  exists h, (copied ++ [e]), queue; split.
  { destruct Hs; apply (queue_source bufs s' h None); try done; unfold get_demuxer in *; by rewrite Hss. }
  split; [split; cbn; try done|].
  - unfold waiting in *; cbn in *; by rewrite Hh, Hw.
  - rewrite Hpost; by apply Forall_app_2.
  - rewrite Hpost, concat_app, <- app_assoc, <- Hcat, He, app_assoc, S5, fmap_app, concat_app; cbn.
    by rewrite app_nil_r.
  - by rewrite <- app_assoc.
  - by rewrite Hdump, S8, <- app_assoc.
  - by rewrite Hh, <- app_assoc.
  - by rewrite <- app_assoc.
Qed.

Lemma inject_step bufs p : pipe_inv false bufs p ->
  step_ok false bufs (s ← injectNullBuffers (source p); Done (p <| source := s |>)).
Proof.
  intros (h & copied & queue & Hs & [S1 S2 S3 S4 S5 S6 S8 S7] & Hpure); unfold step_ok.
  pose proof (inject_spec bufs (source p) (current h) (taking p) (source_queue _ _ _ _ Hs)) as Hi.
  destruct (injectNullBuffers (source p)) as [s'|e]; [|by left]; cbn in Hi |- *.
  destruct Hi as (x & b & bf & Hx & Hs' & Hpost & Hdump & Ht & Hb & Hheap & Hcont).
  assert (Hf : filled (heap s') h = filled (heap (source p)) h) by (rewrite Hheap; by apply filled_other).
  exists h, copied, (queue ++ [(false, x)]); split; [destruct Hs; apply queue_source; try done; by eapply get_told|]; split; [split; cbn; try done|].
  - by rewrite Hcont, S3, fmap_app.
  - by rewrite Hpost.
  - by rewrite Hpost.
  - rewrite app_assoc; apply Forall_app_2; [done|by constructor].
  - by rewrite Hdump, S8, !fmap_app, <- app_assoc.
  - by rewrite Hf, S7, (app_assoc copied), (http_bytes_app (copied ++ queue)), http_bytes_null, app_nil_r.
  - done.
Qed.

(** The monitor writes no null packets on a channel without an address. *)
Definition pure_op (pure : bool) (op : pipe_op) (p : pipeline) : Prop :=
  match op with
  | PMonitor _ => pure = true -> destinationIp (mCurrentChannelConfig (source p)) = 0
  | _ => True
  end.

Lemma monitor_step pure bufs p now : pipe_inv pure bufs p -> pure_op pure (PMonitor now) p ->
  step_ok pure bufs (pipe_exec (PMonitor now) p).
Proof.
  intros Hp Hpure; cbn [pipe_exec]; unfold dataMonitorLoop; case_if; [|by apply inv_frame; [|exact (same_refl _)]].
  destruct pure; [specialize (Hpure eq_refl); lia|].
  case_if; [by apply inv_frame; [|exact (same_refl (source p))]|].
  case_if; [|by apply inv_frame; [|exact (same_refl _)]]; cbv zeta.
  match goal with |- context [injectNullBuffers ?x] => set (s1 := x) end.
  assert (same_data (source p) s1) as H1.
  { unfold s1; case_if; [|apply same_refl]; eapply same_trans; [|apply lost_same]; exact (same_refl (source p)). }
  exact (inject_step bufs (p <| source := s1 |>) (inv_frame false bufs p s1 Hp H1)).
Qed.

Lemma pipe_step pure bufs p op : pipe_inv pure bufs p -> pipe_op_ok op -> pure_op pure op p -> step_ok pure bufs (pipe_exec op p).
Proof.
  intros Hp Hop Hpure; destruct op; [by apply data_step|by apply write_step|by apply take_step|by apply copy_step|
    by apply monitor_step|..]; unfold step_ok; cbn [pipe_exec].
  - unfold joined; case_if; [|done].
    destruct (source_open uri 0 now (source p)) as [[s' r]|e] eqn:Eo.
    + apply inv_frame; [done|by eapply open_same].
    + exfalso; revert Eo; unfold source_open; case_if; [done|].
      destruct (mSessions (source p) !! 0) as [feip|]; [|done]; cbn [http_demuxer dx_getChannelStats].
      cbn in Hop; destruct (ChannelConfig_new uri DEFAULT_SOCKET_PORT); [|done]; cbn.
      by destruct (disconnect _ _), uri.
  - apply inv_frame; [done|]; unfold reportTSBufferQueued; case_if; [|exact (same_refl (source p))].
    eapply same_trans; [|apply lost_same]; exact (same_refl (source p)).
  - apply inv_frame; [done|exact (same_refl (source p))].
  - unfold joined; case_if; [|done].
    destruct (messageLoop now (source p)) as [s'|e] eqn:Em; [apply inv_frame; [done|by eapply message_same]|].
    apply message_waits in Em as ->; exact may_wait.
Qed.

(** A buffer that was never labelled is the only reason to stop. *)
Lemma pipe_run_inv bufs ops p : pipe_inv false bufs p -> Forall pipe_op_ok ops ->
  wp (fun e => e = Ub /\ dirty) (pipe_run ops p) (pipe_inv false bufs).
Proof.
  intros Hp Hops; revert p Hp; induction Hops as [|op ops Hop _ IH]; intros p Hp; cbn [pipe_run]; [done|].
  pose proof (pipe_step false bufs p op Hp Hop ltac:(by destruct op)) as Hs; unfold step_ok in Hs.
  destruct (pipe_exec op p) as [p'|e]; cbn in Hs; [by apply IH|]; destruct Hs as [->|[-> Hd]]; [by apply IH|done].
Qed.

(** ** The start *)

(** A pipeline before anything has happened. *)
Definition pipeline_start (s : MediaSourceHandler HttpDemuxerImpl) (garbage : list Z) : pipeline :=
  mkPipeline s (mkConsumer garbage 0) None [] 0 [].

Lemma start_inv pure mems count pointers garbage time :
  mems_ok mems -> (Exists uninitialised mems -> dirty) -> zlen pointers = Z.of_nat FEIP_DEFAULT_BUFFER_COUNT -> zlen garbage = BUFFER_CHUNK_SIZE ->
  exists s, MediaSourceHandler_new (HttpDemuxerImpl_new count pointers) 0 true time mems = Done (Some s) /\
    pipe_inv pure (mem_ptr <$> mems) (pipeline_start s garbage).
Proof.
  intros Hm Hi Hp Hg; destruct (source_new_spec (HttpDemuxerImpl_new count pointers) mems time Hm Hi)
    as (s & -> & Hq & Hs & Hc & Hpo & Hd); exists s; split; [done|].
  set (h := http_init (HttpDemuxerImpl_new count pointers)); exists h, [], [].
  assert (current h = []) as Hcur by done.
  split_and!; [|split|]; cbn; rewrite ?Hpo, ?Hd; try done.
  - apply queue_source; [by rewrite Hcur|unfold get_demuxer; by rewrite Hs|by split].
  - split; [done|]; pose proof chunk_pos; cbn; lia.
  - by unfold waiting; cbn; rewrite Hc.
Qed.

End pipeline.

Section delivery.
Context {Rx : BoostRegex} {Tl : BoostToLower} {Ia : InetAton} {cfg : StreamfsConfig} {Hcfg : StreamfsConfigOk cfg}.

(** C9. Every byte curl delivers reaches the stream processor, once and in order, however the
    demuxer's thread, the consumer, the monitors and the changes of channel interleave. At any
    time the chunks posted are the full pieces of the buffers copied so far, a buffer is 42112
    bytes from curl or null packets from the monitor, and what curl delivered is, in order, the
    bytes of the buffers copied and still queued, those in the buffer that is being filled, and
    those the running call has left. The socket server gets the same buffers. The run stops for
    one reason only: the memory that [malloc] gave for a buffer has a [channelInfo] that is no
    pointer, and the buffer is queued, which frees it. The channels opened are such that
    [ChannelConfig] can be constructed, and a call of curl brings less than 2^63 bytes. *)
Theorem http_stream_delivered mems count pointers garbage time (ops : list pipe_op) :
  mems_ok mems -> zlen pointers = Z.of_nat FEIP_DEFAULT_BUFFER_COUNT -> zlen garbage = BUFFER_CHUNK_SIZE ->
  Forall pipe_op_ok ops ->
  exists s, MediaSourceHandler_new (HttpDemuxerImpl_new count pointers) 0 true time mems = Done (Some s) /\
    wp (fun e => e = Ub /\ Exists uninitialised mems) (pipe_run ops (pipeline_start s garbage)) (fun p =>
      exists h copied queue, get_demuxer (source p) = Done h /\
        posted_chunks (source p) = pieces BUFFER_CHUNK_SIZE (concat (snd <$> copied)) /\
        partial (consumer p) = leftover BUFFER_CHUNK_SIZE (concat (snd <$> copied)) /\
        content (heap (source p)) <$> waiting (source p) (taking p) = snd <$> queue /\
        Forall entry_ok (copied ++ queue) /\ dumped (source p) = Done <$> (snd <$> (copied ++ queue)) /\
        received p = http_bytes (copied ++ queue) ++ filled (heap (source p)) h ++
                     zdrop (zlen (http_data p) - http_remaining p) (http_data p)).
Proof.
  intros Hm Hp Hg Hops; set (dirt := Exists uninitialised mems : Dirt).
  destruct (start_inv (dirt := dirt) false mems count pointers garbage time Hm (fun H => H) Hp Hg) as (s & Hs & Hi).
  exists s; split; [done|]; eapply wp_mono; [exact (pipe_run_inv (dirt := dirt) _ ops _ Hi Hops)|].
  intros p _ (h & copied & queue & Hok & [S1 S2 S3 S4 S5 S6 S8 S7] & _).
  exists h, copied, queue; pose proof chunk_pos.
  destruct (pieces_unique BUFFER_CHUNK_SIZE (posted_chunks (source p)) (partial (consumer p))) as [E1 E2];
    [lia|done|by apply partial_short|].
  rewrite <- S5, E1, E2; split_and!; try done; apply Hok.
Qed.

End delivery.

(** * A change of channel *)

(** The demuxer keeps the bytes of the old channel it has not queued, and labels the buffer
    they are in with the channel it has when the buffer is full. *)
Lemma open_keeps_bytes hp uri hw h : mUri (http_open uri hw h) = uri /\ filled hp (http_open uri hw h) = filled hp h.
Proof.
  split; [done|]; apply same_filled, http_same_open.
Qed.

Lemma http_push_label p b h s h' s' : http_push p b h s = Done (h', s') ->
  exists b', heap s' !! p = Some b' /\ channelInfo b' = Channel (mUri h) /\ buffer b' = buffer b.
Proof.
  unfold http_push; intros ([] & _ & (s1 & Hp & [= _ <-])%bind_done_inv)%bind_done_inv; revert Hp.
  unfold pushBuffertoBQ; intros (b0 & _ & (q & _ & Hr)%bind_done_inv)%bind_done_inv; revert Hr; cbv zeta.
  destruct (mSessions _ !! 0) as [sess|]; [|done].
  destruct (negb _); intros [= <-]; cbn; rewrite lookup_insert_eq; by eexists.
Qed.

