(* ===== verification/ListenerPipeline.v ===== *)
(** From the network to the stream processor: a listener that pushes buffers, the threads of the
    media source handler and the consumer together, for any listener. *)

From S2P Require Import Prelude Interfaces Json Regex ChannelConfig BufferQueue MediaSource SourceData SourceQueue.

(** * Listeners *)

(** What a listener copies into a buffer, and the size it gives the buffer. *)
Definition item : Type := list Z * Z.

Definition item_bytes (it : item) : list Z := ztake it.2 it.1.

Definition item_ok (it : item) : Prop := 0 <= it.2 <= zlen it.1 /\ zlen it.1 <= FEIP_BUFFER_SIZE.

(** A listener with the memory [L] turns what [recvfrom] gives into buffers to push. *)
Class Listener (L E : Type) := {
  receive : E -> L -> outcome (L * list item);
  listener_ok : L -> Prop;
  event_ok : E -> Prop;
}.

Class ListenerLaws (L E : Type) `{Listener L E} : Prop := {
  receive_ok : forall e l, listener_ok l -> event_ok e ->
    wp (fun _ => False) (receive e l) (fun '(l', items) => listener_ok l' /\ Forall item_ok items);
}.

Fixpoint receive_all `{Listener L E} (es : list E) (l : L) : outcome (L * list item) :=
  match es with
  | [] => Done (l, [])
  | e :: es =>
    '(l, items) ← receive e l;
    '(l, rest) ← receive_all es l;
    Done (l, items ++ rest)
  end.

Lemma receive_all_snoc `{Listener L E} es e : forall l l1 l2 items1 items2,
  receive_all es l = Done (l1, items1) -> receive e l1 = Done (l2, items2) ->
  receive_all (es ++ [e]) l = Done (l2, items1 ++ items2).
Proof.
  induction es as [|e0 es IH]; intros l l1 l2 items1 items2; cbn [receive_all app].
  - intros [= -> <-] ->; rewrite !bind_Done; by rewrite app_nil_r.
  - intros ([l0 i0] & -> & ([l3 i3] & Hr & [= <- <-])%bind_done_inv)%bind_done_inv He.
    rewrite bind_Done, (IH _ _ _ _ _ Hr He), bind_Done; by rewrite app_assoc.
Qed.

(** * The threads *)

Section threads.
Context {L E : Type} {LS : Listener L E} {D : Type} {DX : Demuxer D}.
Context {Rx : BoostRegex} {Tl : BoostToLower} {Ia : InetAton} {cfg : StreamfsConfig} {dirt : Dirt}.

(** [RtpStreamListener::pushBuffertoBQ], and the end of a turn of [UdpStreamListener::readLoop]:
    what both do to the handler. *)
Definition push_item (it : item) (now : Z) (s : MediaSourceHandler D) : outcome (MediaSourceHandler D) :=
  '(s, cBuf) ← acquireBuffer s;
  b ← deref cBuf s;
  l ← splice (buffer b) 0 it.1;
  let b := b <| buffer := l |> <| size := u32 it.2 |> in
  s ← pushBuffertoBQ cBuf 0 (s <| heap := <[cBuf := b]> (heap s) |>);
  Done (reportTSBufferQueued now s).

(** [lp_pending] are the buffers the listener has still to push before it waits for the network
    again; [lp_events] is what [recvfrom] has given since the listener was [lp_start]. *)
Record listener_pipe := mkListenerPipe {
  lp_source : MediaSourceHandler D;
  lp_consumer : consumer_locals;
  lp_taking : option Z;
  lp_listener : L;
  lp_pending : list item;
  lp_start : L;
  lp_events : list E;
}.

#[export] Instance listener_pipe_eta : Eta listener_pipe := fun r =>
  mkListenerPipe (lp_source r) (lp_consumer r) (lp_taking r) (lp_listener r) (lp_pending r) (lp_start r) (lp_events r).

Inductive listener_op :=
| LReceive (e : E)
| LPush (now : Z)
| LTake
| LCopy
| LMonitor (now : Z)
| LRoute (iface : text)
| LMessage (now : Z)
| LOpen (uri : text) (now : Z).

Definition lp_exec (op : listener_op) (p : listener_pipe) : outcome listener_pipe :=
  match op with
  | LReceive e =>
    match lp_pending p with
    | [] =>
      '(l, items) ← receive e (lp_listener p);
      Done (p <| lp_listener := l |> <| lp_pending := items |> <| lp_events := lp_events p ++ [e] |>)
    | _ => Stop Blocked
    end
  | LPush now =>
    match lp_pending p with
    | it :: items =>
      s ← push_item it now (lp_source p);
      Done (p <| lp_source := s |> <| lp_pending := items |>)
    | [] => Stop Blocked
    end
  | LTake =>
    match lp_taking p with
    | Some _ => Stop Blocked
    | None =>
      '(s, b) ← take_buffer (lp_source p);
      Done (p <| lp_source := s |> <| lp_taking := b |>)
    end
  | LCopy =>
    match lp_taking p with
    | None => Stop Blocked
    | Some b =>
      '(c, s) ← consume_buffer b (lp_consumer p) (lp_source p);
      Done (p <| lp_source := s |> <| lp_consumer := c |> <| lp_taking := None |>)
    end
  | LMonitor now => s ← dataMonitorLoop now (lp_source p); Done (p <| lp_source := s |>)
  | LRoute iface => Done (p <| lp_source := defaultRouteChanged iface (lp_source p) |>)
  | LMessage now => s ← messageLoop now (lp_source p); Done (p <| lp_source := s |>)
  | LOpen uri now => '(s, _) ← source_open uri 0 now (lp_source p); Done (p <| lp_source := s |>)
  end.

(** A step that would wait is skipped. *)
Fixpoint lp_run (ops : list listener_op) (p : listener_pipe) : outcome listener_pipe :=
  match ops with
  | [] => Done p
  | op :: ops =>
    match lp_exec op p with
    | Done p => lp_run ops p
    | Stop Blocked => lp_run ops p
    | Stop e => Stop e
    end
  end.

(** The URI of a channel must not make [ChannelConfig] read an address that was refused. *)
Definition lp_op_ok (op : listener_op) : Prop :=
  match op with
  | LReceive e => event_ok e
  | LOpen uri _ => is_done (ChannelConfig_new uri DEFAULT_SOCKET_PORT) = true
  | _ => True
  end.

Definition opens (op : listener_op) : bool := match op with LOpen _ _ => true | _ => false end.

(** ** The invariant *)

(** A buffer is from the listener, or the monitor's. *)
Definition pushed_ok (e : entry) : Prop := if e.1 then zlen e.2 <= FEIP_BUFFER_SIZE else null_bytes e.2.

Definition from_listener (log : list entry) : list (list Z) := snd <$> filter (fun e => e.1 = true) log.

(** The buffers that were queued, of which those of [copied] have been copied into chunks. *)
Record pushes_ok (bufs : list Z) (p : listener_pipe) (copied queue : list entry) (items : list item) : Prop := {
  lk_queue : queue_ok bufs (lp_source p) [] (lp_taking p);
  lk_consumer : consumer_ok (lp_consumer p);
  lk_waiting : content (heap (lp_source p)) <$> waiting (lp_source p) (lp_taking p) = snd <$> queue;
  lk_chunks : Forall (fun x => zlen x = BUFFER_CHUNK_SIZE) (posted_chunks (lp_source p));
  lk_posted : concat (posted_chunks (lp_source p)) ++ partial (lp_consumer p) = concat (snd <$> copied);
  lk_entries : Forall pushed_ok (copied ++ queue);
  lk_dumped : dumped (lp_source p) = Done <$> (snd <$> (copied ++ queue));
  lk_pending : Forall item_ok (lp_pending p);
  lk_listener : listener_ok (lp_listener p);
  lk_received : receive_all (lp_events p) (lp_start p) = Done (lp_listener p, items);
  lk_items : item_bytes <$> items = from_listener (copied ++ queue) ++ (item_bytes <$> lp_pending p);
}.

Definition lp_inv (bufs : list Z) (p : listener_pipe) : Prop := exists copied queue items, pushes_ok bufs p copied queue items.

(** ** Helpers *)

Context {LL : ListenerLaws L E} {Hcfg : StreamfsConfigOk cfg}.

Lemma from_listener_app l1 l2 : from_listener (l1 ++ l2) = from_listener l1 ++ from_listener l2.
Proof. unfold from_listener; by rewrite filter_app, fmap_app. Qed.

Lemma from_listener_one x : from_listener [(true, x)] = [x].
Proof. unfold from_listener; by rewrite filter_cons_True by done. Qed.

Lemma from_listener_null x : from_listener [(false, x)] = [].
Proof. unfold from_listener; by rewrite filter_cons_False by done. Qed.

(** Steps that leave the buffers alone. *)
Definition same_queue (s s' : MediaSourceHandler D) : Prop :=
  heap s' = heap s /\ mFccBufferQueue s' = mFccBufferQueue s /\ posted_chunks s' = posted_chunks s /\
  dumped s' = dumped s /\ (is_Some (mSessions s !! 0) -> is_Some (mSessions s' !! 0)).

Lemma same_queue_trans s1 s2 s3 : same_queue s1 s2 -> same_queue s2 s3 -> same_queue s1 s3.
Proof. unfold same_queue; intuition congruence. Qed.

Lemma lost_same_queue b (s : MediaSourceHandler D) : same_queue s (set_lost b s).
Proof.
  unfold set_lost; split_and!; try done; [exact (posted_emit (BufferSrcLost _) _ I)|exact (dumped_emit (BufferSrcLost _) _ I)].
Qed.

Lemma report_same_queue now (s : MediaSourceHandler D) : same_queue s (reportTSBufferQueued now s).
Proof.
  unfold reportTSBufferQueued; cbv zeta; case_if; [|done]; eapply same_queue_trans; [|apply lost_same_queue]; done.
Qed.

Lemma message_same_queue now (s s' : MediaSourceHandler D) : messageLoop now s = Done s' -> same_queue s s'.
Proof.
  unfold messageLoop; destruct (mReaction s) as [|r rest]; [destruct (mMessageHandler s) as [|msg l]; [done|]|]; intros [= <-].
  - unfold handle_message; destruct (what msg); split_and!; try done; cbn; rewrite lookup_fmap; intros [x ->]; by eexists.
  - destruct r; cbn [react]; repeat case_match; split_and!; try done; cbn; by rewrite lookup_alter_is_Some.
Qed.

Lemma emit_same_queue e (s : MediaSourceHandler D) :
  match e with Post _ _ | SocketSend _ _ => False | _ => True end -> same_queue s (emit e s).
Proof. intros He; split_and!; try done; [apply posted_emit|apply dumped_emit]; by destruct e. Qed.

Lemma open_same_queue uri now (s : MediaSourceHandler D) : is_done (ChannelConfig_new uri DEFAULT_SOCKET_PORT) = true ->
  exists s' r, source_open uri 0 now s = Done (s', r) /\ same_queue s s'.
Proof.
  intros Hc; unfold source_open; case_if; [by eexists _, _|]; destruct (mSessions s !! 0) as [feip|]; [|by eexists _, _].
  destruct (dx_getChannelStats true (mDemuxer feip)) as [d x].
  destruct (ChannelConfig_new uri DEFAULT_SOCKET_PORT) as [c|]; [|done]; rewrite bind_Done; cbv zeta.
  set (s0 := _ <| mCurrentUri := uri |>); set (f0 := feip <| mDemuxer := d |>); assert (H0 : same_queue s s0) by done.
  assert (H1 : same_queue s (disconnect f0 s0).2).
  { unfold disconnect; case_if; [done|]; eapply same_queue_trans; [exact H0|]; by apply emit_same_queue. }
  destruct (disconnect f0 s0) as [f1 s1]; cbn [snd] in H1; set (s2 := emit (StreamSwitched uri) s1).
  assert (H2 : same_queue s s2) by (eapply same_queue_trans; [exact H1|by apply emit_same_queue]).
  assert (H3 : forall f, same_queue s (s2 <| mSessions := <[0 := f]> (mSessions s2) |>)).
  { intros f; destruct H2 as (E1 & E2 & E3 & E4 & _); split_and!; try done.
    intros _; cbn; rewrite lookup_insert_eq; by eexists. }
  destruct uri as [|z uri]; [eexists _, _; split; [reflexivity|apply H3]|].
  eexists _, _; split; [reflexivity|].
  match goal with |- context [emit (OnOpen (z :: uri)) ?x] =>
    apply (same_queue_trans s x); [apply H3|exact (emit_same_queue (OnOpen (z :: uri)) x I)] end.
Qed.

Lemma same_queue_ok bufs s s' f tk : same_queue s s' -> queue_ok bufs s f tk -> queue_ok bufs s' f tk.
Proof. intros (E1 & E2 & _ & _ & E5) [Q1 Q2 Q3 Q4]; split; rewrite ?E1, ?E2; auto. Qed.

Lemma inv_same_queue bufs p s' : lp_inv bufs p -> same_queue (lp_source p) s' -> lp_inv bufs (p <| lp_source := s' |>).
Proof.
  intros (copied & queue & items & [K1 K2 K3 K4 K5 K6 K7 K8 K9 K10 K11]) Hs; exists copied, queue, items.
  pose proof (same_queue_ok _ _ _ _ _ Hs K1) as Hq; destruct Hs as (E1 & E2 & E3 & E4 & _).
  split; cbn; rewrite ?E3, ?E4; try done; unfold waiting in *; by rewrite E1, E2.
Qed.

(** A buffer that is pushed is the next one of the queue. *)
Lemma push_item_spec bufs s tk it now : queue_ok bufs s [] tk -> item_ok it ->
  wp (fun e => e = Blocked) (push_item it now s) (fun s' => queue_ok bufs s' [] tk /\
    posted_chunks s' = posted_chunks s /\ dumped s' = dumped s ++ [Done (item_bytes it)] /\ adds s s' /\
    content (heap s') <$> waiting s' tk = (content (heap s) <$> waiting s tk) ++ [item_bytes it]).
Proof.
  intros Hq [Hsz Hl]; pose proof (acquire_spec bufs s [] tk Hq) as Ha; unfold push_item.
  destruct (acquireBuffer s) as [[s1 p]|e] eqn:Eq; cbn [wp mbind outcome_bind] in Ha |- *; [|done].
  apply adds_acquire in Eq; destruct Ha as (b & q & -> & Hb & [Hbl Hbs] & Hbch & _ & Hpush); unfold deref.
  change (heap (s <| mFccBufferQueue := q |>)) with (heap s) in *; rewrite Hb; cbn [mbind outcome_bind].
  rewrite splice_ok by lia; cbn [mbind outcome_bind]; rewrite (u32_small it.2) by (unfold FEIP_BUFFER_SIZE in *; lia).
  set (new := b <| buffer := _ |> <| size := it.2 |>).
  assert (Hnew : zlen (buffer new) = FEIP_BUFFER_SIZE /\ bytes_of new = item_bytes it).
  { unfold bytes_of; change (size new) with it.2; change (buffer new) with (it.1 ++ zdrop (0 + zlen it.1) (buffer b)).
    rewrite zlen_app, zlen_zdrop, ztake_app_l by lia; split; [lia|done]. }
  destruct Hnew as [Hn1 Hn2].
  destruct (Hpush new) as (s' & Ep & Hq' & _ & Hpost & Hdump & _ & Hw); [split; [done|cbn; lia]|done|].
  rewrite Ep; cbn [mbind outcome_bind wp]; rewrite Hn2 in *; apply adds_push in Ep.
  pose proof (report_same_queue now s') as Hr; pose proof (same_queue_ok _ _ _ _ _ Hr Hq') as Hq2.
  destruct Hr as (E1 & E2 & E3 & E4 & _); split_and!; [done|congruence|congruence| |unfold waiting in *; by rewrite E1, E2].
  eapply adds_trans; [exact Eq|]; eapply adds_trans; [|apply adds_report]; eapply adds_trans; [|exact Ep]; by apply adds_none.
Qed.

(** ** The steps *)

(** A step waits, or keeps the invariant, and the channel stays open. *)
Definition lp_step_ok (bufs : list Z) (p : listener_pipe) (m : outcome listener_pipe) : Prop :=
  wp (fun e => e = Blocked) m (fun p' => lp_inv bufs p' /\ adds (lp_source p) (lp_source p') /\ lp_start p' = lp_start p).

Lemma receive_step bufs p e : lp_inv bufs p -> event_ok e -> lp_step_ok bufs p (lp_exec (LReceive e) p).
Proof.
  intros (copied & queue & items & [K1 K2 K3 K4 K5 K6 K7 K8 K9 K10 K11]) He; unfold lp_step_ok; cbn [lp_exec].
  destruct (lp_pending p) as [|it its]; [|done]; pose proof (receive_ok e (lp_listener p) K9 He) as Hr.
  destruct (receive e (lp_listener p)) as [[l new]|e'] eqn:Er; cbn [wp mbind outcome_bind] in *; [|done].
  destruct Hr as [Hl Hn]; split; [|split; [apply adds_refl|done]]; exists copied, queue, (items ++ new).
  split; cbn; try done; [by eapply receive_all_snoc|].
  by rewrite fmap_app, K11, app_nil_r.
Qed.

Lemma push_step bufs p now : lp_inv bufs p -> lp_step_ok bufs p (lp_exec (LPush now) p).
Proof.
  intros (copied & queue & items & [K1 K2 K3 K4 K5 K6 K7 K8 K9 K10 K11]); unfold lp_step_ok; cbn [lp_exec].
  destruct (lp_pending p) as [|it its]; [done|]; apply Forall_cons in K8 as [Hit Hits].
  pose proof (push_item_spec bufs _ _ it now K1 Hit) as Hs.
  destruct (push_item it now (lp_source p)) as [s'|e]; cbn [wp mbind outcome_bind] in *; [|done].
  destruct Hs as (Hq & Hpost & Hdump & Ha & Hw); split; [|by split]; exists copied, (queue ++ [(true, item_bytes it)]), items.
  split; cbn; rewrite ?Hpost; try done.
  - by rewrite Hw, K3, fmap_app.
  - rewrite app_assoc; apply Forall_app_2; [done|]; constructor; [|constructor]; unfold pushed_ok, item_bytes; cbn.
    destruct Hit; rewrite zlen_ztake; lia.
  - by rewrite Hdump, K7, !fmap_app, <- app_assoc.
  - rewrite K11, app_assoc, (from_listener_app (copied ++ queue)), from_listener_one; cbn; by rewrite <- app_assoc.
Qed.

Lemma lp_take_step bufs p : lp_inv bufs p -> lp_step_ok bufs p (lp_exec LTake p).
Proof.
  intros (copied & queue & items & [K1 K2 K3 K4 K5 K6 K7 K8 K9 K10 K11]); unfold lp_step_ok; cbn [lp_exec].
  destruct (lp_taking p) as [b|] eqn:Et; [done|].
  destruct (take_spec bufs (lp_source p) [] K1) as (q & tk & Ht & Hs' & Hw); rewrite Ht; apply adds_take in Ht.
  cbn; split; [|by split]; exists copied, queue, items; split; cbn; try done; by rewrite Hw.
Qed.

Lemma lp_copy_step bufs p : lp_inv bufs p -> lp_step_ok bufs p (lp_exec LCopy p).
Proof.
  intros (copied & queue & items & [K1 K2 K3 K4 K5 K6 K7 K8 K9 K10 K11]); unfold lp_step_ok; cbn [lp_exec].
  destruct (lp_taking p) as [b|] eqn:Et; [|done].
  destruct (consume_spec bufs (lp_source p) [] b (lp_consumer p) K1 K2)
    as (c' & s' & chunks & -> & Hs' & Hc' & Hh & Hss & Hw & Hpost & Hdump & Ha & Hall & Hcat); cbn.
  unfold waiting in K3; cbn in K3; destruct queue as [|e queue]; [done|]; injection K3 as He K3.
  split; [|by split]; exists (copied ++ [e]), queue, items; split; cbn; rewrite <- ?app_assoc; try done.
  - unfold waiting in *; cbn in *; by rewrite Hh, Hw.
  - rewrite Hpost; by apply Forall_app_2.
  - rewrite Hpost, concat_app, <- app_assoc, <- Hcat, He, app_assoc, K5, fmap_app, concat_app; cbn.
    by rewrite app_nil_r.
  - by rewrite Hdump, K7.
Qed.

Lemma lp_inject_step bufs p : lp_inv bufs p ->
  wp (fun e => e = Blocked) (s ← injectNullBuffers (lp_source p); Done (p <| lp_source := s |>)) (lp_inv bufs).
Proof.
  intros (copied & queue & items & [K1 K2 K3 K4 K5 K6 K7 K8 K9 K10 K11]).
  pose proof (inject_spec bufs (lp_source p) [] (lp_taking p) K1) as Hi.
  destruct (injectNullBuffers (lp_source p)) as [s'|e]; [|done]; cbn in Hi |- *.
  destruct Hi as (x & b & bf & Hx & Hs' & Hpost & Hdump & _ & _ & _ & Hcont).
  exists copied, (queue ++ [(false, x)]), items; split; cbn; rewrite ?Hpost; try done.
  - by rewrite Hcont, K3, fmap_app.
  - rewrite app_assoc; apply Forall_app_2; [done|by constructor].
  - by rewrite Hdump, K7, !fmap_app, <- app_assoc.
  - by rewrite K11, (app_assoc copied), (from_listener_app (copied ++ queue)), from_listener_null, app_nil_r.
Qed.

Lemma lp_monitor_step bufs p now : lp_inv bufs p ->
  wp (fun e => e = Blocked) (lp_exec (LMonitor now) p) (lp_inv bufs).
Proof.
  intros Hp; cbn [lp_exec]; unfold dataMonitorLoop; case_if; [|by apply inv_same_queue].
  case_if; [by apply inv_same_queue|]; case_if; [|by apply inv_same_queue]; cbv zeta.
  match goal with |- context [injectNullBuffers ?x] => set (s1 := x) end.
  assert (same_queue (lp_source p) s1) as H1.
  { unfold s1; case_if; [|done]; eapply same_queue_trans; [|apply lost_same_queue]; done. }
  exact (lp_inject_step bufs (p <| lp_source := s1 |>) (inv_same_queue bufs p s1 Hp H1)).
Qed.

Lemma lp_step bufs p op : lp_inv bufs p -> lp_op_ok op -> opens op = false -> lp_step_ok bufs p (lp_exec op p).
Proof.
  intros Hp Hop Ho; destruct op; [by apply receive_step|by apply push_step|by apply lp_take_step|by apply lp_copy_step|..].
  - pose proof (lp_monitor_step bufs p now Hp) as Hs; unfold lp_step_ok; cbn [lp_exec] in *.
    destruct (dataMonitorLoop now (lp_source p)) as [s'|e] eqn:Em; [|done]; apply adds_monitor in Em; by split.
  - unfold lp_step_ok; cbn [lp_exec wp]; split; [by apply inv_same_queue|]; split; [by apply adds_none|done].
  - unfold lp_step_ok; cbn [lp_exec]; destruct (messageLoop now (lp_source p)) as [s'|e] eqn:Em; cbn [mbind outcome_bind wp].
    + split; [apply inv_same_queue; [done|by eapply message_same_queue]|]; by apply adds_message in Em.
    + revert Em; unfold messageLoop; destruct (mReaction (lp_source p)), (mMessageHandler (lp_source p)); by intros [= <-].
  - done.
Qed.

Lemma lp_any_step bufs p op : lp_inv bufs p -> lp_op_ok op ->
  wp (fun e => e = Blocked) (lp_exec op p) (fun p' => lp_inv bufs p' /\ lp_start p' = lp_start p).
Proof.
  intros Hp Hop; destruct (opens op) eqn:Ho.
  - destruct op; try done; destruct (open_same_queue uri now (lp_source p) Hop) as (s' & r & E1 & Hs).
    cbn [lp_exec]; rewrite E1; cbn [mbind outcome_bind wp]; split; [by apply inv_same_queue|done].
  - eapply wp_mono; [exact (lp_step bufs p op Hp Hop Ho)|]; cbv beta; intros p' _ (Hi & _ & Hs); done.
Qed.

Lemma lp_run_inv bufs ops p : lp_inv bufs p -> Forall lp_op_ok ops ->
  exists p', lp_run ops p = Done p' /\ lp_inv bufs p' /\ lp_start p' = lp_start p.
Proof.
  intros Hp Hops; revert p Hp; induction Hops as [|op ops Hop _ IH]; intros p Hp; cbn [lp_run]; [eauto|].
  pose proof (lp_any_step bufs p op Hp Hop) as Hs.
  destruct (lp_exec op p) as [p1|e]; cbn in Hs; [|subst; by apply IH].
  destruct Hs as (Hi & <-); by apply IH.
Qed.

(** ** The start *)

(** The listener has pushed nothing yet. *)
Definition listener_begin (s : MediaSourceHandler D) (garbage : list Z) (l : L) : listener_pipe :=
  mkListenerPipe s (mkConsumer garbage 0) None l [] l [].

Lemma listener_begin_inv d mems time garbage l : mems_ok mems -> (Exists uninitialised mems -> dirty) -> zlen garbage = BUFFER_CHUNK_SIZE -> listener_ok l ->
  exists s, MediaSourceHandler_new d 0 true time mems = Done (Some s) /\
    lp_inv (mem_ptr <$> mems) (listener_begin s garbage l).
Proof.
  intros Hm Hi Hg Hl; destruct (source_new_spec d mems time Hm Hi) as (s & -> & Hq & _ & Hc & Hp & Hd).
  exists s; split; [done|]; exists [], [], []; split; cbn; rewrite ?Hp, ?Hd; try done.
  - split; [done|]; pose proof chunk_pos; cbn; lia.
  - by unfold waiting; cbn; rewrite Hc.
Qed.

End threads.

Section delivery.
Context {L E : Type} {LS : Listener L E} {LL : ListenerLaws L E} {D : Type} {DX : Demuxer D}.
Context {Rx : BoostRegex} {Tl : BoostToLower} {Ia : InetAton} {cfg : StreamfsConfig} {Hcfg : StreamfsConfigOk cfg}.

(** What the listener pushes reaches the stream processor in order, cut into chunks, with null
    packets of the monitor in between, however the threads interleave. The listeners do not look
    at [channelInfo], so that it does not matter what [malloc] left in it. *)
Lemma listener_delivers d mems time garbage l ops : mems_ok mems -> zlen garbage = BUFFER_CHUNK_SIZE -> listener_ok l ->
  Forall lp_op_ok ops ->
  exists s p copied queue items, MediaSourceHandler_new d 0 true time mems = Done (Some s) /\
    lp_run ops (listener_begin s garbage l) = Done p /\
    posted_chunks (lp_source p) = pieces BUFFER_CHUNK_SIZE (concat (snd <$> copied)) /\
    partial (lp_consumer p) = leftover BUFFER_CHUNK_SIZE (concat (snd <$> copied)) /\
    content (heap (lp_source p)) <$> waiting (lp_source p) (lp_taking p) = snd <$> queue /\
    Forall pushed_ok (copied ++ queue) /\ dumped (lp_source p) = Done <$> (snd <$> (copied ++ queue)) /\
    receive_all (lp_events p) l = Done (lp_listener p, items) /\
    item_bytes <$> items = from_listener (copied ++ queue) ++ (item_bytes <$> lp_pending p).
Proof.
  intros Hm Hg Hl Hops; destruct (listener_begin_inv (dirt := True) d mems time garbage l Hm (fun _ => I) Hg Hl) as (s & Hs & Hi).
  destruct (lp_run_inv (dirt := True) _ ops _ Hi Hops) as (p & Hr & (copied & queue & items & [K1 K2 K3 K4 K5 K6 K7 K8 K9 K10 K11]) & Hst).
  exists s, p, copied, queue, items; pose proof chunk_pos.
  destruct (pieces_unique BUFFER_CHUNK_SIZE (posted_chunks (lp_source p)) (partial (lp_consumer p))) as [E1 E2];
    [lia|done|by apply partial_short|].
  rewrite Hst in K10; rewrite <- K5, E1, E2; split_and!; done.
Qed.

End delivery.

#[global] Arguments listener_pipe : clear implicits.
#[global] Arguments listener_op : clear implicits.
