(* ===== verification/Listeners.v ===== *)
(** The listeners of a multicast group, [RtpStreamListener] and [UdpStreamListener], as listeners
    of ListenerPipeline.v: what [recvfrom] gives becomes buffers to push. *)

From S2P Require Import Prelude Interfaces BufferQueue MediaSource SourceData SourceQueue Rtp RtpProps ListenerPipeline.

(** * What the RTP listener pushes *)

(** The buffers [new] have been pushed. *)
Definition pushes (s : RtpStreamListener) (new : list BufferInfo) (s' : RtpStreamListener) : Prop :=
  queued s' = queued s ++ new.

Section kept.
Context (P : BufferInfo -> Prop).

Lemma push_matching_pushes cache : forall s s' rest pushed, push_matching s cache = (s', rest, pushed) ->
  exists new, pushes s new s' /\ (Forall P cache -> Forall P new /\ Forall P rest).
Proof.
  induction cache as [|it cache IH]; intros s s' rest pushed; cbn [push_matching].
  - intros [= <- <- _]; exists []; split; [by unfold pushes; rewrite app_nil_r|by split].
  - case_if.
    + destruct (push_matching (pushBuffertoBQ s _ _) cache) as [[s1 r1] b1] eqn:Em; intros [= <- <- _].
      destruct (IH _ _ _ _ Em) as (new & Hn & Hp); exists (it :: new); split.
      * unfold pushes in *; rewrite Hn; cbn; rewrite <- app_assoc; by destruct it.
      * intros [Hit Hc]%Forall_cons; destruct (Hp Hc); split; [by constructor|done].
    + destruct (push_matching s cache) as [[s1 r1] b1] eqn:Em; intros [= <- <- _].
      destruct (IH _ _ _ _ Em) as (new & Hn & Hp); exists new; split; [done|].
      intros [Hit Hc]%Forall_cons; destruct (Hp Hc); split; [done|by constructor].
Qed.

Lemma cached_loop_pushes fuel : forall s s', cached_loop fuel s = Done s' ->
  exists new, pushes s new s' /\ (Forall P (mBufferCache s) -> Forall P new /\ Forall P (mBufferCache s')).
Proof.
  induction fuel as [|fuel IH]; intros s s'; cbn [cached_loop]; [done|].
  destruct (push_matching s (mBufferCache s)) as [[s1 cache] pushed] eqn:Em.
  destruct (push_matching_pushes _ _ _ _ _ Em) as (new & Hn & Hp); unfold pushes in *.
  assert (Hloop : forall s2, queued s2 = queued s1 -> mBufferCache s2 = cache -> cached_loop fuel s2 = Done s' ->
    exists new, queued s' = queued s ++ new /\ (Forall P (mBufferCache s) -> Forall P new /\ Forall P (mBufferCache s'))).
  { intros s2 Hq Hc (new2 & Hn2 & Hp2)%IH; exists (new ++ new2); split; [by rewrite Hn2, Hq, Hn, app_assoc|].
    intros [Hnew Hcache]%Hp; rewrite <- Hc in Hcache; destruct (Hp2 Hcache); split; [by apply Forall_app_2|done]. }
  case_if; [by apply Hloop|]; case_if; [by apply Hloop|]; intros [= <-]; exists new; by split.
Qed.

Lemma fold_pushes l : forall s,
  pushes s l (fold_left (fun s it => pushBuffertoBQ s (mBuffer it) (mSequenceNumber it)) l s).
Proof.
  unfold pushes; induction l as [|it l IH]; intros s; cbn [fold_left]; [by rewrite app_nil_r|].
  rewrite IH; cbn; rewrite <- app_assoc; by destruct it.
Qed.

Lemma process_payload_pushes s payload n s' : process_payload s payload n = Done s' -> P (mkBufferInfo n payload) ->
  exists new, pushes s new s' /\ (Forall P (mBufferCache s) -> Forall P new /\ Forall P (mBufferCache s')).
Proof.
  intros Hs Hp; revert Hs; unfold process_payload; intros ([s1 present] & Hpl & Hs)%bind_done_inv.
  assert (H1 : exists new, pushes s new s1 /\ (Forall P (mBufferCache s) -> Forall P new /\ Forall P (mBufferCache s1))).
  { revert Hpl; unfold place_packet; case_if; [|case_if; [|case_if; [|done]]]; intros [= <- _].
    - exists [mkBufferInfo n payload]; split; [done|]; intros Hc; split; [by constructor|exact Hc].
    - exists (mBufferCache s ++ [mkBufferInfo n payload]); split.
      + unfold pushes; cbn; by rewrite fold_pushes, app_assoc.
      + intros Hc; split; [apply Forall_app_2; [done|by constructor]|cbn; constructor].
    - exists []; split; [by unfold pushes; rewrite app_nil_r|]; intros Hc; split; [constructor|cbn].
      rewrite insert_cache_perm; by constructor. }
  destruct H1 as (new & Hn & Hk); destruct present; [|injection Hs as <-; by exists new].
  destruct (cached_loop_pushes _ _ _ Hs) as (new2 & Hn2 & Hk2); exists (new ++ new2); unfold pushes in *; split.
  - by rewrite Hn2, Hn, app_assoc.
  - intros [H1 H2]%Hk; destruct (Hk2 H2); split; [by apply Forall_app_2|done].
Qed.

End kept.

(** * The header *)

Section rtp.
Context (char_signed : bool).

Lemma rd_char_app r x i b : rd_char char_signed r i = Done b -> rd_char char_signed (r ++ x) i = Done b.
Proof.
  unfold rd_char; intros (c & Hc & <-)%bind_done_inv.
  assert (rd (r ++ x) i = Done c) as ->; [|done].
  revert Hc; unfold rd; case_if; [|done]; destruct (r !! Z.to_nat i) as [y|] eqn:Em; [|done]; intros [= <-].
  by rewrite (lookup_app_l_Some _ _ _ _ Em).
Qed.

(** A header that lies in the datagram does not depend on what follows in the array. *)
Lemma rtp_header_app r x len h : rtp_header char_signed r len = Done h -> rtp_header char_signed (r ++ x) len = Done h.
Proof.
  unfold rtp_header; intros (b0 & H0%(rd_char_app r x) & (b2 & H2%(rd_char_app r x) & (b3 & H3%(rd_char_app r x) & Hr)%bind_done_inv)%bind_done_inv)%bind_done_inv.
  rewrite H0, bind_Done, H2, bind_Done, H3, bind_Done; revert Hr; cbv zeta; intros (pl & Hpl & Hr)%bind_done_inv.
  assert ((if negb (Z.land b0 32 =? 0) then b ← rd_char char_signed (r ++ x) (u64 (len - 1)); Done (u64 b) else Done 0) = Done pl) as ->.
  { revert Hpl; case_if; [|done]; intros (b & Hb%(rd_char_app r x) & <-)%bind_done_inv; by rewrite Hb. }
  rewrite bind_Done; revert Hr; case_if; [done|]; intros (o & Ho & Hr)%bind_done_inv.
  match goal with |- context [if negb (Z.land b0 16 =? 0) then ?a else ?b] =>
    assert ((if negb (Z.land b0 16 =? 0) then a else b) = Done o) as -> end; [|by rewrite bind_Done].
  revert Ho; case_if; [|done]; intros (y & Hy%(rd_char_app r x) & (z & Hz%(rd_char_app r x) & <-)%bind_done_inv)%bind_done_inv.
  by rewrite Hy, bind_Done, Hz, bind_Done.
Qed.

Lemma slice_app_done (r x : list Z) o k y : slice r o k = Done y -> slice (r ++ x) o k = Done y.
Proof.
  unfold slice; case_if; [|done]; intros [= <-]; pose proof (zlen_nonneg x); case_if; b2p; [|rewrite zlen_app in *; lia].
  rewrite zdrop_app_l, ztake_app_l by (rewrite ?zlen_zdrop; lia); done.
Qed.

(** A datagram in which the header and the payload it tells of lie. *)
Definition rtp_event_ok (e : Z * list Z) : Prop :=
  e.1 = zlen e.2 /\ zlen e.2 <= BUF_SIZE /\
  match rtp_header char_signed e.2 e.1 with
  | Done (Some (_, offset, payLoadSize)) => is_done (slice e.2 offset payLoadSize) = true
  | Done None => True
  | Stop _ => False
  end.

(** A packet's buffer as it is pushed. *)
Definition rtp_item (b : BufferInfo) : item := (mBuffer b, zlen (mBuffer b)).

(** A turn of [readLoop] with what it pushes; the array on the stack goes with the listener. *)
Definition rtp_receive (e : Z * list Z) (l : RtpStreamListener * list Z)
  : outcome ((RtpStreamListener * list Z) * list item) :=
  l' ← read_turn char_signed l.1 l.2 e.1 e.2;
  Done (l', rtp_item <$> drop (length (queued l.1)) (queued l'.1)).

Definition short (b : BufferInfo) : Prop := zlen (mBuffer b) <= BUF_SIZE.

Record rtp_listener_ok (l : RtpStreamListener * list Z) : Prop := {
  rl_state : rtp_ok l.1;
  rl_array : zlen l.2 = BUF_SIZE;
  rl_cache : Forall short (mBufferCache l.1);
}.

#[export] Instance rtp_listener : Listener (RtpStreamListener * list Z) (Z * list Z) := {
  receive := rtp_receive;
  listener_ok := rtp_listener_ok;
  event_ok := rtp_event_ok;
}.

Lemma rtp_item_ok b : short b -> item_ok (rtp_item b).
Proof.
  unfold short, item_ok, rtp_item; cbn; pose proof (zlen_nonneg (mBuffer b)); change BUF_SIZE with FEIP_BUFFER_SIZE; lia.
Qed.

Lemma rtp_item_bytes b : item_bytes (rtp_item b) = mBuffer b.
Proof. unfold item_bytes, rtp_item; cbn; apply ztake_all; lia. Qed.

Lemma receive_splice buf (r : list Z) : zlen buf = BUF_SIZE -> zlen r <= BUF_SIZE ->
  exists rest, splice buf 0 r = Done (r ++ rest) /\ zlen (r ++ rest) = BUF_SIZE.
Proof.
  intros Hb Hr; pose proof (zlen_nonneg r); exists (zdrop (zlen r) buf); rewrite splice_ok by lia; split; [done|].
  rewrite zlen_app, zlen_zdrop by lia; lia.
Qed.

Lemma header_sequence r len n o k : rtp_header char_signed r len = Done (Some (n, o, k)) -> seq_ok n.
Proof.
  unfold rtp_header; intros (b0 & _ & (b2 & _ & (b3 & _ & (pl & _ & Hr)%bind_done_inv)%bind_done_inv)%bind_done_inv)%bind_done_inv.
  revert Hr; case_if; [done|]; intros (o' & _ & Hr)%bind_done_inv; revert Hr; case_if; [done|].
  intros [= <- _ _]; apply u16_range.
Qed.

(** What a turn does with a datagram that is a packet. *)
Lemma rtp_receive_packet s buf (r : list Z) n o k payload : zlen buf = BUF_SIZE -> zlen r <= BUF_SIZE ->
  rtp_header char_signed r (zlen r) = Done (Some (n, o, k)) -> slice r o k = Done payload ->
  exists buf', zlen buf' = BUF_SIZE /\ rtp_receive (zlen r, r) (s, buf) =
    s' ← process_payload s payload n; Done ((s', buf'), rtp_item <$> drop (length (queued s)) (queued s')).
Proof.
  intros Hb Hr Hh Hs; destruct (receive_splice buf r Hb Hr) as (rest & Hsp & Hl); exists (r ++ rest); split; [done|].
  unfold rtp_receive, read_turn, processRtpPacket; cbn [fst snd]; rewrite Hsp, bind_Done.
  rewrite u64_small by (pose proof (zlen_nonneg r); unfold BUF_SIZE in *; lia).
  rewrite (rtp_header_app r rest _ _ Hh), bind_Done, (slice_app_done r rest _ _ _ Hs), bind_Done.
  by destruct (process_payload s payload n).
Qed.

Lemma slice_len (r : list Z) o k y : slice r o k = Done y -> zlen y <= zlen r.
Proof. unfold slice; case_if; [|done]; intros [= <-]; b2p; rewrite zlen_ztake; rewrite ?zlen_zdrop; lia. Qed.

#[export] Instance rtp_listener_laws : ListenerLaws (RtpStreamListener * list Z) (Z * list Z).
Proof.
  split; intros [n r] [s buf] [H1 H2 H3] (Hn & Hr & He); cbn [fst snd receive listener_ok rtp_listener] in *; subst n.
  destruct (rtp_header char_signed r (zlen r)) as [[[[n o] k]|]|e] eqn:Eh; [|..|done].
  - destruct (slice r o k) as [payload|e] eqn:Es; [|done].
    destruct (rtp_receive_packet s buf r n o k payload H2 Hr Eh Es) as (buf' & Hb' & ->).
    destruct (process_payload_ok s payload n H1 (header_sequence _ _ _ _ _ Eh)) as (s' & Hp & Hok); rewrite Hp, bind_Done.
    destruct (process_payload_pushes short s payload n s' Hp) as (new & Hq & Hk).
    { unfold short; cbn; apply slice_len in Es; lia. }
    destruct (Hk H3) as [Hnew Hcache]; cbn [wp]; split; [split; [by right|done|done]|].
    rewrite Hq, drop_app_length; apply Forall_fmap; eapply Forall_impl; [exact Hnew|]; intros b; exact (rtp_item_ok b).
  - destruct (receive_splice buf r H2 Hr) as (rest & Hsp & Hl); unfold rtp_receive, read_turn, processRtpPacket; cbn [fst snd].
    rewrite Hsp, bind_Done, u64_small by (pose proof (zlen_nonneg r); unfold BUF_SIZE in *; lia).
    rewrite (rtp_header_app r rest _ _ Eh), !bind_Done; cbn [fst snd wp]; split; [by split|].
    rewrite drop_all; constructor.
Qed.

(** The datagram [e] is the packet with the place and the payload of [p]. *)
Definition carries (e : Z * list Z) (p : packet) : Prop :=
  e.1 = zlen e.2 /\ zlen e.2 <= BUF_SIZE /\ exists offset payLoadSize,
    rtp_header char_signed e.2 e.1 = Done (Some (seq16 p.1, offset, payLoadSize)) /\ slice e.2 offset payLoadSize = Done p.2.

Lemma rtp_receive_all es ps : Forall2 carries es ps -> forall s buf l' items, zlen buf = BUF_SIZE ->
  receive_all es (s, buf) = Done (l', items) ->
  process_all s (map (fun p => (seq16 p.1, p.2)) ps) = Done l'.1 /\
  exists new, pushes s new l'.1 /\ items = rtp_item <$> new.
Proof.
  induction 1 as [|[n r] [k payload] es ps (En & Hr & o & sz & Hh & Hs) _ IH]; intros s buf l' items Hb; cbn [receive_all].
  - intros [= <- <-]; split; [done|]; exists []; split; [by unfold pushes; rewrite app_nil_r|done].
  - cbn [fst snd receive rtp_listener] in *; subst n.
    destruct (rtp_receive_packet s buf r _ o sz payload Hb Hr Hh Hs) as (buf' & Hb' & ->).
    intros ([l1 i1] & (s1 & Hp & [= <- <-])%bind_done_inv & ([l2 i2] & Hrest & [= -> <-])%bind_done_inv)%bind_done_inv.
    destruct (process_payload_pushes (fun _ => True) _ _ _ _ Hp I) as (new & Hq & _).
    destruct (IH _ _ _ _ Hb' Hrest) as (Hall & new2 & Hq2 & ->); cbn [map process_all fst snd]; rewrite Hp, bind_Done.
    split; [done|]; exists (new ++ new2); unfold pushes in *; rewrite Hq2, Hq, drop_app_length, fmap_app, app_assoc; done.
Qed.

(** From a new listener on: the packets in their places. *)
Lemma rtp_pushes_in_order es ps n n' C' buf l' items : Forall2 carries es ps -> zlen buf = BUF_SIZE ->
  receive_all es (RtpStreamListener_new, buf) = Done (l', items) ->
  head ps.*1 = Some n -> arrives n ∅ ps.*1 n' C' ->
  exists out early, ps ≡ₚ out ++ early /\ out.*1 = seqZ n (n' - n) /\ list_to_set early.*1 = C' /\ item_bytes <$> items = out.*2.
Proof.
  intros Hc Hb Hr Hh Ha; destruct (rtp_receive_all es ps Hc _ _ _ _ Hb Hr) as (Hp & new & Hq & ->).
  destruct (reorders RtpStreamListener_new n ps n' C') as (s' & out & early & Hp' & Hq' & Ho & Hca & He & Hperm);
    [by right|done|done|].
  rewrite Hp' in Hp; injection Hp as ->; exists out, early; split_and!; try done.
  unfold pushes in Hq; rewrite Hq in Hq'; cbn [queued RtpStreamListener_new app] in Hq'; rewrite Hq'.
  clear; induction out as [|p out IH]; [done|]; cbn [map fmap list_fmap]; rewrite rtp_item_bytes; f_equal; exact IH.
Qed.

End rtp.

(** * The UDP listener

    Class [UdpStreamListener] of 3rdparty/udp/UdpStreamListener.cpp: datagrams that become
    buffers of the media source handler. *)

Section udp.
Context {cfg : StreamfsConfig} {Hcfg : StreamfsConfigOk cfg} {D : Type} {DX : Demuxer D}.
Implicit Types s : MediaSourceHandler D.

(** A turn of [readLoop] once there is a handler; [buf] is the array on the stack, which
    [recvfrom] leaves alone when it fails. *)
Definition udp_turn (datagram : option (list Z)) (now : Z) (buf : list Z) s : outcome (list Z * MediaSourceHandler D) :=
  let '(n, buf) :=
    match datagram with
    | Some d => let d := ztake FEIP_BUFFER_SIZE d in (zlen d, d ++ zdrop (zlen d) buf)
    | None => (-1, buf)
    end in
  '(s, cBuf) ← acquireBuffer s;
  b ← deref cBuf s;
  l ← splice (buffer b) 0 buf;
  let b := b <| buffer := l |> <| size := u32 n |> in
  s ← MediaSource.pushBuffertoBQ cBuf 0 (s <| heap := <[cBuf := b]> (heap s) |>);
  Done (buf, reportTSBufferQueued now s).

(** The buffer a turn fills. *)
Definition udp_filled (datagram : option (list Z)) (buf : list Z) (b : bq_buffer) : Prop :=
  match datagram with
  | Some d => size b = zlen (ztake FEIP_BUFFER_SIZE d) /\ ztake (size b) (buffer b) = ztake FEIP_BUFFER_SIZE d
  | None => size b = 4294967295
  end.

Lemma push_heap p id s s' : MediaSource.pushBuffertoBQ p id s = Done s' -> heap s' = heap s.
Proof.
  unfold MediaSource.pushBuffertoBQ; intros (b & _ & (q & _ & Hr)%bind_done_inv)%bind_done_inv; revert Hr; cbv beta zeta.
  destruct (mSessions s !! id); [|done]; case_if; by intros [= <-].
Qed.

Lemma report_heap now s : heap (reportTSBufferQueued now s) = heap s.
Proof. unfold reportTSBufferQueued; cbv zeta; by case_if. Qed.

(** A datagram ends up in the buffer that is queued; a failure queues a buffer of 2^32 - 1
    bytes. *)
Lemma udp_turn_fills datagram now buf s buf' s' : zlen buf = FEIP_BUFFER_SIZE ->
  udp_turn datagram now buf s = Done (buf', s') ->
  zlen buf' = FEIP_BUFFER_SIZE /\ exists p b, heap s' !! p = Some b /\ udp_filled datagram buf b.
Proof.
  intros Hb; unfold udp_turn.
  set (r := match datagram with Some d => _ | None => _ end).
  assert (Hr : zlen r.2 = FEIP_BUFFER_SIZE /\
    forall b l, splice (buffer b) 0 r.2 = Done l -> udp_filled datagram buf (b <| buffer := l |> <| size := u32 r.1 |>)).
  { destruct datagram as [d|]; unfold r; cbn [fst snd udp_filled]; cbv zeta; [|by split].
    set (e := ztake FEIP_BUFFER_SIZE d).
    assert (0 <= zlen e <= FEIP_BUFFER_SIZE).
    { split; [apply zlen_nonneg|]; unfold e, ztake, zlen; rewrite length_take; unfold FEIP_BUFFER_SIZE; lia. }
    assert (FEIP_BUFFER_SIZE < 4294967296) by done.
    split; [rewrite zlen_app, zlen_zdrop; lia|]; intros b l; cbn [size buffer].
    unfold splice; case_if; [|done]; intros [= <-]; split; [apply u32_small; lia|].
    change (size (b <| buffer := _ |> <| size := u32 (zlen e) |>)) with (u32 (zlen e)); cbn [buffer].
    rewrite u32_small by lia.
    match goal with |- ztake _ ?x = _ => change x with ([] ++ (e ++ zdrop (zlen e) buf) ++ zdrop (0 + zlen (e ++ zdrop (zlen e) buf)) (buffer b)) end.
    cbn [app]; rewrite <- app_assoc, ztake_app_l, ztake_all by lia; done. }
  destruct r as [n buf1]; cbn [fst snd] in Hr; destruct Hr as [Hl Hf].
  intros ([s1 p] & _ & H)%bind_done_inv; revert H; cbv beta iota.
  intros (b & _ & (l & Hs & (s2 & Hp%push_heap & [= <- <-])%bind_done_inv)%bind_done_inv)%bind_done_inv.
  split; [done|]; exists p; eexists; rewrite report_heap, Hp; split; [apply lookup_insert_eq|by apply Hf].
Qed.

(** The consumer leaves a buffer whose size is more than what it holds. *)
Lemma copy_overruns fuel ch data : forall pos rem c s, consumer_ok c -> 0 <= pos -> 0 < rem < 4294967296 ->
  zlen data < pos + rem -> (Z.to_nat rem < fuel)%nat -> copy_loop fuel ch data pos rem c s = Stop Ub.
Proof.
  pose proof chunk_size_int; pose proof chunk_holds_package.
  induction fuel as [|fuel IH]; intros pos rem c s [Hc Ho] Hp Hr Hd Hf; [lia|]; cbn [copy_loop].
  rewrite (proj2 (Z.ltb_lt _ _)), (u32_small (BUFFER_CHUNK_SIZE - _)) by lia; cbv zeta.
  set (n := Z.min (BUFFER_CHUNK_SIZE - offset c) rem); destruct (slice data pos n) as [bytes|e] eqn:Es;
    [|by apply slice_stop in Es as ->].
  apply slice_done in Es as (_ & _ & Hn & ->); rewrite bind_Done.
  assert (Hb : zlen (ztake n (zdrop pos data)) = n) by (apply zlen_ztake; rewrite zlen_zdrop by lia; lia).
  rewrite splice_ok, bind_Done by lia; rewrite u32_small by lia.
  apply IH; try lia; split; cbn [chunk offset]; [|apply Z.mod_pos_bound; lia].
  match goal with |- zlen ?x = _ => change (zlen (ztake (offset c) (chunk c) ++ ztake n (zdrop pos data) ++ zdrop (offset c + zlen (ztake n (zdrop pos data))) (chunk c)) = BUFFER_CHUNK_SIZE) end.
  rewrite !zlen_app, Hb, zlen_ztake, zlen_zdrop by lia; lia.
Qed.

(** What follows a [recvfrom] that fails: the consumer reads behind the end of the buffer. *)
Theorem udp_failure_overruns (b : bq_buffer) c s : udp_filled None [] b -> zlen (buffer b) = FEIP_BUFFER_SIZE ->
  consumer_ok c -> copy_buffer b c s = Stop Ub.
Proof.
  intros Hs Hb Hc; unfold copy_buffer; cbn in Hs; rewrite Hs.
  apply copy_overruns; [done|lia|lia|rewrite Hb; by vm_compute|lia].
Qed.

End udp.

(** ** As a listener *)

(** What [recvfrom] leaves in the array, and what it returns. *)
Definition udp_receive (datagram : option (list Z)) (buf : list Z) : outcome (list Z * list item) :=
  let '(n, buf) :=
    match datagram with
    | Some d => let d := ztake FEIP_BUFFER_SIZE d in (zlen d, d ++ zdrop (zlen d) buf)
    | None => (-1, buf)
    end in
  Done (buf, [(buf, n)]).

(** A turn of the loop receives and then pushes. *)
Lemma udp_turn_pushes `{DX : Demuxer D} datagram now buf (s : MediaSourceHandler D) :
  udp_turn datagram now buf s =
  '(buf, items) ← udp_receive datagram buf;
  s ← foldl (fun m it => s ← m; push_item it now s) (Done s) items;
  Done (buf, s).
Proof.
  unfold udp_turn, udp_receive; set (r := match datagram with Some _ => _ | None => _ end); destruct r as [n b1].
  rewrite bind_Done; cbn [foldl]; rewrite bind_Done; unfold push_item; cbn [fst snd].
  destruct (acquireBuffer s) as [[s1 p]|e]; [|done]; rewrite !bind_Done.
  destruct (deref p s1) as [b|e]; [|done]; rewrite !bind_Done.
  destruct (splice (buffer b) 0 b1) as [l|e]; [|done]; rewrite !bind_Done; cbv zeta.
  by destruct (MediaSource.pushBuffertoBQ p 0 _).
Qed.

#[export] Instance udp_listener : Listener (list Z) (option (list Z)) := {
  receive := udp_receive;
  listener_ok buf := zlen buf = FEIP_BUFFER_SIZE;
  event_ok e := is_Some e;
}.

Lemma udp_receive_datagram d buf : zlen buf = FEIP_BUFFER_SIZE ->
  exists buf', udp_receive (Some d) buf = Done (buf', [(buf', zlen (ztake FEIP_BUFFER_SIZE d))]) /\
    zlen buf' = FEIP_BUFFER_SIZE /\ zlen (ztake FEIP_BUFFER_SIZE d) <= FEIP_BUFFER_SIZE /\
    item_bytes (buf', zlen (ztake FEIP_BUFFER_SIZE d)) = ztake FEIP_BUFFER_SIZE d.
Proof.
  intros Hb; unfold udp_receive, item_bytes; cbn [fst snd]; set (e := ztake FEIP_BUFFER_SIZE d).
  assert (He : 0 <= zlen e <= FEIP_BUFFER_SIZE).
  { split; [apply zlen_nonneg|]; unfold e, ztake, zlen; rewrite length_take; unfold FEIP_BUFFER_SIZE; lia. }
  eexists; split_and!; [reflexivity|rewrite zlen_app, zlen_zdrop; lia|lia|].
  rewrite ztake_app_l by lia; apply ztake_all; lia.
Qed.

#[export] Instance udp_listener_laws : ListenerLaws (list Z) (option (list Z)).
Proof.
  split; intros e buf Hb [d ->]; cbn [receive listener_ok udp_listener] in *.
  destruct (udp_receive_datagram d buf Hb) as (buf' & -> & H1 & H2 & H3); cbn [wp]; split; [done|].
  constructor; [|constructor]; split; cbn; [pose proof (zlen_nonneg (ztake FEIP_BUFFER_SIZE d))|]; lia.
Qed.

Lemma udp_pushes_in_order ds : forall buf l' items, zlen buf = FEIP_BUFFER_SIZE ->
  receive_all (Some <$> ds) buf = Done (l', items) -> item_bytes <$> items = ztake FEIP_BUFFER_SIZE <$> ds.
Proof.
  induction ds as [|d ds IH]; intros buf l' items Hb; cbn [receive_all fmap list_fmap]; [by intros [= _ <-]|].
  cbn [receive udp_listener]; destruct (udp_receive_datagram d buf Hb) as (buf' & -> & H1 & H2 & H3); rewrite bind_Done.
  intros ([l2 i2] & Hr & [= _ <-])%bind_done_inv; cbn; rewrite H3; f_equal; by eapply IH.
Qed.
