(* ===== verification/HttpThread.v ===== *)
(** The thread of [HttpDemuxerImpl] (src/HttpDemuxerImpl.cpp): [loop], which runs a transfer of
    curl, with [open] and the destructor, which end it. What the callback of a transfer does to
    the data is in HttpDemuxer.v. *)

From S2P Require Import Prelude Json.

(** Where [loop] is: before it gives [mUri] to curl, inside [curl_easy_perform] for that URL, or
    behind its end. *)
Inductive http_loop := LoopStart | Transfer (url : text) | LoopEnd.

(** Where the thread that uses the demuxer is: waiting for the old thread in [open] or in the
    destructor, or behind the latter. *)
Inductive http_user := UserOut | JoinOpen (uri : text) | JoinDestroy | UserGone.

(** [written] are the data handed to [write], each with the URL it came from and the value of
    [mUri] then, which labels the buffers. *)
Record HttpThread := mkHttpThread {
  thread_uri : text;
  thread_exit : bool;
  http_thread : option http_loop;
  user : http_user;
  written : list (text * text * list Z);
}.

#[export] Instance HttpThread_eta : Eta HttpThread := fun r =>
  mkHttpThread (thread_uri r) (thread_exit r) (http_thread r) (user r) (written r).

Implicit Types s : HttpThread.

Definition HttpThread_new : HttpThread := mkHttpThread [] false None UserOut [].

(** The part of [open] behind the join. *)
Definition start_loop (uri : text) s : HttpThread :=
  s <| thread_uri := uri |> <| thread_exit := false |> <| http_thread := Some LoopStart |> <| user := UserOut |>.

Definition thread_open (uri : text) s : HttpThread :=
  match http_thread s with
  | Some _ => s <| thread_exit := true |> <| user := JoinOpen uri |>
  | None => start_loop uri s
  end.

Definition thread_destroy s : HttpThread :=
  s <| thread_exit := true |> <| user := match http_thread s with Some _ => JoinDestroy | None => UserGone end |>.

(** [Received]: curl calls [write_data]; when that does not return the number of bytes, the
    transfer ends. [ServerEnds]: the transfer ends by itself. *)
Inductive http_action := Open (uri : text) | Destroy | Joined | LoopRuns | Received (data : list Z) | ServerEnds.

Definition http_step (x : http_action) s : option HttpThread :=
  match x, user s, http_thread s with
  | Open uri, UserOut, _ => Some (thread_open uri s)
  | Destroy, UserOut, _ => Some (thread_destroy s)
  | Joined, JoinOpen uri, Some LoopEnd => Some (start_loop uri s)
  | Joined, JoinDestroy, Some LoopEnd => Some (s <| user := UserGone |>)
  | LoopRuns, _, Some LoopStart => Some (s <| http_thread := Some (Transfer (thread_uri s)) |>)
  | Received data, _, Some (Transfer url) =>
    if thread_exit s then Some (s <| http_thread := Some LoopEnd |>)
    else Some (s <| written := written s ++ [(url, thread_uri s, data)] |>)
  | ServerEnds, _, Some (Transfer _) => Some (s <| http_thread := Some LoopEnd |>)
  | _, _, _ => None
  end.

Fixpoint http_run (l : list http_action) s : option HttpThread :=
  match l with
  | [] => Some s
  | x :: l => s' ← http_step x s; http_run l s'
  end.

(** A transfer is for the URI of the demuxer; while somebody waits for the thread it is asked
    to exit. *)
Record labels_inv s : Prop := {
  li_transfer : forall url, http_thread s = Some (Transfer url) -> url = thread_uri s;
  li_written : Forall (fun w => w.1.1 = w.1.2) (written s);
  li_exit : user s <> UserOut -> thread_exit s = true;
}.

Lemma http_step_inv x s s' : labels_inv s -> http_step x s = Some s' -> labels_inv s'.
Proof.
  intros [Ht Hw He]; destruct x; unfold http_step.
  - destruct (user s) eqn:Eu; try (by destruct (http_thread s)); intros [= <-]; unfold thread_open.
    destruct (http_thread s) eqn:Eh; split; cbn; rewrite ?Eh; try done.
  - destruct (user s) eqn:Eu; try (by destruct (http_thread s)); intros [= <-]; by split.
  - destruct (user s) eqn:Eu; try (by destruct (http_thread s)); destruct (http_thread s) as [[]|] eqn:Eh; try done;
      intros [= <-]; split; cbn; rewrite ?Eh; try done; by rewrite He.
  - destruct (http_thread s) as [[]|] eqn:Eh; try (by destruct (user s)).
    destruct (user s) eqn:Eu; intros [= <-]; split; cbn; rewrite ?Eu; try done; by intros url [= <-].
  - destruct (http_thread s) as [[]|] eqn:Eh; try (by destruct (user s)).
    destruct (thread_exit s) eqn:Ee, (user s) eqn:Eu; intros [= <-]; split; cbn; rewrite ?Eh, ?Eu, ?Ee; try done;
      apply Forall_app_2; try done; repeat constructor; cbn; by apply Ht.
  - destruct (http_thread s) as [[]|] eqn:Eh; try (by destruct (user s)).
    destruct (user s) eqn:Eu; intros [= <-]; split; cbn; rewrite ?Eu; done.
Qed.

Lemma http_run_inv l : forall s s', labels_inv s -> http_run l s = Some s' -> labels_inv s'.
Proof.
  induction l as [|x l IH]; intros s s' Hs Hl; cbn in Hl; [by injection Hl as <-|].
  destruct (http_step x s) as [s1|] eqn:E; [|done]; exact (IH s1 s' (http_step_inv x s s1 Hs E) Hl).
Qed.

(** However channels are opened while transfers run, start late and end, data of a transfer is
    only ever written while [mUri] is the URL it came from; and once [open] or the destructor
    has asked the thread to exit, nothing of the old transfer is written any more. *)
Theorem http_labels l s : http_run l HttpThread_new = Some s ->
  Forall (fun w => w.1.1 = w.1.2) (written s) /\
  (user s <> UserOut -> forall x s', http_step x s = Some s' -> written s' = written s).
Proof.
  intros Hl; assert (Hi : labels_inv s) by (by apply (http_run_inv l HttpThread_new)).
  split; [by destruct Hi|]; intros Hu x s'; pose proof (li_exit _ Hi Hu) as He; unfold http_step; rewrite He.
  destruct x, (user s), (http_thread s) as [[]|]; try done; by intros [= <-].
Qed.

Definition zapping : list http_action :=
  [Open (text_of "a"); LoopRuns; Received [1; 2]; Open (text_of "b"); Received [3]; Joined; LoopRuns; Received [4]; Open (text_of "c")].

Definition zapped : HttpThread := default HttpThread_new (http_run zapping HttpThread_new).

Lemma http_labels_witness : written zapped = [(text_of "a", text_of "a", [1; 2]); (text_of "b", text_of "b", [4])] /\
  Forall (fun w => w.1.1 = w.1.2) (written zapped).
Proof. split; [reflexivity|]; apply (http_labels zapping zapped); reflexivity. Defined.

(** A channel change waits for the server of the channel that is left: as long as it neither
    sends data nor ends the transfer, [open] does not return. *)
Lemma open_waits_for_server s uri url : user s = JoinOpen uri -> http_thread s = Some (Transfer url) ->
  (forall x s', http_step x s = Some s' -> x = ServerEnds \/ exists data, x = Received data) /\
  (thread_exit s = true -> forall data, exists s', http_run [Received data; Joined] s = Some s' /\ user s' = UserOut /\ thread_uri s' = uri).
Proof.
  intros Hu Ht; split.
  - intros x s'; destruct x; unfold http_step; rewrite ?Hu, ?Ht; try done; eauto.
  - intros He data; cbn; rewrite Ht, He; cbn; rewrite Hu; cbn; by eexists.
Qed.
