(* ===== verification/SourceExamples.v ===== *)
(** The theorems of the media source handler and of the HTTP demuxer at concrete inputs. *)

From S2P Require Import Prelude Interfaces Json Regex ChannelConfig ChannelProps BufferQueue MediaSource SourceData SourceQueue SourceControl HttpDemuxer HttpPipeline.

#[local] Existing Instances config1000 config1000_ok.

(** A demuxer whose connections are numbered. *)
#[local] Instance counting_demuxer : Demuxer Z := {
  dx_init d := d;
  dx_connect d := (d + 1, d);
  dx_start _ d := d;
  dx_informFirstFrameReceived d := d;
  dx_disconnect _ d := d;
  dx_open _ _ d := d;
  dx_getGlobalStats _ := [];
  dx_getChannelStats _ d := (d, []);
}.

(** ** The consumer *)

Definition sample_buffer (n : Z) : bq_buffer :=
  mkBuffer NOKIA_BUFFER_MAGIC (Channel (text_of "ch")) 1 n FEIP_BUFFER_SIZE (replicate (Z.to_nat FEIP_BUFFER_SIZE) 7).

Lemma sample_buffer_ok n : 0 <= n <= FEIP_BUFFER_SIZE -> buffer_ok (sample_buffer n).
Proof. intros Hn; split; [apply zlen_replicate; by vm_compute|done]. Qed.

Definition sample_locals : consumer_locals := mkConsumer (replicate (Z.to_nat 1000) 0) 250.

Lemma sample_locals_ok : consumer_ok sample_locals.
Proof. by split; vm_compute. Qed.

Definition empty_source : MediaSourceHandler Z :=
  mkSource (BufferQueue_new 64) ∅ [] ∅ false [] ChannelConfig_default 0 false 0 [] [] [].

Lemma consumer_cuts_stream_witness :
  Forall buffer_ok [sample_buffer 900; sample_buffer 1900] /\ consumer_ok sample_locals /\
  exists c' s', copy_all [sample_buffer 900; sample_buffer 1900] sample_locals empty_source = Done (c', s') /\
    consumer_ok c'.
Proof.
  assert (Forall buffer_ok [sample_buffer 900; sample_buffer 1900]) as Hb
    by (repeat apply Forall_cons_2; [apply sample_buffer_ok; unfold FEIP_BUFFER_SIZE; lia..|constructor]).
  split; [exact Hb|split; [exact sample_locals_ok|]].
  destruct (consumer_cuts_stream [sample_buffer 900; sample_buffer 1900] sample_locals empty_source Hb sample_locals_ok)
    as (c' & s' & E & Hc & _).
  exists c', s'; split; [exact E|exact Hc].
Defined.

(** ** The connections *)

Definition small_mems : list (option (Z * bq_buffer)) :=
  [Some (100, mkBuffer [] NoChannel 0 0 0 []); Some (200, mkBuffer [] NoChannel 0 0 0 [])].

Definition new_source : MediaSourceHandler (Z * list dx_call) :=
  match MediaSourceHandler_new (7, []) 0 true 0 small_mems with
  | Done (Some s) => s
  | _ => mkSource (BufferQueue_new 64) ∅ [] ∅ false [] ChannelConfig_default 0 false 0 [] [] []
  end.

Definition sample_uri : text := text_of "234.80.160.204:5900".
Definition other_uri : text := text_of "234.80.160.205:5900".

(** Two channels, the second of which is lost: the calls of the demuxer. *)
Definition sample_ops : list source_op :=
  [OpOpen sample_uri 0 1000; OpOpen other_uri 0 2000; OpMonitor 8000; OpMessage 8100; OpMessage 8100; OpMessage 8100;
   OpMessage 8100; OpMessage 8100; OpMessage 8100].

Fixpoint exec_all (ops : list source_op) (s : MediaSourceHandler (Z * list dx_call)) :=
  match ops with
  | [] => Done s
  | op :: ops => s ← source_exec op s; exec_all ops s
  end.

Fixpoint calm_ops (ops : list source_op) (s : MediaSourceHandler (Z * list dx_call)) : bool :=
  match ops with
  | [] => true
  | op :: ops =>
    match op, mReaction s with OpOpen _ _ _, _ :: _ => false | _, _ => true end &&
    match source_exec op s with Done s => calm_ops ops s | Stop _ => true end
  end.

Lemma exec_all_steps ops s s' : exec_all ops s = Done s' -> calm_ops ops s = true -> rtc calm_step s s'.
Proof.
  revert s; induction ops as [|op ops IH]; intros s; cbn [exec_all calm_ops]; [intros [= <-] _; apply rtc_refl|].
  intros (s1 & H1 & H2)%bind_done_inv [Hc Ho]%andb_prop; rewrite H1 in Ho; eapply rtc_l; [exists op|by apply IH].
  split; [done|]; by destruct op, (mReaction s).
Qed.

Definition tuned_source : MediaSourceHandler (Z * list dx_call) :=
  match exec_all sample_ops new_source with Done s => s | _ => new_source end.

Lemma tuned_reach : rtc calm_step new_source tuned_source.
Proof.
  apply (exec_all_steps sample_ops); [|by vm_compute]; unfold tuned_source.
  assert (is_done (exec_all sample_ops new_source) = true) as Hd by (by vm_compute).
  by destruct (exec_all sample_ops new_source).
Qed.

Lemma tuned_run : rtc source_step new_source tuned_source.
Proof. eapply rtc_subrel; [|exact tuned_reach]; intros s s' (op & H & _); by exists op. Qed.

Lemma new_source_ok : MediaSourceHandler_new (7, []) 0 true 0 small_mems = Done (Some new_source).
Proof.
  unfold new_source; assert (match MediaSourceHandler_new (7, []) 0 true 0 small_mems with
    | Done (Some _) => true | _ => false end = true) as Hd by (by vm_compute).
  by destruct (MediaSourceHandler_new (7, []) 0 true 0 small_mems) as [[s|]|].
Qed.

Lemma one_connection_witness :
  (fun sess => (mDemuxer sess).2) <$> (mSessions tuned_source !! 0) =
    Some [Connected 7; DxOpened sample_uri []; Disconnected 7; Connected 8; DxOpened other_uri [];
          Disconnected 8; Connected 9; DxOpened other_uri []] /\
  forall sess, mSessions tuned_source !! 0 = Some sess ->
  live (mDemuxer sess).2 =
  Some (if connectionId sess =? FEIP_CONNECTION_UNINITIALIZED then None else Some (connectionId sess)).
Proof.
  split; [by vm_compute|]; intros sess Hs.
  apply (one_connection 7 0 0 true small_mems new_source tuned_source new_source_ok tuned_reach 0 sess Hs); by vm_compute.
Defined.

Lemma source_history_witness :
  exists n : nat, mSourceLostCounter tuned_source = u32 (Z.of_nat n) /\
    reports tuned_source = report <$> seq 0 (2 * n + if mBufferSourceLost tuned_source then 0 else 1).
Proof.
  destruct (source_history (7, []) 0 0 true small_mems new_source tuned_source new_source_ok tuned_run)
    as (n & H1 & H2 & _).
  exists n; split; [exact H1|exact H2].
Defined.

(** The channel is lost, and in the middle of the reaction to it another one is opened: the
    connection of the demuxer has been closed and not yet opened again. The open makes a
    connection, and the reaction makes a second one. The session knows the second; nothing ever
    closes the first. *)
Definition racing_ops : list source_op :=
  [OpOpen sample_uri 0 1000; OpMonitor 8000; OpMessage 8100; OpMessage 8100; OpMessage 8100;
   OpOpen other_uri 0 8200; OpMessage 8200; OpMessage 8200; OpMessage 8200].

Lemma multicast_races_open :
  match exec_all racing_ops new_source with
  | Done s =>
    (fun sess => (mDemuxer sess).2) <$> (mSessions s !! 0) =
      Some [Connected 7; DxOpened sample_uri []; Disconnected 7; Connected 8; DxOpened other_uri [];
            Connected 9; DxOpened other_uri []] /\
    connectionId <$> (mSessions s !! 0) = Some 9 /\
    (fun sess => live (mDemuxer sess).2) <$> (mSessions s !! 0) = Some None
  | Stop _ => False
  end.
Proof. by vm_compute. Qed.

Definition sample_config : ChannelConfig :=
  mkChannelConfig true (ntohl [234; 80; 160; 204]) (text_of "234.80.160.204") 5900 0 [].

Lemma source_open_switches_witness :
  exists s' (sess' : FeipSession (Z * list dx_call)) conn, source_open sample_uri 0 55 new_source = Done (s', 0) /\
    (mDemuxer sess').2 = [Connected conn; DxOpened sample_uri []] /\
    events s' = events new_source ++ [StreamSwitched sample_uri; OnOpen sample_uri].
Proof.
  destruct (source_open_switches sample_uri 0 55 sample_config new_source (mkSession (7, []) FEIP_CONNECTION_UNINITIALIZED false))
    as (s' & sess' & conn & E & _ & _ & _ & _ & _ & Hd & _ & He & _);
    [done|by vm_compute|by vm_compute|by vm_compute|].
  exists s', sess', conn; split; [exact E|split; [exact Hd|exact He]].
Defined.

(** ** The pipeline *)

Definition zero_buffer : bq_buffer := mkBuffer [] NoChannel 0 0 0 (replicate (Z.to_nat FEIP_BUFFER_SIZE) 0).

Definition sample_mems : list (option (Z * bq_buffer)) :=
  (fun i : nat => Some (Z.of_nat i + 1, zero_buffer)) <$> seq 0 64.

Lemma sample_mems_ok : mems_ok sample_mems.
Proof.
  unfold sample_mems; split.
  - by rewrite length_fmap, length_seq.
  - apply Forall_fmap, Forall_true; intros i; apply zlen_replicate; by vm_compute.
  - rewrite <- list_fmap_compose; apply (bool_decide_unpack _); by vm_compute.
Qed.

(** The memory happens to hold null pointers. *)
Lemma sample_mems_clean : ~ Exists uninitialised sample_mems.
Proof.
  intros (m & Hm & Hu)%Exists_exists; unfold sample_mems in Hm; apply list_elem_of_fmap in Hm as (i & -> & _); done.
Qed.

Definition sample_pointers : list Z := replicate 64 0.
Definition sample_garbage : list Z := replicate (Z.to_nat 1000) 0.
Definition sample_schedule : list pipe_op :=
  [POpen sample_uri 0; PData [1; 2; 3]; PWrite; PMonitor 3000; PTake; PCopy; PData (replicate (Z.to_nat 42112) 4);
   PWrite; PWrite; PTake; PCopy; PTake].

Lemma http_stream_delivered_witness :
  mems_ok sample_mems /\ Forall pipe_op_ok sample_schedule /\
  exists s p, MediaSourceHandler_new (HttpDemuxerImpl_new 0 sample_pointers) 0 true 0 sample_mems = Done (Some s) /\
    pipe_run sample_schedule (pipeline_start s sample_garbage) = Done p.
Proof.
  assert (Forall pipe_op_ok sample_schedule) as Hops by (repeat constructor; by vm_compute).
  assert (zlen sample_garbage = BUFFER_CHUNK_SIZE) as Hg by (by vm_compute).
  split; [exact sample_mems_ok|split; [exact Hops|]].
  destruct (http_stream_delivered sample_mems 0 sample_pointers sample_garbage 0 sample_schedule sample_mems_ok
              eq_refl Hg Hops) as (s & Hn & Hr).
  destruct (pipe_run sample_schedule (pipeline_start s sample_garbage)) as [p|e] eqn:E;
    [|destruct Hr as [_ Hr]; destruct (sample_mems_clean Hr)].
  exists s, p; split; [exact Hn|exact E].
Defined.

(** The same with memory that holds anything: the first buffer that is full ends the program. *)
Definition dirty_mems : list (option (Z * bq_buffer)) :=
  (fun i : nat => Some (Z.of_nat i + 1, zero_buffer <| channelInfo := Indeterminate |>)) <$> seq 0 64.

Lemma first_buffer_frees_garbage :
  match MediaSourceHandler_new (HttpDemuxerImpl_new 0 sample_pointers) 0 true 0 dirty_mems with
  | Done (Some s) => pipe_run sample_schedule (pipeline_start s sample_garbage) = Stop Ub
  | _ => False
  end.
Proof. by vm_compute. Qed.
