(* ===== verification/ConfigOptions.v ===== *)
(** The configuration files of include/config_options.h with their types, the lookup of a
    file's type in include/fcc/FCCConfigHandlers.h, and class [PlayerStateEnum] of
    include/PlayerStateEnum.h. *)

From Stdlib Require Import Ascii.
From S2P Require Import Prelude Json TimeShift.

(** * Files *)

Definition CONFIG_F_CHANNEL_SELECT : text := text_of "chan_select0".
Definition CONFIG_F_CHANNEL_SELECT_TIMESTAMP : text := text_of "chan_select_timestamp0".
Definition CONFIG_F_PLAYER_STATE : text := text_of "player_state0".
Definition CONFIG_F_SEEK_CONTROL : text := text_of "seek0".
Definition STREAM_SRC_FILE : text := text_of "stream0.ts".
Definition CONFIG_F_STATS_DEVICE_IP : text := text_of "stat_device_ip".
Definition CONFIG_F_STATS_SW_VERSION : text := text_of "sw_version".
Definition CONFIG_F_MODEL_ID : text := text_of "model_id".
Definition CONFIG_F_STAT_DAILY_OFFSET : text := text_of "stat_daily_offset".
Definition CONFIG_F_STAT_RESET_STATS : text := text_of "feipmgr_reset_statistics".
Definition CONFIG_F_STAT_ONDEMAND_STATISTIC : text := text_of "stat_ondemand_statistics".
Definition CONFIG_F_STAT_PERIODIC_STAT_SERVER : text := text_of "stat_periodic_stat_server".
Definition CONFIG_F_STAT_ONDEMAND_STAT_SERVER : text := text_of "stat_ondemand_stat_server".
Definition CONFIG_F_STAT_INFORM_FIRST_FRAME : text := text_of "stat_inform_first_frame".
Definition CONFIG_F_STAT_GLOBAL : text := text_of "stat_global".
Definition CONFIG_F_STAT_CHANNEL : text := text_of "stat_channel".
Definition CONFIG_F_STAT_PERIOD_FREQ : text := text_of "stat_periodic_freq".
Definition CONFIG_F_STREAMFS_PID : text := text_of "pidfile".
Definition CONFIG_F_STREAM_STATUS : text := text_of "stream_status".
Definition CONFIG_F_PROTECTION_INFO : text := text_of "drm0".
Definition CONFIG_F_FCC_STREAM_INFO_ECM : text := text_of "ecm0".
Definition CONFIG_F_FCC_STREAM_INFO_PAT : text := text_of "pat0".
Definition CONFIG_F_FCC_STREAM_INFO_PMT : text := text_of "pmt0".
Definition CONFIG_F_STREAM_INFO_FLUSH : text := text_of "flush0".
Definition CONFIG_F_CDM_STATUS : text := text_of "cdm_ready0".
Definition CONFIG_F_TRICK_PLAY : text := text_of "trick_play0".

Inductive ConfigType :=
| CHANNEL_SELECT | PLAYER_STATE | SEEK_CONTROL | STATS_CONTROL | STREAM_INFO | PROTECTION_INFO
| CDM_STATUS | TRICK_PLAY | UNDEFINED_CONFIG.

#[export] Instance ConfigType_eq_dec : EqDecision ConfigType.
Proof. solve_decision. Defined.

(** The files that are streams, and the files that are configurations. *)
Definition available_channels_g : list text := [STREAM_SRC_FILE].

Definition config_handlers_g : list (text * ConfigType) := [
  (CONFIG_F_CHANNEL_SELECT, CHANNEL_SELECT);
  (CONFIG_F_CHANNEL_SELECT_TIMESTAMP, CHANNEL_SELECT);
  (CONFIG_F_PLAYER_STATE, PLAYER_STATE);
  (CONFIG_F_SEEK_CONTROL, SEEK_CONTROL);
  (CONFIG_F_STATS_SW_VERSION, STATS_CONTROL);
  (CONFIG_F_MODEL_ID, STATS_CONTROL);
  (CONFIG_F_MODEL_ID, STATS_CONTROL);
  (CONFIG_F_STAT_DAILY_OFFSET, STATS_CONTROL);
  (CONFIG_F_STAT_RESET_STATS, STATS_CONTROL);
  (CONFIG_F_STAT_ONDEMAND_STATISTIC, STATS_CONTROL);
  (CONFIG_F_STAT_PERIODIC_STAT_SERVER, STATS_CONTROL);
  (CONFIG_F_STAT_ONDEMAND_STAT_SERVER, STATS_CONTROL);
  (CONFIG_F_STAT_INFORM_FIRST_FRAME, STATS_CONTROL);
  (CONFIG_F_STAT_GLOBAL, STATS_CONTROL);
  (CONFIG_F_STAT_CHANNEL, STATS_CONTROL);
  (CONFIG_F_STATS_DEVICE_IP, STATS_CONTROL);
  (CONFIG_F_STAT_PERIOD_FREQ, STATS_CONTROL);
  (CONFIG_F_PROTECTION_INFO, PROTECTION_INFO);
  (CONFIG_F_CDM_STATUS, CDM_STATUS);
  (CONFIG_F_FCC_STREAM_INFO_ECM, STREAM_INFO);
  (CONFIG_F_FCC_STREAM_INFO_PAT, STREAM_INFO);
  (CONFIG_F_FCC_STREAM_INFO_PMT, STREAM_INFO);
  (CONFIG_F_STREAMFS_PID, STATS_CONTROL);
  (CONFIG_F_STREAM_INFO_FLUSH, SEEK_CONTROL);
  (CONFIG_F_STREAM_STATUS, STATS_CONTROL);
  (CONFIG_F_TRICK_PLAY, TRICK_PLAY)
].

(** [strncmp(filename, name, strlen(name)) == 0]. *)
Fixpoint starts_with (name filename : text) : bool :=
  match name, filename with
  | [], _ => true
  | _ :: _, [] => false
  | x :: name, y :: filename => ceq x y && starts_with name filename
  end.

(** The type of the first name the file's name starts with. *)
Fixpoint lookup_config (filename : text) (l : list (text * ConfigType)) : ConfigType :=
  match l with
  | [] => UNDEFINED_CONFIG
  | (name, type) :: l => if starts_with name filename then type else lookup_config filename l
  end.

Definition file_name_to_ConfigType (filename : text) : ConfigType := lookup_config filename config_handlers_g.

(** The hash the handlers switch on; characters are plain ASCII. *)
Fixpoint hashStr (str : text) : Z :=
  match str with
  | [] => 5381
  | c :: str => Z.lxor (u32 (hashStr str * 33)) (code c)
  end.

(** Every file of the table has the type the table gives it, whatever the order of the table
    and the comparison of prefixes do; no hash stands for two files. *)
Lemma config_types_correct : Forall (fun e => file_name_to_ConfigType e.1 = e.2) config_handlers_g.
Proof. apply (bool_decide_unpack _); by vm_compute. Qed.

Lemma hashes_distinct : Forall (fun a => Forall (fun b => hashStr a.1 = hashStr b.1 -> a.1 = b.1) config_handlers_g)
  config_handlers_g.
Proof. apply (bool_decide_unpack _); by vm_compute. Qed.

(** * Player states *)

Class BoostStringAlgo := { to_upper_copy : text -> text; trim_copy : text -> text }.

Definition upper_char (c : ascii) : ascii :=
  if (97 <=? code c) && (code c <=? 122) then chr (code c - 32) else c.

Definition all_space (s : text) : Prop := Forall (fun c => isspace c = true) s.

(** The ends of [s] are not white space. *)
Definition ends_solid (s : text) : Prop :=
  match head s, last s with Some a, Some b => isspace a = false /\ isspace b = false | _, _ => False end.

(** The white space at both ends goes. *)
Class BoostStringAlgoLaws `{BoostStringAlgo} : Prop := {
  to_upper_copy_map : forall s, to_upper_copy s = map upper_char s;
  trim_copy_spaces : forall a s b, all_space a -> all_space b -> ends_solid s -> trim_copy (a ++ s ++ b) = s;
}.

Record PlayerStateEnum := mkStateEnum {
  state_isValid : bool;
  mEnumValue : option PlayerState;
  mStringValue : text;
}.

(** The map, in the order of its keys. *)
Definition state_map : list (PlayerState * text) :=
  [(UNDEF, text_of "UNDEF"); (READY, text_of "READY"); (PLAYING, text_of "PLAYING"); (PAUSED, text_of "PAUSED")].

(** [std::find_if]. *)
Fixpoint find_if (pred : PlayerState * text -> bool) (l : list (PlayerState * text)) : option (PlayerState * text) :=
  match l with
  | [] => None
  | e :: l => if pred e then Some e else find_if pred l
  end.

(** The value of an invalid one is never set. *)
Definition state_init (pred : PlayerState * text -> bool) : PlayerStateEnum :=
  match find_if pred state_map with
  | Some (st, name) => mkStateEnum true (Some st) name
  | None => mkStateEnum false None []
  end.

Section states.
Context `{BoostStringAlgo}.

Definition PlayerStateEnum_of_text (enumString : text) : PlayerStateEnum :=
  state_init (fun obj => bool_decide (obj.2 = to_upper_copy (trim_copy enumString))).

Definition PlayerStateEnum_of_state (enumValue : PlayerState) : PlayerStateEnum :=
  state_init (fun obj => bool_decide (obj.1 = enumValue)).

(** The name of a state. *)
Definition state_name (st : PlayerState) : text := mStringValue (PlayerStateEnum_of_state st).

Context {BL : BoostStringAlgoLaws}.

Lemma state_of_name st : PlayerStateEnum_of_state st = mkStateEnum true (Some st) (state_name st).
Proof. by destruct st. Qed.

(** A player state survives being printed and read back, in any spelling and with white
    space around it; a text that is no name of a state is refused. *)
Lemma player_state_roundtrip (st : PlayerState) (a b s : text) :
  all_space a -> all_space b -> ends_solid s -> map upper_char s = state_name st ->
  PlayerStateEnum_of_text (a ++ s ++ b) = PlayerStateEnum_of_state st.
Proof.
  intros Ha Hb Hs Hn; unfold PlayerStateEnum_of_text; rewrite trim_copy_spaces, to_upper_copy_map, Hn by done.
  by destruct st.
Qed.

Lemma player_state_refused (t : text) : (forall st, to_upper_copy (trim_copy t) <> state_name st) ->
  state_isValid (PlayerStateEnum_of_text t) = false.
Proof.
  intros Hn; unfold PlayerStateEnum_of_text, state_init, state_map; cbn [find_if snd].
  rewrite !bool_decide_eq_false_2; [done|..]; intros E; symmetry in E;
    [exact (Hn PAUSED E)|exact (Hn PLAYING E)|exact (Hn READY E)|exact (Hn UNDEF E)].
Qed.

End states.
