(* ===== verification/Plugin.v ===== *)
(** Class [FCCPlugin] of include/FCCPlugin.h and src/FCCPlugin.cpp with the handlers of its
    configuration files (src/fcc/FCCConfigHandlers.cpp and src/confighandler/), put on top of
    the media source handler, the stream processor and its consumers: what an application sees
    when it opens, reads, writes and closes the files.

    A call is one step. Events of the media source handler go to the time shift buffer and to
    the PSI parser as [StreamProcessor] passes them on or to the callback handler of the demuxer,
    and assignments to monitored variables to the handlers that watch them. *)

From Stdlib Require Import Ascii.
From S2P Require Import Prelude Interfaces Json StdString Regex ChannelConfig Protection TimeShift PsiParser ProtectionExport BufferQueue MediaSource CallbackHandler ConfigOptions.

(** The clocks an operation may read: [steady_clock] in milliseconds, the clock of the pause
    monitor, and [clock_gettime], which may fail. *)
Record clocks := mkClocks { t_steady : Z; t_pause : Z; t_monotonic : option (Z * Z) }.

(** The monitored variables the handlers read. *)
Record variables := mkVariables {
  v_kCdm0 : bool;
  v_kPmt0 : text;
  v_kPat0 : text;
  v_kEcm0 : text;
  v_kBufferSrcLost0 : text;
}.

#[export] Instance variables_eta : Eta variables := fun r =>
  mkVariables (v_kCdm0 r) (v_kPmt0 r) (v_kPat0 r) (v_kEcm0 r) (v_kBufferSrcLost0 r).

(** The plugin with everything below it. [updates] are the files the application has been
    told about through [notifyUpdate]. *)
Record FCCPlugin (D : Type) (cb q : Type -> Type) (pool H : Type) := mkPlugin {
  mMediaSource : MediaSourceHandler D;
  mDmxCb : H;
  mTsbConsumer : TimeShiftBufferConsumer cb pool;
  mPsi : PSIParser cb q;
  vars : variables;
  mFiles : list text;
  mActiveUris : list text;
  mStreamOpenCounters : gmap text Z;
  mConfigCache : gmap Z text;
  mCurrentConfig : StreamProtectionConfig;
  mSize : Z;
  mCdmConfigComplete : bool;
  mLastRequestTime : Z * Z;
  updates : list text;
}.
Arguments mkPlugin {D cb q pool H} _ _ _ _ _ _ _ _ _ _ _ _ _ _.
Arguments mMediaSource {D cb q pool H} _.
Arguments mDmxCb {D cb q pool H} _.
Arguments mTsbConsumer {D cb q pool H} _.
Arguments mPsi {D cb q pool H} _.
Arguments vars {D cb q pool H} _.
Arguments mFiles {D cb q pool H} _.
Arguments mActiveUris {D cb q pool H} _.
Arguments mStreamOpenCounters {D cb q pool H} _.
Arguments mConfigCache {D cb q pool H} _.
Arguments mCurrentConfig {D cb q pool H} _.
Arguments mSize {D cb q pool H} _.
Arguments mCdmConfigComplete {D cb q pool H} _.
Arguments mLastRequestTime {D cb q pool H} _.
Arguments updates {D cb q pool H} _.

#[export] Instance FCCPlugin_eta D cb q pool H : Eta (FCCPlugin D cb q pool H) := fun r =>
  mkPlugin (mMediaSource r) (mDmxCb r) (mTsbConsumer r) (mPsi r) (vars r) (mFiles r) (mActiveUris r)
    (mStreamOpenCounters r) (mConfigCache r) (mCurrentConfig r) (mSize r) (mCdmConfigComplete r)
    (mLastRequestTime r) (updates r).

Definition INT64_MAX : Z := 9223372036854775807.
Definition EOVERFLOW : Z := 75.
Definition TS_FILE_FOOTER_BYTES : Z := 1024 * 1024 * 1000.
Definition SECONDS_TO_MILLISECONDS : Z := 1000.

(** [std::set] of names: sorted, without duplicates. *)
Fixpoint set_insert (x : text) (l : list text) : list text :=
  match l with
  | [] => [x]
  | y :: l' => if bool_decide (x = y) then l else if text_ltb x y then x :: l else y :: set_insert x l'
  end.

Definition set_find (x : text) (l : list text) : bool := bool_decide (x ∈ l).

Section plugin.
Context {cfg : StreamfsConfig} {cb q : Type -> Type} {CB : CircularBuffer cb} {Q : LockfreeQueue q}.
Context {pool : Type} {RB : RingBuffer pool} {D : Type} {DX : Demuxer D} {H : Type} {CH : CallbackHandler H}.
Context {Rx : BoostRegex} {Tl : BoostToLower} {Ia : InetAton} {Hx : BoostHex} {St : BoostStringAlgo}.
(** The string of the build's version and the process id, and whether the x86 part of
    [read] is compiled. *)
Context (sw_version : text) (pid : Z) (arch_x86_64 : bool).
Local Abbreviation plugin := (FCCPlugin D cb q pool H).
Implicit Types p : plugin.

Definition notifyUpdate (file : text) p : plugin := p <| updates := updates p ++ [file] |>.

(** * Variables and events *)

(** [ProtectionInfoRequestHandler::notifyConfigurationChanged]. *)
Definition protection_changed (value : StreamProtectionConfig) p : plugin :=
  let newConfidence := confidence value in
  if bool_decide (newConfidence = RESET) ||
     (confidence_value (confidence (mCurrentConfig p)) <=? confidence_value newConfidence) then
    let p := p <| mCurrentConfig := value |> in
    let p := p <| mSize := u32 (zlen (getJsonAsString (StreamProtectionConfigExport_new (mCurrentConfig p)))) |> in
    notifyUpdate CONFIG_F_PROTECTION_INFO p
  else p.

(** An assignment of the PSI parser, with the watcher of the variable: [CdmStatusHandler]
    for kCdm0, which only keeps the value. *)
Definition psi_assigns (e : psi_event) p : plugin :=
  match e with
  | SetDrm value => protection_changed value p
  | SetCdmSetupDone value => p <| mCdmConfigComplete := value |> <| vars := (vars p) <| v_kCdm0 := value |> |>
  end.

(** The parser after a call, and what it assigned during the call. *)
Definition psi_done (s : PSIParser cb q) p : plugin :=
  let new := drop (length (PsiParser.events (psi (mPsi p)))) (PsiParser.events (psi s)) in
  fold_left (fun p e => psi_assigns e p) new (p <| mPsi := s |>).

(** The time shift buffer after a call: the handlers of its two variables report the files. *)
Definition variable_file (v : tsb_variable) : text :=
  match v with kFlush0 => CONFIG_F_STREAM_INFO_FLUSH | kTrickPlay0 => CONFIG_F_TRICK_PLAY end.

Definition tsb_done (s : TimeShiftBufferConsumer cb pool) p : plugin :=
  let new := drop (length (writes (mTsbConsumer p))) (writes s) in
  fold_left (fun p e => notifyUpdate (variable_file e.1) p) new (p <| mTsbConsumer := s |>).

(** Bytes of a stream as characters. *)
Definition as_text (l : list Z) : text := map chr l.

(** [ConfigMAP_StreamInfoToPath]. *)
Definition bytes_variable_file (v : bytes_variable) : text :=
  match v with
  | kEcm0 => CONFIG_F_FCC_STREAM_INFO_ECM
  | kPmt0 => CONFIG_F_FCC_STREAM_INFO_PMT
  | kPat0 => CONFIG_F_FCC_STREAM_INFO_PAT
  end.

(** An assignment of the callback handler: [StreamInfoRequestHandler] watches the three tables,
    the PSI parser kEcm0, [ProtectionInfoRequestHandler] kDrm0; or a call of the status callback
    of the media source handler, for its demuxer 0. *)
Definition handler_event_done p (e : handler_event) : plugin :=
  match e with
  | SetBytes v value =>
    let p := match v with
             | kEcm0 => p <| mPsi := notifyConfigurationChanged (mPsi p) "ecm0" value |>
             | _ => p
             end in
    let p := notifyUpdate (bytes_variable_file v) p in
    p <| vars := match v with
                 | kEcm0 => (vars p) <| v_kEcm0 := as_text value |>
                 | kPmt0 => (vars p) <| v_kPmt0 := as_text value |>
                 | kPat0 => (vars p) <| v_kPat0 := as_text value |>
                 end |>
  | SetDrm0 value => protection_changed value p
  | StatusChanged status feipId => p <| mMediaSource := notifyStatusChanged status feipId 0 (mMediaSource p) |>
  end.

(** The callback handler after a call, and what it did during the call. *)
Definition handler_done (h : H) p : plugin :=
  let new := drop (length (ch_events (mDmxCb p))) (ch_events h) in
  fold_left handler_event_done new (p <| mDmxCb := h |>).

(** The [channelInfo] of a buffer as the parser reads it. *)
Definition channel_of (c : channel_ptr) : outcome (option string) :=
  match c with
  | NoChannel => Done None
  | Channel t => Done (Some (String.string_of_list_ascii t))
  | Indeterminate => Stop Ub
  end.

(** [StreamProcessor] passes a call on to the time shift buffer, to the ECM cache, which
    ignores it, and to the PSI parser; the callback handler of the demuxer hears of the switch; the
    reader that waits for data and the socket server have no part in the state. [t] is the time stamp of a chunk. *)
Definition deliver (ck : clocks) (t : Z) (e : source_event) p : outcome plugin :=
  match e with
  | OnOpen uri =>
    let p := tsb_done (TimeShift_onOpen (mTsbConsumer p)) p in
    s ← PsiParser.onOpen (mPsi p);
    Done (psi_done s p)
  | OnEndOfStream uri =>
    let p := tsb_done (TimeShift_onEndOfStream (mTsbConsumer p) (t_pause ck)) p in
    Done (psi_done (PsiParser.onEndOfStream (mPsi p)) p)
  | Post channel chunk =>
    s ← TimeShift_post (mTsbConsumer p) chunk t (t_pause ck);
    let p := tsb_done s p in
    channel ← channel_of channel;
    s ← PsiParser.post (mPsi p) channel chunk;
    Done (psi_done s p)
  | BufferSrcLost value =>
    Done (notifyUpdate CONFIG_F_STREAM_STATUS (p <| vars := (vars p) <| v_kBufferSrcLost0 := value |> |>))
  | StreamSwitched uri => Done (handler_done (ch_switched uri (mDmxCb p)) p)
  | DataReceived | SocketSend _ _ => Done p
  end.

Fixpoint deliver_all (ck : clocks) (t : Z) (es : list source_event) p : outcome plugin :=
  match es with
  | [] => Done p
  | e :: es => p ← deliver ck t e p; deliver_all ck t es p
  end.

(** The media source handler after a call, and the events of the call. *)
Definition source_done (ck : clocks) (t : Z) (s : MediaSourceHandler D) p : outcome plugin :=
  let new := drop (length (MediaSource.events (mMediaSource p))) (MediaSource.events s) in
  deliver_all ck t new (p <| mMediaSource := s |>).

(** A round of the thread of the parser. *)
Definition psi_thread (junk : nat -> list Z) p : outcome plugin :=
  s ← thread_step (mPsi p) junk; Done (psi_done s p).

(** * The configuration handlers *)

(** What [writeConfig] catches: [std::invalid_argument], for which it returns -1. *)
Definition catch_invalid (m : outcome (Z * plugin)) p : outcome (Z * plugin) :=
  match m with Stop (Throw InvalidArgument) => Done (-1, p) | _ => m end.

Definition ChannelSelector_write (ck : clocks) (fileName buf : text) (sz : Z) p : outcome (Z * plugin) :=
  let p := match t_monotonic ck with Some t => p <| mLastRequestTime := t |> | None => p end in
  let tmp := erase_char NL buf in
  if bool_decide (fileName = CONFIG_F_CHANNEL_SELECT) then
    '(s, r) ← source_open tmp 0 (t_steady ck) (mMediaSource p);
    p ← source_done ck 0 s p;
    if r =? 0 then
      let p := notifyUpdate fileName p in
      let p := if negb (isChannelActive (mMediaSource p))
               then tsb_done (interruptReads (mTsbConsumer p)) p else p in
      Done (sz, p)
    else Done (-1, notifyUpdate fileName p)
  else Done (-1, notifyUpdate fileName p).

Definition ChannelSelector_read (fileName : text) p : text :=
  if bool_decide (fileName = CONFIG_F_CHANNEL_SELECT_TIMESTAMP) then
    digits_of (u64 ((mLastRequestTime p).1 * 1000 + (mLastRequestTime p).2 / 1000000))
  else getCurrentUri (mMediaSource p).

Definition PlayerState_write (buf : text) (sz : Z) p : outcome (Z * plugin) :=
  match PlayerStateEnum_of_text buf with
  | mkStateEnum true (Some st) _ =>
    s ← setPlayerState (mTsbConsumer p) st;
    Done (sz, tsb_done s p)
  | _ => Done (-1, p)
  end.

Definition PlayerState_read p : text := mStringValue (PlayerStateEnum_of_state (getPlayerState (mTsbConsumer p))).

(** The product is a [uint64_t], and the parameter of [setSeekTime] an [int64_t]. *)
Definition Seek_write (ck : clocks) (buf : text) (sz : Z) p : outcome (Z * plugin) :=
  catch_invalid (
    seekValue ← stoull buf;
    '(ok, s) ← setSeekTime (mTsbConsumer p) (s64 (u64 (seekValue * SECONDS_TO_MILLISECONDS))) (t_pause ck);
    let p := tsb_done s p in
    if (ok : bool) then Done (sz, notifyUpdate CONFIG_F_STREAM_INFO_FLUSH p) else Done (-1, p)) p.

(** Five numbers with commas between them. C++ leaves the order of the calls open; only the
    first changes anything, and none of the others reads what it changes. *)
Definition Seek_read p : outcome (text * plugin) :=
  '(seek, s) ← getSeekTime (mTsbConsumer p);
  max ← getMaxSeekTime s;
  actual ← getActualBufferByteSize s;
  let sep := text_of "," in
  Done (to_string_long (Z.quot seek SECONDS_TO_MILLISECONDS) ++ sep ++
        to_string_long (Z.quot max SECONDS_TO_MILLISECONDS) ++ sep ++
        to_string_long (getSeekOffset s) ++ sep ++ to_string_long actual ++ sep ++
        to_string_long (getBufferCapacityByteSize s),
        tsb_done s p).

Definition TrickPlay_write (buf : text) (sz : Z) p : outcome (Z * plugin) :=
  catch_invalid (
    speed ← stoi buf;
    let '(ok, s) := setTrickPlaySpeed (mTsbConsumer p) (s16 speed) in
    Done (if (ok : bool) then sz else -1, tsb_done s p)) p.

Definition TrickPlay_read p : text := to_string_long (getTrickPlaySpeed (mTsbConsumer p)).

Definition CdmStatus_write (buf : text) (sz : Z) p : outcome (Z * plugin) :=
  catch_invalid (
    n ← stoi buf;
    if n =? 1 then Done (sz, (psi_assigns (SetCdmSetupDone true) p) <| mCdmConfigComplete := true |>)
    else Done (-1, p)) p.

Definition CdmStatus_read p : text := if v_kCdm0 (vars p) then text_of "1" else text_of "0".

Definition Stats_read (fileName : text) p : text * plugin :=
  let h := hashStr fileName in
  if h =? hashStr CONFIG_F_STATS_SW_VERSION then (sw_version, p)
  else if h =? hashStr CONFIG_F_STREAMFS_PID then (digits_of (u64 pid) ++ [NL], p)
  else if h =? hashStr CONFIG_F_STAT_GLOBAL then (getGlobalStats 0 (mMediaSource p), p)
  else if h =? hashStr CONFIG_F_STAT_CHANNEL then
    let '(s, t) := getChannelStats 0 (mMediaSource p) in (t, p <| mMediaSource := s |>)
  else if h =? hashStr CONFIG_F_STREAM_STATUS then (v_kBufferSrcLost0 (vars p), p)
  else (text_of "NOT IMPLEMENTED", p).

Definition StreamInfo_read (fileName : text) p : text :=
  let h := hashStr fileName in
  if h =? hashStr CONFIG_F_FCC_STREAM_INFO_PMT then v_kPmt0 (vars p)
  else if h =? hashStr CONFIG_F_FCC_STREAM_INFO_PAT then v_kPat0 (vars p)
  else if h =? hashStr CONFIG_F_FCC_STREAM_INFO_ECM then v_kEcm0 (vars p)
  else text_of "Not supported".

Definition ProtectionInfo_read p : text :=
  getJsonAsString (StreamProtectionConfigExport_new (mCurrentConfig p)).

(** [initConfigHandlers] gives every type of the table its handler. *)
Definition targetToConfigHandler (file : text) : option ConfigType :=
  match file_name_to_ConfigType file with UNDEFINED_CONFIG => None | t => Some t end.

(** [writeConfig] of the handler for a type; statistics, stream information and protection
    information are not written. *)
Definition writeConfig (ck : clocks) (t : ConfigType) (fileName buf : text) (sz : Z) p : outcome (Z * plugin) :=
  match t with
  | CHANNEL_SELECT => ChannelSelector_write ck fileName buf sz p
  | PLAYER_STATE => PlayerState_write buf sz p
  | SEEK_CONTROL => Seek_write ck buf sz p
  | TRICK_PLAY => TrickPlay_write buf sz p
  | CDM_STATUS => CdmStatus_write buf sz p
  | STATS_CONTROL | STREAM_INFO | PROTECTION_INFO | UNDEFINED_CONFIG => Done (-1, p)
  end.

Definition readConfig (t : ConfigType) (fileName : text) p : outcome (text * plugin) :=
  match t with
  | CHANNEL_SELECT => Done (ChannelSelector_read fileName p, p)
  | PLAYER_STATE => Done (PlayerState_read p, p)
  | SEEK_CONTROL => Seek_read p
  | TRICK_PLAY => Done (TrickPlay_read p, p)
  | CDM_STATUS => Done (CdmStatus_read p, p)
  | STATS_CONTROL => Done (Stats_read fileName p)
  | STREAM_INFO => Done (StreamInfo_read fileName p, p)
  | PROTECTION_INFO => Done (ProtectionInfo_read p, p)
  | UNDEFINED_CONFIG => Done ([], p)
  end.

(** [getSize] of a handler: the size of what it reads, which for the protection information
    is kept. *)
Definition handler_size (t : ConfigType) (fileName : text) p : outcome (Z * plugin) :=
  match t with
  | PROTECTION_INFO => Done (mSize p, p)
  | t => '(v, p) ← readConfig t fileName p; Done (zlen v, p)
  end.

(** ** FCCConfigHandlers *)

(** The cache is not used. *)
Definition getConfigValue (handle : Z) (path : text) (useCached : bool) p : outcome (text * plugin) :=
  match targetToConfigHandler path with
  | None => Done ([], p)
  | Some t => readConfig t path p
  end.

Definition getConfigSize (path : text) p : outcome (Z * plugin) :=
  match targetToConfigHandler path with
  | None => Done (INT64_MAX, p)
  | Some t => handler_size t path p
  end.

Definition releaseConfigValue (handle : Z) p : plugin := p <| mConfigCache := delete handle (mConfigCache p) |>.

(** * The files *)

Definition plugin_open (path : text) p : Z * plugin :=
  if set_find path (mFiles p) then
    let n := match mStreamOpenCounters p !! path with None => 1 | Some n => u32 (n + 1) end in
    (0, p <| mStreamOpenCounters := <[path := n]> (mStreamOpenCounters p) |>)
  else (-1, p).

Definition plugin_release (handle : Z) (path : text) p : Z * plugin :=
  let p := match mStreamOpenCounters p !! path with
           | Some n => p <| mStreamOpenCounters := <[path := u32 (n - 1)]> (mStreamOpenCounters p) |>
           | None => p
           end in
  if negb (set_find path (mActiveUris p)) then (0, releaseConfigValue handle p)
  else (0, tsb_done (release (mTsbConsumer p) handle) p).

(** The part of a configuration a read asks for: what is returned and what is written to the
    buffer of the caller. [substr] is asked for more than is copied. *)
Definition copy_out (conf : text) (sz offset : Z) : outcome (Z * text) :=
  match conf with
  | [] => Done (0, [])
  | _ =>
    if zlen conf <? offset then Done (- EOVERFLOW, [])
    else
      let readByteNum := Z.min (u64 (zlen conf - offset)) sz in
      let result := ztake (u64 (offset + readByteNum)) (zdrop offset conf) in
      bytes ← slice result 0 readByteNum;
      Done (s32 readByteNum, bytes)
  end.

Definition plugin_read (handle : Z) (path : text) (sz offset : Z) p : outcome (Z * text * plugin) :=
  if set_find path (mActiveUris p) then
    if isChannelActive (mMediaSource p) then
      let '(data, s) := readData (mTsbConsumer p) handle sz in
      let p := tsb_done s p in
      let res := s32 (zlen data) in
      if arch_x86_64 && (res =? 0) && (INT64_MAX - TS_FILE_FOOTER_BYTES <? offset)
      then Done (s32 sz, replicate (Z.to_nat sz) NUL, p)
      else Done (res, as_text data, p)
    else Done (0, [], p)
  else
    '(conf, p) ← getConfigValue handle path (negb (offset =? 0)) p;
    '(n, bytes) ← copy_out conf sz offset;
    Done (n, bytes, p).

Definition plugin_write (ck : clocks) (node buf : text) (offset : Z) p : outcome (Z * plugin) :=
  let sz := zlen buf in
  if negb (offset =? 0) then Done (s32 sz, p)
  else match targetToConfigHandler node with
       | None => Done (s32 sz, p)
       | Some t =>
         '(r, p) ← writeConfig ck t node buf sz p;
         Done (s32 r, p)
       end.

Definition plugin_getSize (path : text) p : outcome (Z * plugin) :=
  if set_find path (mActiveUris p) then Done (INT64_MAX, p) else getConfigSize path p.

(** The constructor, once the parts have been made. The constructors of the media source
    handler and of the PSI parser have assigned kBufferSrcLost0 and kCdm0; [time] is what [mLastRequestTime] holds
    before it is set. *)
Definition FCCPlugin_new (s : MediaSourceHandler D) (h : H) (tsb : TimeShiftBufferConsumer cb pool) (time : Z * Z) : plugin :=
  let files := fold_left (fun l i => set_insert i l) available_channels_g [] in
  let files := fold_left (fun l i => set_insert i.1 l) config_handlers_g files in
  let uris := fold_left (fun l i => set_insert i l) available_channels_g [] in
  let size := u32 (zlen (getJsonAsString (StreamProtectionConfigExport_new StreamProtectionConfig_default))) in
  let lost := srcStateToMVar (mBufferSourceLost s) (mSourceLostCounter s) in
  mkPlugin s h tsb PSIParser_new (mkVariables true [] [] [] lost) files uris ∅ ∅
    StreamProtectionConfig_default size true time [].

End plugin.
