(* ===== verification/PluginProps.v ===== *)
(** What the configuration files promise: which protection information is kept and that its
    size is the size of what is read, that a file read piece by piece gives its value, that
    the channel and the speed written are the ones read, and what numbers that do not fit do. *)

From Stdlib Require Import Ascii.
From S2P Require Import Prelude Interfaces Json JsonParser JsonProps StdString Regex ChannelConfig Protection TimeShift PsiParser PsiReach ProtectionExport BufferQueue MediaSource CallbackHandler ConfigOptions Plugin.

Create HintDb plugin.

Section plugin_props.
Context {cfg : StreamfsConfig} {cb q : Type -> Type} {CB : CircularBuffer cb} {Q : LockfreeQueue q}.
Context {pool : Type} {RB : RingBuffer pool} {D : Type} {DX : Demuxer D} {H : Type} {CH : CallbackHandler H}.
Context {Rx : BoostRegex} {Tl : BoostToLower} {Ia : InetAton} {Hx : BoostHex} {St : BoostStringAlgo}.
Context (sw_version : text) (pid : Z) (arch_x86_64 : bool).
Local Abbreviation plugin := (FCCPlugin D cb q pool H).
Implicit Types p : plugin.

(** * Protection information *)

Definition conf_le (a b : StreamProtectionConfig) : Prop :=
  confidence_value (confidence a) <= confidence_value (confidence b).

(** [c] wins among [l]: the last of the most confident values since the last reset. *)
Definition wins (c : StreamProtectionConfig) (l : list StreamProtectionConfig) : Prop :=
  exists pre seg post, l = pre ++ seg ++ c :: post /\
  (pre = [] \/ (confidence <$> head (seg ++ [c])) = Some RESET) /\
  Forall (fun v => conf_le v c) seg /\
  Forall (fun v => confidence v <> RESET /\ ~ conf_le c v) post.

Definition assign_all (values : list StreamProtectionConfig) p : plugin :=
  fold_left (fun p v => protection_changed v p) values p.

Lemma wins_snoc c v l : wins c l ->
  wins (if bool_decide (confidence v = RESET) || (confidence_value (confidence c) <=? confidence_value (confidence v))
        then v else c) (l ++ [v]).
Proof.
  intros (pre & seg & post & -> & Hpre & Hseg & Hpost); destruct (bool_decide _) eqn:Er; cbn [orb].
  { exists (pre ++ seg ++ c :: post), [], []; split_and!; [done| |constructor..].
    right; cbn; f_equal; by apply bool_decide_eq_true in Er. }
  apply bool_decide_eq_false in Er; destruct (_ <=? _) eqn:Ec; b2p.
  - exists pre, (seg ++ c :: post), []; split_and!; [by rewrite <- !app_assoc| | |constructor].
    + destruct Hpre as [->|Hh]; [by left|right]; by destruct seg.
    + apply Forall_app; split; [|apply Forall_cons; split; [done|]];
        (eapply Forall_impl; [eassumption|]; unfold conf_le; cbn; intros; lia).
  - exists pre, seg, (post ++ [v]); split_and!; [by rewrite <- !app_assoc|done|done|].
    apply Forall_app; split; [done|]; constructor; [|done]; unfold conf_le; split; [done|lia].
Qed.

Lemma protection_changed_keeps v p : mCurrentConfig (protection_changed v p) =
  if bool_decide (confidence v = RESET) ||
     (confidence_value (confidence (mCurrentConfig p)) <=? confidence_value (confidence v))
  then v else mCurrentConfig p.
Proof. unfold protection_changed; cbv zeta; by case_if. Qed.

(** C26. Whatever values kDrm0 is assigned, drm0 holds the last of the most confident ones
    since the last reset. *)
Theorem protection_kept (values : list StreamProtectionConfig) p :
  wins (mCurrentConfig (assign_all values p)) (mCurrentConfig p :: values).
Proof.
  induction values as [|v values IH] using rev_ind.
  - exists [], [], []; split_and!; [done|by left|constructor..].
  - unfold assign_all in *; rewrite fold_left_app; cbn [fold_left].
    rewrite protection_changed_keeps; exact (wins_snoc _ v _ IH).
Qed.

(** * Runs *)

(** A call of the application, a round of the parser's thread, or whatever the media source
    handler, the callback handler and the timers of the time shift buffer do on their own. *)
Inductive plugin_step p : plugin -> Prop :=
| step_open path : plugin_step p (plugin_open path p).2
| step_release handle path : plugin_step p (plugin_release handle path p).2
| step_read handle path sz offset n bytes p' :
  plugin_read sw_version pid arch_x86_64 handle path sz offset p = Done (n, bytes, p') -> plugin_step p p'
| step_write ck node buf offset n p' : plugin_write ck node buf offset p = Done (n, p') -> plugin_step p p'
| step_size path n p' : plugin_getSize sw_version pid path p = Done (n, p') -> plugin_step p p'
| step_thread junk p' : psi_thread junk p = Done p' -> plugin_step p p'
| step_source ck t s p' : source_done ck t s p = Done p' -> plugin_step p p'
| step_handler h : plugin_step p (handler_done h p)
| step_timer s : plugin_step p (tsb_done s p).

(** ** What every step keeps *)

(** [psi_exec] without the notifications, which come from the callback handler. *)
Definition psi_call (s s' : PSIParser cb q) : Prop := exists op, is_notify op = false /\ psi_exec s op = Done s'.

(** A property of what the steps change only through the parser and the callback handler. *)
Record kept (K : plugin -> Prop) : Prop := {
  kept_frame : forall p p', mPsi p' = mPsi p -> mCurrentConfig p' = mCurrentConfig p -> mSize p' = mSize p ->
    mActiveUris p' = mActiveUris p -> K p -> K p';
  kept_psi : forall s p, psi_call (mPsi p) s -> K p -> K (psi_done s p);
  kept_handler : forall h p, K p -> K (handler_done h p);
}.

Lemma fold_frame {X E} (g : plugin -> X) (f : plugin -> E -> plugin) : (forall p e, g (f p e) = g p) ->
  forall es p, g (fold_left f es p) = g p.
Proof. intros Hf es; induction es as [|e es IH]; intros p0; [done|]; cbn; by rewrite IH, Hf. Qed.

Section kept.
Context (K : plugin -> Prop) (HK : kept K).

Lemma kept_tsb s p : K p -> K (tsb_done s p).
Proof. apply (kept_frame _ HK); unfold tsb_done; by rewrite fold_frame. Qed.

Lemma kept_source_set s p : K p -> K (p <| mMediaSource := s |>).
Proof. by apply (kept_frame _ HK). Qed.

#[local] Hint Resolve kept_tsb kept_source_set : plugin.

Lemma kept_deliver ck t e p p' : K p -> deliver ck t e p = Done p' -> K p'.
Proof.
  intros Hp; destruct e as [uri|uri|uri|channel chunk| |buf size|value]; cbn [deliver].
  - intros [= <-]; by apply (kept_handler _ HK).
  - intros (s & Hs & [= <-])%bind_done_inv; apply (kept_psi _ HK); [by exists Open|auto with plugin].
  - intros [= <-]; apply (kept_psi _ HK); [by exists EndOfStream|auto with plugin].
  - intros (s & _ & (c & _ & (s' & Hs & [= <-])%bind_done_inv)%bind_done_inv)%bind_done_inv.
    apply (kept_psi _ HK); [by exists (PsiReach.Post c chunk)|auto with plugin].
  - by intros [= <-].
  - by intros [= <-].
  - intros [= <-]; by apply (kept_frame _ HK p).
Qed.

Lemma kept_source ck t s p p' : K p -> source_done ck t s p = Done p' -> K p'.
Proof.
  intros Hp; unfold source_done; cbv zeta; generalize (kept_source_set s p Hp).
  generalize (p <| mMediaSource := s |>); induction (drop _ _) as [|e es IH]; intros p0 Hq; cbn [deliver_all].
  - by intros [= <-].
  - intros (p1 & Hd & Hr)%bind_done_inv; eapply IH; [|exact Hr]; by eapply kept_deliver.
Qed.

Lemma kept_readConfig t file p v p' : K p -> readConfig sw_version pid t file p = Done (v, p') -> K p'.
Proof.
  intros Hp; destruct t; cbn [readConfig]; try (by intros [= _ <-]).
  - unfold Seek_read; intros ([seek s] & _ & Hr)%bind_done_inv; revert Hr; cbv beta iota.
    intros (m & _ & (a & _ & [= _ <-])%bind_done_inv)%bind_done_inv; auto with plugin.
  - unfold Stats_read; cbv zeta; destruct (getChannelStats 0 (mMediaSource p)) as [s c].
    repeat case_if; intros [= _ <-]; auto with plugin.
Qed.

Lemma kept_value h path b p v p' : K p -> getConfigValue sw_version pid h path b p = Done (v, p') -> K p'.
Proof.
  unfold getConfigValue; destruct (targetToConfigHandler path); [apply kept_readConfig|by intros ? [= _ <-]].
Qed.

Lemma kept_read h path sz offset p n bytes p' : K p ->
  plugin_read sw_version pid arch_x86_64 h path sz offset p = Done (n, bytes, p') -> K p'.
Proof.
  intros Hp; unfold plugin_read; case_if.
  - case_if; [|by intros [= _ _ <-]].
    destruct (readData _ _ _) as [data s]; cbv zeta; case_if; intros [= _ _ <-]; auto with plugin.
  - intros ([v p1] & Hv & Hr)%bind_done_inv; revert Hr; cbv beta iota.
    intros ([k l] & _ & [= _ _ <-])%bind_done_inv; by eapply kept_value.
Qed.

Lemma kept_size path p n p' : K p -> plugin_getSize sw_version pid path p = Done (n, p') -> K p'.
Proof.
  intros Hp; unfold plugin_getSize, getConfigSize; case_if; [by intros [= _ <-]|].
  destruct (targetToConfigHandler path) as [t|]; [|by intros [= _ <-]].
  destruct t; cbn [handler_size]; try (by intros [= _ <-]);
    intros ([v p1] & Hv & [= _ <-])%bind_done_inv; by eapply kept_readConfig.
Qed.

(** What a handler that catches [std::invalid_argument] leaves behind. *)
Lemma catch_done (m : outcome (Z * plugin)) p n p' : catch_invalid m p = Done (n, p') ->
  m = Done (n, p') \/ (n = -1 /\ p' = p).
Proof. destruct m as [|[]]; cbn; try destruct e; intros [= ]; subst; auto. Qed.

Lemma kept_select ck file buf sz p n p' : K p -> ChannelSelector_write ck file buf sz p = Done (n, p') -> K p'.
Proof.
  intros Hp; unfold ChannelSelector_write; cbv zeta.
  set (p0 := match t_monotonic ck with Some t => _ | None => p end).
  assert (H0 : K p0) by (unfold p0; destruct (t_monotonic ck); [by apply (kept_frame _ HK p)|done]); clearbody p0.
  case_if; [|intros [= _ <-]; by apply (kept_frame _ HK p0)].
  intros ([s r] & _ & Hr)%bind_done_inv; revert Hr; cbv beta iota.
  intros (p1 & H1%kept_source & Hr)%bind_done_inv; [|done]; revert Hr; cbv zeta.
  assert (H2 : K (notifyUpdate file p1)) by (by apply (kept_frame _ HK p1)).
  case_if; [|by intros [= _ <-]]; case_if; intros [= _ <-]; auto with plugin.
Qed.

Lemma kept_write ck node buf offset p n p' : K p -> plugin_write ck node buf offset p = Done (n, p') -> K p'.
Proof.
  intros Hp; unfold plugin_write; cbv zeta; case_if; [by intros [= _ <-]|].
  destruct (targetToConfigHandler node) as [t|]; [|by intros [= _ <-]].
  intros ([r p1] & Hw & [= _ <-])%bind_done_inv; revert Hw.
  destruct t; cbn [writeConfig]; try (by intros [= _ <-]).
  - by apply kept_select.
  - unfold PlayerState_write; destruct (PlayerStateEnum_of_text buf) as [[] [st|] ?]; try (by intros [= _ <-]).
    intros (s & _ & [= _ <-])%bind_done_inv; auto with plugin.
  - intros [Hd|[_ ->]]%catch_done; [|done]; revert Hd.
    intros (v & _ & ([ok s] & _ & Hd)%bind_done_inv)%bind_done_inv; revert Hd; cbv beta iota zeta.
    destruct ok; intros [= _ <-]; [apply (kept_frame _ HK (tsb_done s p)); [done..|]|]; auto with plugin.
  - intros [Hd|[_ ->]]%catch_done; [|done]; revert Hd.
    intros (v & _ & Hd)%bind_done_inv; revert Hd; cbv beta iota zeta.
    case_if; intros [= _ <-]; [by apply (kept_frame _ HK p)|done].
  - intros [Hd|[_ ->]]%catch_done; [|done]; revert Hd.
    intros (v & _ & Hd)%bind_done_inv; revert Hd; cbv beta zeta.
    destruct (setTrickPlaySpeed _ _) as [ok s]; intros [= _ <-]; auto with plugin.
Qed.

Lemma kept_step p p' : plugin_step p p' -> K p -> K p'.
Proof.
  intros [] Hp; eauto using kept_read, kept_write, kept_size, kept_source, kept_tsb.
  - unfold plugin_open; case_if; [by apply (kept_frame _ HK p)|done].
  - unfold plugin_release; cbv zeta; destruct (mStreamOpenCounters p !! path); case_if; cbn [snd];
      try apply kept_tsb; by apply (kept_frame _ HK p).
  - match goal with E : psi_thread ?j _ = _ |- _ => apply bind_done_inv in E as (s & E & [= <-]);
      apply (kept_psi _ HK); [by exists (ThreadRound j)|done] end.
  - by apply (kept_handler _ HK).
Qed.

Lemma kept_run p p' : rtc plugin_step p p' -> K p -> K p'.
Proof. induction 1; eauto using kept_step. Qed.

End kept.

(** The size that is kept belongs to the value that is kept. *)
Definition size_ok p : Prop := mSize p = u32 (zlen (ProtectionInfo_read p)).

Definition plugin_ok p : Prop := size_ok p /\ mActiveUris p = available_channels_g.

Lemma ok_assign e p : plugin_ok p -> plugin_ok (psi_assigns e p).
Proof.
  intros Hp; destruct e; cbn [psi_assigns]; [|exact Hp].
  unfold protection_changed; cbv zeta; case_if; [|done]; by split; [|apply Hp].
Qed.

Lemma fold_keeps {E} (P : plugin -> Prop) (f : plugin -> E -> plugin) : (forall p e, P p -> P (f p e)) ->
  forall es p, P p -> P (fold_left f es p).
Proof. intros Hf es; induction es as [|e es IH]; intros p0 Hp; [done|]; apply IH, Hf, Hp. Qed.

Lemma ok_kept : kept plugin_ok.
Proof.
  split.
  - intros p p' _ Hc Hs Hu; unfold plugin_ok, size_ok, ProtectionInfo_read; by rewrite Hc, Hs, Hu.
  - intros s p _ Hp; unfold psi_done; cbv zeta; apply (fold_keeps plugin_ok); [|exact Hp]; intros; by apply ok_assign.
  - intros h p Hp; unfold handler_done; cbv zeta; apply (fold_keeps plugin_ok); [|exact Hp]; intros p0 [v value|value|] Hq; cbn [handler_event_done];
      [by destruct v|by apply (ok_assign (SetDrm value))|done].
Qed.

Lemma ok_run s h tsb time p : rtc plugin_step (FCCPlugin_new s h tsb time) p -> plugin_ok p.
Proof. intros Hr; by eapply (kept_run _ ok_kept). Qed.

(** C25. However the plugin is used, the size it reports for drm0 is the size of the value a
    read of drm0 at offset 0 gets, modulo 2^32, and neither call changes the plugin. *)
Theorem drm_size_correct s h tsb time p (handle : Z) :
  rtc plugin_step (FCCPlugin_new s h tsb time) p ->
  plugin_getSize sw_version pid CONFIG_F_PROTECTION_INFO p = Done (u32 (zlen (ProtectionInfo_read p)), p) /\
  getConfigValue sw_version pid handle CONFIG_F_PROTECTION_INFO false p = Done (ProtectionInfo_read p, p).
Proof.
  intros [Hs Hu]%ok_run; split; [|done].
  unfold plugin_getSize, set_find; rewrite Hu, bool_decide_eq_false_2 by (apply (bool_decide_unpack _); by vm_compute).
  change (getConfigSize sw_version pid CONFIG_F_PROTECTION_INFO p) with (Done (mSize p, p)); by rewrite Hs.
Qed.

(** * Reading *)

(** The piece of [conf] behind [offset], at most [sz] characters of it. *)
Lemma copy_out_piece conf sz offset : 0 < sz < 2147483648 -> 0 <= offset <= zlen conf -> zlen conf < 2147483648 ->
  copy_out conf sz offset = Done (zlen (ztake sz (zdrop offset conf)), ztake sz (zdrop offset conf)).
Proof.
  intros Hsz Ho Hc; unfold copy_out; destruct conf as [|c conf'] eqn:E; [by rewrite (zdrop_all offset []), (ztake_all sz []) by (unfold zlen in *; cbn in *; lia)|].
  rewrite <- E in *; clear E c conf'; rewrite (proj2 (Z.ltb_ge _ _)) by lia; cbv zeta.
  pose proof (zlen_zdrop offset conf Ho) as Hd; rewrite u64_small by lia.
  set (n := Z.min (zlen conf - offset) sz).
  assert (Hn : ztake n (zdrop offset conf) = ztake sz (zdrop offset conf)).
  { unfold n; destruct (Z.min_spec (zlen conf - offset) sz) as [[? ->]|[? ->]]; [|done].
    by rewrite !ztake_all by lia. }
  assert (Hl : zlen (ztake n (zdrop offset conf)) = n) by (apply zlen_ztake; lia).
  rewrite u64_small by lia.
  assert (Hlen : n <= zlen (ztake (offset + n) (zdrop offset conf))).
  { destruct (Z_le_dec (zlen (zdrop offset conf)) (offset + n)); [rewrite ztake_all|rewrite zlen_ztake]; lia. }
  rewrite slice_ok, bind_Done, zdrop_0, ztake_ztake by lia.
  by rewrite <- Hn, Hl, s32_small by lia.
Qed.

(** An application that reads a file to its end, [sz] characters at a time. *)
Fixpoint read_file (fuel : nat) (handle : Z) (path : text) (sz offset : Z) p : outcome (text * plugin) :=
  match fuel with
  | O => Stop OutOfFuel
  | S fuel =>
    '(n, bytes, p) ← plugin_read sw_version pid arch_x86_64 handle path sz offset p;
    if n <=? 0 then Done ([], p)
    else '(rest, p) ← read_file fuel handle path sz (offset + n) p; Done (bytes ++ rest, p)
  end.

Lemma plugin_read_config handle path sz offset p conf :
  set_find path (mActiveUris p) = false ->
  (forall b, getConfigValue sw_version pid handle path b p = Done (conf, p)) ->
  plugin_read sw_version pid arch_x86_64 handle path sz offset p =
  '(n, bytes) ← copy_out conf sz offset; Done (n, bytes, p).
Proof. intros Hu Hv; unfold plugin_read; by rewrite Hu, Hv, bind_Done. Qed.

Lemma read_file_from fuel handle path sz p conf :
  set_find path (mActiveUris p) = false ->
  (forall b, getConfigValue sw_version pid handle path b p = Done (conf, p)) ->
  0 < sz < 2147483648 -> zlen conf < 2147483648 ->
  forall offset, 0 <= offset <= zlen conf -> (Z.to_nat (zlen conf - offset) < fuel)%nat ->
  read_file fuel handle path sz offset p = Done (zdrop offset conf, p).
Proof.
  intros Hu Hv Hsz Hc; induction fuel as [|fuel IH]; intros offset Ho Hf; [lia|]; cbn [read_file].
  rewrite (plugin_read_config _ _ _ _ _ conf Hu Hv), copy_out_piece, !bind_Done by done.
  set (l := zdrop offset conf); pose proof (zlen_zdrop offset conf Ho) as Hl; fold l in Hl.
  cbv beta iota; case_if; b2p.
  - destruct (Z_le_dec (zlen l) sz); [rewrite ztake_all in E by lia|rewrite zlen_ztake in E by lia; lia].
    by rewrite <- (ztake_all 0 l), ztake_0 by lia.
  - assert (Hn : 0 < zlen (ztake sz l) <= zlen l).
    { split; [done|]; destruct (Z_le_dec (zlen l) sz); [rewrite ztake_all|rewrite zlen_ztake]; lia. }
    rewrite IH, bind_Done by lia; cbv beta iota; do 2 f_equal.
    rewrite <- zdrop_zdrop by lia; fold l.
    destruct (Z_le_dec (zlen l) sz); [rewrite ztake_all, zdrop_all, app_nil_r by lia; done|].
    rewrite zlen_ztake by lia; apply ztake_zdrop.
Qed.

(** C27. A configuration whose value stays the same is what an application gets that reads the
    file to its end, whatever the size of its buffer: no character is lost or read twice, and
    the reads end. *)
Theorem config_read_in_pieces handle path sz p conf :
  set_find path (mActiveUris p) = false ->
  (forall b, getConfigValue sw_version pid handle path b p = Done (conf, p)) ->
  0 < sz < 2147483648 -> zlen conf < 2147483648 ->
  read_file (S (length conf)) handle path sz 0 p = Done (conf, p).
Proof.
  intros Hu Hv Hsz Hc; rewrite (read_file_from _ _ _ _ _ conf), zdrop_0; try done; unfold zlen in *; lia.
Qed.

(** * Writing *)

Lemma tsb_source s p : mMediaSource (tsb_done s p) = mMediaSource p.
Proof. unfold tsb_done; by rewrite fold_frame. Qed.

Lemma tsb_kept s p : mTsbConsumer (tsb_done s p) = s.
Proof. unfold tsb_done; by rewrite fold_frame. Qed.

Lemma tsb_same p : tsb_done (mTsbConsumer p) p = p.
Proof. unfold tsb_done; rewrite drop_all; by destruct p. Qed.

Lemma psi_source s p : mMediaSource (psi_done s p) = mMediaSource p.
Proof.
  unfold psi_done; rewrite fold_frame; [done|]; intros ? []; cbn; [|done].
  unfold protection_changed; cbv zeta; by case_if.
Qed.

(** The callback handler may start the demuxer, and does not touch the channel. *)
Lemma handler_uri h p : mCurrentUri (mMediaSource (handler_done h p)) = mCurrentUri (mMediaSource p).
Proof.
  unfold handler_done; rewrite (fold_frame (fun p => mCurrentUri (mMediaSource p))); [done|].
  intros p0 [v value|value|status feipId]; cbn [handler_event_done]; [by destruct v| |].
  - unfold protection_changed; cbv zeta; by case_if.
  - cbn; unfold notifyStatusChanged; destruct (mSessions _ !! _); [|done]; by destruct status.
Qed.

(** The channel is the one of the source handler the call returned, whatever the events do. *)
Lemma source_kept ck t s p p' : source_done ck t s p = Done p' ->
  mCurrentUri (mMediaSource p') = mCurrentUri s.
Proof.
  unfold source_done; cbv zeta; intros Hd; change s with (mMediaSource (p <| mMediaSource := s |>)).
  revert Hd; generalize (p <| mMediaSource := s |>); induction (drop _ _) as [|e es IH]; intros p0; cbn [deliver_all].
  - by intros [= <-].
  - intros (p1 & Hd & ->%IH)%bind_done_inv; destruct e; cbn [deliver] in Hd; try (by injection Hd as <-).
    + injection Hd as <-; apply handler_uri.
    + apply bind_done_inv in Hd as (? & _ & [= <-]); by rewrite psi_source, tsb_source.
    + injection Hd as <-; by rewrite psi_source, tsb_source.
    + apply bind_done_inv in Hd as (? & _ & (? & _ & (? & _ & [= <-])%bind_done_inv)%bind_done_inv); by rewrite psi_source, tsb_source.
Qed.

Lemma source_open_uri uri id now s s' : source_open uri id now s = Done (s', 0) -> mCurrentUri s' = uri.
Proof.
  unfold source_open; case_if; [done|]; destruct (mSessions s !! id) as [feip|]; [|done].
  destruct (dx_getChannelStats _ _) as [d t]; cbv zeta.
  intros (c & _ & Hr)%bind_done_inv; revert Hr; cbv beta zeta.
  set (s1 := s <| mCurrentChannelConfig := c |> <| mCurrentUri := uri |>).
  assert (Hd : mCurrentUri (disconnect (feip <| mDemuxer := d |>) s1).2 = uri) by (unfold disconnect; by case_if).
  destruct (disconnect _ s1) as [f s2]; cbn in Hd |- *; destruct uri; by intros [= <-].
Qed.

(** C11. A write to the channel selection that is accepted returns the size of what was
    written, and the file then reads as that text without its line breaks. *)
Theorem channel_select_roundtrip ck buf p n p' (handle : Z) (b : bool) :
  zlen buf < 2147483648 ->
  plugin_write ck CONFIG_F_CHANNEL_SELECT buf 0 p = Done (n, p') -> n <> -1 ->
  n = zlen buf /\
  getConfigValue sw_version pid handle CONFIG_F_CHANNEL_SELECT b p' = Done (erase_char NL buf, p').
Proof.
  intros Hlen; unfold plugin_write; cbn [Z.eqb negb].
  change (targetToConfigHandler CONFIG_F_CHANNEL_SELECT) with (Some CHANNEL_SELECT); cbv beta iota zeta.
  intros ([r p1] & Hw & [= <- <-])%bind_done_inv Hn; revert Hw; cbn [writeConfig]; unfold ChannelSelector_write; cbv zeta.
  set (p0 := match t_monotonic ck with Some t => _ | None => p end).
  rewrite (bool_decide_eq_true_2 (CONFIG_F_CHANNEL_SELECT = _)) by done.
  intros ([s c] & Ho & Hr)%bind_done_inv; revert Hr; cbv beta iota.
  intros (p2 & H2%source_kept & Hr)%bind_done_inv; revert Hr; cbv zeta.
  destruct (c =? 0) eqn:Ec; b2p; [|intros [= <- <-]; by destruct Hn]; subst c; apply source_open_uri in Ho.
  assert (Hu : forall p3, mMediaSource p3 = mMediaSource p2 ->
    getConfigValue sw_version pid handle CONFIG_F_CHANNEL_SELECT b p3 = Done (erase_char NL buf, p3)).
  { intros p3 H3; change (Done (mCurrentUri (mMediaSource p3), p3) = Done (erase_char NL buf, p3)).
    by rewrite H3, H2, Ho. }
  intros [= <- <-]; split; [apply s32_small; unfold zlen in *; lia|].
  apply Hu; case_if; [by rewrite tsb_source|done].
Qed.

(** A number written to trick_play0: one that does not fit an [int] leaves the plugin with
    [std::out_of_range], which nothing catches; of the others the low 16 bits are the speed, which
    is refused when it is zero or the current one, and read back otherwise. *)
Theorem trick_play_write ck (k : Z) p : 0 <= k ->
  let buf := digits_of k in
  let r := plugin_write ck CONFIG_F_TRICK_PLAY buf 0 p in
  let speed := s16 k in
  if 2147483647 <? k then r = Stop (Throw OutOfRange)
  else if (speed =? 0) || (speed =? getTrickPlaySpeed (mTsbConsumer p)) then r = Done (-1, p)
  else exists p', r = Done (s32 (zlen buf), p') /\ TrickPlay_read p' = to_string_long speed.
Proof.
  intros Hk; cbv zeta; unfold plugin_write; cbn [Z.eqb negb].
  change (targetToConfigHandler CONFIG_F_TRICK_PLAY) with (Some TRICK_PLAY); cbv beta iota zeta.
  cbn [writeConfig]; unfold TrickPlay_write, stoi; case_if; b2p.
  { rewrite <- (app_nil_r (digits_of k)), read_number_digits, !bind_Done by done; cbv beta iota zeta.
    by rewrite (proj2 (Z.leb_le _ k)), (proj2 (Z.leb_gt k _)) by lia. }
  fold (stoi (digits_of k)); rewrite stoi_digits, bind_Done by lia; unfold setTrickPlaySpeed, getTrickPlaySpeed.
  rewrite <- negb_orb; case_if; cbn [negb]; [by rewrite tsb_same|].
  eexists; split; [done|]; unfold TrickPlay_read; by rewrite tsb_kept.
Qed.

End plugin_props.
