(* ===== verification/PluginErrors.v ===== *)
(** Writes to the configuration files that fail: which texts are refused, which leave the plugin
    with an exception nothing catches, and what a refused one changes. *)

From S2P Require Import Prelude Interfaces Json JsonParser StdString Regex ChannelConfig Protection TimeShift PsiParser ProtectionExport BufferQueue MediaSource CallbackHandler ConfigOptions Plugin PluginProps.

(** The number at the beginning of a text, as the functions of the standard library find it. *)
Definition leading_number (buf : text) : option Z :=
  match read_number buf with
  | Done (neg, v) => Some (if (neg : bool) then - v else v)
  | Stop _ => None
  end.

Inductive verdict := Refused | Uncaught | Obeyed.

Section errors.
Context {cfg : StreamfsConfig} {cb q : Type -> Type} {CB : CircularBuffer cb} {Q : LockfreeQueue q}.
Context {pool : Type} {RB : RingBuffer pool} {D : Type} {DX : Demuxer D} {H : Type} {CH : CallbackHandler H}.
Context {Rx : BoostRegex} {Tl : BoostToLower} {Ia : InetAton} {Hx : BoostHex} {St : BoostStringAlgo}.
Local Abbreviation plugin := (FCCPlugin D cb q pool H).
Implicit Types p : plugin.

(** What is to become of a number that must be in a range and pass a test. *)
Definition number_verdict (lo hi : Z) (good : Z -> bool) (buf : text) : verdict :=
  match leading_number buf with
  | None => Refused
  | Some n => if (n <? lo) || (hi <? n) then Uncaught else if good n then Obeyed else Refused
  end.

(** What is to become of a text written to a file of a type. A channel is refused when it is
    the current one; a speed must be a new one, and the CDM can only become ready (doc/fcc.txt also
    lists 0, not ready, as a value to write). *)
Definition write_verdict (t : ConfigType) (node buf : text) p : verdict :=
  match t with
  | CHANNEL_SELECT =>
    if bool_decide (node = CONFIG_F_CHANNEL_SELECT /\ erase_char NL buf <> mCurrentUri (mMediaSource p) /\
                    is_Some (mSessions (mMediaSource p) !! 0))
    then Obeyed else Refused
  | PLAYER_STATE =>
    if bool_decide (to_upper_copy (trim_copy buf) ∈ (state_name <$> [UNDEF; PAUSED; PLAYING; READY])) then Obeyed else Refused
  | SEEK_CONTROL => number_verdict (-18446744073709551615) 18446744073709551615 (fun _ => true) buf
  | TRICK_PLAY => number_verdict (-2147483648) 2147483647
      (fun n => negb (s16 n =? 0) && negb (s16 n =? getTrickPlaySpeed (mTsbConsumer p))) buf
  | CDM_STATUS => number_verdict (-2147483648) 2147483647 (fun n => n =? 1) buf
  | STATS_CONTROL | STREAM_INFO | PROTECTION_INFO | UNDEFINED_CONFIG => Refused
  end.

(** The stream, the player and the parser are as they were. *)
Definition untouched p p' : Prop :=
  mMediaSource p' = mMediaSource p /\ mTsbConsumer p' = mTsbConsumer p /\ mPsi p' = mPsi p /\ vars p' = vars p.

(** What [m] does under a verdict; a seek can fail afterwards. *)
Definition heeds (t : ConfigType) (v : verdict) (sz : Z) p (m : outcome (Z * plugin)) : Prop :=
  match v with
  | Refused => exists p', m = Done (-1, p') /\ untouched p p' /\ (t <> CHANNEL_SELECT -> p' = p)
  | Uncaught => m = Stop (Throw OutOfRange)
  | Obeyed => forall r p', m = Done (r, p') -> r = sz \/ t = SEEK_CONTROL /\ r = -1
  end.

Lemma read_number_throws buf e : read_number buf = Stop e -> e = Throw InvalidArgument.
Proof.
  unfold read_number; destruct (number_sign _) as [neg l]; destruct (digit_prefix l) as [[|c d] r]; [by intros [= <-]|done].
Qed.

Lemma read_number_nonneg buf neg v : read_number buf = Done (neg, v) -> 0 <= v.
Proof.
  unfold read_number; destruct (number_sign _) as [ng l]; destruct (digit_prefix l) as [[|c d] r] eqn:Ed; [done|].
  intros [= _ <-]; assert (Hd : Forall (fun c => is_digit c = true) (c :: d)).
  { clear -Ed; revert Ed; generalize (c :: d); induction l as [|x l IH]; cbn; [by intros k [= <- _]|].
    case_if; [|by intros k [= <- _]]; destruct (digit_prefix l) as [d0 r0]; intros k [= <- <-]; constructor; auto. }
  unfold digits_value; assert (Hf : forall k z, 0 <= z -> Forall (fun c => is_digit c = true) k ->
    0 <= fold_left (fun v c => 10 * v + (code c - 48)) k z); [|by apply Hf].
  induction k as [|x k IH]; intros z Hz Hk; cbn [fold_left]; [done|]; apply Forall_cons in Hk as [Hd0 Hk].
  apply IH; [|done]; unfold is_digit in Hd0; lia.
Qed.

Lemma stoi_verdict t good buf sz p (k : Z -> outcome (Z * plugin)) :
  (forall n, good n = false -> k n = Done (-1, p)) -> (forall n, good n = true -> exists p', k n = Done (sz, p')) ->
  heeds t (number_verdict (-2147483648) 2147483647 good buf) sz p (catch_invalid (n ← stoi buf; k n) p).
Proof.
  intros Hbad Hgood; unfold number_verdict, leading_number, stoi.
  destruct (read_number buf) as [[neg v]|e] eqn:Er; [|apply read_number_throws in Er as ->; by exists p].
  rewrite bind_Done; set (n := if neg then - v else v); cbv zeta.
  destruct ((n <? _) || _) eqn:Eo.
  - assert ((-2147483648 <=? n) && (n <=? 2147483647) = false) as -> by lia; done.
  - assert ((-2147483648 <=? n) && (n <=? 2147483647) = true) as -> by lia.
    rewrite bind_Done; destruct (good n) eqn:Eg.
    + destruct (Hgood n Eg) as [p1 ->]; intros r p' [= <- _]; by left.
    + rewrite (Hbad n Eg); by exists p.
Qed.

Lemma seek_verdict ck node buf sz p :
  heeds SEEK_CONTROL (write_verdict SEEK_CONTROL node buf p) sz p (Seek_write ck buf sz p).
Proof.
  cbn [write_verdict]; unfold number_verdict, leading_number, Seek_write, stoull.
  destruct (read_number buf) as [[neg v]|e] eqn:Er; [|apply read_number_throws in Er as ->; by exists p].
  apply read_number_nonneg in Er; rewrite bind_Done; destruct (_ || _) eqn:Eo.
  - by rewrite (proj2 (Z.leb_gt _ _)) by (destruct neg; lia).
  - assert (Ev : (v <=? 18446744073709551615) = true) by (destruct neg; lia); rewrite Ev, bind_Done.
    destruct (setSeekTime _ _ _) as [[[] s]|e]; cbn; [|intros r p' [= <- _]; by right|by destruct e as [| |[]| | |]; intros r p' [= <- _]; right].
    intros r p' [= <- _]; by left.
Qed.

Lemma trick_verdict node buf sz p :
  heeds TRICK_PLAY (write_verdict TRICK_PLAY node buf p) sz p (TrickPlay_write buf sz p).
Proof.
  apply stoi_verdict; intros n; unfold setTrickPlaySpeed, getTrickPlaySpeed.
  - intros ->; by rewrite tsb_same.
  - intros ->; by eexists.
Qed.

Lemma cdm_verdict node buf sz p :
  heeds CDM_STATUS (write_verdict CDM_STATUS node buf p) sz p (CdmStatus_write buf sz p).
Proof. apply stoi_verdict; intros n ->; [done|by eexists]. Qed.

Lemma player_verdict node buf sz p :
  heeds PLAYER_STATE (write_verdict PLAYER_STATE node buf p) sz p (PlayerState_write buf sz p).
Proof.
  cbn [write_verdict]; unfold PlayerState_write; destruct (bool_decide _) eqn:Eb.
  - apply bool_decide_eq_true in Eb; intros r p' Hw; left.
    assert (exists st name, PlayerStateEnum_of_text buf = mkStateEnum true (Some st) name) as (st & name & Es).
    { unfold PlayerStateEnum_of_text; cbn in Eb; rewrite !elem_of_cons in Eb.
      destruct Eb as [->|[->|[->|[->|Eb]]]]; [..|by apply elem_of_nil in Eb]; by eexists _, _. }
    rewrite Es in Hw; apply bind_done_inv in Hw as (s & _ & Hw); by injection Hw.
  - apply bool_decide_eq_false in Eb.
    pose proof (player_state_refused buf) as Hr; destruct (PlayerStateEnum_of_text buf) as [[] st name].
    + assert (true = false); [|done]; apply Hr; intros st' E; apply Eb; rewrite E; apply list_elem_of_fmap_2.
      destruct st'; set_solver.
    + by exists p.
Qed.

Lemma channel_verdict ck node buf p : 0 <= zlen buf ->
  heeds CHANNEL_SELECT (write_verdict CHANNEL_SELECT node buf p) (zlen buf) p (ChannelSelector_write ck node buf (zlen buf) p).
Proof.
  intros Hz; cbn [write_verdict]; unfold ChannelSelector_write; cbv zeta.
  set (p0 := match t_monotonic ck with Some t => _ | None => p end).
  assert (Hp0 : untouched p p0) by (unfold p0; by destruct (t_monotonic ck)).
  assert (Hs0 : mMediaSource p0 = mMediaSource p) by apply Hp0.
  assert (Hno : source_done ck 0 (mMediaSource p0) p0 = Done p0).
  { unfold source_done; rewrite drop_all; cbn; by destruct p0. }
  assert (Href : heeds CHANNEL_SELECT Refused (zlen buf) p (Done (-1, notifyUpdate node p0))).
  { exists (notifyUpdate node p0); split_and!; done || apply Hp0. }
  destruct (bool_decide (_ /\ _)) eqn:Eb.
  - apply bool_decide_eq_true in Eb as (En & Eu & [sess Es]); rewrite bool_decide_eq_true_2 by done.
    intros r p' ([s r1] & Ho & (p1 & _ & Hr)%bind_done_inv)%bind_done_inv; left.
    assert (r1 = 0) as ->; [|by injection Hr].
    revert Ho; unfold source_open; rewrite Hs0, Es, bool_decide_eq_false_2 by congruence.
    destruct (dx_getChannelStats true (mDemuxer sess)) as [d x]; intros (c & _ & Ho)%bind_done_inv; revert Ho; cbv zeta.
    destruct (disconnect _ _) as [f1 s1]; destruct (erase_char NL buf); by intros [= _ <-].
  - apply bool_decide_eq_false in Eb; destruct (decide (node = CONFIG_F_CHANNEL_SELECT)) as [->|En];
      [rewrite bool_decide_eq_true_2 by done|by rewrite bool_decide_eq_false_2].
    unfold source_open; rewrite Hs0; destruct (decide (mCurrentUri (mMediaSource p) = erase_char NL buf)) as [Eu|Eu].
    + rewrite bool_decide_eq_true_2, bind_Done by done; rewrite <- Hs0, Hno; exact Href.
    + rewrite bool_decide_eq_false_2 by done; destruct (mSessions (mMediaSource p) !! 0) as [sess|] eqn:Es.
      * exfalso; apply Eb; split_and!; [done|congruence|by eexists].
      * rewrite bind_Done, <- Hs0, Hno; exact Href.
Qed.

(** C16. Which writes to the configuration files fail, and how. A text that is no number, no
    state, not 1 for the CDM, no new speed or the current channel is refused with -1, and so is
    every text for a file whose handler has no write; the stream, the player, the parser and the
    variables are then as they were. A number that does not fit leaves the plugin with an
    exception that nothing catches. Every other text is accepted with its size, but for a seek,
    which may also be answered with -1. In two places this is what the code does and not what
    doc/fcc.txt says: 0 for cdm_ready0 is refused, and a write to flush0 is a seek. *)
Theorem write_errors ck node t buf p (Ht : targetToConfigHandler node = Some t) (Hsz : zlen buf < 2147483648) :
  heeds t (write_verdict t node buf p) (zlen buf) p (plugin_write ck node buf 0 p).
Proof.
  pose proof (zlen_nonneg buf) as Hz; unfold plugin_write; cbn [Z.eqb negb]; rewrite Ht; cbv beta iota zeta.
  assert (Hw : heeds t (write_verdict t node buf p) (zlen buf) p (writeConfig ck t node buf (zlen buf) p)).
  { destruct t; cbn [writeConfig]; [by apply channel_verdict|apply player_verdict|apply seek_verdict|by exists p|
      by exists p|by exists p|apply cdm_verdict|apply trick_verdict|by exists p]. }
  destruct (write_verdict t node buf p); cbn [heeds] in *.
  - destruct Hw as (p' & -> & Hu); exists p'; done.
  - by rewrite Hw.
  - intros r p' ([r1 p1] & Hr & [= <- <-])%bind_done_inv; destruct (Hw _ _ Hr) as [->|[-> ->]]; [|by right].
    left; apply s32_small; lia.
Qed.

End errors.
