(* ===== verification/PluginQuiet.v ===== *)
(** The plugin with a demuxer whose callback handler does nothing, which is every demuxer of
    the repository but that of the set-top box: kEcm0 is never assigned, and so the PSI parser,
    which starts to run when kEcm0 becomes empty, never runs. *)

From Stdlib Require Import Ascii.
From S2P Require Import Prelude Interfaces Json StdString Regex ChannelConfig Protection TimeShift PsiParser PsiReach ProtectionExport BufferQueue MediaSource CallbackHandler ConfigOptions Plugin PluginProps.

Section quiet.
Context {cfg : StreamfsConfig} {cb q : Type -> Type} {CB : CircularBuffer cb} {Q : LockfreeQueue q} {QL : LockfreeQueueLaws q}.
Context {pool : Type} {RB : RingBuffer pool} {D : Type} {DX : Demuxer D}.
Context {Rx : BoostRegex} {Tl : BoostToLower} {Ia : InetAton} {Hx : BoostHex} {St : BoostStringAlgo}.
Context (sw_version : text) (pid : Z) (arch_x86_64 : bool).
Local Abbreviation plugin := (FCCPlugin D cb q pool unit).
Implicit Types p : plugin.

(** The parser has nothing to do and nothing has been published. *)
Record parser_off p : Prop := {
  off_running : mPsiParserRunning (mPsi p) = false;
  off_queue : q_items (mQueue (mPsi p)) = [];
  off_config : mCurrentConfig p = StreamProtectionConfig_default;
}.

(** A call of the parser that publishes nothing. *)
Lemma off_psi s p : parser_off p -> mPsiParserRunning s = false -> q_items (mQueue s) = [] ->
  (PsiParser.events (psi s) = PsiParser.events (psi (mPsi p)) \/ exists b, PsiParser.events (psi s) = PsiParser.events (psi (mPsi p)) ++ [SetCdmSetupDone b]) ->
  parser_off (psi_done s p).
Proof.
  intros [_ _ Hc] Hr Hq He; unfold psi_done; cbv zeta.
  destruct He as [->|[b ->]]; [rewrite drop_all|rewrite drop_app_length]; by split.
Qed.

Lemma off_post s channel chunk s' : mPsiParserRunning s = false -> q_items (mQueue s) = [] ->
  PsiParser.post (s : PSIParser cb q) channel chunk = Done s' ->
  mPsiParserRunning s' = false /\ q_items (mQueue s') = [] /\ psi s' = psi s.
Proof.
  intros Hr Hq; unfold PsiParser.post; destruct channel as [channel|]; [|by intros [= <-]].
  set (s1 := s <| mParserThread := true |>).
  assert (H1 : mPsiParserRunning s1 = false) by done.
  destruct (decide _).
  - destruct (clearQueue_ok s1) as (queue & -> & Hempty); rewrite !bind_Done.
    match goal with |- (if mPsiParserRunning ?s2 then _ else _) = _ -> _ => change (mPsiParserRunning s2) with (mPsiParserRunning s1) end.
    rewrite H1; by intros [= <-].
  - rewrite bind_Done, H1; by intros [= <-].
Qed.

(** None of the calls wakes the parser up. *)
Lemma off_call s op s' : mPsiParserRunning s = false -> q_items (mQueue s) = [] -> is_notify op = false ->
  psi_exec (s : PSIParser cb q) op = Done s' ->
  mPsiParserRunning s' = false /\ q_items (mQueue s') = [] /\
  (PsiParser.events (psi s') = PsiParser.events (psi s) \/ exists b, PsiParser.events (psi s') = PsiParser.events (psi s) ++ [SetCdmSetupDone b]).
Proof.
  intros Hr Hq Hn; destruct op as [channel chunk|junk|var value| | |]; [..|done| | |]; cbn [psi_exec].
  - intros (H1 & H2 & H3)%off_post; [|done..]; rewrite H3; auto.
  - unfold thread_step; case_if; [intros [= <-]; auto|]; rewrite q_pop_empty by done; intros [= <-]; auto.
  - intros [= <-]; cbn; eauto.
  - unfold PsiParser.onOpen; destruct (clearQueue_ok s) as (queue & -> & Hempty); rewrite bind_Done; intros [= <-]; auto.
  - intros [= <-]; auto.
Qed.

Lemma off_kept : kept parser_off.
Proof.
  split.
  - intros p p' Hm Hc _ _ [? ? ?]; split; by rewrite ?Hm, ?Hc.
  - intros s p (op & Hn & He) Hp.
    destruct (off_call _ _ _ (off_running _ Hp) (off_queue _ Hp) Hn He) as (Hr & Hq & Hev); by apply off_psi.
  - intros h p [? ? ?]; by split.
Qed.

(** C31. With a demuxer whose callback handler does nothing, the PSI parser never runs, however
    the plugin is used and whatever stream it is sent: drm0 keeps the value it has at the start. *)
Theorem parser_never_runs s tsb time p :
  rtc (plugin_step sw_version pid arch_x86_64) (FCCPlugin_new s tt tsb time : plugin) p ->
  mPsiParserRunning (mPsi p) = false /\
  ProtectionInfo_read p = getJsonAsString (StreamProtectionConfigExport_new StreamProtectionConfig_default).
Proof.
  intros Hr; assert (Hp : parser_off p).
  { eapply (kept_run _ _ _ _ off_kept); [exact Hr|]; split; [done|apply q_items_new|done]. }
  split; [apply Hp|]; unfold ProtectionInfo_read; by rewrite (off_config _ Hp).
Qed.

End quiet.
