(* ===== verification/PluginChannel.v ===== *)
(** From the packets of a channel to the file drm0: the plugin as a whole. The chunks of the
    stream go through [StreamProcessor] to the queue of the PSI parser, its thread reads them,
    what it publishes goes to the handler of drm0, and an application that reads the file and
    decodes its text gets the tables and the ECM of the channel. *)

From Stdlib Require Import Ascii.
From Corelib Require Import SpecFloat.
From S2P Require Import Prelude Interfaces Json JsonParser JsonProps JsonRoundtrip StdString Regex ChannelConfig Protection BufferIndexer TimeShift TsStream PidInfo PsiParser PsiStream PsiInvariant PsiReach PsiPmt PsiChannel PsiPadding PsiThread ProtectionExport BufferQueue MediaSource CallbackHandler ConfigOptions Plugin PluginProps.

Section channel.
Context {cfg : StreamfsConfig} {cfg_ok : StreamfsConfigOk cfg} {cb q : Type -> Type}.
Context {CB : CircularBuffer cb} {CBL : CircularBufferLaws cb} {Q : LockfreeQueue q} {QL : LockfreeQueueLaws q}.
Context {pool : Type} {RB : RingBuffer pool} {D : Type} {DX : Demuxer D} {H : Type} {CH : CallbackHandler H}.
Context {Rx : BoostRegex} {Tl : BoostToLower} {Ia : InetAton} {Hx : BoostHex} {HxL : BoostHexLaws} {St : BoostStringAlgo}.
Context (sw_version : text) (pid : Z) (arch_x86_64 : bool).
Local Abbreviation plugin := (FCCPlugin D cb q pool H).
Implicit Types p : plugin.

(** * The two threads of a stream *)

(** A chunk that the media source handler passes on, or a round of the parser's thread. *)
Inductive stream_step :=
| Chunk (ck : clocks) (t : Z) (chunk : list Z)
| Round (junk : nat -> StreamPacketT).

Definition exec_step (uri : text) p (st : stream_step) : outcome plugin :=
  match st with
  | Chunk ck t chunk => deliver ck t (MediaSource.Post (Channel uri) chunk) p
  | Round junk => psi_thread junk p
  end.

Fixpoint exec_steps (uri : text) p (l : list stream_step) : outcome plugin :=
  match l with
  | [] => Done p
  | st :: l => p ← exec_step uri p st; exec_steps uri p l
  end.

(** What the parser sees of it. *)
Definition psi_op_of (uri : text) (st : stream_step) : psi_op :=
  match st with
  | Chunk _ _ chunk => PsiReach.Post (Some (String.string_of_list_ascii uri)) chunk
  | Round junk => ThreadRound junk
  end.

(** The player plays: a chunk is put into the time shift buffer and nothing else happens. *)
Record playing (s : TimeShiftBufferConsumer cb pool) : Prop := {
  pl_state : mPlayerState s <> PAUSED;
  pl_ratio : mSamplingRatio (mBufIndexer s) <> 0;
}.

Lemma playing_post s chunk t now : playing s -> exists s', TimeShift_post s chunk t now = Done s' /\ playing s'.
Proof.
  intros [Hp Hr]; unfold TimeShift_post; case_if; [eexists; split; [done|by split]|]; cbv zeta; unfold registerBufferCount.
  change (mBufIndexer (s <| mRingBufferPool := _ |>)) with (mBufIndexer s).
  rewrite (proj2 (Z.eqb_neq _ _) Hr); case_if; rewrite bind_Done; cbv beta iota zeta;
    rewrite bool_decide_eq_false_2 by exact Hp; eexists; (split; [done|by split]).
Qed.

Lemma psi_kept s p : mPsi (psi_done s p) = s.
Proof.
  unfold psi_done; rewrite (fold_frame mPsi); [done|]; intros ? []; cbn; [|done].
  unfold protection_changed; cbv zeta; by case_if.
Qed.

Lemma psi_tsb s p : mTsbConsumer (psi_done s p) = mTsbConsumer p.
Proof.
  unfold psi_done; rewrite (fold_frame mTsbConsumer); [done|]; intros ? []; cbn; [|done].
  unfold protection_changed; cbv zeta; by case_if.
Qed.

Lemma psi_uris s p : mActiveUris (psi_done s p) = mActiveUris p.
Proof.
  unfold psi_done; rewrite (fold_frame mActiveUris); [done|]; intros ? []; cbn; [|done].
  unfold protection_changed; cbv zeta; by case_if.
Qed.

(** What drm0 holds after values have been assigned to kDrm0. *)
Definition newer (c v : StreamProtectionConfig) : StreamProtectionConfig :=
  if bool_decide (confidence v = RESET) || (confidence_value (confidence c) <=? confidence_value (confidence v))
  then v else c.

Lemma psi_config s p l : published (psi s) = published (psi (mPsi p)) ++ l -> grows (psi (mPsi p)) (psi s) ->
  mCurrentConfig (psi_done s p) = fold_left newer l (mCurrentConfig p).
Proof.
  intros Hl [new Hn]; unfold psi_done; cbv zeta; unfold published in Hl; rewrite Hn, omap_app in Hl.
  apply app_inv_head in Hl as <-; rewrite Hn, drop_app_length; clear Hn.
  change (mCurrentConfig p) with (mCurrentConfig (p <| mPsi := s |>)); generalize (p <| mPsi := s |>).
  induction new as [|e new IH]; intros p0; [done|]; cbn [fold_left omap list_omap].
  destruct e as [v|b]; cbn [fold_left psi_assigns]; [by rewrite IH, protection_changed_keeps|by rewrite IH].
Qed.

(** A step of the plugin is one of the parser. *)
Lemma exec_step_psi uri p st s' : playing (mTsbConsumer p) -> psi_exec (mPsi p) (psi_op_of uri st) = Done s' ->
  exists p', exec_step uri p st = Done p' /\ mPsi p' = s' /\ playing (mTsbConsumer p') /\
    mActiveUris p' = mActiveUris p /\
    exists l, published (psi s') = published (psi (mPsi p)) ++ l /\ mCurrentConfig p' = fold_left newer l (mCurrentConfig p).
Proof.
  assert (Hgrown : forall a b, grows a b -> exists l, published b = published a ++ l).
  { intros a b [l Hl]; eexists; unfold published; by rewrite Hl, omap_app. }
  intros Hp; destruct st as [ck t chunk|junk]; cbn [psi_op_of psi_exec exec_step deliver]; intros Hs.
  - destruct (playing_post (mTsbConsumer p) chunk t (t_pause ck) Hp) as (tsb & -> & Hp'); rewrite bind_Done; cbn [channel_of].
    rewrite bind_Done; set (p1 := tsb_done tsb p).
    assert (H1 : mPsi p1 = mPsi p /\ mTsbConsumer p1 = tsb /\ mActiveUris p1 = mActiveUris p /\ mCurrentConfig p1 = mCurrentConfig p)
      by (unfold p1; rewrite tsb_kept; unfold tsb_done; by rewrite !fold_frame).
    destruct H1 as (Hm & Ht & Hu & Hc); rewrite Hm, Hs, bind_Done; eexists; split; [done|].
    rewrite psi_kept, psi_tsb, psi_uris, Ht, Hu; split_and!; try done.
    pose proof (wp_done_inv _ _ _ _ (post_psi _ _ _) Hs) as Hpsi; exists []; rewrite Hpsi, app_nil_r; split; [done|].
    rewrite <- Hc; apply psi_config; rewrite Hm, Hpsi; [by rewrite app_nil_r|by apply grows_same].
  - pose proof (wp_done_inv _ _ _ _ (thread_step_grows _ _) Hs) as Hg; unfold psi_thread; rewrite Hs, bind_Done.
    eexists; split; [done|]; rewrite psi_kept, psi_tsb, psi_uris; split_and!; try done.
    destruct (Hgrown _ _ Hg) as [l Hl]; exists l; split; [done|]; by apply psi_config.
Qed.

Lemma exec_steps_psi uri l p s' : playing (mTsbConsumer p) -> psi_run (mPsi p) (map (psi_op_of uri) l) = Done s' ->
  exists p', exec_steps uri p l = Done p' /\ mPsi p' = s' /\ mActiveUris p' = mActiveUris p /\
    exists vs, published (psi s') = published (psi (mPsi p)) ++ vs /\ mCurrentConfig p' = fold_left newer vs (mCurrentConfig p).
Proof.
  revert p; induction l as [|st l IH]; intros p Hp; cbn [map psi_run exec_steps].
  - intros [= <-]; exists p; split_and!; try done; exists []; by rewrite app_nil_r.
  - intros (s1 & Hs & Hr)%bind_done_inv.
    destruct (exec_step_psi uri p st s1 Hp Hs) as (p1 & -> & <- & Hp1 & Hu1 & vs1 & Hv1 & Hc1); rewrite bind_Done.
    destruct (IH p1 Hp1 Hr) as (p' & -> & Hm & Hu & vs & Hv & Hc); exists p'; split_and!; [done|done|by rewrite Hu, Hu1|].
    exists (vs1 ++ vs); by rewrite Hv, Hv1, <- app_assoc, Hc, Hc1, fold_left_app.
Qed.

(** * The file *)

Lemma drm_value handle b p : getConfigValue sw_version pid handle CONFIG_F_PROTECTION_INFO b p = Done (ProtectionInfo_read p, p).
Proof. done. Qed.

(** What an application reads from drm0, however large its buffer is. *)
Lemma drm_read handle sz p : mActiveUris p = available_channels_g -> 0 < sz < 2147483648 ->
  zlen (ProtectionInfo_read p) < 2147483648 ->
  read_file sw_version pid arch_x86_64 (S (length (ProtectionInfo_read p))) handle CONFIG_F_PROTECTION_INFO sz 0 p =
  Done (ProtectionInfo_read p, p).
Proof.
  intros Hu Hsz Hl; rewrite (read_file_from _ _ _ _ _ _ _ _ (ProtectionInfo_read p)), zdrop_0; try done.
  - unfold set_find; rewrite Hu; apply bool_decide_eq_false_2, (bool_decide_unpack _); by vm_compute.
  - unfold zlen in *; lia.
Qed.

(** * An encrypted channel *)

Definition step_ok (st : stream_step) : Prop :=
  match st with
  | Chunk _ _ chunk => zlen chunk = BUFFER_CHUNK_SIZE
  | Round junk => junk_ok junk
  end.

Definition chunks (l : list stream_step) : list buffer_chunk :=
  omap (fun st => match st with Chunk _ _ chunk => Some chunk | Round _ => None end) l.

Lemma ops_of_steps uri l : Forall step_ok l ->
  Forall (stream_op (String.string_of_list_ascii uri)) (map (psi_op_of uri) l) /\ posted (map (psi_op_of uri) l) = chunks l.
Proof.
  induction 1 as [|st l Hst _ [IH1 IH2]]; [by split|].
  split; [constructor; [by destruct st|done]|]; destruct st; cbn; [f_equal|]; exact IH2.
Qed.

Lemma high_wins c v : confidence v = HIGH -> newer c v = v.
Proof. unfold newer; intros ->; destruct (confidence c); done. Qed.

Lemma channel_shown uri p st patPacket pmtPacket table stream tail steps :
  playing (mTsbConsumer p) -> ready (mPsi p) -> psi (mPsi p) = onOpen_state st ->
  encrypted_channel (mOpid st) patPacket pmtPacket table stream -> Forall synced stream ->
  zlen tail < TS_PACKAGE_SIZE -> Forall step_ok steps -> concat (chunks steps) = concat stream ++ tail ->
  exists p', exec_steps uri p steps = Done p' /\ mActiveUris p' = mActiveUris p /\
    (q_items (mQueue (mPsi p')) = [] -> exists pat pmt, copy_of patPacket pat /\ copy_of pmtPacket pmt /\
       mCurrentConfig p' = mkStreamProtectionConfig HIGH (String.string_of_list_ascii uri) table pat pmt false).
Proof.
  intros Hpl Hready Hpsi Hch Hsync Htail Hsteps Hall; set (channel := String.string_of_list_ascii uri).
  destruct (ops_of_steps uri steps Hsteps) as [Hops Hposted]; rewrite <- Hposted in Hall.
  destruct (encrypted_run channel _ _ _ _ _ st Hch Hsync Htail (mPsi p) _ Hready Hpsi Hops Hall) as (s' & Hrun & Hf).
  destruct (exec_steps_psi uri steps p s' Hpl Hrun) as (p' & He & <- & Hu & vs & Hvs & Hc).
  exists p'; split; [done|split; [done|]]; intros Hempty.
  destruct (encrypted_end channel _ _ _ _ _ st Hch Hsync _ _ Hf Hall Hempty) as (pat & pmt & Hpat & Hpmt & Hpub).
  exists pat, pmt; split_and!; [done|done|]; rewrite Hpub, Hpsi in Hvs; apply app_inv_head in Hvs as <-.
  by rewrite Hc; cbn [fold_left]; rewrite high_wins.
Qed.

(** A reader of [text] gets the channel, whether it is clear, and the tables. *)
Definition decodes_to (pow10 : Z -> spec_float) (t uri : text) (clear : bool) (ecm pat pmt : list Z) : Prop :=
  exists obj, Load pow10 t = Done obj /\ (json_key obj kCHANNEL).1 = JString uri /\
    ToBool (json_key obj kCLEAR).1 = (clear, true) /\
    (exists s, (json_key obj kECM).1 = JString s /\ unhex s = ecm) /\
    (exists s, (json_key obj kPAT).1 = JString s /\ unhex s = pat) /\
    (exists s, (json_key obj kPMT).1 = JString s /\ unhex s = pmt).

Lemma config_decodes pow10 uri p ecm pat pmt clear confidence : Forall (fun x => x <> NUL) uri ->
  is_bytes ecm -> is_bytes pat -> is_bytes pmt ->
  mCurrentConfig p = mkStreamProtectionConfig confidence (String.string_of_list_ascii uri) ecm pat pmt clear ->
  decodes_to pow10 (ProtectionInfo_read p) (unblank uri) clear ecm pat pmt.
Proof.
  intros Hn He Ha Hm Hc; unfold ProtectionInfo_read; rewrite Hc.
  pose proof (String.list_ascii_of_string_of_list_ascii uri) as Hu.
  destruct (export_decodes pow10 (mkStreamProtectionConfig confidence (String.string_of_list_ascii uri) ecm pat pmt clear))
    as (obj & Hl & Hch & Hcl & Hec & Hpa & Hpm); try done; [unfold text_of; cbn; by rewrite Hu..|].
  exists obj; split_and!; try done; rewrite Hch; unfold text_of; cbn; by rewrite Hu.
Qed.

End channel.
