(* ===== verification/PluginStream.v ===== *)
(** The file of the stream: what an application reads from it, while the media source handler
    posts chunks, the threads of the PSI parser and of the watchdog run, other applications read
    and the player pauses and plays. *)

From S2P Require Import Prelude Interfaces Json StdString Regex ChannelConfig BufferIndexer Watchdog TimeShift TimeShiftProps TimeShiftStream ProtectionExport PsiParser PsiReach BufferQueue MediaSource SourceQueue CallbackHandler ConfigOptions Plugin PluginProps PluginChannel.

Section stream_file.
Context {cfg : StreamfsConfig} {cb q : Type -> Type} {CB : CircularBuffer cb}.
Context {Q : LockfreeQueue q} {QL : LockfreeQueueLaws q}.
Context {pool : Type} {RB : RingBuffer pool} {RBL : RingBufferLaws pool}.
Context {RBB : RingBufferBytes pool} {RBBL : RingBufferBytesLaws pool}.
Context {D : Type} {DX : Demuxer D} {H : Type} {CH : CallbackHandler H} {dirt : Dirt}.
Context {Rx : BoostRegex} {Tl : BoostToLower} {Ia : InetAton} {Hx : BoostHex} {St : BoostStringAlgo}.
Context (sw_version : text) (pid : Z) (arch_x86_64 : bool).
Local Abbreviation plugin := (FCCPlugin D cb q pool H).
Implicit Types p : plugin.

(** * Events of the media source handler *)

(** A handle that is open, on a stream that is open. *)
Record reader (h : Z) (s : TimeShiftBufferConsumer cb pool) : Prop := {
  re_streaming : streaming s;
  re_open : is_Some (mHandles s !! h);
  re_offsets : offsets_ok s;
}.

Lemma moves_reader h s new data s' : moves h s new data s' -> reader h s'.
Proof. by intros (? & ? & ? & _). Qed.

Lemma psi_post_done (s : PSIParser cb q) channel chunk : exists s', PsiParser.post s channel chunk = Done s'.
Proof.
  unfold PsiParser.post; destruct channel as [c|]; [|by eexists].
  destruct (decide _); [|rewrite bind_Done; case_if; by eexists].
  match goal with |- context [clearQueue ?x] => destruct (clearQueue_ok x) as (qu & -> & _) end.
  rewrite !bind_Done; case_if; by eexists.
Qed.

Lemma tsb_uris s p : mActiveUris (tsb_done s p) = mActiveUris p.
Proof. unfold tsb_done; by rewrite fold_frame. Qed.

(** What steps leave alone. *)
Definition same_files p p' : Prop := mMediaSource p' = mMediaSource p /\ mActiveUris p' = mActiveUris p.

(** The player that reads by [h] keeps its position whenever a chunk of the events is posted in a
    pause for which the watchdog has expired. *)
Definition event_kept (h : Z) (ck : clocks) (t : Z) (e : source_event) p : Prop :=
  match e with Post _ chunk => kept_up h chunk t (t_pause ck) (mTsbConsumer p) | _ => True end.

Fixpoint events_kept (h : Z) (ck : clocks) (t : Z) (es : list source_event) p : Prop :=
  match es with
  | [] => True
  | e :: es => event_kept h ck t e p /\
    match deliver ck t e p with Done p => events_kept h ck t es p | Stop _ => True end
  end.

(** The same as tests. *)
Definition event_kept_b (h : Z) (ck : clocks) (t : Z) (e : source_event) p : bool :=
  match e with Post _ chunk => kept_up_b h chunk t (t_pause ck) (mTsbConsumer p) | _ => true end.

Fixpoint events_kept_b (h : Z) (ck : clocks) (t : Z) (es : list source_event) p : bool :=
  match es with
  | [] => true
  | e :: es => event_kept_b h ck t e p &&
    match deliver ck t e p with Done p => events_kept_b h ck t es p | Stop _ => true end
  end.

Lemma events_kept_b_sound h ck t es p : events_kept_b h ck t es p = true -> events_kept h ck t es p.
Proof.
  revert p; induction es as [|e es IH]; intros p; cbn [events_kept_b events_kept]; [done|].
  intros [He Hes]%andb_true_iff; split; [destruct e; try done; by apply kept_up_b_sound|].
  destruct (deliver ck t e p); [by apply IH|done].
Qed.

(** The parser reads the [channelInfo] of a chunk. *)
Lemma deliver_quiet h ck t e p : reader h (mTsbConsumer p) -> event_kept h ck t e p -> quiet_event e ->
  wp (fun e => e = Ub /\ dirty) (deliver ck t e p) (fun p' => same_files p p' /\
    moves h (mTsbConsumer p) (event_bytes e) [] (mTsbConsumer p')).
Proof.
  intros [Hs Hh Hoff] Hk He; destruct e as [| | |channel chunk| | |value]; try done; cbn [deliver event_bytes].
  - destruct He as [Hc Hz]; destruct (post_moves h chunk t (t_pause ck) _ Hs Hh Hoff (conj Hz Hk)) as (s' & -> & Hm).
    rewrite bind_Done; destruct (channel_of channel) as [c|e] eqn:Ech; [|destruct channel; try done; injection Ech as <-; by split; [|apply Hc]].
    rewrite bind_Done; destruct (psi_post_done (mPsi (tsb_done s' p)) c chunk) as [u ->]; rewrite bind_Done.
    unfold same_files; cbn [wp]; by rewrite psi_source, psi_uris, psi_tsb, tsb_source, tsb_uris, tsb_kept.
  - split; [done|by apply moves_refl].
  - split; [done|by apply moves_refl].
  - split; [done|by apply moves_refl].
Qed.

Lemma deliver_all_quiet h ck t es p : reader h (mTsbConsumer p) -> events_kept h ck t es p -> Forall quiet_event es ->
  wp (fun e => e = Ub /\ dirty) (deliver_all ck t es p) (fun p' => same_files p p' /\
    moves h (mTsbConsumer p) (concat (event_bytes <$> es)) [] (mTsbConsumer p')).
Proof.
  intros Hr Hk Hes; revert p Hr Hk; induction Hes as [|e es He _ IH]; intros p Hr Hk; cbn [deliver_all].
  - destruct Hr; split; [done|by apply moves_refl].
  - destruct Hk as [Hke Hkes]; pose proof (deliver_quiet h ck t e p Hr Hke He) as Hd.
    destruct (deliver ck t e p) as [p1|x]; cbn [wp mbind outcome_bind] in Hd |- *; [|done]; destruct Hd as [[Hs1 Hu1] Hm1].
    eapply wp_mono; [exact (IH p1 (moves_reader _ _ _ _ _ Hm1) Hkes)|]; intros p' _ [[Hs2 Hu2] Hm2].
    split; [split; by rewrite ?Hs2, ?Hu2|exact (moves_trans _ _ _ _ _ _ _ _ Hm1 Hm2)].
Qed.

(** The handler after a call during which nothing but such events came. *)
Lemma source_done_quiet h ck t s p new : reader h (mTsbConsumer p) ->
  events_kept h ck t new (p <| mMediaSource := s |>) ->
  MediaSource.events s = MediaSource.events (mMediaSource p) ++ new -> Forall quiet_event new ->
  wp (fun e => e = Ub /\ dirty) (source_done ck t s p) (fun p' => mMediaSource p' = s /\ mActiveUris p' = mActiveUris p /\
    moves h (mTsbConsumer p) (concat (event_bytes <$> new)) [] (mTsbConsumer p')).
Proof.
  intros Hr Hk He Hq; unfold source_done; rewrite He, drop_app_length; set (p0 := p <| mMediaSource := s |>) in *.
  eapply wp_mono; [exact (deliver_all_quiet h ck t new p0 Hr Hk Hq)|]; by intros p' _ [[Hs Hu] Hm].
Qed.

(** * Applications and the other threads *)

(** A round of the parser, a read from the stream, the player's state written, a step of the
    watchdog, and the end of a handle. *)
Inductive app_step :=
| AppRound (junk : nat -> list Z)
| AppRead (handle sz offset : Z)
| AppState (ck : clocks) (buf : text)
| AppWatchdog
| AppRelease (handle : Z).

(** With a step comes what [h] has read. *)
Definition app_exec (h : Z) (st : app_step) p : outcome (text * plugin) :=
  match st with
  | AppRound junk => p ← psi_thread junk p; Done ([], p)
  | AppRead handle sz offset =>
    '(_, bytes, p) ← plugin_read sw_version pid arch_x86_64 handle STREAM_SRC_FILE sz offset p;
    Done (if handle =? h then bytes else [], p)
  | AppState ck buf => '(_, p) ← plugin_write ck CONFIG_F_PLAYER_STATE buf 0 p; Done ([], p)
  | AppWatchdog => Done ([], tsb_done (default (mTsbConsumer p) (watchdog_runs (mTsbConsumer p))) p)
  | AppRelease handle => Done ([], (plugin_release handle STREAM_SRC_FILE p).2)
  end.

(** The file footer of the x86 build is behind all offsets that are read. *)
Definition app_fine (h : Z) (st : app_step) p : Prop :=
  match st with
  | AppRead handle sz offset => 0 <= sz /\ (handle = h ->
      oldest (mRingBufferPool (mTsbConsumer p)) <= read_position (mTsbConsumer p) h /\
      zlen (stored (mRingBufferPool (mTsbConsumer p))) < 18446744073709551616 /\
      (arch_x86_64 = true -> offset <= INT64_MAX - TS_FILE_FOOTER_BYTES))
  | AppRelease handle => handle <> h
  | _ => True
  end.

(** The same as a test. *)
Definition app_fine_b (h : Z) (st : app_step) p : bool :=
  match st with
  | AppRead handle sz offset => (0 <=? sz) && (negb (handle =? h) ||
      ((oldest (mRingBufferPool (mTsbConsumer p)) <=? read_position (mTsbConsumer p) h) &&
       (zlen (stored (mRingBufferPool (mTsbConsumer p))) <? 18446744073709551616) &&
       (negb arch_x86_64 || (offset <=? INT64_MAX - TS_FILE_FOOTER_BYTES))))
  | AppRelease handle => negb (handle =? h)
  | _ => true
  end.

Lemma app_fine_b_sound h st p : app_fine_b h st p = true -> app_fine h st p.
Proof.
  destruct st as [junk|h' sz offset|ck buf| |h']; cbn [app_fine_b app_fine]; intros Hb; b2p; try done.
  split; [lia|]; intros ->; rewrite Z.eqb_refl in *; cbn [negb orb] in *; b2p; split_and!; [lia..|].
  intros Ha; rewrite Ha in *; cbn [negb orb] in *; lia.
Qed.

Definition is_round (st : app_step) : Prop := match st with AppRound _ => True | _ => False end.

(** The stream file exists, and its channel is active. *)
Definition file_open p : Prop :=
  set_find STREAM_SRC_FILE (mActiveUris p) = true /\ isChannelActive (mMediaSource p) = true.

(** What a step of the applications does. *)
Definition app_done (h : Z) p (r : text * plugin) : Prop :=
  exists data, r.1 = as_text data /\ same_files p r.2 /\ moves h (mTsbConsumer p) [] data (mTsbConsumer r.2).

(** A read of [h], which opens it if it is not open. *)
Lemma app_read_moves h sz offset p : streaming (mTsbConsumer p) -> offsets_ok (mTsbConsumer p) -> file_open p ->
  app_fine h (AppRead h sz offset) p -> exists r, app_exec h (AppRead h sz offset) p = Done r /\ app_done h p r.
Proof.
  intros Hs Hoff [Hu Hc] [Hsz Hf]; destruct (Hf eq_refl) as (Hold & Hlen & Harch); cbn [app_exec]; unfold plugin_read.
  rewrite Hu, Hc; pose proof (read_moves h sz _ Hs Hoff Hsz Hold Hlen) as Hm.
  destruct (readData (mTsbConsumer p) h sz) as [data s]; cbn [fst snd] in Hm; cbv zeta.
  assert ((arch_x86_64 && (s32 (zlen data) =? 0) && (INT64_MAX - TS_FILE_FOOTER_BYTES <? offset))%bool = false) as ->.
  { destruct arch_x86_64; [|done]; specialize (Harch eq_refl); cbn [andb]; apply andb_false_intro2; lia. }
  rewrite bind_Done, Z.eqb_refl; eexists; split; [done|]; exists data; split; [done|]; unfold same_files; cbn [snd].
  by rewrite tsb_source, tsb_uris, tsb_kept.
Qed.

Lemma app_other_read h h' sz offset p : reader h (mTsbConsumer p) -> file_open p -> h' <> h ->
  exists r, app_exec h (AppRead h' sz offset) p = Done r /\ app_done h p r.
Proof.
  intros [Hs Hh Hoff] [Hu Hc] Hne; cbn [app_exec]; unfold plugin_read.
  rewrite Hu, Hc; pose proof (other_moves h h' sz _ Hs Hh Hoff Hne) as Hm.
  destruct (readData (mTsbConsumer p) h' sz) as [data s]; cbn [snd] in Hm; cbv zeta.
  match goal with |- context [if ?b then Done _ else _] => destruct b end; rewrite bind_Done, (proj2 (Z.eqb_neq _ _) Hne); eexists; (split; [done|]); exists []; (split; [done|]);
    unfold same_files; cbn [snd]; by rewrite tsb_source, tsb_uris, tsb_kept.
Qed.

Lemma app_tsb h p s : moves h (mTsbConsumer p) [] [] s -> app_done h p ([], tsb_done s p).
Proof. exists []; split; [done|]; unfold same_files; cbn [snd]; by rewrite tsb_source, tsb_uris, tsb_kept. Qed.

Lemma app_moves h st p : reader h (mTsbConsumer p) -> file_open p -> app_fine h st p ->
  wp (fun _ => is_round st) (app_exec h st p) (app_done h p).
Proof.
  intros Hr Hf Hfine; pose proof Hr as [Hs Hh Hoff]; destruct st as [junk|h' sz offset|ck buf| |h'].
  - cbn [app_exec]; unfold psi_thread; destruct (thread_step (mPsi p) junk) as [s|e]; [|done]; rewrite bind_Done.
    exists []; split; [done|]; unfold same_files; cbn [snd]; rewrite psi_source, psi_uris, psi_tsb.
    split; [done|by apply moves_refl].
  - destruct (decide (h' = h)) as [->|Hne].
    + destruct (app_read_moves h sz offset p Hs Hoff Hf Hfine) as (r & -> & Hd); exact Hd.
    + destruct (app_other_read h h' sz offset p Hr Hf Hne) as (r & -> & Hd); exact Hd.
  - cbn [app_exec]; unfold plugin_write; change (negb (0 =? 0)) with false; cbv iota.
    replace (targetToConfigHandler CONFIG_F_PLAYER_STATE) with (Some PLAYER_STATE) by (vm_compute; reflexivity).
    cbn [writeConfig]; unfold PlayerState_write.
    assert (Hnone : app_done h p ([], p)) by (exists []; split_and!; [done|done|by apply moves_refl]).
    destruct (PlayerStateEnum_of_text buf) as [[] [state|] ?]; try (rewrite bind_Done; exact Hnone).
    destruct (state_moves h state _ Hs Hh Hoff) as (s & -> & Hm); rewrite !bind_Done; by apply app_tsb.
  - apply app_tsb, same_moves; try done; unfold watchdog_runs; by destruct (watchdog_thread _).
  - cbn [app_exec]; unfold plugin_release; cbv zeta; set (p1 := match mStreamOpenCounters p !! _ with Some _ => _ | None => _ end).
    assert (H1 : same_files p p1 /\ mTsbConsumer p1 = mTsbConsumer p) by (unfold p1; by destruct (mStreamOpenCounters p !! _)).
    destruct H1 as [[H1 H2] H3], Hf as [Hu _]; rewrite H2, Hu; cbn [negb snd wp].
    destruct (app_tsb h p1 (release (mTsbConsumer p1) h')) as (data & Hd & [E1 E2] & Hm).
    + rewrite H3; by apply release_moves.
    + exists data; split; [done|]; unfold same_files; rewrite E1, E2, H1, H2, <- H3; by split.
Qed.

End stream_file.
