(* ===== verification/StreamBox.v ===== *)
(** The plugin and the threads that bring its data, for any of them: what an application reads
    from the file of the stream is what the media source handler has posted. The threads are an
    interface, which the HTTP demuxer and the multicast listeners implement. *)

From S2P Require Import Prelude Interfaces Json StdString Regex ChannelConfig BufferIndexer Watchdog TimeShift TimeShiftProps TimeShiftStream ProtectionExport PsiParser BufferQueue MediaSource SourceData SourceQueue CallbackHandler ConfigOptions Plugin PluginProps PluginStream.

(** Threads around a media source handler: [P] is what they have in memory, the handler included,
    [Op] a step of one of them. The invariant has as an argument what is implied by a buffer
    whose [channelInfo] was never written. *)
Class Pipeline (D P Op : Type) := {
  pl_source : P -> MediaSourceHandler D;
  pl_with : MediaSourceHandler D -> P -> P;
  pl_exec : Op -> P -> outcome P;
  pl_inv : Dirt -> P -> Prop;
  pl_fine : Op -> P -> Prop;
}.

(** A step waits, or uses a [channelInfo] that was never written, or keeps the invariant and the
    channel and adds events. *)
Class PipelineLaws (D P Op : Type) `{Pipeline D P Op} {cfg : StreamfsConfig} : Prop := {
  pl_source_with : forall s p, pl_source (pl_with s p) = s;
  pl_with_source : forall p, pl_with (pl_source p) p = p;
  pl_step : forall (dirt : Dirt) op p, pl_inv dirt p -> pl_fine op p ->
    wp may_stop (pl_exec op p) (fun p' => pl_inv dirt p' /\ adds (pl_source p) (pl_source p'));
}.

Section box.
Context {cfg : StreamfsConfig} {cb q : Type -> Type} {CB : CircularBuffer cb}.
Context {Q : LockfreeQueue q} {QL : LockfreeQueueLaws q}.
Context {pool : Type} {RB : RingBuffer pool} {RBL : RingBufferLaws pool}.
Context {RBB : RingBufferBytes pool} {RBBL : RingBufferBytesLaws pool}.
Context {H : Type} {CH : CallbackHandler H} {D P Op : Type} {DX : Demuxer D} {PL : Pipeline D P Op} {PLL : PipelineLaws D P Op}.
Context {Rx : BoostRegex} {Tl : BoostToLower} {Ia : InetAton} {Hx : BoostHex} {St : BoostStringAlgo}.
Context (sw_version : text) (pid : Z) (arch_x86_64 : bool).
Local Abbreviation plugin := (FCCPlugin D cb q pool H).

(** The plugin and the locals of the threads of its media source handler, whose state is the
    plugin's. *)
Record box := mkBox { b_plugin : plugin; b_pipe : P }.

Definition pipe_of (b : box) : P := pl_with (mMediaSource (b_plugin b)) (b_pipe b).
Definition box_tsb (b : box) : TimeShiftBufferConsumer cb pool := mTsbConsumer (b_plugin b).

Lemma pipe_of_source b : pl_source (pipe_of b) = mMediaSource (b_plugin b).
Proof. apply pl_source_with. Qed.

(** A step of the threads that bring the data, or of an application or another thread. *)
Inductive box_op :=
| BPipe (ck : clocks) (t : Z) (op : Op)
| BApp (st : app_step).

Definition box_exec (h : Z) (op : box_op) (b : box) : outcome (text * box) :=
  match op with
  | BPipe ck t op =>
    pl ← pl_exec op (pipe_of b);
    p ← source_done ck t (pl_source pl) (b_plugin b);
    Done ([], mkBox p pl)
  | BApp st =>
    '(out, p) ← app_exec sw_version pid arch_x86_64 h st (b_plugin b);
    Done (out, mkBox p (b_pipe b))
  end.

(** A step that would wait is skipped. *)
Fixpoint box_run (h : Z) (ops : list box_op) (b : box) : outcome (text * box) :=
  match ops with
  | [] => Done ([], b)
  | op :: ops =>
    '(out, b) ← match box_exec h op b with Stop Blocked => Done ([], b) | r => r end;
    '(rest, b) ← box_run h ops b;
    Done (out ++ rest, b)
  end.

(** The events of a step of the threads. *)
Definition new_events (b : box) (pl : P) : list source_event :=
  drop (length (events (mMediaSource (b_plugin b)))) (events (pl_source pl)).

(** The channel stays, and the player that reads by [h] is not left behind. *)
Definition box_op_fine (h : Z) (op : box_op) (b : box) : Prop :=
  match op with
  | BPipe ck t op => pl_fine op (pipe_of b) /\
    match pl_exec op (pipe_of b) with
    | Done pl => events_kept h ck t (new_events b pl) ((b_plugin b) <| mMediaSource := pl_source pl |>)
    | Stop _ => True
    end
  | BApp st => app_fine arch_x86_64 h st (b_plugin b)
  end.

Fixpoint box_fine (h : Z) (ops : list box_op) (b : box) : Prop :=
  match ops with
  | [] => True
  | op :: ops => box_op_fine h op b /\
    match box_exec h op b with
    | Done (_, b') => box_fine h ops b'
    | Stop Blocked => box_fine h ops b
    | Stop _ => True
    end
  end.

(** The same as a test, with one for the steps of the threads. *)
Fixpoint box_fine_b (fine_b : Op -> bool) (h : Z) (ops : list box_op) (b : box) : bool :=
  match ops with
  | [] => true
  | op :: ops =>
    match op with
    | BPipe ck t op => fine_b op &&
      match pl_exec op (pipe_of b) with
      | Done pl => events_kept_b h ck t (new_events b pl) ((b_plugin b) <| mMediaSource := pl_source pl |>)
      | Stop _ => true
      end
    | BApp st => app_fine_b arch_x86_64 h st (b_plugin b)
    end &&
    match box_exec h op b with
    | Done (_, b') => box_fine_b fine_b h ops b'
    | Stop Blocked => box_fine_b fine_b h ops b
    | Stop _ => true
    end
  end.

Lemma box_fine_b_sound fine_b h ops b : (forall op p, fine_b op = true -> pl_fine op p) ->
  box_fine_b fine_b h ops b = true -> box_fine h ops b.
Proof.
  intros Hfine; revert b; induction ops as [|op ops IH]; intros b; cbn [box_fine_b box_fine]; [done|].
  intros [Hop Hops]%andb_true_iff; split.
  - destruct op as [ck t op|st]; cbn [box_op_fine] in *; [|by apply app_fine_b_sound].
    apply andb_true_iff in Hop as [Ho Ha]; split; [by apply Hfine|].
    destruct (pl_exec op (pipe_of b)); [by apply events_kept_b_sound|done].
  - destruct (box_exec h op b) as [[out b']|[]]; auto.
Qed.

Definition has_round (op : box_op) : Prop := match op with BApp st => is_round st | BPipe _ _ _ => False end.

Record box_ok (dirt : Dirt) (b : box) : Prop := {
  bx_pipe : pl_inv dirt (pipe_of b);
  bx_file : file_open (b_plugin b);
}.

Context {dirt : Dirt}.

(** The same bytes are new in the time shift buffer and among the chunks posted. *)
Definition box_moves (h : Z) (b : box) (out : text) (b' : box) : Prop :=
  box_ok dirt b' /\ exists new data, out = as_text data /\ moves h (box_tsb b) new data (box_tsb b') /\
    concat (posted_chunks (mMediaSource (b_plugin b'))) = concat (posted_chunks (mMediaSource (b_plugin b))) ++ new.

Lemma box_moves_trans h b b1 b2 out1 out2 : box_moves h b out1 b1 -> box_moves h b1 out2 b2 ->
  box_moves h b (out1 ++ out2) b2.
Proof.
  intros (_ & n1 & d1 & -> & M1 & P1) (Hb & n2 & d2 & -> & M2 & P2); split; [done|].
  exists (n1 ++ n2), (d1 ++ d2); split; [symmetry; apply map_app|split; [by eapply moves_trans|]].
  by rewrite P2, P1, app_assoc.
Qed.

Lemma box_app_done h b out p : box_ok dirt b -> app_done h (b_plugin b) (out, p) ->
  box_moves h b out (mkBox p (b_pipe b)).
Proof.
  intros [Hp Hf] (data & E & [Hs Hu] & Hm); cbn [fst snd] in *; subst out; split.
  - split; unfold pipe_of, file_open in *; cbn [b_plugin b_pipe]; by rewrite ?Hs, ?Hu.
  - exists [], data; split; [done|split; [done|]]; cbn [b_plugin]; by rewrite Hs, app_nil_r.
Qed.

Lemma box_pipe_step h ck t op b : box_ok dirt b -> reader h (box_tsb b) -> box_op_fine h (BPipe ck t op) b ->
  wp may_stop (box_exec h (BPipe ck t op) b) (fun '(out, b') => box_moves h b out b').
Proof.
  intros [Hp Hf] Hr (Hok & Hk); cbn [box_exec]; pose proof (pl_step dirt op (pipe_of b) Hp Hok) as Hi.
  destruct (pl_exec op (pipe_of b)) as [pl|e]; cbn [wp] in Hi; [|done]; rewrite bind_Done.
  destruct Hi as (Hi & (new & Hev & Hq) & Hc & Hu); rewrite pipe_of_source in Hev, Hc, Hu.
  unfold new_events in Hk; rewrite Hev, drop_app_length in Hk.
  pose proof (source_done_quiet h ck t (pl_source pl) (b_plugin b) new Hr Hk Hev Hq) as Hd.
  destruct (source_done ck t (pl_source pl) (b_plugin b)) as [p|e]; cbn [wp mbind outcome_bind] in Hd |- *; [|by right].
  destruct Hd as (Hm & Hur & Hmv); split.
  - split; unfold pipe_of, file_open in *; cbn [b_plugin b_pipe].
    + by rewrite Hm, pl_with_source.
    + rewrite Hur, Hm; destruct Hf as [Hf1 Hf2]; split; [done|]; unfold isChannelActive in *; by rewrite Hc, Hu.
  - exists (concat (event_bytes <$> new)), []; split; [done|split; [done|]]; cbn [b_plugin]; rewrite Hm.
    by apply posted_added.
Qed.

Lemma box_step h op b : box_ok dirt b -> reader h (box_tsb b) -> box_op_fine h op b ->
  wp (fun e => may_stop e \/ has_round op) (box_exec h op b) (fun '(out, b') => box_moves h b out b').
Proof.
  intros Hb Hr Hf; destruct op as [ck t op|st].
  - pose proof (box_pipe_step h ck t op b Hb Hr Hf) as Hs.
    destruct (box_exec h (BPipe ck t op) b) as [r|e]; [exact Hs|by left].
  - cbn [box_exec box_op_fine] in *; pose proof (app_moves sw_version pid arch_x86_64 h st _ Hr (bx_file _ _ Hb) Hf) as Hm.
    destruct (app_exec _ _ _ h st (b_plugin b)) as [[out p]|e]; cbn [wp] in Hm; [|by right].
    by apply box_app_done.
Qed.

(** What can stop a run: a round of the parser, and a [channelInfo] that was never written. *)
Definition box_stops (ops : list box_op) (e : stop) : Prop := Exists has_round ops \/ (e = Ub /\ dirty).

Lemma box_run_moves h ops b : box_ok dirt b -> reader h (box_tsb b) -> box_fine h ops b ->
  wp (box_stops ops) (box_run h ops b) (fun '(out, b') => box_moves h b out b').
Proof.
  revert b; induction ops as [|op ops IH]; intros b Hb Hr Hf; cbn [box_run].
  - split; [done|]; exists [], []; destruct Hr; split; [done|split; [by apply moves_refl|by rewrite app_nil_r]].
  - destruct Hf as [Hop Hops]; pose proof (box_step h op b Hb Hr Hop) as Hs.
    assert (Hrest : forall out b1, box_moves h b out b1 -> box_fine h ops b1 ->
      wp (box_stops (op :: ops)) ('(rest, b2) ← box_run h ops b1; Done (out ++ rest, b2))
        (fun '(o, b') => box_moves h b o b')).
    { intros out b1 Hm Hf1; pose proof Hm as (Hb1 & n & d & _ & M & _); pose proof (moves_reader _ _ _ _ _ M) as Hr1.
      specialize (IH b1 Hb1 Hr1 Hf1); destruct (box_run h ops b1) as [[rest b2]|e]; cbn [wp mbind outcome_bind] in *.
      - by eapply box_moves_trans.
      - destruct IH as [IH|IH]; [left; by apply Exists_cons_tl|by right]. }
    destruct (box_exec h op b) as [[out b1]|e]; cbn [wp] in Hs.
    + rewrite bind_Done; by apply Hrest.
    + destruct (decide (e = Blocked)) as [->|Hne].
      * rewrite bind_Done; apply Hrest; [|done]; split; [done|]; exists [], [].
        destruct Hr; split; [done|split; [by apply moves_refl|by rewrite app_nil_r]].
      * destruct Hs as [[Hs|Hs]|Hs]; [done|destruct Hs as [-> Hd]; by right|]; destruct e; try done; left; by apply Exists_cons_hd.
Qed.

(** The reads of a handle from its first one on. *)
Lemma box_file h sz offset ops b : box_ok dirt b -> streaming (box_tsb b) -> offsets_ok (box_tsb b) ->
  getTotalBufferByteCount (box_tsb b) = zlen (stored (mRingBufferPool (box_tsb b))) ->
  box_fine h (BApp (AppRead h sz offset) :: ops) b ->
  wp (box_stops ops) (box_run h (BApp (AppRead h sz offset) :: ops) b) (fun '(out, b') =>
    box_ok dirt b' /\ exists new data, out = as_text data /\
      data `prefix_of` zdrop (read_position (box_tsb b) h) (stored (mRingBufferPool (box_tsb b)) ++ new) /\
      concat (posted_chunks (mMediaSource (b_plugin b'))) = concat (posted_chunks (mMediaSource (b_plugin b))) ++ new /\
      (mHandles (box_tsb b) !! h = None -> mSeekByteOffset (box_tsb b) = 0 -> data `prefix_of` new)).
Proof.
  intros Hb Hs Hoff Hcount [Hf Hops]; cbn [box_run box_exec] in *.
  destruct (app_read_moves sw_version pid arch_x86_64 h sz offset _ Hs Hoff (bx_file _ _ Hb) Hf) as ([out p] & He & Hd).
  rewrite He in *; cbn [mbind outcome_bind] in *; pose proof (box_app_done h b out p Hb Hd) as Hm.
  pose proof Hm as (Hb1 & n & d & _ & M & _); pose proof (moves_reader _ _ _ _ _ M) as Hr1.
  pose proof (box_run_moves h ops _ Hb1 Hr1 Hops) as Hrun.
  destruct (box_run h ops _) as [[rest b']|e]; cbn [wp] in *; [|done].
  destruct (box_moves_trans _ _ _ _ _ _ Hm Hrun) as (Hb' & new & data & Hout & (_ & _ & _ & Hst & Hp & _) & Hpost).
  split; [done|]; exists new, data; split_and!; [done|by rewrite <- Hst|done|].
  intros Hn Hseek; revert Hp; unfold read_position; rewrite Hn, Hseek, Z.sub_0_r, Hst, Hcount.
  rewrite u64_small by (rewrite <- Hcount; apply u64_range).
  by rewrite zdrop_app_r, Z.sub_diag, zdrop_0 by lia.
Qed.

End box.
