(* ===== verification/MulticastDemuxer.v ===== *)
(** Classes [UdpDemuxer] (3rdparty/udp/UdpDemuxer.cpp) and [RtpDemuxer] (3rdparty/rtp/RtpDemuxer.cpp)
    as demuxers of the media source handler: only [open] does something, which is to set the
    listener of Multicast.v up for the group and the port of the channel. [DvbDemuxer]
    (3rdparty/dvb/) has the same shape around a listener without a stream. *)

From S2P Require Import Prelude Json Regex ChannelConfig ChannelProps MediaSource.

(** [opened] are the arguments of [open], the last one at the end. *)
Record MulticastDemuxer := mkMulticast { opened : list text }.

#[export] Instance multicast_demuxer : Demuxer MulticastDemuxer := {
  dx_init d := d;
  dx_connect d := (d, 0);
  dx_start _ d := d;
  dx_informFirstFrameReceived d := d;
  dx_disconnect _ d := d;
  dx_open uri _ d := mkMulticast (opened d ++ [uri]);
  dx_getGlobalStats _ := [];
  dx_getChannelStats _ d := (d, []);
}.

Section multicast.
Context `{HR : BoostRegexLaws} `{HC : ChannelLaws}.

(** The group and the port that [open] passes to [setup]. *)
Definition multicast_open (uri : text) : outcome (text * Z) :=
  channelConfig ← ChannelConfig_new uri DEFAULT_SOCKET_PORT;
  Done (destIPDotDecimal channelConfig, port channelConfig).

(** The group of a channel is its address, the port its own or the default one; the source
    address is not used, so that packets of every sender to the group are taken. *)
Lemma multicast_open_joins dst p src : uri_parts_ok dst p src ->
  multicast_open (channel_uri dst p src) = Done (show_ip dst, default DEFAULT_SOCKET_PORT p).
Proof.
  intros Hok; unfold multicast_open; rewrite channel_described by done; rewrite bind_Done; unfold described.
  by destruct src as [[]|].
Qed.

(** Text that is no channel is not refused: [setup] runs with an empty group and the port 0. *)
Lemma multicast_open_invalid uri : (extract uri).1.1 = [] -> multicast_open uri = Done ([], 0).
Proof.
  intros He; unfold multicast_open, ChannelConfig_new; destruct (extract uri) as [[dst p] src].
  cbn in He; by rewrite He.
Qed.

End multicast.

(** * DVB *)

(** [open] calls the [setup] of the listener, which does nothing. *)
#[export] Instance dvb_demuxer : Demuxer unit := {
  dx_init d := d;
  dx_connect d := (d, 0);
  dx_start _ d := d;
  dx_informFirstFrameReceived d := d;
  dx_disconnect _ d := d;
  dx_open _ _ d := d;
  dx_getGlobalStats _ := [];
  dx_getChannelStats _ d := (d, []);
}.

(** [dvb_ended] is whether the reader's thread has ended. *)
Record DvbStreamListener := mkDvb { dvb_fd : Z; dvb_exit : bool; dvb_ended : bool }.

#[export] Instance DvbStreamListener_eta : Eta DvbStreamListener := fun r => mkDvb (dvb_fd r) (dvb_exit r) (dvb_ended r).

Definition DvbStreamListener_new : DvbStreamListener := mkDvb 0 false false.

(** A turn of the reader, which only sleeps. *)
Definition dvb_readLoop (s : DvbStreamListener) : DvbStreamListener :=
  if dvb_exit s then s <| dvb_ended := true |> else s.

(** The destructor up to the join: [mFd] is never set, so that nothing is closed. *)
Definition dvb_exit_request (s : DvbStreamListener) : DvbStreamListener := s <| dvb_exit := true |>.

(** The thread of a listener goes on until the destructor asks it to end, and then ends with its
    next turn; unlike that of the multicast listeners it does not wait for a socket. *)
Lemma dvb_ends k :
  dvb_ended (Nat.iter k dvb_readLoop DvbStreamListener_new) = false /\
  dvb_ended (dvb_readLoop (dvb_exit_request (Nat.iter k dvb_readLoop DvbStreamListener_new))) = true.
Proof.
  assert (Nat.iter k dvb_readLoop DvbStreamListener_new = DvbStreamListener_new) as -> by (induction k as [|k IH]; [done|by rewrite Nat.iter_succ, IH]).
  done.
Qed.
