(* ===== verification/ChannelFiles.v ===== *)
(** From the network to the application: the file of an HTTP, an RTP and a UDP channel, over the
    threads that bring the data. *)

From S2P Require Import Prelude Interfaces Json StdString Regex ChannelConfig BufferIndexer Watchdog TimeShift TimeShiftProps TimeShiftStream ProtectionExport PsiParser BufferQueue MediaSource SourceData SourceQueue CallbackHandler ConfigOptions Plugin PluginProps PluginStream StreamBox HttpDemuxer HttpPipeline MulticastDemuxer Rtp RtpProps ListenerPipeline Listeners.

(** * HTTP

    From curl to the application: the HTTP demuxer, the threads of the media source handler, the
    stream processor, the time shift buffer and the file of the stream together. *)

(** * What the steps of the pipeline tell the others *)

Section http_events.
Context {Rx : BoostRegex} {Tl : BoostToLower} {Ia : InetAton} {cfg : StreamfsConfig} {cfg_ok : StreamfsConfigOk cfg} {dirt : Dirt}.
Local Abbreviation source_handler := (MediaSourceHandler HttpDemuxerImpl).

Lemma adds_turn data rem s s' rem' : http_turn data rem s = Done (s', rem') -> adds s s'.
Proof.
  unfold http_turn; intros (h & _ & Hr)%bind_done_inv; cbv zeta in Hr.
  apply bind_done_inv in Hr as ([h1 s1] & Ha & Hr); apply bind_done_inv in Hr as (p & _ & Hr).
  apply bind_done_inv in Hr as (b & _ & Hr); apply bind_done_inv in Hr as (bytes & _ & Hr).
  apply bind_done_inv in Hr as (l & _ & Hr); apply bind_done_inv in Hr as ([h2 s2] & Hp & Hr); injection Hr as <- _.
  assert (H1 : adds s s1).
  { revert Ha; unfold http_acquire; case_if; intros Ha; [|injection Ha as _ <-; apply adds_refl].
    apply bind_done_inv in Ha as ([s0 p0] & H0%adds_acquire & (a & _ & Ha)%bind_done_inv); by injection Ha as _ <-. }
  assert (H2 : adds s1 s2).
  { revert Hp; case_if; [|intros [= _ <-]; by apply adds_none].
    unfold http_push; intros ([] & _ & (s0 & H0%adds_push & [= _ <-])%bind_done_inv)%bind_done_inv.
    eapply adds_trans; [|exact H0]; by apply adds_none. }
  eapply adds_trans; [exact H1|]; eapply adds_trans; [exact H2|]; by apply adds_none.
Qed.

Definition is_open (op : pipe_op) : bool := match op with POpen _ _ => true | _ => false end.

Lemma pipe_adds pure bufs op p p' : pipe_inv pure bufs p -> is_open op = false -> pipe_exec op p = Done p' ->
  adds (source p) (source p').
Proof.
  intros (h & copied & queue & Hs & [S1 _ _ _ _ _ _ _] & _) Ho; destruct op; cbn [pipe_exec is_open] in *; try done.
  - intros (d & _ & Hr)%bind_done_inv; revert Hr; case_if; [|done]; intros [= <-]; apply adds_refl.
  - case_if; [|done]; intros ([s rem] & H1%adds_turn & [= <-])%bind_done_inv; exact H1.
  - destruct (taking p); [done|]; intros ([s b] & H1%adds_take & [= <-])%bind_done_inv; exact H1.
  - destruct (taking p) as [b|] eqn:Et; [|done]; intros ([c s] & Ht & [= <-])%bind_done_inv.
    exact (adds_consume _ _ _ _ _ _ _ (source_queue _ _ _ _ Hs) S1 Ht).
  - intros (s & H1%adds_monitor & [= <-])%bind_done_inv; exact H1.
  - intros [= <-]; apply adds_report.
  - intros [= <-]; by apply adds_none.
  - unfold joined; case_if; [|done]; intros (s & H1%adds_message & [= <-])%bind_done_inv; exact H1.
Qed.

End http_events.


(** * The threads of an HTTP channel *)

Section http_file.
Context {cfg : StreamfsConfig} {cfg_ok : StreamfsConfigOk cfg} {cb q : Type -> Type} {CB : CircularBuffer cb}.
Context {Q : LockfreeQueue q} {QL : LockfreeQueueLaws q}.
Context {pool : Type} {RB : RingBuffer pool} {RBL : RingBufferLaws pool}.
Context {RBB : RingBufferBytes pool} {RBBL : RingBufferBytesLaws pool}.
Context {H : Type} {CH : CallbackHandler H}.
Context {Rx : BoostRegex} {Tl : BoostToLower} {Ia : InetAton} {Hx : BoostHex} {St : BoostStringAlgo}.
Context (sw_version : text) (pid : Z) (arch_x86_64 : bool).

(** An HTTP channel has no address, so that all buffers are from curl; it stays open. *)
Definition http_inv (dirt : Dirt) (p : pipeline) : Prop :=
  destinationIp (mCurrentChannelConfig (source p)) = 0 /\ exists bufs, pipe_inv true bufs p.

Definition http_fine (op : pipe_op) (p : pipeline) : Prop := is_open op = false /\ pipe_op_ok op.

(** The same as a test. *)
Definition http_fine_b (op : pipe_op) : bool :=
  match op with PData data => zlen data <? 9223372036854775808 | POpen _ _ => false | _ => true end.

Lemma http_fine_b_sound op p : http_fine_b op = true -> http_fine op p.
Proof. destruct op; cbn; try done; split; [done|]; cbn; lia. Qed.

#[export] Instance http_pipeline : Pipeline HttpDemuxerImpl pipeline pipe_op := {
  pl_source := source;
  pl_with s p := p <| source := s |>;
  pl_exec := pipe_exec;
  pl_inv := http_inv;
  pl_fine := http_fine;
}.

#[export] Instance http_pipeline_laws : PipelineLaws HttpDemuxerImpl pipeline pipe_op.
Proof.
  split; [done|by intros []|]; intros dirt op p [Ha [bufs Hp]] [Ho Hok]; cbn [pl_exec pl_source pl_inv http_pipeline].
  assert (Hpo : pure_op true op p) by (destruct op; try done; intros _; exact Ha).
  pose proof (pipe_step true bufs p op Hp Hok Hpo) as Hs; unfold step_ok in Hs.
  destruct (pipe_exec op p) as [p'|e] eqn:He; cbn [wp] in *; [|done].
  pose proof (pipe_adds true bufs op p p' Hp Ho He) as Hd; split; [|done]; split; [|by exists bufs].
  destruct Hd as (_ & -> & _); exact Ha.
Qed.

(** The chunks posted are the beginning of what curl has delivered. *)
Lemma posted_received dirt p : http_inv dirt p -> concat (posted_chunks (source p)) `prefix_of` received p.
Proof.
  intros (_ & bufs & h & copied & queue & _ & [_ _ _ _ S5 _ _ S7] & Hpure); specialize (Hpure eq_refl).
  apply Forall_app in Hpure as [Hpure _].
  assert (Hc : concat (snd <$> copied) = http_bytes copied).
  { clear S5 S7; unfold http_bytes; induction Hpure as [|e l He _ IH]; [done|].
    rewrite filter_cons_True by done; cbn; by rewrite IH. }
  rewrite S7, http_bytes_app, <- Hc, <- S5, <- !app_assoc; by eexists.
Qed.

(** C3. What curl delivers is what an application reads. On an HTTP channel, the reads of a handle
    from its first one on give the bytes that the time shift buffer had before, from the position of
    the handle on, and then, byte for byte and in order, what curl delivers, however the threads of
    the demuxer, of the media source handler, of the parser and of the watchdog, other applications
    and pauses of the player, short and long, interleave; a handle that is new and not behind by a
    seek begins with the chunk posted next. This is so from every state in which the invariant of
    the threads holds, as it does when the channel has been opened. The conditions: the channel has
    no address and stays open; the handle is not released; its reads begin at bytes that the ring
    buffer still keeps, and in the x86 build not at the footer of the file; and when a chunk is
    posted in a pause for which the watchdog has expired, the handle is the first of the open ones
    and its seek offset stays below the window. Two things can stop the run: a round of the parser,
    and the use of a [channelInfo] that was never written since [malloc] gave the buffer. *)
Theorem http_file_correct h sz offset ops (b : box (cb := cb) (q := q) (pool := pool) (H := H))
    (Hb : box_ok (unlabelled (mMediaSource (b_plugin b))) b) (Hs : streaming (box_tsb b)) (Hoff : offsets_ok (box_tsb b))
    (Hcount : getTotalBufferByteCount (box_tsb b) = zlen (stored (mRingBufferPool (box_tsb b))))
    (Hfine : box_fine sw_version pid arch_x86_64 h (BApp (AppRead h sz offset) :: ops) b) :
  wp (fun e => Exists has_round ops \/ (e = Ub /\ unlabelled (mMediaSource (b_plugin b))))
    (box_run sw_version pid arch_x86_64 h (BApp (AppRead h sz offset) :: ops) b)
    (fun '(out, b') => exists new data, out = as_text data /\
      data `prefix_of` zdrop (read_position (box_tsb b) h) (stored (mRingBufferPool (box_tsb b)) ++ new) /\
      concat (posted_chunks (mMediaSource (b_plugin b))) ++ new `prefix_of` received (b_pipe b') /\
      (mHandles (box_tsb b) !! h = None -> mSeekByteOffset (box_tsb b) = 0 -> data `prefix_of` new)).
Proof.
  pose proof (box_file sw_version pid arch_x86_64 h sz offset ops b Hb Hs Hoff Hcount Hfine) as Hf.
  eapply wp_mono; [exact Hf|]; intros [out b'] _ (Hb' & new & data & Hout & Hp & Hpost & Hlive).
  exists new, data; split_and!; [done|done| |done].
  rewrite <- Hpost; exact (posted_received _ _ (bx_pipe _ _ Hb')).
Qed.

End http_file.

(** * Multicast

    From the network to the application, on multicast channels: an RTP or a UDP listener, the
    threads of the media source handler, the stream processor, the time shift buffer and the file
    of the stream together. *)

Section listener.
Context {cfg : StreamfsConfig} {cfg_ok : StreamfsConfigOk cfg}.
Context {Rx : BoostRegex} {Tl : BoostToLower} {Ia : InetAton} {D : Type} {DX : Demuxer D}.
Context {L E : Type} {LS : Listener L E} {LL : ListenerLaws L E}.

(** The channel stays open; [start_ok] is what is known of the listener at its start. *)
Definition listener_pipeline (start_ok : L -> Prop) : Pipeline D (listener_pipe L E D) (listener_op E) := {|
  pl_source := lp_source;
  pl_with s p := p <| lp_source := s |>;
  pl_exec := lp_exec;
  pl_inv dirt p := start_ok (lp_start p) /\ exists bufs, lp_inv bufs p;
  pl_fine op p := opens op = false /\ lp_op_ok op;
|}.

Lemma listener_pipeline_laws start_ok :
  PipelineLaws D (listener_pipe L E D) (listener_op E) (H := listener_pipeline start_ok).
Proof.
  split; [done|by intros []|]; intros dirt op p [Hst [bufs Hp]] [Ho Hok]; cbn [pl_exec pl_source pl_inv listener_pipeline].
  eapply wp_mono; [exact (wp_may_stop _ _ (lp_step bufs p op Hp Hok Ho))|]; cbv beta; intros p' _ (Hi & Ha & Es).
  split; [|done]; rewrite Es; split; [done|by exists bufs].
Qed.

(** What has been posted is the beginning of what the listener and the monitor have queued, and
    the buffers of the listener are the beginning of what it pushes. *)
Lemma posted_pushed {dirt : Dirt} bufs (p : listener_pipe L E D) : lp_inv bufs p ->
  exists log items, concat (posted_chunks (lp_source p)) `prefix_of` concat (snd <$> log) /\ Forall pushed_ok log /\
    receive_all (lp_events p) (lp_start p) = Done (lp_listener p, items) /\ from_listener log `prefix_of` (item_bytes <$> items).
Proof.
  intros (copied & queue & items & [_ _ _ _ K5 K6 _ _ _ K10 K11]); exists copied, items; split_and!; [..|done|].
  - rewrite <- K5; by eexists.
  - by apply Forall_app in K6 as [K6 _].
  - rewrite K11, from_listener_app, <- app_assoc; by eexists.
Qed.

End listener.

(** * The files *)

Section files.
Context {cfg : StreamfsConfig} {cfg_ok : StreamfsConfigOk cfg} {cb q : Type -> Type} {CB : CircularBuffer cb}.
Context {Q : LockfreeQueue q} {QL : LockfreeQueueLaws q}.
Context {pool : Type} {RB : RingBuffer pool} {RBL : RingBufferLaws pool}.
Context {RBB : RingBufferBytes pool} {RBBL : RingBufferBytesLaws pool}.
Context {H : Type} {CH : CallbackHandler H}.
Context {Rx : BoostRegex} {Tl : BoostToLower} {Ia : InetAton} {Hx : BoostHex} {St : BoostStringAlgo}.
Context (sw_version : text) (pid : Z) (arch_x86_64 char_signed : bool).

(** ** RTP *)

Definition rtp_pipe : Type := listener_pipe (RtpStreamListener * list Z) (Z * list Z) MulticastDemuxer.

(** The listener was new. *)
Definition rtp_start (l : RtpStreamListener * list Z) : Prop := l.1 = RtpStreamListener_new /\ zlen l.2 = BUF_SIZE.

#[export] Instance rtp_pipeline : Pipeline MulticastDemuxer rtp_pipe (listener_op (Z * list Z)) :=
  listener_pipeline (LS := rtp_listener char_signed) rtp_start.

#[export] Instance rtp_pipeline_laws : PipelineLaws MulticastDemuxer rtp_pipe (listener_op (Z * list Z)).
Proof. exact (listener_pipeline_laws (LL := rtp_listener_laws char_signed) rtp_start). Qed.

(** The packets that have come since the listener was new begin at the place [n], come early by
    at most ten places and with at most four of them early at a time, and leave the listener at
    the place [n']. *)
Definition packets_come (es : list (Z * list Z)) (ps : list packet) (n n' : Z) : Prop :=
  Forall2 (carries char_signed) es ps /\ head ps.*1 = Some n /\ exists early, arrives n ∅ ps.*1 n' early.


(** ** UDP *)

Definition udp_pipe : Type := listener_pipe (list Z) (option (list Z)) MulticastDemuxer.

#[export] Instance udp_pipeline : Pipeline MulticastDemuxer udp_pipe (listener_op (option (list Z))) :=
  listener_pipeline (fun buf => zlen buf = FEIP_BUFFER_SIZE).

#[export] Instance udp_pipeline_laws : PipelineLaws MulticastDemuxer udp_pipe (listener_op (option (list Z))).
Proof. exact (listener_pipeline_laws _). Qed.

(** The same on a UDP channel, where the datagrams are the data. *)
Theorem udp_file_correct h sz offset ops (b : box (cb := cb) (q := q) (pool := pool) (H := H) (P := udp_pipe))
    (Hb : box_ok (unlabelled (mMediaSource (b_plugin b))) b) (Hs : streaming (box_tsb b)) (Hoff : offsets_ok (box_tsb b))
    (Hcount : getTotalBufferByteCount (box_tsb b) = zlen (stored (mRingBufferPool (box_tsb b))))
    (Hfine : box_fine sw_version pid arch_x86_64 h (BApp (AppRead h sz offset) :: ops) b) :
  wp (fun e => Exists has_round ops \/ (e = Ub /\ unlabelled (mMediaSource (b_plugin b))))
    (box_run sw_version pid arch_x86_64 h (BApp (AppRead h sz offset) :: ops) b)
    (fun '(out, b') => exists new data log, out = as_text data /\
      data `prefix_of` zdrop (read_position (box_tsb b) h) (stored (mRingBufferPool (box_tsb b)) ++ new) /\
      (mHandles (box_tsb b) !! h = None -> mSeekByteOffset (box_tsb b) = 0 -> data `prefix_of` new) /\
      concat (posted_chunks (mMediaSource (b_plugin b))) ++ new `prefix_of` concat (snd <$> log) /\
      Forall pushed_ok log /\
      forall datagrams, lp_events (b_pipe b') = Some <$> datagrams ->
        from_listener log `prefix_of` (ztake FEIP_BUFFER_SIZE <$> datagrams)).
Proof.
  pose proof (box_file sw_version pid arch_x86_64 h sz offset ops b Hb Hs Hoff Hcount Hfine) as Hf.
  eapply wp_mono; [exact Hf|]; intros [out b'] _ ([[Harr [bufs Hi]] _] & new & data & Hout & Hp & Hpost & Hlive).
  destruct (posted_pushed bufs _ Hi) as (log & items & Hpre & Hlog & Hr & Hl).
  change (lp_source (pipe_of b')) with (mMediaSource (b_plugin b')) in Hpre; rewrite Hpost in Hpre.
  exists new, data, log; split_and!; try done; intros ds Hds.
  change (lp_events (pipe_of b')) with (lp_events (b_pipe b')) in Hr; rewrite Hds in Hr.
  by rewrite <- (udp_pushes_in_order ds _ _ _ Harr Hr).
Qed.

End files.
