(* ===== verification/PluginExamples.v ===== *)
(** The theorems of the configuration files at concrete inputs. *)

From Stdlib Require Import Ascii.
From S2P Require Import Prelude Interfaces Json ProtectionExport StdString Regex ChannelConfig ChannelProps Protection TimeShift TimeShiftExamples PsiParser BufferQueue MediaSource CallbackHandler SourceControl SourceExamples ConfigOptions Plugin PluginProps PluginErrors PluginQuiet TimeShiftProps TimeShiftStream PluginStream SourceData SourceQueue StreamBox HttpDemuxer HttpPipeline ChannelFiles.

#[local] Existing Instances config1000 config1000_ok counting_demuxer.

(** White space is taken off both ends. *)
#[export] Instance boost_string : BoostStringAlgo := {
  to_upper_copy := map upper_char;
  trim_copy s := rev (skip_space (rev (skip_space s)));
}.

Lemma skip_space_app a s : all_space a -> match s with c :: _ => isspace c = false | [] => True end ->
  skip_space (a ++ s) = s.
Proof.
  intros Ha Hs; induction Ha as [|c a Hc _ IH]; cbn [app skip_space]; [|by rewrite Hc].
  destruct s as [|c s]; [done|]; cbn; by rewrite Hs.
Qed.

#[export] Instance boost_string_laws : BoostStringAlgoLaws.
Proof.
  split; [done|]; intros a s b Ha Hb He; cbn; unfold ends_solid in He.
  destruct s as [|c s]; [done|]; cbn [head] in He.
  destruct (last (c :: s)) as [z|] eqn:Ez; [|done]; destruct He as [Hc Hz].
  rewrite skip_space_app, rev_app_distr, skip_space_app; [apply rev_involutive| | |done|done].
  - by apply Forall_rev.
  - apply last_Some in Ez as [l ->]; by rewrite rev_app_distr.
Qed.

Local Abbreviation sample_plugin := (FCCPlugin (Z * list dx_call) list_cb list list_pool unit).

Definition sample_clocks : clocks := mkClocks 1000 1000 (Some (5, 7000000)).

(** The plugin as it starts. *)
Definition started : sample_plugin := FCCPlugin_new new_source tt (run_state opened) (0, 0).

Definition sample_drm : StreamProtectionConfig :=
  mkStreamProtectionConfig HIGH "234.80.160.204:5900" [1; 2; 3] [4] [5] false.

(** A channel is selected. *)
Definition selected : sample_plugin :=
  match plugin_write sample_clocks CONFIG_F_CHANNEL_SELECT (sample_uri ++ [NL]) 0 started with
  | Done (_, p) => p
  | _ => started
  end.

Lemma select_accepted :
  plugin_write sample_clocks CONFIG_F_CHANNEL_SELECT (sample_uri ++ [NL]) 0 started =
  Done (zlen (sample_uri ++ [NL]), selected).
Proof. by vm_compute. Qed.

Lemma drm_size_correct_witness :
  plugin_getSize [] 1 CONFIG_F_PROTECTION_INFO selected = Done (u32 (zlen (ProtectionInfo_read selected)), selected).
Proof.
  apply (drm_size_correct [] 1 false new_source tt (run_state opened) (0, 0) selected 0).
  eapply rtc_l; [exact (step_write [] 1 false _ _ _ _ _ _ _ select_accepted)|apply rtc_refl].
Defined.

Lemma config_read_in_pieces_witness :
  read_file [] 1 false (S (length sample_uri)) 3 CONFIG_F_CHANNEL_SELECT 4 0 selected = Done (sample_uri, selected).
Proof.
  apply (config_read_in_pieces [] 1 false 3 CONFIG_F_CHANNEL_SELECT 4 selected sample_uri);
    [by vm_compute|by intros b; vm_compute|lia|by vm_compute].
Defined.

Lemma channel_select_roundtrip_witness :
  getConfigValue [] 1 3 CONFIG_F_CHANNEL_SELECT false selected = Done (erase_char NL (sample_uri ++ [NL]), selected).
Proof.
  apply (channel_select_roundtrip [] 1 sample_clocks (sample_uri ++ [NL]) started (zlen (sample_uri ++ [NL])) selected);
    [by vm_compute|exact select_accepted|by vm_compute].
Defined.

(** 65540 is taken for the speed 4. *)
Lemma trick_play_write_witness : s16 65540 = 4 /\ exists p',
  plugin_write sample_clocks CONFIG_F_TRICK_PLAY (digits_of 65540) 0 started = Done (s32 (zlen (digits_of 65540)), p') /\
  TrickPlay_read p' = to_string_long (s16 65540).
Proof.
  split; [by vm_compute|].
  pose proof (trick_play_write sample_clocks 65540 started ltac:(lia)) as H; cbv zeta in H.
  assert (E1 : (2147483647 <? 65540) = false) by done.
  assert (E2 : (s16 65540 =? 0) || (s16 65540 =? getTrickPlaySpeed (mTsbConsumer started)) = false) by (by vm_compute).
  rewrite E1, E2 in H; exact H.
Defined.

(** A number that is no [int], and a text that is no number. *)
Lemma write_errors_witness :
  plugin_write sample_clocks CONFIG_F_TRICK_PLAY (text_of "3000000000") 0 started = Stop (Throw OutOfRange) /\
  exists p', plugin_write sample_clocks CONFIG_F_SEEK_CONTROL (text_of "now") 0 started = Done (-1, p') /\
    untouched started p' /\ (SEEK_CONTROL <> CHANNEL_SELECT -> p' = started).
Proof.
  split.
  - exact (write_errors sample_clocks CONFIG_F_TRICK_PLAY TRICK_PLAY (text_of "3000000000") started eq_refl eq_refl).
  - exact (write_errors sample_clocks CONFIG_F_SEEK_CONTROL SEEK_CONTROL (text_of "now") started eq_refl eq_refl).
Defined.

(** 0 for the CDM is refused, and a write to flush0 is one to seek0. *)
Lemma cdm_not_ready_refused : plugin_write sample_clocks CONFIG_F_CDM_STATUS (text_of "0") 0 started = Done (-1, started).
Proof. by vm_compute. Qed.

Lemma flush_seeks ck buf offset p : plugin_write ck CONFIG_F_STREAM_INFO_FLUSH buf offset p =
  (plugin_write ck CONFIG_F_SEEK_CONTROL buf offset p : outcome (Z * FCCPlugin Z list_cb list list_pool unit)).
Proof. done. Qed.

(** Values of kDrm0 that are less confident than the one that is kept are ignored. *)
Lemma protection_kept_example :
  mCurrentConfig (assign_all [sample_drm; mkStreamProtectionConfig LOW "" [] [] [] true] started) = sample_drm.
Proof. by vm_compute. Qed.

Lemma parser_never_runs_witness : mPsiParserRunning (mPsi selected) = false /\
  ProtectionInfo_read selected = getJsonAsString (StreamProtectionConfigExport_new StreamProtectionConfig_default).
Proof.
  apply (parser_never_runs [] 1 false new_source (run_state opened) (0, 0) selected).
  eapply rtc_l; [exact (step_write [] 1 false _ _ _ _ _ _ _ select_accepted)|apply rtc_refl].
Defined.

(** ** The file of the stream *)

Definition http_uri : text := text_of "http://10.0.0.1:80/stream.ts".

Definition http_source : outcome (MediaSourceHandler HttpDemuxerImpl) :=
  s ← MediaSourceHandler_new (HttpDemuxerImpl_new 0 sample_pointers) 0 true 0 sample_mems;
  match s with Some s => '(s, _) ← source_open http_uri 0 0 s; Done s | None => Stop Abort end.

Definition the_source (m : outcome (MediaSourceHandler HttpDemuxerImpl)) : MediaSourceHandler HttpDemuxerImpl :=
  match m with Done s => s | Stop _ => mkSource (BufferQueue_new 0) ∅ [] ∅ false [] ChannelConfig_default 0 false 0 [] [] [] end.

(** An HTTP channel has been opened, and nothing has come yet. *)
Definition http_box : box (cb := list_cb) (q := list) (pool := list_pool) (H := unit) (P := pipeline) :=
  mkBox (FCCPlugin_new (the_source http_source) tt (run_state opened) (0, 0)) (pipeline_start (the_source http_source) sample_garbage).

Lemma http_box_pipe {dirt : Dirt} : pipe_inv true (mem_ptr <$> sample_mems) (pipe_of http_box).
Proof.
  assert (Hg : zlen sample_garbage = BUFFER_CHUNK_SIZE) by (by vm_compute).
  assert (Hu : pipe_op_ok (POpen http_uri 0)) by (by vm_compute).
  destruct (start_inv true sample_mems 0 sample_pointers sample_garbage 0 sample_mems_ok (fun H => False_ind _ (sample_mems_clean H)) eq_refl Hg) as (s & Hs & Hi).
  pose proof (pipe_step true _ _ (POpen http_uri 0) Hi Hu I) as Hst.
  unfold pipe_of, http_box, the_source, http_source; cbn [b_plugin b_pipe]; rewrite Hs, bind_Done.
  unfold step_ok in Hst; cbn [pipe_exec] in Hst; unfold joined in Hst; change (source (pipeline_start s _)) with s in Hst.
  change (http_remaining (pipeline_start s _) =? 0) with true in Hst; cbv iota in Hst.
  assert (Hd : exists s' r, source_open http_uri 0 0 s = Done (s', r)).
  { unfold source_open; case_if; [by eexists _, _|]; destruct (mSessions s !! 0) as [f|]; [|by eexists _, _].
    destruct (dx_getChannelStats true (mDemuxer f)) as [d x].
    assert (Hc : is_done (ChannelConfig_new http_uri DEFAULT_SOCKET_PORT) = true) by (by vm_compute).
    destruct (ChannelConfig_new http_uri DEFAULT_SOCKET_PORT) as [c|]; [|done]; rewrite bind_Done.
    destruct (disconnect _ _) as [f1 s1]; by eexists _, _. }
  destruct Hd as (s' & r & Hd); rewrite Hd in Hst |- *; exact Hst.
Qed.

(** Bytes come and are read in pieces; then the player pauses, the watchdog expires, more bytes
    come, and the player plays on. *)
Definition http_ops : list box_op :=
  [BPipe sample_clocks 1000 (PData (replicate (Z.to_nat 42112) 5)); BPipe sample_clocks 1000 PWrite;
   BPipe sample_clocks 1000 PWrite; BPipe sample_clocks 1000 PTake; BPipe sample_clocks 1000 PCopy;
   BApp (AppRead 3 500 10); BApp (AppRead 4 500 0); BPipe sample_clocks 1000 PTake; BApp (AppRead 3 50000 510);
   BApp (AppState sample_clocks (text_of "PAUSED")); BApp AppWatchdog; BApp AppWatchdog; BApp AppWatchdog;
   BApp AppWatchdog; BApp AppWatchdog; BPipe sample_clocks 2000 (PData (replicate (Z.to_nat 42112) 6));
   BPipe sample_clocks 2000 PWrite; BPipe sample_clocks 2000 PWrite; BPipe sample_clocks 2000 PTake;
   BPipe sample_clocks 2000 PCopy; BApp (AppState sample_clocks (text_of "PLAYING")); BApp (AppRead 3 700 42010)].

Lemma http_file_correct_witness :
  wp (fun e => Exists has_round http_ops \/ (e = Ub /\ unlabelled (mMediaSource (b_plugin http_box)))) (box_run [] 1 false 3 (BApp (AppRead 3 10 0) :: http_ops) http_box) (fun '(out, b') =>
    exists new data, out = as_text data /\
      data `prefix_of` zdrop (read_position (box_tsb http_box) 3) (stored (mRingBufferPool (box_tsb http_box)) ++ new) /\
      concat (posted_chunks (mMediaSource (b_plugin http_box))) ++ new `prefix_of` received (b_pipe b') /\
      (mHandles (box_tsb http_box) !! 3 = None -> mSeekByteOffset (box_tsb http_box) = 0 -> data `prefix_of` new)).
Proof.
  apply (http_file_correct [] 1 false).
  - split; [split; [by vm_compute|exists (mem_ptr <$> sample_mems); exact http_box_pipe]|by vm_compute].
  - split; vm_compute; congruence.
  - unfold offsets_ok; replace (mHandles (box_tsb http_box)) with (∅ : gmap Z HandleContext) by (vm_compute; reflexivity).
    apply map_Forall_empty.
  - vm_compute; reflexivity.
  - apply (box_fine_b_sound [] 1 false http_fine_b); [exact http_fine_b_sound|vm_compute; reflexivity].
Defined.

(** The watchdog has expired when the second buffer comes, and the player goes on where it was. *)
Definition pause_expires : bool :=
  match box_run [] 1 false 3 (BApp (AppRead 3 10 0) :: take 15 http_ops) http_box with
  | Done (out, b) =>
    bool_decide (out = as_text (replicate (Z.to_nat 42000) 5)) &&
    bool_decide (mPlayerState (box_tsb b) = PAUSED) && mIsPaused (box_tsb b) &&
    match box_run [] 1 false 3 (drop 15 http_ops) b with
    | Done (rest, _) => bool_decide (rest = as_text (replicate (Z.to_nat 112) 5 ++ replicate (Z.to_nat 588) 6))
    | Stop _ => false
    end
  | Stop _ => false
  end.

Lemma http_pause_expires : pause_expires = true.
Proof. vm_compute; reflexivity. Qed.
