(* ===== verification/RouteMonitor.v ===== *)
(** Class [NetworkRouteMonitor] of src/NetworkRouteMonitor.cpp: the default routes the kernel
    reports, ordered by metric, and the callbacks that are told when the interface of the best
    one changes.

    A message of the kernel is its type and the list of its attributes, in the order in which
    the macros of the netlink headers walk over them. *)

From stdpp Require Import sorting.
From S2P Require Import Prelude Json.

Record routeInfo := mkRoute { ri_interface : text; ri_gateway : text; ri_metric : Z }.

#[export] Instance routeInfo_eta : Eta routeInfo := fun r => mkRoute (ri_interface r) (ri_gateway r) (ri_metric r).

#[export] Instance routeInfo_eq_dec : EqDecision routeInfo.
Proof. solve_decision. Defined.

Inductive rtattr := RTA_GATEWAY (addr : Z) | RTA_OIF (index : Z) | RTA_PRIORITY (metric : Z) | RTA_OTHER.

Inductive nlmsg := RTM_NEWROUTE (attrs : list rtattr) | RTM_DELROUTE (attrs : list rtattr) | RTM_OTHER.

(** The C library: the text of an address, and the name of an interface, if there is one with
    that index. *)
Class NetNames := { inet_ntop : Z -> text; if_indextoname : Z -> option text }.

(** A callback is known by a number; its owner may be gone. *)
Record route_callback := mkCallback { rc_id : Z; rc_expired : bool }.

(** [told] are the calls of the callbacks. *)
Record NetworkRouteMonitor := mkMonitor {
  nStateCbs : list route_callback;
  mRoute : routeInfo;
  mDefaultRoutes : list routeInfo;
  told : list (Z * routeInfo);
}.

#[export] Instance NetworkRouteMonitor_eta : Eta NetworkRouteMonitor := fun r =>
  mkMonitor (nStateCbs r) (mRoute r) (mDefaultRoutes r) (told r).

Definition UINT16_MAX : Z := 65535.

Definition no_route : routeInfo := mkRoute [] [] UINT16_MAX.

Definition NetworkRouteMonitor_new : NetworkRouteMonitor := mkMonitor [] no_route [] [].

Definition route_le (a b : routeInfo) : Prop := ri_metric a <= ri_metric b.

#[export] Instance route_le_dec : RelDecision route_le.
Proof. intros a b; unfold route_le; apply _. Defined.

#[export] Instance route_le_trans : Transitive route_le.
Proof. intros a b c; unfold route_le; lia. Qed.

#[export] Instance route_le_total : Total route_le.
Proof. intros a b; unfold route_le; lia. Qed.

(** [std::sort] by metric, which leaves the order of equal elements open. *)
Class StdSort := std_sort : list routeInfo -> list routeInfo.

Class StdSortLaws `{StdSort} : Prop := {
  std_sort_perm : forall l, std_sort l ≡ₚ l;
  std_sort_sorted : forall l, StronglySorted route_le (std_sort l);
}.

Section monitor.
Context `{NetNames} `{Srt : StdSort}.
Implicit Types s : NetworkRouteMonitor.

Definition registerCallback (id : Z) s : NetworkRouteMonitor :=
  s <| nStateCbs := nStateCbs s ++ [mkCallback id false] |>.

(** [name] is the buffer for the name, which keeps its content when a call fails. *)
Fixpoint route_attrs (attrs : list rtattr) (name : text) (route : routeInfo) : routeInfo :=
  match attrs with
  | [] => route
  | RTA_GATEWAY addr :: attrs => route_attrs attrs name (route <| ri_gateway := inet_ntop addr |>)
  | RTA_OIF index :: attrs =>
    let name := default name (if_indextoname index) in
    route_attrs attrs name (route <| ri_interface := name |>)
  | RTA_PRIORITY metric :: attrs => route_attrs attrs name (route <| ri_metric := u32 metric |>)
  | RTA_OTHER :: attrs => route_attrs attrs name route
  end.

Definition getRouteInfo (attrs : list rtattr) : routeInfo := route_attrs attrs [] (mkRoute [] [] 0).

(** The routes a withdrawal does not concern. *)
Definition survives (route vw : routeInfo) : bool :=
  negb (bool_decide (ri_interface vw = ri_interface route) &&
        ((ri_metric vw =? ri_metric route) || (ri_metric route =? 0))).

(** One message, and whether [gatewayUpdated] is set. *)
Definition route_message (msg : nlmsg) s : bool * NetworkRouteMonitor :=
  match msg with
  | RTM_NEWROUTE attrs =>
    let route := getRouteInfo attrs in
    match ri_gateway route with
    | [] => (false, s)
    | _ => (true, s <| mDefaultRoutes := std_sort (mDefaultRoutes s ++ [route]) |>)
    end
  | RTM_DELROUTE attrs =>
    let route := getRouteInfo attrs in
    match ri_interface route with
    | [] => (false, s)
    | _ => (true, s <| mDefaultRoutes := filter (fun vw => survives route vw = true) (mDefaultRoutes s) |>)
    end
  | RTM_OTHER => (false, s)
  end.

Fixpoint route_messages (msgs : list nlmsg) (updated : bool) s : bool * NetworkRouteMonitor :=
  match msgs with
  | [] => (updated, s)
  | msg :: msgs => let '(u, s) := route_message msg s in route_messages msgs (updated || u) s
  end.

(** The loop over the callbacks from the index [it]; an expired one is skipped without
    advancing. *)
Fixpoint tell_loop (fuel : nat) (it : Z) s : outcome NetworkRouteMonitor :=
  match fuel with
  | O => Stop OutOfFuel
  | S fuel =>
    if it <? zlen (nStateCbs s) then
      c ← rd (nStateCbs s) it;
      if rc_expired c then tell_loop fuel it s
      else tell_loop fuel (it + 1) (s <| told := told s ++ [(rc_id c, mRoute s)] |>)
    else Done s
  end.

Definition dispatchDefaultRouteChange (fuel : nat) s : outcome NetworkRouteMonitor :=
  let route := match mDefaultRoutes s with r :: _ => r | [] => no_route end in
  if bool_decide (ri_interface route = ri_interface (mRoute s)) then Done s
  else tell_loop fuel 0 (s <| mRoute := route |>).

(** What the thread does with the messages of one [recv]. *)
Definition route_batch (fuel : nat) (msgs : list nlmsg) s : outcome NetworkRouteMonitor :=
  let '(updated, s) := route_messages msgs false s in
  if (updated : bool) then dispatchDefaultRouteChange fuel s else Done s.

Fixpoint route_batches (fuel : nat) (batches : list (list nlmsg)) s : outcome NetworkRouteMonitor :=
  match batches with
  | [] => Done s
  | msgs :: batches => s ← route_batch fuel msgs s; route_batches fuel batches s
  end.

(** A callback whose owner is gone keeps the loop from ending, whatever the fuel. *)
Lemma tell_loop_hangs fuel it c s : rd (nStateCbs s) it = Done c -> rc_expired c = true ->
  tell_loop fuel it s = Stop OutOfFuel.
Proof.
  intros Hr He; induction fuel as [|fuel IH]; [done|]; cbn [tell_loop].
  by rewrite (proj2 (Z.ltb_lt _ _)), Hr, bind_Done, He by (by eapply rd_range_inv).
Qed.

(** * What it promises *)

(** The routes the messages leave, in the order in which they came. *)
Definition table_message (t : list routeInfo) (msg : nlmsg) : list routeInfo :=
  match msg with
  | RTM_NEWROUTE attrs => let r := getRouteInfo attrs in if bool_decide (ri_gateway r = []) then t else t ++ [r]
  | RTM_DELROUTE attrs =>
    let r := getRouteInfo attrs in
    if bool_decide (ri_interface r = []) then t else filter (fun vw => survives r vw = true) t
  | RTM_OTHER => t
  end.

Definition table (batches : list (list nlmsg)) : list routeInfo := fold_left table_message (concat batches) [].

(** [i] is the interface of one of the routes with the least metric. *)
Definition best_interface (t : list routeInfo) (i : text) : Prop :=
  match t with
  | [] => i = []
  | _ => exists r, r ∈ t /\ ri_interface r = i /\ Forall (route_le r) t
  end.

(** The interfaces a callback has been told of, in order. *)
Definition told_to (id : Z) s : list text := ri_interface ∘ snd <$> filter (fun e => e.1 = id) (told s).

(** Every interface differs from the one before, the first from none. *)
Fixpoint changes (prev : text) (l : list text) : Prop :=
  match l with [] => True | i :: l => i <> prev /\ changes i l end.

Lemma changes_snoc prev l i : changes prev l -> i <> default prev (last l) -> changes prev (l ++ [i]).
Proof.
  revert prev; induction l as [|j l IH]; intros prev; cbn [changes app]; [done|].
  intros [Hj Hl] Hi; split; [done|]; apply IH; [done|].
  rewrite last_cons in Hi; by destruct (last l).
Qed.

Context {Laws : StdSortLaws}.

(** The routes are those of the table, sorted. *)
Definition sorted_table (t : list routeInfo) s : Prop :=
  mDefaultRoutes s ≡ₚ t /\ StronglySorted route_le (mDefaultRoutes s).

Lemma sorted_filter (f : routeInfo -> bool) l : StronglySorted route_le l ->
  StronglySorted route_le (filter (fun r => f r = true) l).
Proof.
  induction 1 as [|r l _ IH Hr]; [constructor|]; rewrite filter_cons; case_decide; [|done].
  constructor; [done|]; apply Forall_forall; intros x [_ Hx]%list_elem_of_filter.
  rewrite Forall_forall in Hr; by apply Hr.
Qed.

Lemma message_table msg t s : sorted_table t s -> sorted_table (table_message t msg) (route_message msg s).2.
Proof.
  intros [Hp Hs]; destruct msg as [attrs|attrs|]; cbn [route_message table_message]; cbv zeta; [| |done].
  - destruct (ri_gateway (getRouteInfo attrs)) as [|c g] eqn:E; [by rewrite bool_decide_eq_true_2|].
    rewrite bool_decide_eq_false_2 by done; split; cbn; [|apply std_sort_sorted].
    rewrite std_sort_perm; by rewrite Hp.
  - destruct (ri_interface (getRouteInfo attrs)) as [|c g] eqn:E; [by rewrite bool_decide_eq_true_2|].
    rewrite bool_decide_eq_false_2 by done; split; cbn; [by rewrite Hp|by apply sorted_filter].
Qed.

(** A state between two batches: the best route is the first, every callback knows its
    interface, and has been told of changes only. *)
Definition monitor_ok (t : list routeInfo) s : Prop :=
  sorted_table t s /\
  ri_interface (mRoute s) = match mDefaultRoutes s with r :: _ => ri_interface r | [] => [] end /\
  forall c, c ∈ nStateCbs s -> changes [] (told_to (rc_id c) s) /\
    default [] (last (told_to (rc_id c) s)) = ri_interface (mRoute s).

(** Callbacks that are all there, and registered once. *)
Definition callbacks_ok s : Prop :=
  Forall (fun c => rc_expired c = false) (nStateCbs s) /\ NoDup (rc_id <$> nStateCbs s).

Lemma tell_all ws : forall fuel before s, nStateCbs s = before ++ ws ->
  Forall (fun c => rc_expired c = false) ws -> (length ws < fuel)%nat ->
  tell_loop fuel (zlen before) s = Done (s <| told := told s ++ ((fun c => (rc_id c, mRoute s)) <$> ws) |>).
Proof.
  induction ws as [|w ws IH]; intros fuel before s Hv Hc Hf; destruct fuel as [|fuel]; cbn in Hf; try lia; cbn [tell_loop].
  - rewrite Hv, app_nil_r, Z.ltb_irrefl; destruct s; cbn; by rewrite app_nil_r.
  - apply Forall_cons in Hc as [He Hc]; rewrite Hv, zlen_app, zlen_cons.
    pose proof (zlen_nonneg ws); rewrite (proj2 (Z.ltb_lt _ _)) by lia.
    rewrite rd_app_r, Z.sub_diag by lia; change (rd (w :: ws) 0) with (Done w); rewrite bind_Done, He.
    replace (zlen before + 1) with (zlen (before ++ [w])) by (rewrite zlen_app; done).
    rewrite IH; [|cbn; by rewrite <- app_assoc|done|lia].
    f_equal; destruct s; cbn; by rewrite <- app_assoc.
Qed.

(** A callback that is registered once hears of the route once. *)
Lemma told_once (cs : list route_callback) c r : NoDup (rc_id <$> cs) -> c ∈ cs ->
  ri_interface ∘ snd <$> filter (fun e : Z * routeInfo => e.1 = rc_id c) ((fun c => (rc_id c, r)) <$> cs) = [ri_interface r].
Proof.
  intros Hn (l1 & l2 & ->)%list_elem_of_split; rewrite fmap_app in Hn; rewrite (fmap_app (fun c => (rc_id c, r))), !fmap_cons; rewrite fmap_cons in Hn.
  apply NoDup_app in Hn as (_ & Hd & [Hc _]%NoDup_cons).
  assert (Ho : forall l, rc_id c ∉ (rc_id <$> l) ->
    filter (fun e : Z * routeInfo => e.1 = rc_id c) ((fun c => (rc_id c, r)) <$> l) = []).
  { intros l; induction l as [|x l IH]; rewrite ?fmap_cons; [done|]; intros [Hx Hl]%not_elem_of_cons.
    rewrite filter_cons_False by (cbn; congruence); by apply IH. }
  rewrite filter_app, filter_cons_True by done.
  rewrite (Ho l1), (Ho l2); [done|done|]; intros Hin; apply (Hd _ Hin); left.
Qed.

Lemma dispatch_ok t s fuel : sorted_table t s -> callbacks_ok s -> (length (nStateCbs s) < fuel)%nat ->
  (forall c, c ∈ nStateCbs s -> changes [] (told_to (rc_id c) s) /\
    default [] (last (told_to (rc_id c) s)) = ri_interface (mRoute s)) ->
  exists s', dispatchDefaultRouteChange fuel s = Done s' /\ nStateCbs s' = nStateCbs s /\ monitor_ok t s'.
Proof.
  intros Ht [Ha Hn] Hf Hc; unfold dispatchDefaultRouteChange; cbv zeta.
  set (route := match mDefaultRoutes s with r :: _ => r | [] => no_route end).
  assert (Hr : ri_interface route = match mDefaultRoutes s with r :: _ => ri_interface r | [] => [] end)
    by (unfold route; by destruct (mDefaultRoutes s)).
  case_if; b2p; [exists s; split; [done|split; [done|split; [exact Ht|split; [congruence|exact Hc]]]]|].
  change 0 with (zlen (@nil route_callback)); rewrite (tell_all (nStateCbs s)) by done.
  eexists; split; [done|split; [done|split; [exact Ht|split; [exact Hr|]]]]; intros c Hin; destruct (Hc c Hin) as [Hch Hl].
  match goal with |- context [told_to _ ?s1] => set (s' := s1) end.
  assert (Hto : told_to (rc_id c) s' = told_to (rc_id c) s ++ [ri_interface route]).
  { unfold told_to; change (told s') with (told s ++ ((fun c => (rc_id c, route)) <$> nStateCbs s)).
    by rewrite filter_app, fmap_app, told_once. }
  rewrite Hto; split; [|by rewrite last_snoc].
  apply changes_snoc; [done|]; rewrite Hl; done.
Qed.

Lemma message_frame msg s : nStateCbs (route_message msg s).2 = nStateCbs s /\
  mRoute (route_message msg s).2 = mRoute s /\ told (route_message msg s).2 = told s /\
  ((route_message msg s).1 = false -> mDefaultRoutes (route_message msg s).2 = mDefaultRoutes s).
Proof.
  destruct msg as [attrs|attrs|]; cbn [route_message]; cbv zeta; [| |done];
    [destruct (ri_gateway _)|destruct (ri_interface _)]; done.
Qed.

Lemma messages_frame msgs : forall updated t s, sorted_table t s ->
  let r := route_messages msgs updated s in
  sorted_table (fold_left table_message msgs t) r.2 /\ nStateCbs r.2 = nStateCbs s /\ mRoute r.2 = mRoute s /\
  told r.2 = told s /\ (r.1 = false -> updated = false /\ mDefaultRoutes r.2 = mDefaultRoutes s).
Proof.
  induction msgs as [|msg msgs IH]; intros updated t s Ht; [done|]; cbn [route_messages fold_left].
  pose proof (message_table msg t s Ht) as Hm; pose proof (message_frame msg s) as (F1 & F2 & F3 & F4).
  destruct (route_message msg s) as [u s1]; cbn in Hm, F1, F2, F3, F4.
  destruct (IH (updated || u) _ s1 Hm) as (I1 & I2 & I3 & I4 & I5); cbv zeta.
  split_and!; [done|congruence..|]; intros [[Hu ->]%orb_false_iff Hd]%I5; split; [done|].
  rewrite Hd; by apply F4.
Qed.

Lemma batch_ok fuel msgs t s : monitor_ok t s -> callbacks_ok s -> (length (nStateCbs s) < fuel)%nat ->
  exists s', route_batch fuel msgs s = Done s' /\ nStateCbs s' = nStateCbs s /\
    monitor_ok (fold_left table_message msgs t) s'.
Proof.
  intros (Ht & Hr & Hc) Hcb Hf; unfold route_batch.
  destruct (messages_frame msgs false t s Ht) as (F1 & F2 & F3 & F4 & F5); cbv zeta in *.
  destruct (route_messages msgs false s) as [u s1]; cbn in *.
  assert (Hto : forall id, told_to id s1 = told_to id s) by (intros; unfold told_to; by rewrite F4).
  destruct u.
  - destruct (dispatch_ok (fold_left table_message msgs t) s1 fuel) as (s' & ? & ? & ?);
      [done|unfold callbacks_ok; by rewrite F2|by rewrite F2| |exists s'; split_and!; [done|congruence|done]].
    intros c; rewrite F2, F3, Hto; apply Hc.
  - destruct (F5 eq_refl) as [_ Hd]; exists s1; split_and!; [done|done|]; split_and!; [done|by rewrite F3, Hd|].
    intros c; rewrite F2, F3, Hto; apply Hc.
Qed.

Lemma batches_ok fuel batches : forall t s, monitor_ok t s -> callbacks_ok s -> (length (nStateCbs s) < fuel)%nat ->
  exists s', route_batches fuel batches s = Done s' /\ nStateCbs s' = nStateCbs s /\
    monitor_ok (fold_left table_message (concat batches) t) s'.
Proof.
  induction batches as [|msgs batches IH]; intros t s Hm Hc Hf; cbn [route_batches concat]; [by exists s|].
  destruct (batch_ok fuel msgs t s Hm Hc Hf) as (s1 & -> & H1 & Hm1).
  rewrite bind_Done, fold_left_app.
  destruct (IH _ s1 Hm1) as (s' & ? & ? & ?); [unfold callbacks_ok; by rewrite H1|by rewrite H1|].
  exists s'; split_and!; [done|congruence|done].
Qed.

Lemma best_first t s : sorted_table t s ->
  best_interface t (match mDefaultRoutes s with r :: _ => ri_interface r | [] => [] end).
Proof.
  intros [Hp Hs]; destruct (mDefaultRoutes s) as [|r l].
  - apply Permutation_nil in Hp; by rewrite Hp.
  - unfold best_interface; destruct t as [|x t0] eqn:Et; [by symmetry in Hp; apply Permutation_nil in Hp|rewrite <- Et in *].
    apply StronglySorted_inv in Hs as [_ Hr].
    exists r; split_and!; [rewrite <- Hp; left|done|]; rewrite <- Hp; constructor; [unfold route_le; lia|done].
Qed.

Definition register_all (ids : list Z) : NetworkRouteMonitor :=
  fold_left (fun s id => registerCallback id s) ids NetworkRouteMonitor_new.

Lemma register_all_state ids : register_all ids = mkMonitor ((fun id => mkCallback id false) <$> ids) no_route [] [].
Proof.
  unfold register_all; induction ids as [|id ids IH] using rev_ind; [done|].
  rewrite fold_left_app, IH, fmap_app; done.
Qed.

(** C28. Whatever the kernel reports, the monitor settles on the interface of a route with the
    least metric among those that were added and not withdrawn, or on none when there are
    none; every callback is told of each change of the interface, of nothing else, and knows
    the interface in the end. *)
Theorem route_monitor_correct (ids : list Z) (batches : list (list nlmsg)) : NoDup ids ->
  exists s, route_batches (S (length ids)) batches (register_all ids) = Done s /\
  best_interface (table batches) (ri_interface (mRoute s)) /\
  forall id, id ∈ ids -> changes [] (told_to id s) /\ default [] (last (told_to id s)) = ri_interface (mRoute s).
Proof.
  intros Hn; rewrite register_all_state.
  set (s0 := mkMonitor _ no_route [] []).
  assert (Hc : callbacks_ok s0).
  { split; [by apply Forall_fmap, Forall_forall|]; cbn; rewrite <- list_fmap_compose, list_fmap_id; done. }
  destruct (batches_ok (S (length ids)) batches [] s0) as (s & E & Hs & Ht & Hr & Hk);
    [split_and!; [split; [done|constructor]|done|done]|done|cbn; rewrite length_fmap; lia|].
  exists s; split_and!; [done|rewrite Hr; by apply best_first|]; intros id Hid.
  apply (Hk (mkCallback id false)); rewrite Hs; by apply (list_elem_of_fmap_2 (fun id => mkCallback id false)).
Qed.
End monitor.

(** * Example *)

#[export] Instance merge_std_sort : StdSort := merge_sort route_le.

#[export] Instance merge_std_sort_laws : StdSortLaws.
Proof. split; [intros l; apply merge_sort_Permutation|intros l; apply (StronglySorted_merge_sort route_le)]. Qed.

(** Addresses and interfaces with one character each. *)
#[local] Instance sample_names : NetNames := {
  inet_ntop a := [chr a];
  if_indextoname i := if i =? 0 then None else Some [chr i];
}.

(** A route over interface 65, a better one over 66, and the end of that one. *)
Definition sample_batches : list (list nlmsg) :=
  [[RTM_NEWROUTE [RTA_GATEWAY 1; RTA_OIF 65; RTA_PRIORITY 20]; RTM_OTHER];
   [RTM_NEWROUTE [RTA_PRIORITY 10; RTA_OIF 66; RTA_GATEWAY 2]];
   [RTM_DELROUTE [RTA_OIF 66]]].

Lemma route_monitor_correct_witness : exists s,
  route_batches 3 sample_batches (register_all [1; 2]) = Done s /\
  best_interface (table sample_batches) (ri_interface (mRoute s)).
Proof.
  destruct (route_monitor_correct [1; 2] sample_batches) as (s & E & Hb & _);
    [apply (bool_decide_unpack _); by vm_compute|].
  exists s; split; [exact E|exact Hb].
Defined.

Lemma sample_batches_told : told_to 2 <$> route_batches 3 sample_batches (register_all [1; 2]) =
  Done [[chr 65]; [chr 66]; [chr 65]].
Proof. by vm_compute. Qed.
