(* ===== verification/Nokia.v ===== *)
(** Class [NokiaSocketCbHandler] of 3rdparty/nokia/NokiaSocketCbHandler.cpp: the datagrams in
    which the demuxer of the set-top box reports the PAT, the PMT and the ECM of a channel, and
    what the handler publishes from them. *)

From S2P Require Import Prelude Json Protection MediaSource CallbackHandler Rtp.

Definition NOKIA_SECTION_LENGHT_TYPE_SIZE : Z := 4.
Definition SOCKET_MAXLINE : Z := 10240.

Inductive NokiaMessageType := PAT_PMT_MESSAGE | ECM_MESSAGE.

(** [nk_pat], [nk_pmt] and [nk_ecm] are the values of the monitored variables, [nk_events] the
    assignments to them and to kDrm0 and the calls of the status callback. *)
Record NokiaSocketCbHandler := mkNokia {
  nk_buffer : list Z;
  mIsPatPmtReceived : bool;
  mIsEcmReceived : bool;
  mChannelIp : string;
  nk_pat : list Z;
  nk_pmt : list Z;
  nk_ecm : list Z;
  nk_events : list handler_event;
}.

#[export] Instance NokiaSocketCbHandler_eta : Eta NokiaSocketCbHandler := fun r =>
  mkNokia (nk_buffer r) (mIsPatPmtReceived r) (mIsEcmReceived r) (mChannelIp r) (nk_pat r) (nk_pmt r) (nk_ecm r)
    (nk_events r).

(** [buffer] is what the array on the stack holds before the first datagram. *)
Definition NokiaSocketCbHandler_new (buffer : list Z) : NokiaSocketCbHandler :=
  mkNokia buffer true true "" [] [] [] [].

(** An assignment to one of the variables. *)
Definition set_ecm (value : list Z) (s : NokiaSocketCbHandler) : NokiaSocketCbHandler :=
  s <| nk_ecm := value |> <| nk_events := nk_events s ++ [SetBytes kEcm0 value] |>.
Definition set_pmt (value : list Z) (s : NokiaSocketCbHandler) : NokiaSocketCbHandler :=
  s <| nk_pmt := value |> <| nk_events := nk_events s ++ [SetBytes kPmt0 value] |>.
Definition set_pat (value : list Z) (s : NokiaSocketCbHandler) : NokiaSocketCbHandler :=
  s <| nk_pat := value |> <| nk_events := nk_events s ++ [SetBytes kPat0 value] |>.

Definition nokia_switched (channelIp : string) (s : NokiaSocketCbHandler) : NokiaSocketCbHandler :=
  let s := s <| mChannelIp := channelIp |> <| mIsPatPmtReceived := false |> <| mIsEcmReceived := false |> in
  set_pat [] (set_pmt [] (set_ecm [] s)).

Section nokia.
Context (char_signed : bool).
Implicit Types s : NokiaSocketCbHandler.

(** Four bytes at [i], as the compilers in use shift and add them. *)
Definition byteBufToInt (buffer : list Z) (i : Z) : outcome Z :=
  b0 ← rd_char char_signed buffer i;
  b1 ← rd_char char_signed buffer (i + 1);
  b2 ← rd_char char_signed buffer (i + 2);
  b3 ← rd_char char_signed buffer (i + 3);
  Done (s32 (b0 + Z.shiftl b1 8 + Z.shiftl b2 16 + Z.shiftl b3 24)).

(** The result, [feipId] and the variables afterwards. A section whose end is before its start
    is no range. *)
Definition parseSections (inBufSize : Z) (msgType : NokiaMessageType) (feipId : Z) s
  : outcome (Z * Z * NokiaSocketCbHandler) :=
  let inBuf := nk_buffer s in
  if inBufSize <? NOKIA_SECTION_LENGHT_TYPE_SIZE then Done (-1, feipId, s)
  else
    feipId ← byteBufToInt inBuf 0;
    let offset := NOKIA_SECTION_LENGHT_TYPE_SIZE in
    match msgType with
    | ECM_MESSAGE =>
      if inBufSize <=? offset then Done (-1, feipId, s)
      else
        ecmSectionLength ← byteBufToInt inBuf offset;
        let offset := u32 (offset + NOKIA_SECTION_LENGHT_TYPE_SIZE) in
        if (ecmSectionLength =? 0) || (inBufSize <? u32 (ecmSectionLength + offset)) then
          Done (-1, feipId, set_ecm [] s)
        else
          ecm ← slice inBuf offset ecmSectionLength;
          Done (0, feipId, set_ecm ecm s)
    | PAT_PMT_MESSAGE =>
      patSectionLength ← byteBufToInt inBuf offset;
      let offset := u32 (offset + NOKIA_SECTION_LENGHT_TYPE_SIZE) in
      if inBufSize <? u32 (patSectionLength + offset) then Done (-1, feipId, set_pat [] s)
      else
        s ← (if 0 <? patSectionLength
             then pat ← slice inBuf offset patSectionLength; Done (set_pat pat s) else Done s);
        let offset := u32 (offset + patSectionLength) in
        pmtSectionLength ← byteBufToInt inBuf offset;
        let offset := u32 (offset + NOKIA_SECTION_LENGHT_TYPE_SIZE) in
        if inBufSize <? u32 (pmtSectionLength + offset) then Done (-1, feipId, set_pmt [] s)
        else
          s ← (if 0 <? pmtSectionLength
               then pmt ← slice inBuf offset pmtSectionLength; Done (set_pmt pmt s) else Done s);
          Done (0, feipId, s)
    end.

(** ** The scan of the PMT for CA descriptors *)

Definition programInfoIndex : Z := 12.

(** The program's descriptors, from the index [i] up to [last]; elements of the vector are
    not checked against its size. *)
Fixpoint program_loop (fuel : nat) (pmt : list Z) (i last : Z) : outcome bool :=
  match fuel with
  | O => Stop OutOfFuel
  | S fuel =>
    if i <? last then
      tag ← rd pmt i;
      if tag =? 9 then Done true
      else
        len ← rd pmt (i + 1);
        program_loop fuel pmt (i + (len + 2)) last
    else Done false
  end.

(** [std::vector::operator[]] of a CA descriptor of the Verimatrix system. *)
Definition vmx_descriptor (pmt : list Z) (k : Z) : outcome bool :=
  tag ← rd pmt k;
  if tag =? 9 then
    a ← rd pmt (k + 2);
    if a =? 86 then b ← rd pmt (k + 3); Done (b =? 1) else Done false
  else Done false.

Fixpoint stream_scan (fuel : nat) (pmt : list Z) (streamLoopOffset p remSectBytes : Z) : outcome bool :=
  match fuel with
  | O => Stop OutOfFuel
  | S fuel =>
    if 4 <? remSectBytes then
      let p := u32 (p + 3) in
      h ← rd pmt (streamLoopOffset + p);
      l ← rd pmt (streamLoopOffset + p + 1);
      let es_info_length := Z.land (Z.shiftl h 8 + l) 4095 in
      let p := u32 (p + 2) in
      found ← vmx_descriptor pmt (streamLoopOffset + p);
      if (found : bool) then Done true
      else stream_scan fuel pmt streamLoopOffset (u32 (p + es_info_length)) (u64 (remSectBytes - (es_info_length + 5)))
    else Done false
  end.

Definition isCaDescriptorPresentInPMT s : outcome bool :=
  let pmt := nk_pmt s in
  if zlen pmt <? programInfoIndex then Done false
  else
    t ← rd pmt 0;
    if negb (t =? 2) then Done false
    else
      h ← rd pmt 1; l ← rd pmt 2;
      let sectionLength := Z.land (Z.lor (Z.shiftl (Z.land h 15) 8) l) 4095 in
      if zlen pmt - 3 <? sectionLength then Done false
      else
        h ← rd pmt 10; l ← rd pmt 11;
        let descriptorLen := Z.land (Z.lor (Z.shiftl (Z.land h 15) 8) l) 4095 in
        if sectionLength <? descriptorLen then Done false
        else
          let fuel := S (length pmt) in
          inProgram ← program_loop fuel pmt programInfoIndex (programInfoIndex + descriptorLen - 1);
          let remSectBytes := u64 (u64 (sectionLength - 9) - descriptorLen) in
          inStreams ← stream_scan fuel pmt (programInfoIndex + descriptorLen) 0 remSectBytes;
          Done ((inProgram : bool) || (inStreams : bool)).

(** ** Datagrams *)

Definition publish (clear : bool) s : NokiaSocketCbHandler :=
  s <| nk_events := nk_events s ++
         [SetDrm0 (mkStreamProtectionConfig HIGH (mChannelIp s) (nk_ecm s) (nk_pat s) (nk_pmt s) clear)] |>.

Definition notify_status (status : demuxer_status) (feipId : Z) s : NokiaSocketCbHandler :=
  s <| nk_events := nk_events s ++ [StatusChanged status feipId] |>.

(** The block under the lock; [res] is the length of the datagram. [feip0] is what [feipId]
    holds before it is set. *)
Definition nokia_message (res feip0 : Z) s : outcome NokiaSocketCbHandler :=
  if res <? NOKIA_SECTION_LENGHT_TYPE_SIZE then Done s
  else if negb (mIsPatPmtReceived s) && (res =? NOKIA_SECTION_LENGHT_TYPE_SIZE) then Done s
  else if mIsEcmReceived s then Done s
  else
    let '(msgType, s) :=
      if mIsPatPmtReceived s then (ECM_MESSAGE, s <| mIsEcmReceived := true |>)
      else (PAT_PMT_MESSAGE, s <| mIsPatPmtReceived := true |>) in
    '(r, feipId, s) ← parseSections res msgType feip0 s;
    if r =? 0 then
      Done (match msgType with
            | ECM_MESSAGE => notify_status ECM_UPDATED feipId (publish false s)
            | PAT_PMT_MESSAGE => notify_status PAT_PMT_UPDATED feipId s
            end)
    else match msgType with
         | ECM_MESSAGE =>
           if res =? NOKIA_SECTION_LENGHT_TYPE_SIZE then
             ca ← isCaDescriptorPresentInPMT s;
             Done (if (ca : bool) then s else publish true s)
           else Done s
         | PAT_PMT_MESSAGE => Done s
         end.

(** A turn of the loop: what [recvfrom] does, and the block. The result of a call that fails is
    kept in an [unsigned]. *)
Definition nokia_turn (datagram : option (list Z)) (feip0 : Z) s : outcome NokiaSocketCbHandler :=
  match datagram with
  | Some d =>
    let d := ztake SOCKET_MAXLINE d in
    nokia_message (zlen d) feip0 (s <| nk_buffer := d ++ zdrop (zlen d) (nk_buffer s) |>)
  | None => nokia_message (u32 (-1)) feip0 s
  end.

End nokia.

(** The class as a callback handler. *)
#[export] Instance nokia_handler : CallbackHandler NokiaSocketCbHandler := {
  ch_switched uri := nokia_switched (String.string_of_list_ascii uri);
  ch_events := nk_events;
}.

(** What has been published and notified. *)
Definition nk_published (s : NokiaSocketCbHandler) : list StreamProtectionConfig :=
  omap (fun e => match e with SetDrm0 v => Some v | _ => None end) (nk_events s).
Definition nk_notified (s : NokiaSocketCbHandler) : list (demuxer_status * Z) :=
  omap (fun e => match e with StatusChanged st id => Some (st, id) | _ => None end) (nk_events s).
