(* ===== verification/NokiaProps.v ===== *)
(** What [NokiaSocketCbHandler] publishes for the datagrams of a channel, when its scan of the
    PMT finds a CA descriptor, and what datagrams with a negative length do. *)

From S2P Require Import Prelude Protection PsiPmt MediaSource CallbackHandler Rtp Nokia.

(** * Numbers on the wire *)

(** Four bytes, the lowest first. *)
Definition le32 (n : Z) : list Z := [n mod 256; (n / 256) mod 256; (n / 65536) mod 256; (n / 16777216) mod 256].

Section nokia_props.
Context (char_signed : bool).
Implicit Types s : NokiaSocketCbHandler.

(** Numbers the handler reads right: those without the sign bit, and where [char] is signed
    those all of whose bytes are below 128. *)
Definition wire_ok (n : Z) : Prop :=
  0 <= n < 2147483648 /\ (char_signed = true -> Forall (fun b => b < 128) (le32 n)).

Lemma char_value_id b : 0 <= b < 256 -> (char_signed = true -> b < 128) -> char_value char_signed b = b.
Proof. intros Hb Hs; unfold char_value; destruct char_signed; [|done]; apply signed_wrap_small; specialize (Hs eq_refl); lia. Qed.

Lemma le32_value n : 0 <= n < 2147483648 ->
  n mod 256 + Z.shiftl ((n / 256) mod 256) 8 + Z.shiftl ((n / 65536) mod 256) 16 +
  Z.shiftl ((n / 16777216) mod 256) 24 = n.
Proof.
  intros Hn; rewrite !Z.shiftl_mul_pow2 by lia.
  change (2 ^ 8) with 256; change (2 ^ 16) with 65536; change (2 ^ 24) with 16777216.
  replace (n / 65536) with (n / 256 / 256) by (rewrite Z.div_div by lia; done).
  replace (n / 16777216) with (n / 256 / 256 / 256) by (rewrite !Z.div_div by lia; done).
  pose proof (Z.div_mod n 256); pose proof (Z.div_mod (n / 256) 256); pose proof (Z.div_mod (n / 256 / 256) 256).
  assert (0 <= n / 256 / 256 / 256 < 256).
  { rewrite !Z.div_div by lia; split; [apply Z.div_pos; lia|apply Z.div_lt_upper_bound; lia]. }
  rewrite (Z.mod_small (n / 256 / 256 / 256)) by lia; lia.
Qed.

Lemma byteBufToInt_le32 pre n post : wire_ok n -> byteBufToInt char_signed (pre ++ le32 n ++ post) (zlen pre) = Done n.
Proof.
  intros [Hn Hb].
  assert (Hm : Forall (fun b => 0 <= b < 256) (le32 n)) by (repeat constructor; apply Z.mod_pos_bound; lia).
  assert (Hr : forall j b, le32 n !! j = Some b ->
    rd_char char_signed (pre ++ le32 n ++ post) (zlen pre + Z.of_nat j) = Done b).
  { intros j b Hj; unfold rd_char; rewrite rd_app_r by (unfold zlen; lia).
    assert (Hrd : rd (le32 n ++ post) (zlen pre + Z.of_nat j - zlen pre) = Done b).
    { replace (zlen pre + Z.of_nat j - zlen pre) with (Z.of_nat j) by lia.
      destruct j as [|[|[|[|j]]]]; [by injection Hj as <-..|done]. }
    rewrite Hrd, bind_Done, char_value_id; [done|exact (Forall_lookup_1 _ _ _ _ Hm Hj)|].
    intros Hs; exact (Forall_lookup_1 _ _ _ _ (Hb Hs) Hj). }
  pose proof (Hr 0%nat _ eq_refl) as H0; pose proof (Hr 1%nat _ eq_refl) as H1.
  pose proof (Hr 2%nat _ eq_refl) as H2; pose proof (Hr 3%nat _ eq_refl) as H3.
  change (Z.of_nat 1) with 1 in H1; change (Z.of_nat 2) with 2 in H2; change (Z.of_nat 3) with 3 in H3.
  rewrite Z.add_0_r in H0.
  unfold byteBufToInt; rewrite H0, bind_Done, H1, bind_Done, H2, bind_Done, H3, bind_Done, le32_value by lia.
  by rewrite s32_small by lia.
Qed.

(** The same at an index of a buffer that is put together otherwise. *)
Lemma wire_at pre n post buf i : wire_ok n -> buf = pre ++ le32 n ++ post -> i = zlen pre ->
  byteBufToInt char_signed buf i = Done n.
Proof. intros Hn -> ->; by apply byteBufToInt_le32. Qed.

Lemma section_at (pre l post buf : list Z) i : buf = pre ++ l ++ post -> i = zlen pre -> slice buf i (zlen l) = Done l.
Proof. intros -> ->; apply slice_mid. Qed.

(** * An encrypted channel *)

Definition pat_pmt_datagram (feip : Z) (pat pmt : list Z) : list Z :=
  le32 feip ++ le32 (zlen pat) ++ pat ++ le32 (zlen pmt) ++ pmt.

Definition ecm_datagram (feip : Z) (ecm : list Z) : list Z := le32 feip ++ le32 (zlen ecm) ++ ecm.

Lemma zlen_le32 n : zlen (le32 n) = 4.
Proof. done. Qed.

Ltac wire := first [assumption | reflexivity | rewrite ?zlen_app, ?zlen_le32, <- ?app_assoc; first [reflexivity | lia]].

(** A section without bytes is not assigned. *)
Definition take_pat (pat : list Z) s : NokiaSocketCbHandler := match pat with [] => s | _ => set_pat pat s end.
Definition take_pmt (pmt : list Z) s : NokiaSocketCbHandler := match pmt with [] => s | _ => set_pmt pmt s end.

Lemma parse_pat_pmt feip pat pmt rest feip0 s :
  wire_ok feip -> wire_ok (zlen pat) -> wire_ok (zlen pmt) ->
  nk_buffer s = pat_pmt_datagram feip pat pmt ++ rest -> zlen (pat_pmt_datagram feip pat pmt) <= SOCKET_MAXLINE ->
  parseSections char_signed (zlen (pat_pmt_datagram feip pat pmt)) PAT_PMT_MESSAGE feip0 s =
  Done (0, feip, take_pmt pmt (take_pat pat s)).
Proof.
  intros Hf Hp Hm Hb Hl; unfold pat_pmt_datagram in *; revert Hl; rewrite !zlen_app, !zlen_le32; intros Hl.
  pose proof (zlen_nonneg pat); pose proof (zlen_nonneg pmt); unfold SOCKET_MAXLINE in Hl; rewrite <- !app_assoc in Hb.
  unfold parseSections, NOKIA_SECTION_LENGHT_TYPE_SIZE; rewrite (proj2 (Z.ltb_ge _ _)), Hb by lia.
  erewrite (wire_at [] feip _ _ 0) by wire; rewrite bind_Done; cbv zeta.
  erewrite (wire_at (le32 feip) (zlen pat) _ _ 4) by wire; rewrite bind_Done; cbv zeta.
  rewrite (u32_small (4 + 4)), (u32_small (zlen pat + _)), (proj2 (Z.ltb_ge _ _)) by lia.
  erewrite (section_at (le32 feip ++ le32 (zlen pat)) pat) by wire; rewrite bind_Done.
  replace (if 0 <? zlen pat then Done (set_pat pat s) else Done s) with (Done (take_pat pat s)) by (by destruct pat).
  rewrite bind_Done, (u32_small (4 + 4 + _)) by lia; cbv zeta.
  rewrite (wire_at (le32 feip ++ le32 (zlen pat) ++ pat) (zlen pmt) (pmt ++ rest)), bind_Done by wire.
  rewrite (u32_small (4 + 4 + zlen pat + 4)), (u32_small (zlen pmt + _)), (proj2 (Z.ltb_ge _ _)) by lia.
  erewrite (section_at (le32 feip ++ le32 (zlen pat) ++ pat ++ le32 (zlen pmt)) pmt) by wire; rewrite bind_Done.
  replace (if 0 <? zlen pmt then Done (set_pmt pmt (take_pat pat s)) else Done (take_pat pat s))
    with (Done (take_pmt pmt (take_pat pat s))) by (by destruct pmt).
  by rewrite bind_Done.
Qed.

Lemma parse_ecm feip ecm rest feip0 s :
  wire_ok feip -> wire_ok (zlen ecm) -> ecm <> [] ->
  nk_buffer s = ecm_datagram feip ecm ++ rest -> zlen (ecm_datagram feip ecm) <= SOCKET_MAXLINE ->
  parseSections char_signed (zlen (ecm_datagram feip ecm)) ECM_MESSAGE feip0 s = Done (0, feip, set_ecm ecm s).
Proof.
  intros Hf He Hn Hb Hl; unfold ecm_datagram in *; revert Hl; rewrite !zlen_app, !zlen_le32; intros Hl.
  assert (0 < zlen ecm) by (destruct ecm; [done|unfold zlen; cbn; lia]).
  unfold SOCKET_MAXLINE in Hl; rewrite <- !app_assoc in Hb.
  unfold parseSections, NOKIA_SECTION_LENGHT_TYPE_SIZE; rewrite (proj2 (Z.ltb_ge _ _)), Hb by lia.
  erewrite (wire_at [] feip _ _ 0) by wire; rewrite bind_Done; cbv zeta.
  rewrite (proj2 (Z.leb_gt _ _)) by lia; erewrite (wire_at (le32 feip) (zlen ecm) _ _ 4) by wire; rewrite bind_Done; cbv zeta.
  rewrite (u32_small (4 + 4)), (u32_small (zlen ecm + _)), (proj2 (Z.ltb_ge _ _)), (proj2 (Z.eqb_neq _ _)) by lia.
  cbn [orb]; erewrite (section_at (le32 feip ++ le32 (zlen ecm)) ecm) by wire; by rewrite bind_Done.
Qed.

(** What a datagram leaves in the buffer. *)
Definition received (d : list Z) s : NokiaSocketCbHandler := s <| nk_buffer := d ++ zdrop (zlen d) (nk_buffer s) |>.

Lemma turn_pat_pmt ip feip pat pmt f s : wire_ok feip -> wire_ok (zlen pat) -> wire_ok (zlen pmt) ->
  zlen (pat_pmt_datagram feip pat pmt) <= SOCKET_MAXLINE ->
  nokia_turn char_signed (Some (pat_pmt_datagram feip pat pmt)) f (nokia_switched ip s) =
  Done (notify_status PAT_PMT_UPDATED feip
          (take_pmt pmt (take_pat pat
             ((received (pat_pmt_datagram feip pat pmt) (nokia_switched ip s)) <| mIsPatPmtReceived := true |>)))).
Proof.
  intros Hf Hp Hm Hl; unfold nokia_turn; rewrite ztake_all by done; fold (received (pat_pmt_datagram feip pat pmt) (nokia_switched ip s)).
  assert (8 <= zlen (pat_pmt_datagram feip pat pmt)).
  { unfold pat_pmt_datagram; rewrite !zlen_app, !zlen_le32; pose proof (zlen_nonneg pat); pose proof (zlen_nonneg pmt); lia. }
  unfold nokia_message, NOKIA_SECTION_LENGHT_TYPE_SIZE; rewrite (proj2 (Z.ltb_ge _ _)), (proj2 (Z.eqb_neq _ 4)) by lia.
  change (mIsPatPmtReceived (received (pat_pmt_datagram feip pat pmt) (nokia_switched ip s))) with false.
  change (mIsEcmReceived (received (pat_pmt_datagram feip pat pmt) (nokia_switched ip s))) with false.
  cbn [negb andb]; cbv iota beta.
  erewrite (parse_pat_pmt feip pat pmt) by first [eassumption | reflexivity]; by rewrite bind_Done.
Qed.

Lemma turn_ecm feip ecm f s : wire_ok feip -> wire_ok (zlen ecm) -> ecm <> [] ->
  mIsPatPmtReceived s = true -> mIsEcmReceived s = false -> zlen (ecm_datagram feip ecm) <= SOCKET_MAXLINE ->
  nokia_turn char_signed (Some (ecm_datagram feip ecm)) f s =
  Done (notify_status ECM_UPDATED feip (publish false
          (set_ecm ecm ((received (ecm_datagram feip ecm) s) <| mIsEcmReceived := true |>)))).
Proof.
  intros Hf He Hn Ep Ee Hl; unfold nokia_turn; rewrite ztake_all by done; fold (received (ecm_datagram feip ecm) s).
  assert (8 <= zlen (ecm_datagram feip ecm)).
  { unfold ecm_datagram; rewrite !zlen_app, !zlen_le32; pose proof (zlen_nonneg ecm); lia. }
  unfold nokia_message, NOKIA_SECTION_LENGHT_TYPE_SIZE; rewrite (proj2 (Z.ltb_ge _ _)) by lia.
  change (mIsPatPmtReceived (received (ecm_datagram feip ecm) s)) with (mIsPatPmtReceived s).
  change (mIsEcmReceived (received (ecm_datagram feip ecm) s)) with (mIsEcmReceived s).
  rewrite Ep, Ee; cbn [negb andb]; cbv iota beta.
  erewrite (parse_ecm feip ecm) by first [eassumption | reflexivity]; by rewrite bind_Done.
Qed.

(** After the ECM nothing is looked at. *)
Lemma turn_ignored d f s s' : mIsEcmReceived s = true -> nokia_turn char_signed d f s = Done s' ->
  nk_events s' = nk_events s.
Proof.
  intros He; unfold nokia_turn, nokia_message; destruct d as [d|]; cbv zeta.
  - change (mIsEcmReceived (s <| nk_buffer := ztake SOCKET_MAXLINE d ++ zdrop (zlen (ztake SOCKET_MAXLINE d)) (nk_buffer s) |>))
      with (mIsEcmReceived s); rewrite He; repeat case_if; by intros [= <-].
  - rewrite He; repeat case_if; by intros [= <-].
Qed.

(** What the two datagrams of a channel do to the others, in this order. *)
Definition section_events (v : bytes_variable) (l : list Z) : list handler_event :=
  match l with [] => [] | _ => [SetBytes v l] end.

Lemma switched_events ip s : nk_events (nokia_switched ip s) =
  nk_events s ++ [SetBytes kEcm0 []; SetBytes kPmt0 []; SetBytes kPat0 []].
Proof. unfold nokia_switched, set_pat, set_pmt, set_ecm; cbn; by rewrite <- !app_assoc. Qed.

Lemma nokia_channel (ip : string) (feip : Z) (pat pmt ecm : list Z) (f1 f2 : Z) s :
  wire_ok feip -> wire_ok (zlen pat) -> wire_ok (zlen pmt) -> wire_ok (zlen ecm) -> ecm <> [] ->
  zlen (pat_pmt_datagram feip pat pmt) <= SOCKET_MAXLINE -> zlen (ecm_datagram feip ecm) <= SOCKET_MAXLINE ->
  exists s1 s2,
  nokia_turn char_signed (Some (pat_pmt_datagram feip pat pmt)) f1 (nokia_switched ip s) = Done s1 /\
  nokia_turn char_signed (Some (ecm_datagram feip ecm)) f2 s1 = Done s2 /\
  nk_events s1 = nk_events (nokia_switched ip s) ++ section_events kPat0 pat ++ section_events kPmt0 pmt ++
    [StatusChanged PAT_PMT_UPDATED feip] /\
  nk_events s2 = nk_events s1 ++ [SetBytes kEcm0 ecm;
    SetDrm0 (mkStreamProtectionConfig HIGH ip ecm pat pmt false); StatusChanged ECM_UPDATED feip] /\
  mIsEcmReceived s2 = true.
Proof.
  intros Hf Hp Hm He Hn L1 L2; eexists _, _; split; [by apply turn_pat_pmt|].
  split; [apply turn_ecm; try done; by destruct pat, pmt|].
  split; [destruct pat, pmt; cbn; by rewrite <- ?app_assoc|].
  split; [|done]; unfold notify_status, publish, set_ecm; destruct pat, pmt; cbn; by rewrite <- !app_assoc.
Qed.

(** C22. After a channel switch, the datagram with the PAT and the PMT and the one with the ECM
    have the three of them published once, for the channel switched to and as encrypted, and
    the status callback told of both; what follows before the next switch is ignored. *)
Theorem nokia_publishes (ip : string) (feip : Z) (pat pmt ecm : list Z) (f1 f2 : Z) s :
  wire_ok feip -> wire_ok (zlen pat) -> wire_ok (zlen pmt) -> wire_ok (zlen ecm) -> ecm <> [] ->
  zlen (pat_pmt_datagram feip pat pmt) <= SOCKET_MAXLINE -> zlen (ecm_datagram feip ecm) <= SOCKET_MAXLINE ->
  exists s1 s2,
  nokia_turn char_signed (Some (pat_pmt_datagram feip pat pmt)) f1 (nokia_switched ip s) = Done s1 /\
  nokia_turn char_signed (Some (ecm_datagram feip ecm)) f2 s1 = Done s2 /\
  nk_published s2 = nk_published s ++ [mkStreamProtectionConfig HIGH ip ecm pat pmt false] /\
  nk_notified s2 = nk_notified s ++ [(PAT_PMT_UPDATED, feip); (ECM_UPDATED, feip)] /\
  forall d f s3, nokia_turn char_signed d f s2 = Done s3 -> nk_events s3 = nk_events s2.
Proof.
  intros Hf Hp Hm He Hn L1 L2.
  destruct (nokia_channel ip feip pat pmt ecm f1 f2 s) as (s1 & s2 & T1 & T2 & E1 & E2 & E3); try done.
  exists s1, s2; split; [exact T1|split; [exact T2|]].
  split; [|split; [|intros d f s3; by apply turn_ignored]]; unfold nk_published, nk_notified;
    rewrite E2, E1, switched_events, !omap_app; destruct pat, pmt; cbn; by rewrite ?app_nil_r, <- ?app_assoc.
Qed.

(** * Negative lengths *)

Lemma byteBufToInt_app d rest i n : byteBufToInt char_signed d i = Done n ->
  byteBufToInt char_signed (d ++ rest) i = Done n.
Proof.
  assert (Hr : forall j b, rd_char char_signed d j = Done b -> rd_char char_signed (d ++ rest) j = Done b).
  { intros j b; unfold rd_char; intros (x & Hx & Hb)%bind_done_inv.
    by rewrite rd_app_l, Hx by (by eapply rd_range_inv). }
  unfold byteBufToInt; intros (b0 & H0 & (b1 & H1 & (b2 & H2 & (b3 & H3 & H)%bind_done_inv)%bind_done_inv)%bind_done_inv)%bind_done_inv.
  apply Hr in H0, H1, H2, H3; by rewrite H0, bind_Done, H1, bind_Done, H2, bind_Done, H3, bind_Done.
Qed.

(** C38. An ECM datagram whose length is between -8 and -1 passes the test against the size of
    the datagram, which is made without a sign, and a section is taken that ends before it
    starts: undefined behaviour that anyone who can send to the port can cause. *)
Theorem nokia_negative_length (d : list Z) (feip n f : Z) s :
  mIsPatPmtReceived s = true -> mIsEcmReceived s = false -> 8 <= zlen d <= SOCKET_MAXLINE ->
  byteBufToInt char_signed d 0 = Done feip -> byteBufToInt char_signed d 4 = Done n -> -8 <= n < 0 ->
  nokia_turn char_signed (Some d) f s = Stop Ub.
Proof.
  intros Ep Ee Hl Hf%(byteBufToInt_app _ (zdrop (zlen d) (nk_buffer s))) Hn%(byteBufToInt_app _ (zdrop (zlen d) (nk_buffer s))) Hr.
  unfold nokia_turn; rewrite ztake_all by lia; fold (received d s).
  unfold nokia_message, NOKIA_SECTION_LENGHT_TYPE_SIZE; rewrite (proj2 (Z.ltb_ge _ _)) by lia.
  change (mIsPatPmtReceived (received d s)) with (mIsPatPmtReceived s).
  change (mIsEcmReceived (received d s)) with (mIsEcmReceived s).
  rewrite Ep, Ee; cbn [negb andb]; cbv iota beta; unfold parseSections, NOKIA_SECTION_LENGHT_TYPE_SIZE.
  change (nk_buffer ((received d s) <| mIsEcmReceived := true |>)) with (d ++ zdrop (zlen d) (nk_buffer s)).
  rewrite (proj2 (Z.ltb_ge _ _)), Hf, bind_Done, (proj2 (Z.leb_gt _ _)), Hn, bind_Done by lia; cbv zeta.
  rewrite (u32_small (4 + 4)), (u32_small (n + _)), (proj2 (Z.ltb_ge _ _)), (proj2 (Z.eqb_neq n 0)) by lia; cbn [orb].
  unfold slice; by rewrite (proj2 (Z.leb_gt 0 n)), andb_false_r by lia.
Qed.
End nokia_props.

(** * The scan of the PMT *)

(** A Verimatrix descriptor is where an elementary stream's descriptors start. *)
Definition starts_vmx (l : list Z) : bool :=
  match l with t :: _ :: a :: b :: _ => (t =? 9) && (a =? 86) && (b =? 1) | _ => false end.

Fixpoint streams_vmx (l : list elementary_stream) (crc : list Z) : bool :=
  match l with
  | [] => false
  | e :: l => starts_vmx (encode_descs (es_descs e) ++ encode_streams l ++ crc) || streams_vmx l crc
  end.

Definition is_ca (d : descriptor) : bool := d_tag d =? 9.

Lemma lor_bytes a l : 0 <= a -> 0 <= l < 256 -> Z.lor (Z.shiftl a 8) l = Z.shiftl a 8 + l.
Proof.
  intros Ha Hl; apply Z.bits_inj'; intros k Hk; rewrite Z.lor_spec, Z.shiftl_spec by done.
  replace (Z.shiftl a 8 + l) with (l + a * 2 ^ 8) by (rewrite Z.shiftl_mul_pow2; lia).
  destruct (Z_lt_dec k 8).
  - rewrite <- (Z.mod_pow2_bits_low (l + _) 8) by lia; rewrite Z.mod_add, Z.mod_small by lia.
    by rewrite (Z.testbit_neg_r a) by lia.
  - replace k with (k - 8 + 8) at 2 3 by lia; rewrite <- !Z.div_pow2_bits by lia.
    by rewrite Z.div_add, Z.div_small, Z.bits_0, orb_false_r, Z.add_0_l by lia.
Qed.

(** A length as the scan reads it. *)
Lemma scan_length marker v : 0 <= v < 4096 -> 0 <= marker -> marker mod 16 = 0 ->
  Z.land (Z.lor (Z.shiftl (Z.land (marker + v / 256) 15) 8) (v mod 256)) 4095 = v.
Proof.
  intros Hv Hm Hd; pose proof (Z.mod_pos_bound v 256).
  assert (Hq : 0 <= v / 256 < 16) by (split; [apply Z.div_pos; lia|apply Z.div_lt_upper_bound; lia]).
  assert (Hh : Z.land (marker + v / 256) 15 = v / 256).
  { change 15 with (Z.ones 4); rewrite Z.land_ones by lia; change (2 ^ 4) with 16.
    rewrite Z.add_mod, Hd, Z.add_0_l, Z.mod_mod, Z.mod_small by lia; done. }
  rewrite Hh, lor_bytes by lia; change (v / 256) with (0 + v / 256) at 1; by rewrite decode_length.
Qed.

Section scan.
Context (pmt : list Z).

Lemma program_loop_spec ds : forall fuel i last rest, Forall descriptor_ok ds ->
  zdrop i pmt = encode_descs ds ++ rest -> 0 <= i -> last = i + zlen (encode_descs ds) - 1 ->
  (length ds < fuel)%nat -> program_loop fuel pmt i last = Done (existsb is_ca ds).
Proof.
  induction ds as [|d ds IH]; intros fuel i last rest Hok Hd Hi -> Hf; destruct fuel as [|fuel]; cbn in Hf; try lia; cbn [program_loop].
  - change (zlen (encode_descs [])) with 0; by rewrite (proj2 (Z.ltb_ge _ _)) by lia.
  - apply Forall_cons in Hok as [Hk Hok]; change (encode_descs (d :: ds)) with (encode_descriptor d ++ encode_descs ds) in *.
    pose proof (zlen_nonneg (encode_descs ds)); pose proof (zlen_nonneg (d_body d)).
    assert (Hz : zlen (encode_descriptor d) = zlen (d_body d) + 2) by (unfold encode_descriptor; rewrite !zlen_cons; lia).
    rewrite zlen_app, Hz, (proj2 (Z.ltb_lt _ _)) by lia; rewrite <- app_assoc in Hd.
    destruct (read_descriptor pmt d _ i Hd Hi) as (-> & -> & _); rewrite !bind_Done; cbn [existsb]; unfold is_ca at 1.
    destruct (d_tag d =? 9); [done|]; cbn [orb].
    apply (IH fuel _ _ rest); [done|by rewrite <- Hz; apply (zdrop_cut _ (encode_descriptor d))|lia..].
Qed.

Lemma vmx_descriptor_spec k l : zdrop k pmt = l -> 0 <= k -> 4 <= zlen l -> vmx_descriptor pmt k = Done (starts_vmx l).
Proof.
  intros Hd Hk Hl; unfold vmx_descriptor; rewrite <- (Z.add_0_r k) at 1; rewrite !(rd_at _ _ _ _ Hd) by lia.
  destruct l as [|t [|x [|a [|b l]]]]; autorewrite with zlen in Hl; try lia.
  change (rd (t :: x :: a :: b :: l) 0) with (Done t); change (rd (t :: x :: a :: b :: l) 2) with (Done a).
  change (rd (t :: x :: a :: b :: l) 3) with (Done b); rewrite !bind_Done; cbn [starts_vmx].
  by destruct (t =? 9), (a =? 86), (b =? 1).
Qed.

Lemma zlen_es e : zlen (encode_es e) = 5 + zlen (encode_descs (es_descs e)).
Proof. unfold encode_es; rewrite zlen_cons, !zlen_app; unfold encode_u16; rewrite !zlen_cons, zlen_nil; lia. Qed.

Lemma stream_scan_spec o ss : forall fuel p crc, zdrop (o + p) pmt = encode_streams ss ++ crc -> zlen crc = 4 ->
  0 <= o -> 0 <= p -> p + zlen (encode_streams ss) < 4096 -> (length ss < fuel)%nat ->
  stream_scan fuel pmt o p (zlen (encode_streams ss) + 4) = Done (streams_vmx ss crc).
Proof.
  induction ss as [|e ss IH]; intros fuel p crc Hd Hc Ho Hp Hl Hf; destruct fuel as [|fuel]; cbn in Hf; try lia; cbn [stream_scan].
  { done. }
  change (encode_streams (e :: ss)) with (encode_es e ++ encode_streams ss) in *.
  set (ds := encode_descs (es_descs e)); pose proof (zlen_nonneg ds); pose proof (zlen_nonneg (encode_streams ss)).
  pose proof (zlen_es e) as Hz; fold ds in Hz; revert Hl; rewrite zlen_app, Hz; intros Hl.
  rewrite (proj2 (Z.ltb_lt _ _)), (u32_small (p + 3)), (u32_small (p + 3 + 2)) by lia; rewrite <- app_assoc in Hd.
  assert (Hes : encode_es e = [es_type e; 224 + es_pid e / 256; es_pid e mod 256; 240 + zlen ds / 256; zlen ds mod 256] ++ ds) by done.
  assert (H3 : zdrop (o + p + 5) pmt = ds ++ encode_streams ss ++ crc).
  { rewrite Hes, <- app_assoc in Hd; exact (zdrop_cut _ [_; _; _; _; _] _ _ Hd ltac:(lia)). }
  replace (o + (p + 3)) with (o + p + 3) by lia; replace (o + p + 3 + 1) with (o + p + 4) by lia.
  replace (o + (p + 3 + 2)) with (o + p + 5) by lia.
  assert (R3 : rd pmt (o + p + 3) = Done (240 + zlen ds / 256)) by (rewrite (rd_at _ _ _ _ Hd) by lia; done).
  assert (R4 : rd pmt (o + p + 4) = Done (zlen ds mod 256)) by (rewrite (rd_at _ _ _ _ Hd) by lia; done).
  rewrite R3, bind_Done, R4, bind_Done, decode_length by (done || lia); cbv zeta.
  rewrite (vmx_descriptor_spec _ _ H3), bind_Done by (rewrite ?zlen_app; lia); cbn [streams_vmx]; fold ds.
  destruct (starts_vmx _); [done|]; cbn [orb].
  rewrite (u32_small (p + 3 + 2 + _)), u64_small by lia.
  replace (5 + zlen ds + zlen (encode_streams ss) + 4 - (zlen ds + 5)) with (zlen (encode_streams ss) + 4) by lia.
  apply IH; [|done|lia..].
  replace (o + (p + 3 + 2 + zlen ds)) with (o + p + 5 + zlen ds) by lia; exact (zdrop_cut _ ds _ _ H3 ltac:(lia)).
Qed.

End scan.

Lemma descs_count ds : (length ds <= length (encode_descs ds))%nat.
Proof.
  induction ds as [|d ds IH]; [done|]; change (encode_descs (d :: ds)) with (encode_descriptor d ++ encode_descs ds).
  rewrite length_app; cbn; lia.
Qed.

Lemma streams_count ss : (length ss <= length (encode_streams ss))%nat.
Proof.
  induction ss as [|e ss IH]; [done|]; change (encode_streams (e :: ss)) with (encode_es e ++ encode_streams ss).
  rewrite length_app; cbn; lia.
Qed.

(** The table in front of and behind its twelve first bytes. *)
Lemma encode_pmt_shape t : exists a b c d e f g,
  encode_pmt t = [2; 176 + section_length t / 256; section_length t mod 256; a; b; c; d; e; f; g;
    240 + zlen (encode_descs (pmt_descs t)) / 256; zlen (encode_descs (pmt_descs t)) mod 256] ++
    encode_descs (pmt_descs t) ++ encode_streams (pmt_streams t) ++ pmt_crc t.
Proof. unfold encode_pmt, encode_u16; cbn [app]; by repeat eexists. Qed.

Lemma rd_lookup_app (l k : list Z) i x : 0 <= i -> l !! Z.to_nat i = Some x -> rd (l ++ k) i = Done x.
Proof.
  intros H0 Hi; pose proof (lookup_lt_Some _ _ _ Hi); rewrite rd_app_l by (unfold zlen; lia); unfold rd.
  by rewrite (proj2 (Z.leb_le _ _)), Hi by lia.
Qed.

(** On every encoded PMT the scan ends without leaving the table, and finds a CA descriptor
    exactly if one of the program's descriptors has that tag, or a Verimatrix one comes first
    behind the header of an elementary stream. *)
Theorem ca_scan_correct (t : program_map) (s : NokiaSocketCbHandler) :
  program_map_ok t -> section_length t < 4096 -> nk_pmt s = encode_pmt t ->
  isCaDescriptorPresentInPMT s =
  Done (existsb is_ca (pmt_descs t) || streams_vmx (pmt_streams t) (pmt_crc t)).
Proof.
  intros Hok Hl Hs; unfold isCaDescriptorPresentInPMT; rewrite Hs.
  destruct (encode_pmt_shape t) as (a & b & c & d & e & f & g & E); unfold section_length in *.
  pose proof (t_crc t Hok) as Hcrc; pose proof (descs_count (pmt_descs t)); pose proof (streams_count (pmt_streams t)).
  set (ds := encode_descs (pmt_descs t)) in *; set (ss := encode_streams (pmt_streams t)) in *.
  pose proof (zlen_nonneg ds); pose proof (zlen_nonneg ss).
  assert (Hz : zlen (encode_pmt t) = 12 + zlen ds + zlen ss + 4) by (rewrite E, !zlen_app, Hcrc; done || (unfold zlen; cbn; lia)).
  assert (Hd : zdrop 12 (encode_pmt t) = ds ++ ss ++ pmt_crc t) by (by rewrite E).
  assert (R : forall i x, 0 <= i -> [2; 176 + (9 + zlen ds + zlen ss + 4) / 256; (9 + zlen ds + zlen ss + 4) mod 256; a; b; c; d; e; f; g;
    240 + zlen ds / 256; zlen ds mod 256] !! Z.to_nat i = Some x -> rd (encode_pmt t) i = Done x).
  { intros i x Hi Hx; rewrite E; by apply rd_lookup_app. }
  unfold programInfoIndex; rewrite (proj2 (Z.ltb_ge _ _)) by lia.
  rewrite (R 0 _ ltac:(lia) eq_refl), bind_Done, (R 1 _ ltac:(lia) eq_refl), bind_Done, (R 2 _ ltac:(lia) eq_refl), bind_Done.
  rewrite (R 10 _ ltac:(lia) eq_refl), bind_Done, (R 11 _ ltac:(lia) eq_refl), bind_Done; cbv zeta.
  rewrite !scan_length by (done || lia); rewrite !(proj2 (Z.ltb_ge _ _)) by lia; cbn [Z.eqb Pos.eqb negb].
  assert (Hlen : Z.of_nat (length (encode_pmt t)) = zlen (encode_pmt t)) by done.
  rewrite (program_loop_spec _ (pmt_descs t) _ 12 _ (ss ++ pmt_crc t) (t_descs t Hok) Hd), bind_Done; [|done..|unfold zlen in *; lia].
  rewrite u64_small by (rewrite u64_small by lia; lia); rewrite u64_small by lia.
  replace (9 + zlen ds + zlen ss + 4 - 9 - zlen ds) with (zlen ss + 4) by lia; unfold ss.
  rewrite (stream_scan_spec _ _ (pmt_streams t) _ 0 (pmt_crc t)), bind_Done; [done|..|fold ss; unfold zlen in *; lia]; fold ss; try done; try lia.
  rewrite Z.add_0_r; exact (zdrop_cut _ ds _ _ Hd ltac:(lia)).
Qed.

(** * Examples *)

Definition ca_desc : descriptor := mkDescriptor 9 [86; 1; 225; 1].
Definition language_desc : descriptor := mkDescriptor 10 [101; 110; 103; 0].

(** A stream whose CA descriptor comes second. *)
Definition late_ca : program_map := mkPMT 1 0 256 [] [mkES 27 256 [language_desc; ca_desc]] [1; 2; 3; 4].
Definition early_ca : program_map := mkPMT 1 0 256 [] [mkES 27 256 [ca_desc; language_desc]] [1; 2; 3; 4].

Definition with_pmt (t : program_map) : NokiaSocketCbHandler := mkNokia [] true false "" [] (encode_pmt t) [] [].

Lemma sample_map_ok ds : Forall descriptor_ok ds -> program_map_ok (mkPMT 1 0 256 [] [mkES 27 256 ds] [1; 2; 3; 4]).
Proof. intros H; split; [cbn; lia|constructor|by repeat constructor|done]. Qed.

Lemma sample_descs_ok : Forall descriptor_ok [ca_desc; language_desc].
Proof.
  repeat apply Forall_cons_2; [| |constructor]; (split; [apply (bool_decide_unpack _); by vm_compute..|by vm_compute|by vm_compute]).
Qed.

Lemma ca_scan_correct_witness : isCaDescriptorPresentInPMT (with_pmt early_ca) = Done true.
Proof.
  exact (ca_scan_correct early_ca (with_pmt early_ca) (sample_map_ok _ sample_descs_ok) ltac:(by vm_compute) eq_refl).
Defined.

(** A CA descriptor of a stream that is not its first descriptor is missed: the table counts
    as encrypted for the PSI parser, and as clear for this scan. *)
Lemma late_ca_missed : existsb is_vmx (all_es_descs (pmt_streams late_ca)) = true /\
  isCaDescriptorPresentInPMT (with_pmt late_ca) = Done false.
Proof. by vm_compute. Qed.

Definition idle_handler : NokiaSocketCbHandler := NokiaSocketCbHandler_new (replicate (Z.to_nat (SOCKET_MAXLINE + 1)) 0).

Lemma small_wire_ok b n : 0 <= n < 128 -> wire_ok b n.
Proof.
  intros Hn; split; [lia|]; intros _; unfold le32.
  rewrite !Z.mod_small, !Z.div_small by (rewrite ?Z.div_small by lia; lia); repeat constructor; lia.
Qed.

Lemma nokia_publishes_witness : exists s1 s2,
  nokia_turn true (Some (pat_pmt_datagram 5 [0; 1] [2; 3; 4])) 0 (nokia_switched "ch" idle_handler) = Done s1 /\
  nokia_turn true (Some (ecm_datagram 5 [128; 7])) 0 s1 = Done s2 /\
  nk_published s2 = [mkStreamProtectionConfig HIGH "ch" [128; 7] [0; 1] [2; 3; 4] false].
Proof.
  destruct (nokia_publishes true "ch" 5 [0; 1] [2; 3; 4] [128; 7] 0 0 idle_handler) as (s1 & s2 & E1 & E2 & Hp & _);
    [apply small_wire_ok; unfold zlen; cbn; lia..|done|by vm_compute|by vm_compute|].
  exists s1, s2; split; [exact E1|split; [exact E2|exact Hp]].
Defined.

Definition waiting_for_ecm : NokiaSocketCbHandler := mkNokia (replicate (Z.to_nat (SOCKET_MAXLINE + 1)) 0) true false "ch" [] [] [] [].

(** -4 as an [int], where [char] is not signed. *)
Lemma nokia_negative_length_witness : nokia_turn false (Some [5; 0; 0; 0; 252; 255; 255; 255]) 0 waiting_for_ecm = Stop Ub.
Proof.
  apply (nokia_negative_length false _ 5 (-4)); [done|done|by vm_compute|by vm_compute|by vm_compute|lia].
Defined.

(** A [recvfrom] that fails counts as a datagram of 2^32 - 1 bytes: what the buffer held before
    is taken for the PAT and the PMT. *)
Lemma recv_failure_taken : mIsPatPmtReceived <$> nokia_turn true None 0 (nokia_switched "ch" idle_handler) = Done true.
Proof. by vm_compute. Qed.
