(* ===== verification/NokiaPlugin.v ===== *)
(** The plugin on the set-top box: FCCPlugin with the callback handler of
    3rdparty/nokia/NokiaSocketCbHandler.cpp. Selecting a channel starts the PSI parser; the
    tables and the ECM of the channel reach drm0 from the stream or from the datagrams. *)

From Stdlib Require Import Ascii.
From Corelib Require Import SpecFloat.
From S2P Require Import Prelude Interfaces Json JsonParser JsonProps JsonRoundtrip StdString Regex ChannelConfig Protection BufferIndexer TimeShift TsStream PidInfo PsiParser PsiStream PsiInvariant PsiReach PsiPmt PsiEcm PsiChannel PsiPadding PsiThread ProtectionExport BufferQueue MediaSource CallbackHandler ConfigOptions Plugin PluginProps PluginChannel Rtp Nokia NokiaProps.

Section nokia_plugin.
Context {cfg : StreamfsConfig} {cfg_ok : StreamfsConfigOk cfg} {cb q : Type -> Type}.
Context {CB : CircularBuffer cb} {CBL : CircularBufferLaws cb} {Q : LockfreeQueue q} {QL : LockfreeQueueLaws q}.
Context {pool : Type} {RB : RingBuffer pool} {D : Type} {DX : Demuxer D}.
Context {Rx : BoostRegex} {Tl : BoostToLower} {Ia : InetAton} {Hx : BoostHex} {HxL : BoostHexLaws} {St : BoostStringAlgo}.
Context (sw_version : text) (pid : Z) (arch_x86_64 : bool).
Local Abbreviation plugin := (FCCPlugin D cb q pool NokiaSocketCbHandler).
Implicit Types p : plugin.

(** * Selecting a channel *)

(** No part of a packet waits in the parser, and the player plays. *)
Record idle (opid : Z) p : Prop := {
  id_stream : TSStream_ok (mTsStream (mPsi p));
  id_pending : pending (mTsStream (mPsi p)) = [];
  id_exit : mExitParserThread (mPsi p) = false;
  id_opid : mOpid (psi (mPsi p)) = opid;
  id_playing : playing (mTsbConsumer p);
  id_uris : mActiveUris p = available_channels_g;
}.

Lemma idle_frame opid p p' : mTsStream (mPsi p') = mTsStream (mPsi p) ->
  mExitParserThread (mPsi p') = mExitParserThread (mPsi p) -> mOpid (psi (mPsi p')) = mOpid (psi (mPsi p)) ->
  playing (mTsbConsumer p') -> mActiveUris p' = mActiveUris p -> idle opid p -> idle opid p'.
Proof. intros H1 H2 H3 H4 H5 [? ? ? ? ? ?]; split; rewrite ?H1, ?H2, ?H3, ?H5; done. Qed.

Lemma source_open_events uri id now s s' : source_open uri id now s = Done (s', 0) -> uri <> [] ->
  exists pre, MediaSource.events s' = MediaSource.events s ++ pre ++ [StreamSwitched uri; OnOpen uri] /\
    (pre = [] \/ exists u, pre = [OnEndOfStream u]).
Proof.
  unfold source_open; case_if; [done|]; destruct (mSessions s !! id) as [feip|]; [|done].
  destruct (dx_getChannelStats _ _) as [d t]; cbv zeta.
  intros (c & _ & Hr)%bind_done_inv Hu; revert Hr; cbv beta zeta; unfold disconnect; case_if; cbv beta iota.
  - destruct uri as [|a uri]; [done|]; intros [= <-]; exists []; split; [|by left]; cbn; by rewrite <- app_assoc.
  - destruct uri as [|a uri]; [done|]; intros [= <-]; eexists [_]; split; [|right; by eexists]; cbn; by rewrite <- !app_assoc.
Qed.

(** The end of the old channel. *)
Lemma end_idle opid ck t u p p' : idle opid p -> deliver ck t (OnEndOfStream u) p = Done p' -> idle opid p'.
Proof.
  intros Hi; cbn [deliver]; intros [= <-]; set (p1 := tsb_done _ p).
  assert (H1 : mPsi p1 = mPsi p /\ mActiveUris p1 = mActiveUris p) by (unfold p1, tsb_done; by rewrite !fold_frame).
  destruct H1 as [Hm Hu]; apply (idle_frame _ p); rewrite ?psi_kept, ?psi_tsb, ?psi_uris, ?Hm; try done.
  unfold p1; rewrite tsb_kept; unfold TimeShift_onEndOfStream, TimeShift_reset; cbv zeta.
  destruct (id_playing _ _ Hi); destruct (negb _); by split.
Qed.

(** The callback handler makes kEcm0 empty, and the parser runs. *)
Lemma switch_runs opid ck t uri p p' : idle opid p -> deliver ck t (StreamSwitched uri) p = Done p' ->
  idle opid p' /\ mPsiParserRunning (mPsi p') = true.
Proof.
  intros Hi; cbn [deliver]; intros [= <-]; unfold handler_done; cbv zeta.
  change (ch_events (mDmxCb p)) with (nk_events (mDmxCb p)).
  change (ch_events (ch_switched uri (mDmxCb p))) with (nk_events (nokia_switched (String.string_of_list_ascii uri) (mDmxCb p))).
  rewrite switched_events, drop_app_length; split; [|done]; by apply (idle_frame _ p); [..|apply Hi| |].
Qed.

(** The parser waits for the first chunk of a channel. *)
Definition tuned (opid : Z) p : Prop :=
  idle opid p /\ ready (mPsi p) /\ exists st, psi (mPsi p) = onOpen_state st /\ mOpid st = opid.

Lemma tuned_frame opid p p' : mPsi p' = mPsi p -> playing (mTsbConsumer p') -> mActiveUris p' = mActiveUris p ->
  tuned opid p -> tuned opid p'.
Proof. intros Hm Hp Hu (Hi & Hr & Hst); split; [by apply (idle_frame _ p); rewrite ?Hm|by rewrite Hm]. Qed.

Lemma open_ready opid ck t uri p p' : idle opid p -> mPsiParserRunning (mPsi p) = true ->
  deliver ck t (OnOpen uri) p = Done p' -> tuned opid p'.
Proof.
  intros Hi Hr; cbn [deliver]; set (p1 := tsb_done _ p).
  assert (H1 : mPsi p1 = mPsi p /\ mActiveUris p1 = mActiveUris p) by (unfold p1, tsb_done; by rewrite !fold_frame).
  destruct H1 as [Hm Hu]; rewrite Hm; unfold PsiParser.onOpen.
  destruct (clearQueue_ok (mPsi p)) as (queue & -> & Hempty); rewrite !bind_Done; intros [= <-].
  unfold tuned; rewrite psi_kept; split; [|split; [|by exists (psi (mPsi p)); split; [|apply Hi]]].
  - apply (idle_frame _ p); rewrite ?psi_kept, ?psi_tsb, ?psi_uris; try done.
    unfold p1; rewrite tsb_kept; by destruct (id_playing _ _ Hi).
  - split; [done|done|apply Hi..].
Qed.

(** The events of a new channel. *)
Lemma events_tune opid ck uri pre p p' : idle opid p -> (pre = [] \/ exists u, pre = [OnEndOfStream u]) ->
  deliver_all ck 0 (pre ++ [StreamSwitched uri; OnOpen uri]) p = Done p' -> tuned opid p'.
Proof.
  assert (H2 : forall p1, idle opid p1 -> deliver_all ck 0 [StreamSwitched uri; OnOpen uri] p1 = Done p' -> tuned opid p').
  { intros p1 H1; cbn [deliver_all]; intros (p2 & D2 & (p3 & D3 & [= <-])%bind_done_inv)%bind_done_inv.
    destruct (switch_runs _ _ _ _ _ _ H1 D2) as [H2 R2]; by eapply open_ready. }
  intros Hi [->|[u ->]]; cbn [app]; [by apply H2|].
  cbn [deliver_all]; intros (p1 & D1 & Hd)%bind_done_inv; apply (H2 p1); [by eapply end_idle|exact Hd].
Qed.

(** A selection that is accepted leaves the parser waiting for the new channel. *)
Lemma select_tunes opid ck buf p n p1 : idle opid p -> erase_char NL buf <> [] ->
  plugin_write ck CONFIG_F_CHANNEL_SELECT buf 0 p = Done (n, p1) -> n <> -1 -> tuned opid p1.
Proof.
  intros Hi Hu; unfold plugin_write; cbn [Z.eqb negb].
  change (targetToConfigHandler CONFIG_F_CHANNEL_SELECT) with (Some CHANNEL_SELECT); cbv beta iota zeta.
  intros ([r p2] & Hw & [= <- <-])%bind_done_inv Hn; revert Hw; cbn [writeConfig]; unfold ChannelSelector_write; cbv zeta.
  set (p0 := match t_monotonic ck with Some t => _ | None => p end).
  assert (H0 : idle opid p0) by (unfold p0; destruct (t_monotonic ck); [by destruct Hi|done]); clearbody p0.
  rewrite (bool_decide_eq_true_2 (CONFIG_F_CHANNEL_SELECT = _)) by done.
  intros ([s c] & Ho & Hr)%bind_done_inv; revert Hr; cbv beta iota.
  intros (p3 & Hd & Hr)%bind_done_inv; revert Hr; cbv zeta.
  destruct (c =? 0) eqn:Ec; b2p; [|intros [= <- <-]; by destruct Hn]; subst c.
  assert (H3 : tuned opid p3).
  { destruct (source_open_events _ _ _ _ _ Ho Hu) as (pre & He & Hpre); revert Hd; unfold source_done; cbv zeta.
    rewrite He, drop_app_length; apply events_tune; [by destruct H0|done]. }
  pose proof H3 as (Hi3 & _); case_if; intros [= <- <-]; apply (tuned_frame _ p3); try done;
    [..|apply Hi3]; rewrite ?tsb_kept; try (unfold tsb_done; by rewrite fold_frame).
  by destruct (id_playing _ _ Hi3).
Qed.

(** * From the stream to drm0 *)

(** C1. An application selects an encrypted channel, at a time when no part of a packet of an older
    channel waits in the parser and the player is not paused ([idle]; a part that waits is not
    dropped, and what follows it is cut in the wrong places), with the parser's thread running and
    the files there; the text written has no NUL in it, and the write is accepted. Its stream comes
    in chunks that the parser's thread reads at any time, with the tables and the ECM among packets
    of other streams, all of which begin with the sync byte. Once the thread has read what is queued, drm0, read to its
    end with a buffer of any size (the text is shorter than 2 GB), is a text that decodes to the
    channel without its blanks, not clear, exactly the bytes of the ECM, and the sections of the
    PAT and the PMT. *)
Theorem drm_end_to_end (pow10 : Z -> spec_float) opid ck buf p n p1 patPacket pmtPacket table stream tail steps handle sz :
  let uri := erase_char NL buf in
  idle opid p -> uri <> [] -> Forall (fun x => x <> NUL) uri ->
  plugin_write ck CONFIG_F_CHANNEL_SELECT buf 0 p = Done (n, p1) -> n <> -1 ->
  encrypted_channel opid patPacket pmtPacket table stream -> Forall synced stream ->
  zlen tail < TS_PACKAGE_SIZE -> Forall step_ok steps -> concat (chunks steps) = concat stream ++ tail ->
  0 < sz < 2147483648 ->
  exists p2, exec_steps uri p1 steps = Done p2 /\
    (q_items (mQueue (mPsi p2)) = [] -> zlen (ProtectionInfo_read p2) < 2147483648 ->
     exists t pat pmt,
       read_file sw_version pid arch_x86_64 (S (length t)) handle CONFIG_F_PROTECTION_INFO sz 0 p2 = Done (t, p2) /\
       decodes_to pow10 t (unblank uri) false table pat pmt /\ copy_of patPacket pat /\ copy_of pmtPacket pmt).
Proof.
  intros uri Hi Hu Hnul Hw Hn Hch Hsync Htail Hsteps Hall Hsz.
  destruct (select_tunes opid ck buf p n p1 Hi Hu Hw Hn) as ([_ _ _ _ Hpl Huris] & Hready & st & Hpsi & Hopid).
  assert (Hb : is_bytes table) by (destruct Hch; by apply ecm_bytes).
  rewrite <- Hopid in Hch.
  destruct (channel_shown uri p1 st patPacket pmtPacket table stream tail steps Hpl Hready Hpsi Hch Hsync Htail Hsteps Hall)
    as (p2 & Hp2 & Hu2 & Hend).
  exists p2; split; [exact Hp2|]; intros Hempty Hl; destruct (Hend Hempty) as (pat & pmt & Hpat & Hpmt & Hc).
  exists (ProtectionInfo_read p2), pat, pmt; split; [apply drm_read; [by rewrite Hu2|done|done]|].
  split; [|done]; by apply (config_decodes pow10 uri p2 table pat pmt false HIGH); [..|apply Hpat|apply Hpmt|].
Qed.

(** * From the datagrams to drm0 *)

(** A turn of the handler's thread, with what it does to the plugin. *)
Definition handler_turn (char_signed : bool) (datagram : option (list Z)) (feip0 : Z) p : outcome plugin :=
  h ← nokia_turn char_signed datagram feip0 (mDmxCb p); Done (handler_done h p).

Lemma handler_done_events h p new : nk_events h = nk_events (mDmxCb p) ++ new ->
  handler_done h p = fold_left handler_event_done new (p <| mDmxCb := h |>).
Proof. intros He; unfold handler_done; cbn [ch_events nokia_handler]; by rewrite He, drop_app_length. Qed.

Lemma handler_kept h p : mDmxCb (handler_done h p) = h.
Proof.
  unfold handler_done; rewrite (fold_frame mDmxCb); [done|]; intros p0 [v value|value|]; cbn [handler_event_done];
    [by destruct v| |done].
  unfold protection_changed; cbv zeta; by case_if.
Qed.

(** C23. After a channel switch, the datagrams with the PAT and the PMT and with the ECM put the
    three sections into drm0, whatever drm0 held, and into pat0, pmt0 and ecm0, and stop the PSI
    parser. *)
Theorem drm_from_datagrams (pow10 : Z -> spec_float) char_signed uri feip (pat pmt ecm : list Z) f1 f2 p :
  no_spaces uri -> Forall (fun x => x <> NUL) uri -> is_bytes pat -> is_bytes pmt -> is_bytes ecm -> ecm <> [] ->
  wire_ok char_signed feip -> wire_ok char_signed (zlen pat) -> wire_ok char_signed (zlen pmt) ->
  wire_ok char_signed (zlen ecm) ->
  zlen (pat_pmt_datagram feip pat pmt) <= SOCKET_MAXLINE -> zlen (ecm_datagram feip ecm) <= SOCKET_MAXLINE ->
  exists p1 p2,
  handler_turn char_signed (Some (pat_pmt_datagram feip pat pmt)) f1
    (handler_done (ch_switched uri (mDmxCb p)) p) = Done p1 /\
  handler_turn char_signed (Some (ecm_datagram feip ecm)) f2 p1 = Done p2 /\
  decodes_to pow10 (ProtectionInfo_read p2) uri false ecm pat pmt /\
  StreamInfo_read CONFIG_F_FCC_STREAM_INFO_PAT p2 = as_text pat /\
  StreamInfo_read CONFIG_F_FCC_STREAM_INFO_PMT p2 = as_text pmt /\
  StreamInfo_read CONFIG_F_FCC_STREAM_INFO_ECM p2 = as_text ecm /\
  mPsiParserRunning (mPsi p2) = false.
Proof.
  intros Hsp Hnul Bp Bm Be Hne Hf Wp Wm We L1 L2; set (ip := String.string_of_list_ascii uri).
  destruct (nokia_channel char_signed ip feip pat pmt ecm f1 f2 (mDmxCb p)) as (h1 & h2 & T1 & T2 & E1 & E2 & _); try done.
  set (p0 := handler_done (ch_switched uri (mDmxCb p)) p); unfold handler_turn.
  assert (K0 : mDmxCb p0 = nokia_switched ip (mDmxCb p)) by apply handler_kept.
  rewrite K0, T1, bind_Done; eexists _, _; split; [done|]; rewrite handler_kept, T2, bind_Done; split; [done|].
  rewrite (handler_done_events h2 _ [SetBytes kEcm0 ecm; SetDrm0 (mkStreamProtectionConfig HIGH ip ecm pat pmt false);
    StatusChanged ECM_UPDATED feip]) by (by rewrite handler_kept).
  rewrite (handler_done_events h1 p0 (section_events kPat0 pat ++ section_events kPmt0 pmt ++ [StatusChanged PAT_PMT_UPDATED feip]))
    by (by rewrite K0).
  assert (V0 : vars p0 = (vars p) <| v_kEcm0 := [] |> <| v_kPmt0 := [] |> <| v_kPat0 := [] |>).
  { unfold p0; rewrite (handler_done_events _ _ [SetBytes kEcm0 []; SetBytes kPmt0 []; SetBytes kPat0 []]); [done|].
    apply switched_events. }
  clearbody p0; set (p1 := fold_left _ (section_events kPat0 pat ++ _) _).
  assert (V1 : v_kPat0 (vars p1) = as_text pat /\ v_kPmt0 (vars p1) = as_text pmt).
  { unfold p1; destruct pat, pmt; cbn; rewrite ?V0; done. }
  destruct V1 as [Vp Vm]; clearbody p1; cbn [fold_left handler_event_done].
  set (p2 := (notifyUpdate _ _) <| vars := _ |>); set (p3 := protection_changed _ p2).
  assert (H3 : vars p3 = vars p2 /\ mPsi p3 = mPsi p2) by (unfold p3, protection_changed; cbv zeta; by case_if).
  assert (Hc : mCurrentConfig p3 = mkStreamProtectionConfig HIGH ip ecm pat pmt false)
    by (unfold p3; rewrite protection_changed_keeps; by apply high_wins).
  clearbody p3; destruct H3 as [Hv Hm].
  split; [rewrite <- (unblank_none uri Hsp) at 1; by apply (config_decodes pow10 uri _ ecm pat pmt false HIGH)|]; unfold StreamInfo_read; cbv zeta.
  change (vars (p3 <| mMediaSource := _ |>)) with (vars p3); change (mPsi (p3 <| mMediaSource := _ |>)) with (mPsi p3).
  rewrite Hv, Hm; split_and!; [exact Vp|exact Vm|done|]; by destruct ecm.
Qed.

End nokia_plugin.
