(* ===== verification/NokiaExamples.v ===== *)
(** The theorems of the plugin on the set-top box at concrete inputs: a channel is selected, its
    stream comes in two chunks of a thousand bytes, and drm0 has the tables of the channel. *)

From Stdlib Require Import Ascii.
From Corelib Require Import SpecFloat.
From S2P Require Import Prelude Interfaces Json JsonParser JsonProps JsonRoundtrip ProtectionExport StdString Regex ChannelConfig ChannelProps Protection BufferIndexer TimeShift TimeShiftExamples TsStream PidInfo PsiParser PsiStream PsiInvariant PsiReach PsiPmt PsiChannel PsiPadding PsiThread PsiExamples BufferQueue MediaSource CallbackHandler SourceControl SourceExamples ConfigOptions Plugin PluginProps PluginChannel PluginExamples Nokia NokiaProps NokiaPlugin.

#[local] Existing Instances config1000 config1000_ok counting_demuxer.

Local Abbreviation box_plugin := (FCCPlugin (Z * list dx_call) list_cb list list_pool NokiaSocketCbHandler).

(** The plugin as it starts, and with the channel selected. *)
Definition box : box_plugin := FCCPlugin_new new_source idle_handler (TimeShiftExamples.run_state opened) (0, 0).

Definition tuned_box : box_plugin :=
  match plugin_write sample_clocks CONFIG_F_CHANNEL_SELECT (sample_uri ++ [NL]) 0 box with
  | Done (_, p) => p
  | _ => box
  end.

Lemma box_select : plugin_write sample_clocks CONFIG_F_CHANNEL_SELECT (sample_uri ++ [NL]) 0 box =
  Done (zlen (sample_uri ++ [NL]), tuned_box).
Proof. by vm_compute. Qed.

Lemma box_idle : idle 0 box.
Proof.
  split; [apply TSStream_new_ok|apply pending_new|done|done| |done].
  split; [by vm_compute|by vm_compute].
Qed.

(** The ten packets and 120 bytes more in two chunks. *)
Definition sample_tail : list Z := replicate (Z.to_nat 120) 71.
Definition sample_bytes : list Z := concat sample_stream ++ sample_tail.

Definition sample_steps : list stream_step :=
  [Chunk sample_clocks 1 (ztake 1000 sample_bytes); Round sample_junk;
   Chunk sample_clocks 2 (zdrop 1000 sample_bytes); Round sample_junk].

Lemma sample_junk_ok : junk_ok sample_junk.
Proof. intros n; split; [done|by apply Forall_replicate]. Qed.

Lemma sample_steps_ok : Forall step_ok sample_steps.
Proof. repeat (apply Forall_cons_2; [first [exact sample_junk_ok | reflexivity]|]); constructor. Qed.

Lemma sample_synced : Forall synced sample_stream.
Proof. repeat (apply Forall_cons_2; [split; [by apply sample_is_packet|done]|]); constructor. Qed.

(** What is left in the queue and how long the text is. *)
Definition end_of_run (m : outcome box_plugin) : option (nat * Z) :=
  match m with Done p => Some (length (q_items (mQueue (mPsi p))), zlen (ProtectionInfo_read p)) | _ => None end.

Lemma sample_end : end_of_run (exec_steps sample_uri tuned_box sample_steps) = Some (0%nat, 1042).
Proof. by vm_compute. Qed.

Lemma drm_end_to_end_witness : exists p2, exec_steps sample_uri tuned_box sample_steps = Done p2 /\
  exists t pat pmt,
    read_file [] 1 false (S (length t)) 3 CONFIG_F_PROTECTION_INFO 7 0 p2 = Done (t, p2) /\
    decodes_to pow10_exact t sample_uri false sample_ecm pat pmt /\
    copy_of sample_pat_packet pat /\ copy_of sample_pmt_packet pmt.
Proof.
  destruct (drm_end_to_end [] 1 false pow10_exact 0 sample_clocks (sample_uri ++ [NL]) box (zlen (sample_uri ++ [NL])) tuned_box
    sample_pat_packet sample_pmt_packet sample_ecm sample_stream sample_tail sample_steps 3 7) as (p2 & Hp2 & Hend).
  - exact box_idle.
  - by vm_compute.
  - by vm_compute; repeat constructor.
  - exact box_select.
  - by vm_compute.
  - exact sample_channel.
  - exact sample_synced.
  - by vm_compute.
  - exact sample_steps_ok.
  - by vm_compute.
  - lia.
  - assert (E : erase_char NL (sample_uri ++ [NL]) = sample_uri) by (by vm_compute).
    assert (E2 : unblank sample_uri = sample_uri) by (by vm_compute).
    rewrite E in Hp2; rewrite E, E2 in Hend; exists p2; split; [exact Hp2|].
    pose proof sample_end as He; rewrite Hp2 in He; apply (inj Some), pair_equal_spec in He as [Hq Hz].
    apply Hend; [by apply nil_length_inv|rewrite Hz; lia].
Defined.

(** The two datagrams of a channel. *)
Lemma drm_from_datagrams_witness : exists p1 p2,
  handler_turn true (Some (pat_pmt_datagram 5 [0; 1] [2; 3; 4])) 0 (handler_done (ch_switched sample_uri (mDmxCb box)) box) = Done p1 /\
  handler_turn true (Some (ecm_datagram 5 [128; 7])) 0 p1 = Done p2 /\
  decodes_to pow10_exact (ProtectionInfo_read p2) sample_uri false [128; 7] [0; 1] [2; 3; 4].
Proof.
  destruct (drm_from_datagrams pow10_exact true sample_uri 5 [0; 1] [2; 3; 4] [128; 7] 0 0 box)
    as (p1 & p2 & H1 & H2 & H3 & _).
  - by vm_compute; repeat constructor.
  - by vm_compute; repeat constructor.
  - apply (bool_decide_eq_true (is_bytes _)); by vm_compute.
  - apply (bool_decide_eq_true (is_bytes _)); by vm_compute.
  - apply (bool_decide_eq_true (is_bytes _)); by vm_compute.
  - discriminate.
  - apply small_wire_ok; lia.
  - apply small_wire_ok; unfold zlen; cbn; lia.
  - apply small_wire_ok; unfold zlen; cbn; lia.
  - apply small_wire_ok; unfold zlen; cbn; lia.
  - by vm_compute.
  - by vm_compute.
  - exists p1, p2; split; [exact H1|split; [exact H2|exact H3]].
Defined.

(** The chunks are read after both have been posted, or one by one. *)
Lemma threads_publish_witness : exists s' pat pmt st,
  psi_run (mPsi tuned_box) (map (psi_op_of sample_uri) sample_steps ++ map ThreadRound (replicate (length sample_steps) sample_junk)) =
    Done s' /\ q_items (mQueue s') = [] /\
  published (psi s') = published st ++
    [mkStreamProtectionConfig HIGH (String.string_of_list_ascii sample_uri) sample_ecm pat pmt false] /\
  copy_of sample_pat_packet pat /\ copy_of sample_pmt_packet pmt.
Proof.
  destruct (select_tunes 0 sample_clocks (sample_uri ++ [NL]) box (zlen (sample_uri ++ [NL])) tuned_box box_idle)
    as (_ & Hready & st & Hpsi & Hopid); [by vm_compute|exact box_select|by vm_compute|].
  destruct (threads_publish (String.string_of_list_ascii sample_uri) sample_pat_packet sample_pmt_packet sample_ecm
    sample_stream sample_tail st (mPsi tuned_box) (map (psi_op_of sample_uri) sample_steps)
    (replicate (length sample_steps) sample_junk)) as (s' & pat & pmt & H).
  - rewrite Hopid; exact sample_channel.
  - exact sample_synced.
  - by vm_compute.
  - exact Hready.
  - exact Hpsi.
  - apply (ops_of_steps sample_uri sample_steps sample_steps_ok).
  - by vm_compute.
  - apply Forall_replicate, sample_junk_ok.
  - vm_compute; lia.
  - by exists s', pat, pmt, st.
Defined.

(** [onOpen] does not empty the assembler of packets. When chunks do not end where packets end,
    the bytes that are left of the old channel shift all packets of the new one, and its tables
    are not found: drm0 stays as it was. *)
Definition other_uri : text := text_of "234.80.160.1:5900".

Definition switched_late : outcome box_plugin :=
  p ← exec_steps sample_uri tuned_box [Chunk sample_clocks 1 (ztake 1000 sample_bytes); Round sample_junk];
  '(_, p) ← plugin_write sample_clocks CONFIG_F_CHANNEL_SELECT other_uri 0 p;
  exec_steps other_uri p sample_steps.

Lemma open_keeps_half_packet :
  (p ← switched_late; Done (mPsiParserRunning (mPsi p), mCurrentConfig p)) = Done (true, StreamProtectionConfig_default) /\
  (p ← exec_steps sample_uri tuned_box sample_steps; Done (mPsiParserRunning (mPsi p))) = Done false.
Proof. by vm_compute. Qed.
