(* ===== verification/Sockets.v ===== *)
(** The descriptors of a process, as far as the sources use them: [socket] and [accept] hand out
    the number of a new descriptor, [close] gives it back, [write] on a connection delivers bytes
    to its peer. What the calls answer is an argument; [fresh] is what the kernel documents
    about a new descriptor. *)

From S2P Require Import Prelude.

(** [fds] maps an open descriptor to the object it stands for; the numbers of objects are never
    used again, those of descriptors are. [wires] has the bytes written to an object, and
    [bad_closes] the arguments of [close] that were not open. *)
Record kernel := mkKernel {
  fds : gmap Z Z;
  next_object : Z;
  wires : gmap Z (list Z);
  bad_closes : list Z;
}.

#[export] Instance kernel_eta : Eta kernel := fun r =>
  mkKernel (fds r) (next_object r) (wires r) (bad_closes r).

(** A descriptor the kernel may hand out. *)
Definition fresh (k : kernel) (fd : Z) : Prop := 0 <= fd /\ fds k !! fd = None.

#[export] Instance fresh_dec k fd : Decision (fresh k fd).
Proof. unfold fresh; apply _. Defined.

(** [socket] or [accept]: [answer] is the descriptor, or negative. *)
Definition new_fd (answer : Z) (k : kernel) : kernel :=
  if answer <? 0 then k
  else k <| fds := <[answer := next_object k]> (fds k) |> <| next_object := next_object k + 1 |>.

Definition close_fd (fd : Z) (k : kernel) : kernel :=
  match fds k !! fd with
  | Some _ => k <| fds := delete fd (fds k) |>
  | None => k <| bad_closes := bad_closes k ++ [fd] |>
  end.

(** [fcntl(fd, F_GETFD)] of a descriptor that is not open fails with EBADF. *)
Definition isFdValid (fd : Z) (k : kernel) : bool := bool_decide (is_Some (fds k !! fd)).

Definition wire (o : Z) (k : kernel) : list Z := default [] (wires k !! o).

(** [write]: [answer] is how many bytes are taken, or negative. *)
Definition write_fd (fd : Z) (data : list Z) (answer : Z) (k : kernel) : kernel :=
  match fds k !! fd with
  | Some o => if answer <? 0 then k else k <| wires := <[o := wire o k ++ ztake answer data]> (wires k) |>
  | None => k
  end.

Lemma new_fd_fds fd k : 0 <= fd -> fds (new_fd fd k) = <[fd := next_object k]> (fds k) /\ bad_closes (new_fd fd k) = bad_closes k.
Proof. intros H; unfold new_fd; by rewrite (proj2 (Z.ltb_ge _ _) H). Qed.

Lemma close_open fd o m k : fds k = <[fd := o]> m -> m !! fd = None ->
  fds (close_fd fd k) = m /\ bad_closes (close_fd fd k) = bad_closes k.
Proof.
  intros Hk Hm; unfold close_fd; rewrite Hk, lookup_insert_eq; cbn.
  split; [|done]; by apply delete_insert_id.
Qed.

Lemma close_new fd k : fresh k fd -> fds (close_fd fd (new_fd fd k)) = fds k /\
  bad_closes (close_fd fd (new_fd fd k)) = bad_closes k.
Proof.
  intros [Hfd Hn]; destruct (new_fd_fds fd k Hfd) as [Hf Hb].
  destruct (close_open fd _ _ _ Hf Hn) as [-> ->]; done.
Qed.

(** Objects are numbered in the order they are made. *)
Definition kernel_ok (k : kernel) : Prop := forall fd o, fds k !! fd = Some o -> 0 <= o < next_object k.

Lemma new_fd_ok a k : kernel_ok k -> 0 <= next_object k -> kernel_ok (new_fd a k).
Proof.
  intros Hk Hn fd o; unfold new_fd; case_if; [apply Hk|]; cbn.
  intros [[<- <-]|[_ Ho%Hk]]%lookup_insert_Some; lia.
Qed.

Lemma close_fd_ok a k : kernel_ok k -> kernel_ok (close_fd a k).
Proof.
  intros Hk fd o; unfold close_fd; destruct (fds k !! a); [cbn|apply Hk].
  intros [_ Ho]%lookup_delete_Some; by apply (Hk fd).
Qed.

Lemma wire_other fd data a k o : fds k !! fd <> Some o -> wire o (write_fd fd data a k) = wire o k.
Proof.
  intros Hn; unfold write_fd; destruct (fds k !! fd) as [o'|] eqn:E; [|done]; case_if; [done|].
  unfold wire at 1; cbn; rewrite lookup_insert_ne; [done|congruence].
Qed.

Lemma wire_written fd data a k o : fds k !! fd = Some o -> 0 <= a ->
  wire o (write_fd fd data a k) = wire o k ++ ztake a data.
Proof.
  intros Ho Ha; unfold write_fd; rewrite Ho, (proj2 (Z.ltb_ge _ _)) by lia.
  unfold wire at 1; cbn; by rewrite lookup_insert_eq.
Qed.

Lemma write_fds fd data a k : fds (write_fd fd data a k) = fds k.
Proof. unfold write_fd; destruct (fds k !! fd); [by case_if|done]. Qed.

Lemma close_wires fd k : wires (close_fd fd k) = wires k.
Proof. unfold close_fd; by destruct (fds k !! fd). Qed.
