(* ===== verification/SocketServer.v ===== *)
(** Class [SocketServer] of include/SocketServer.h and src/SocketServer.cpp: a copy of the stream
    for TCP clients. Calls and turns of its two threads are steps on the object and the
    descriptors of the process. *)

From Stdlib Require Import Sorting.Sorted.
From S2P Require Import Prelude Sockets.

(** [mClientFd] is a [std::set]: sorted, without duplicates. *)
Record SocketServer := mkServer {
  mServerFd : Z;
  mIsRunning : bool;
  mClientFd : list Z;
  mQueue : list (list Z);
}.

#[export] Instance SocketServer_eta : Eta SocketServer := fun r =>
  mkServer (mServerFd r) (mIsRunning r) (mClientFd r) (mQueue r).

Definition SocketServer_new : SocketServer := mkServer (-1) false [] [].

(** [std::set::insert]. *)
Fixpoint fd_insert (fd : Z) (l : list Z) : list Z :=
  match l with
  | [] => [fd]
  | x :: l' => if fd =? x then l else if fd <? x then fd :: l else x :: fd_insert fd l'
  end.

(** What the calls of [start] answer: a descriptor or a negative number, and whether the
    others succeed. *)
Record start_answers := mkAnswers { an_socket : Z; an_reuse : bool; an_bind : bool; an_listen : bool }.

Implicit Types s : SocketServer.
Implicit Types k : kernel.

Definition server_start (a : start_answers) s k : bool * SocketServer * kernel :=
  if mIsRunning s then (false, s, k)
  else
    let s := s <| mServerFd := an_socket a |> in
    let k := new_fd (an_socket a) k in
    if an_socket a <? 0 then (false, s, k)
    else if negb (an_reuse a) then (false, s, k)
    else if negb (an_bind a) then (false, s, k)
    else if negb (an_listen a) then (false, s, k)
    else (true, s <| mIsRunning := true |>, k).

Definition pushBuffer (buf : list Z) s : SocketServer := s <| mQueue := mQueue s ++ [buf] |>.

(** [stop] waits for the threads. The one that writes takes one more buffer from the queue if it
    has passed the test of its loop ([popping]); the other ends when [accept] fails. *)
Definition server_stop (popping : bool) s k : bool * SocketServer * kernel :=
  if negb (mIsRunning s) then (false, s, k)
  else
    let s := s <| mIsRunning := false |> in
    let s := pushBuffer [] s in
    let k := fold_left (fun k fd => close_fd fd k) (mClientFd s) k in
    let k := close_fd (mServerFd s) k in
    (true, if popping then s <| mQueue := tail (mQueue s) |> else s, k).

Definition server_send (buf : list Z) s : bool * SocketServer :=
  if negb (mIsRunning s) then (false, s) else (true, pushBuffer buf s).

(** The body of the loop over the clients: whether the descriptor is kept. [answer] is what
    [write] returns for a descriptor and some data. *)
Definition write_one (answer : Z -> list Z -> Z) (buf : list Z) (fd : Z) k : bool * kernel :=
  if isFdValid fd k then
    let status := answer fd buf in
    let k := write_fd fd buf status k in
    if status <? 0 then (false, close_fd fd k) else (true, k)
  else (false, close_fd fd k).

Fixpoint write_clients (answer : Z -> list Z -> Z) (buf : list Z) (clients : list Z) k : list Z * kernel :=
  match clients with
  | [] => ([], k)
  | fd :: clients =>
    let '(kept, k) := write_one answer buf fd k in
    let '(rest, k) := write_clients answer buf clients k in
    (if (kept : bool) then fd :: rest else rest, k)
  end.

(** A turn of [writeLoop]; with an empty queue it waits and nothing changes. *)
Definition writeLoop (answer : Z -> list Z -> Z) s k : SocketServer * kernel :=
  if mIsRunning s then
    match mQueue s with
    | [] => (s, k)
    | buf :: queue =>
      let s := s <| mQueue := queue |> in
      match buf with
      | [] => (s, k)
      | _ => let '(clients, k) := write_clients answer buf (mClientFd s) k in (s <| mClientFd := clients |>, k)
      end
    end
  else (s, k).

(** A turn of [acceptLoop]: [fd] is what [accept] returns. *)
Definition acceptLoop (fd : Z) s k : SocketServer * kernel :=
  if mIsRunning s then
    if fd <? 0 then (s, k) else (s <| mClientFd := fd_insert fd (mClientFd s) |>, new_fd fd k)
  else (s, k).

(** * What a client gets *)

(** The calls and turns while the server runs. *)
Inductive server_op :=
| Send (buf : list Z)
| Write (answer : Z -> list Z -> Z)
| Accept (fd : Z).

Definition server_exec (op : server_op) (c : SocketServer * kernel) : SocketServer * kernel :=
  match op with
  | Send buf => ((server_send buf c.1).2, c.2)
  | Write answer => writeLoop answer c.1 c.2
  | Accept fd => acceptLoop fd c.1 c.2
  end.

Definition server_run (ops : list server_op) (c : SocketServer * kernel) : SocketServer * kernel :=
  fold_left (fun c op => server_exec op c) ops c.

Definition sent (ops : list server_op) : list (list Z) :=
  omap (fun op => match op with Send buf => Some buf | _ => None end) ops.

(** [fd] is the descriptor of the connection [o], which has no other one. *)
Record serves (fd o : Z) s k : Prop := {
  sv_running : mIsRunning s = true;
  sv_client : fd ∈ mClientFd s;
  sv_sorted : StronglySorted Z.lt (mClientFd s);
  sv_object : fds k !! fd = Some o;
  sv_only : forall fd', fds k !! fd' = Some o -> fd' = fd;
  sv_kernel : kernel_ok k;
  sv_next : 0 <= next_object k;
}.

(** The kernel hands out descriptors that are free. *)
Definition op_fine (op : server_op) k : Prop :=
  match op with
  | Accept a => 0 <= a -> fresh k a
  | Send _ | Write _ => True
  end.

Fixpoint run_fine (ops : list server_op) (c : SocketServer * kernel) : Prop :=
  match ops with
  | [] => True
  | op :: ops => op_fine op c.2 /\ run_fine ops (server_exec op c)
  end.

(** [write] takes all the data for [fd]. *)
Definition takes_whole (fd : Z) (op : server_op) : Prop :=
  match op with Write answer => forall data, answer fd data = zlen data | Send _ | Accept _ => True end.

Lemma elem_fd_insert x fd l : x ∈ fd_insert fd l <-> x = fd \/ x ∈ l.
Proof.
  induction l as [|y l IH]; cbn [fd_insert]; [by rewrite elem_of_cons|].
  destruct (Z.eqb_spec fd y) as [->|]; [rewrite elem_of_cons; tauto|].
  destruct (fd <? y); rewrite !elem_of_cons, ?IH; tauto.
Qed.

Lemma fd_insert_sorted fd l : StronglySorted Z.lt l -> StronglySorted Z.lt (fd_insert fd l).
Proof.
  induction 1 as [|y l Hs IH Hf]; cbn [fd_insert]; [repeat constructor|].
  destruct (Z.eqb_spec fd y) as [->|]; [by constructor|]; destruct (fd <? y) eqn:E; b2p.
  - constructor; [by constructor|]; constructor; [done|]; eapply Forall_impl; [exact Hf|]; cbn; lia.
  - constructor; [done|]; apply Forall_forall; intros x [->|Hx]%elem_fd_insert; [lia|].
    rewrite Forall_forall in Hf; by apply Hf.
Qed.

Lemma write_clients_cons answer buf fd l k :
  (write_clients answer buf (fd :: l) k).1 =
    (if (write_one answer buf fd k).1 then [fd] else []) ++ (write_clients answer buf l (write_one answer buf fd k).2).1 /\
  (write_clients answer buf (fd :: l) k).2 = (write_clients answer buf l (write_one answer buf fd k).2).2.
Proof.
  cbn [write_clients]; destruct (write_one answer buf fd k) as [[] k1]; cbn; by destruct (write_clients answer buf l k1).
Qed.

Lemma write_clients_sub answer buf l k : forall x, x ∈ (write_clients answer buf l k).1 -> x ∈ l.
Proof.
  revert k; induction l as [|fd l IH]; intros k x; [done|]; rewrite (proj1 (write_clients_cons _ _ _ _ _)).
  rewrite elem_of_cons; intros [Hx|Hx%IH]%elem_of_app; [left|by right].
  destruct (write_one answer buf fd k).1; [by apply list_elem_of_singleton|by apply elem_of_nil in Hx].
Qed.

Lemma write_clients_sorted answer buf l k : StronglySorted Z.lt l -> StronglySorted Z.lt (write_clients answer buf l k).1.
Proof.
  intros Hs; revert k; induction Hs as [|fd l Hs IH Hf]; intros k; [constructor|].
  rewrite (proj1 (write_clients_cons _ _ _ _ _)); destruct (_.1); [|apply IH]; constructor; [apply IH|].
  apply Forall_forall; intros x Hx; rewrite Forall_forall in Hf; by eapply Hf, write_clients_sub.
Qed.

(** Whether a client stays. *)
Definition keeps (answer : Z -> list Z -> Z) (buf : list Z) k (fd : Z) : bool := isFdValid fd k && (0 <=? answer fd buf).

Lemma write_one_kept answer buf x k : (write_one answer buf x k).1 = keeps answer buf k x /\
  fds (write_one answer buf x k).2 = if keeps answer buf k x then fds k else delete x (fds k).
Proof.
  unfold write_one, keeps, isFdValid; case_bool_decide as Hv; cbn [andb].
  - destruct (Z.ltb_spec (answer x buf) 0); cbn [fst snd].
    + rewrite (proj2 (Z.leb_gt _ _)) by done; split; [done|]; unfold close_fd; rewrite write_fds.
      by destruct Hv as [y ->].
    + rewrite (proj2 (Z.leb_le _ _)) by done; by rewrite write_fds.
  - split; [done|]; cbn [snd]; unfold close_fd; destruct (fds k !! x) eqn:E; [by destruct Hv|]; cbn.
    by rewrite delete_id.
Qed.

(** A connection gets what [write] takes of the data, which is nothing when the call fails. *)
Lemma write_one_wire answer buf x o k :
  wire o (write_one answer buf x k).2 = wire o k ++ if bool_decide (fds k !! x = Some o) then ztake (answer x buf) buf else [].
Proof.
  assert (Hc : forall y a, wire o (close_fd y a) = wire o a) by (intros y a; unfold wire; by rewrite close_wires).
  unfold write_one, isFdValid; case_bool_decide as Hv; cbn [snd].
  - case_bool_decide as Ho; destruct (Z.ltb_spec (answer x buf) 0); cbn [snd]; rewrite ?Hc.
    + unfold write_fd; rewrite Ho, (proj2 (Z.ltb_lt _ _)) by done; unfold ztake.
      replace (Z.to_nat (answer x buf)) with 0%nat by lia; cbn; by rewrite app_nil_r.
    + by apply wire_written.
    + by rewrite app_nil_r, wire_other.
    + by rewrite app_nil_r, wire_other.
  - rewrite Hc, bool_decide_eq_false_2, app_nil_r; [done|]; intros E; destruct Hv; by eexists.
Qed.

Lemma write_one_next answer buf x k : next_object (write_one answer buf x k).2 = next_object k.
Proof.
  unfold write_one, close_fd, write_fd; repeat case_match; done.
Qed.

Lemma filter_same (f g : Z -> bool) (l : list Z) : (forall y, y ∈ l -> f y = g y) ->
  filter (fun y => f y = true) l = filter (fun y => g y = true) l.
Proof.
  induction l as [|x l IH]; intros Hfg; [done|]; rewrite !filter_cons, (Hfg x) by left.
  rewrite IH; [done|]; intros y Hy; apply Hfg; by right.
Qed.

(** The clients that stay, and the descriptors that are closed. *)
Lemma write_clients_kept answer buf l k : NoDup l ->
  (write_clients answer buf l k).1 = filter (fun x => keeps answer buf k x = true) l /\
  next_object (write_clients answer buf l k).2 = next_object k /\
  forall y, fds (write_clients answer buf l k).2 !! y =
    if bool_decide (y ∈ l) && negb (keeps answer buf k y) then None else fds k !! y.
Proof.
  intros Hl; revert k; induction Hl as [|x l Hx Hl IH]; intros k; [done|].
  destruct (write_clients_cons answer buf x l k) as [-> ->], (write_one_kept answer buf x k) as [E1 E2].
  set (k1 := (write_one answer buf x k).2) in *; destruct (IH k1) as (H1 & H2 & H3); rewrite E1, H1, H2.
  assert (Hk : forall y, y <> x -> fds k1 !! y = fds k !! y).
  { intros y Hy; rewrite E2; destruct (keeps answer buf k x); [done|by rewrite lookup_delete_ne]. }
  assert (Hks : forall y, y <> x -> keeps answer buf k1 y = keeps answer buf k y).
  { intros y Hy; unfold keeps, isFdValid; by rewrite Hk. }
  split_and!; [|apply write_one_next|].
  - assert (Hf : filter (fun y => keeps answer buf k1 y = true) l = filter (fun y => keeps answer buf k y = true) l).
    { apply filter_same; intros y Hy; apply Hks; by intros ->. }
    rewrite Hf; destruct (keeps answer buf k x) eqn:E; [by rewrite filter_cons_True|rewrite filter_cons_False by congruence; done].
  - intros y; rewrite H3; destruct (decide (y = x)) as [->|Hy].
    + rewrite (bool_decide_eq_false_2 (x ∈ l)), (bool_decide_eq_true_2 (x ∈ x :: l)), E2 by (done || left); cbn [andb].
      destruct (keeps answer buf k x); [done|]; cbn [negb]; by rewrite lookup_delete_eq.
    + rewrite Hks, Hk by done; rewrite (bool_decide_ext (y ∈ x :: l) (y ∈ l)); [done|]; rewrite elem_of_cons; tauto.
Qed.

(** A connection with one descriptor gets the data once. *)
Lemma write_clients_wire answer buf l fd o k : NoDup l -> (forall fd', fds k !! fd' = Some o -> fd' = fd) ->
  wire o (write_clients answer buf l k).2 =
    wire o k ++ if bool_decide (fd ∈ l /\ fds k !! fd = Some o) then ztake (answer fd buf) buf else [].
Proof.
  intros Hl; revert k; induction Hl as [|x l Hx Hl IH]; intros k Ho.
  { cbn; rewrite bool_decide_eq_false_2, app_nil_r; [done|]; by intros [?%elem_of_nil _]. }
  rewrite (proj2 (write_clients_cons _ _ _ _ _)); destruct (write_one_kept answer buf x k) as [_ E2].
  assert (Hk : forall y, fds (write_one answer buf x k).2 !! y = Some o -> fds k !! y = Some o).
  { intros y; rewrite E2; destruct (keeps answer buf k x); [done|by intros [_ ?]%lookup_delete_Some]. }
  rewrite IH by (intros y Hy; by apply Ho, Hk); rewrite write_one_wire, <- app_assoc; f_equal.
  destruct (decide (fds k !! x = Some o)) as [Hxo|Hxo].
  - assert (x = fd) as -> by (by apply Ho); rewrite bool_decide_eq_true_2, bool_decide_eq_false_2, bool_decide_eq_true_2
      by (done || (by intros [? _]) || (split; [left|done])); apply app_nil_r.
  - rewrite bool_decide_eq_false_2 by done; cbn [app].
    assert (Hsame : (fd ∈ l /\ fds (write_one answer buf x k).2 !! fd = Some o) <-> (fd ∈ x :: l /\ fds k !! fd = Some o)).
    { rewrite elem_of_cons; split; [intros [? ?%Hk]; tauto|]; intros [[->|Hin] Hfd]; [done|]; split; [done|].
      rewrite E2; destruct (keeps answer buf k x); [done|]; rewrite lookup_delete_ne; [done|]; intros ->; done. }
    by rewrite (bool_decide_ext _ _ Hsame).
Qed.

(** [fd] is the descriptor of the connection [o], or was and the connection is closed. *)
Record tracks (fd o : Z) s k : Prop := {
  tr_running : mIsRunning s = true;
  tr_sorted : StronglySorted Z.lt (mClientFd s);
  tr_client : fds k !! fd = Some o -> fd ∈ mClientFd s;
  tr_only : forall fd', fds k !! fd' = Some o -> fd' = fd;
  tr_given : o < next_object k;
  tr_kernel : kernel_ok k;
  tr_next : 0 <= next_object k;
}.

Lemma serves_tracks fd o s k : serves fd o s k -> tracks fd o s k.
Proof. intros [H1 H2 H3 H4 H5 H6 H7]; split; try done; by apply (H6 fd o). Qed.

Lemma sorted_nodup l : StronglySorted Z.lt l -> NoDup l.
Proof.
  induction 1 as [|x l Hs IH Hf]; constructor; [|done]; intros Hx; rewrite Forall_forall in Hf; specialize (Hf _ Hx); lia.
Qed.

(** What a client gets while [new] is sent: the first buffers of those that waited and of the
    new ones have been taken from the queue, and of each of them, in order, a beginning has been
    written, which is all of it in case [whole]. *)
Definition gets (o : Z) (whole : Prop) (new : list (list Z)) (c c' : SocketServer * kernel) : Prop :=
  exists w : list (list Z * list Z), mQueue c.1 ++ new = w.*1 ++ mQueue c'.1 /\
    wire o c'.2 = wire o c.2 ++ concat w.*2 /\ Forall (fun x => x.2 `prefix_of` x.1) w /\ (whole -> w.*2 = w.*1).

Lemma gets_none o (whole : Prop) new c c' : mQueue c'.1 = mQueue c.1 ++ new -> wire o c'.2 = wire o c.2 -> gets o whole new c c'.
Proof. intros E1 E2; exists []; cbn; by rewrite E1, E2, app_nil_r. Qed.

Lemma gets_weaken o (whole whole' : Prop) new c c' : gets o whole new c c' -> (whole' -> whole) -> gets o whole' new c c'.
Proof. intros (w & Q & W & F & A) Hw; exists w; split_and!; try done; intros H; by apply A, Hw. Qed.

Lemma gets_trans o (whole1 whole2 whole : Prop) new1 new2 c c1 c2 : gets o whole1 new1 c c1 -> gets o whole2 new2 c1 c2 ->
  (whole -> whole1 /\ whole2) -> gets o whole (new1 ++ new2) c c2.
Proof.
  intros (w1 & Q1 & W1 & F1 & A1) (w2 & Q2 & W2 & F2 & A2) Hw; exists (w1 ++ w2); rewrite !fmap_app, concat_app; split_and!.
  - by rewrite app_assoc, Q1, <- app_assoc, Q2, app_assoc.
  - by rewrite W2, W1, app_assoc.
  - by apply Forall_app_2.
  - intros [?%A1 ?%A2]%Hw; congruence.
Qed.

(** All of it: what has been written and what waits. *)
Lemma gets_whole o (whole : Prop) new c c' : gets o whole new c c' -> whole ->
  wire o c'.2 ++ concat (mQueue c'.1) = wire o c.2 ++ concat (mQueue c.1) ++ concat new.
Proof. intros (w & Q & W & _ & A) Hw; by rewrite W, A, <- concat_app, Q, concat_app, app_assoc. Qed.

Lemma accept_tracks fd o a s k : tracks fd o s k -> op_fine (Accept a) k ->
  tracks fd o (acceptLoop a s k).1 (acceptLoop a s k).2 /\ gets o True [] (s, k) (acceptLoop a s k) /\
  (fds k !! fd = Some o -> fds (acceptLoop a s k).2 !! fd = Some o).
Proof.
  intros [Hr Hs Hc Hu Hg Hk Hn] Hop; unfold acceptLoop; rewrite Hr; case_if.
  { split_and!; [done|apply gets_none; [by rewrite app_nil_r|done]|done]. }
  b2p; destruct (Hop E) as [_ Hfree]; cbn [fst snd]; destruct (new_fd_fds a k E) as [Ef _].
  assert (Hnext : next_object (new_fd a k) = next_object k + 1) by (unfold new_fd; by rewrite (proj2 (Z.ltb_ge _ _))).
  assert (Hold : forall y, fds (new_fd a k) !! y = Some o -> fds k !! y = Some o).
  { intros y; rewrite Ef; intros [[_ Eo]|[_ Ey]]%lookup_insert_Some; [lia|done]. }
  split_and!; [split; cbn; rewrite ?Hnext; try lia| |].
  - done.
  - by apply fd_insert_sorted.
  - intros Ho; apply elem_fd_insert; right; by apply Hc, Hold.
  - intros y Hy; by apply Hu, Hold.
  - by apply new_fd_ok.
  - apply gets_none; cbn; [by rewrite app_nil_r|]; unfold wire, new_fd; by rewrite (proj2 (Z.ltb_ge _ _)).
  - intros Ho; rewrite Ef, lookup_insert_ne by congruence; done.
Qed.

Lemma write_tracks fd o answer s k : tracks fd o s k ->
  let whole := forall data, answer fd data = zlen data in
  tracks fd o (writeLoop answer s k).1 (writeLoop answer s k).2 /\
  gets o (fds k !! fd = Some o /\ whole) [] (s, k) (writeLoop answer s k) /\
  (fds k !! fd = Some o /\ whole -> fds (writeLoop answer s k).2 !! fd = Some o).
Proof.
  intros [Hr Hs Hc Hu Hg Hk Hn] whole; unfold writeLoop; rewrite Hr; destruct (mQueue s) as [|buf queue] eqn:Eq.
  { split_and!; [done|apply gets_none; [by rewrite app_nil_r|done]|by intros []]. }
  destruct buf as [|b buf].
  { split_and!; [done| |by intros []]; exists [([], [])]; cbn; rewrite Eq; split_and!; rewrite ?app_nil_r; try done; by constructor. }
  change (mClientFd (s <| mQueue := queue |>)) with (mClientFd s); set (data := b :: buf).
  pose proof (write_clients_sorted answer data (mClientFd s) k Hs) as Hsorted; pose proof (sorted_nodup _ Hs) as Hd.
  destruct (write_clients_kept answer data _ k Hd) as (H1 & H2 & H3).
  pose proof (write_clients_wire answer data _ fd o k Hd Hu) as Hw.
  destruct (write_clients answer data (mClientFd s) k) as [clients k']; cbn [fst snd] in *.
  assert (Hold : forall y x, fds k' !! y = Some x -> fds k !! y = Some x /\ (y ∈ mClientFd s -> keeps answer data k y = true)).
  { intros y x; rewrite H3; destruct (bool_decide_reflect (y ∈ mClientFd s)), (keeps answer data k y); by cbn. }
  split_and!; [split; cbn; rewrite ?H2; try done| |].
  - intros [Ho Hkeep]%Hold; rewrite H1; apply list_elem_of_filter; by split; [apply Hkeep, Hc|apply Hc].
  - intros y [Hy _]%Hold; by apply Hu.
  - intros y x [Hy _]%Hold; rewrite H2; by apply (Hk y).
  - exists [(data, if bool_decide (fd ∈ mClientFd s /\ fds k !! fd = Some o) then ztake (answer fd data) data else [])].
    cbn [fst snd fmap list_fmap concat]; rewrite Hw, Eq; cbn; split_and!; [by rewrite app_nil_r|by rewrite app_nil_r| |].
    + constructor; [|constructor]; cbn [fst snd]; case_bool_decide; [|apply prefix_nil]; eexists; symmetry; apply ztake_zdrop.
    + intros [Ho Hall]; rewrite bool_decide_eq_true_2 by (split; [by apply Hc|done]); by rewrite Hall, ztake_all.
  - intros [Ho Hall]; rewrite H3; unfold keeps, isFdValid; rewrite Ho, Hall, (bool_decide_eq_true_2 (is_Some _)) by done.
    rewrite (proj2 (Z.leb_le _ _)) by apply zlen_nonneg; cbn [andb negb]; by rewrite andb_false_r.
Qed.

Lemma tracks_step fd o op s k : tracks fd o s k -> op_fine op k ->
  tracks fd o (server_exec op (s, k)).1 (server_exec op (s, k)).2 /\
  gets o (fds k !! fd = Some o /\ takes_whole fd op) (sent [op]) (s, k) (server_exec op (s, k)) /\
  (fds k !! fd = Some o /\ takes_whole fd op -> fds (server_exec op (s, k)).2 !! fd = Some o).
Proof.
  intros Ht Hop; destruct op as [buf|answer|a]; cbn [server_exec fst snd].
  - unfold server_send; rewrite (tr_running _ _ _ _ Ht); cbn [negb snd]; split_and!; [by destruct Ht; split|by apply gets_none|by intros []].
  - by apply write_tracks.
  - destruct (accept_tracks fd o a s k Ht Hop) as (H1 & H2 & H3); split_and!; [done| |by intros [? _]; apply H3].
    by eapply gets_weaken.
Qed.

(** What a client that has been accepted gets, whatever the other clients do and however the two
    threads interleave: of every buffer sent, in order, the part that [write] takes in one call,
    and nothing more after a call that fails; and all of it, without a gap, when every call takes
    all the data. *)
Theorem client_gets_stream fd o s k ops : serves fd o s k -> run_fine ops (s, k) ->
  gets o (Forall (takes_whole fd) ops) (sent ops) (s, k) (server_run ops (s, k)).
Proof.
  intros Hs Hops; pose proof (serves_tracks _ _ _ _ Hs) as Ht; pose proof (sv_object _ _ _ _ Hs) as Ho; unfold server_run.
  assert (Hall : gets o (fds k !! fd = Some o /\ Forall (takes_whole fd) ops) (sent ops) (s, k)
    (fold_left (fun c op => server_exec op c) ops (s, k))).
  { clear Hs Ho; revert s k Ht Hops; induction ops as [|op ops IH]; intros s k Ht Hops.
    { apply gets_none; [by rewrite app_nil_r|done]. }
    destruct Hops as [Hop Hops], (tracks_step fd o op s k Ht Hop) as (Ht1 & Hg1 & Hk1); cbn [fold_left].
    destruct (server_exec op (s, k)) as [s1 k1]; cbn [fst snd] in *; pose proof (IH s1 k1 Ht1 Hops) as Hg2.
    replace (sent (op :: ops)) with (sent [op] ++ sent ops) by (unfold sent; by rewrite <- omap_app).
    eapply gets_trans; [exact Hg1|exact Hg2|]; intros [Ho [Hw Hws]%Forall_cons]; by split; [|split; [apply Hk1|]]. }
  by eapply gets_weaken.
Qed.

(** * Starting and stopping *)

Lemma close_all l k fd : fds (fold_left (fun k fd => close_fd fd k) l k) !! fd = if bool_decide (fd ∈ l) then None else fds k !! fd.
Proof.
  revert k; induction l as [|x l IH]; intros k; cbn [fold_left]; [done|]; rewrite IH.
  assert (Hx : fds (close_fd x k) !! fd = if decide (x = fd) then None else fds k !! fd).
  { unfold close_fd; destruct (fds k !! x) as [o|] eqn:E; cbn; [rewrite lookup_delete; by repeat case_decide|].
    destruct (decide (x = fd)) as [<-|]; done. }
  rewrite Hx; destruct (decide (x = fd)) as [->|Hne].
  - rewrite (bool_decide_eq_true_2 (fd ∈ fd :: l)) by left; by case_bool_decide.
  - rewrite (bool_decide_ext (fd ∈ x :: l) (fd ∈ l)); [done|]; rewrite elem_of_cons; naive_solver.
Qed.

(** [stop] closes the descriptors of the server and no others; the set of clients still has
    the numbers. *)
Lemma stop_closes popping s k : mIsRunning s = true -> exists s' k', server_stop popping s k = (true, s', k') /\
  mIsRunning s' = false /\ mClientFd s' = mClientFd s /\
  forall fd, fds k' !! fd = if bool_decide (fd ∈ mServerFd s :: mClientFd s) then None else fds k !! fd.
Proof.
  intros Hr; unfold server_stop; rewrite Hr; cbn [negb]; cbv zeta; eexists _, _; split; [done|].
  split; [by destruct popping|split; [by destruct popping|]]; intros fd.
  set (k1 := fold_left _ _ _); change (mServerFd (pushBuffer [] _)) with (mServerFd s).
  pose proof (close_all [mServerFd s] k1 fd) as H1; cbn [fold_left] in H1; rewrite H1; unfold k1; rewrite close_all.
  change (mClientFd (pushBuffer [] _)) with (mClientFd s).
  rewrite (bool_decide_ext (fd ∈ mServerFd s :: mClientFd s) (fd ∈ [mServerFd s] \/ fd ∈ mClientFd s))
    by (rewrite !elem_of_cons, elem_of_nil; tauto).
  rewrite bool_decide_or; by destruct (bool_decide (fd ∈ [_])).
Qed.

(** A start that fails after [socket] has succeeded leaves its descriptor open, and [stop]
    does not close it: the descriptor is lost with the next start. *)
Theorem start_leaks a s k (popping : bool) : mIsRunning s = false -> 0 <= an_socket a ->
  an_reuse a && an_bind a && an_listen a = false ->
  let '(r, s', k') := server_start a s k in
  r = false /\ fds k' = <[an_socket a := next_object k]> (fds k) /\ server_stop popping s' k' = (false, s', k').
Proof.
  intros Hr Ha Hf; unfold server_start; rewrite Hr, (proj2 (Z.ltb_ge _ _)) by done.
  assert (Hn : fds (new_fd (an_socket a) k) = <[an_socket a := next_object k]> (fds k))
    by (unfold new_fd; by rewrite (proj2 (Z.ltb_ge _ _))).
  assert (Hs : server_stop popping (s <| mServerFd := an_socket a |>) (new_fd (an_socket a) k) =
    (false, s <| mServerFd := an_socket a |>, new_fd (an_socket a) k)).
  { unfold server_stop; change (mIsRunning (s <| mServerFd := an_socket a |>)) with (mIsRunning s); by rewrite Hr. }
  destruct (an_reuse a), (an_bind a), (an_listen a); done.
Qed.

(** * Examples *)

Definition empty_kernel : kernel := mkKernel ∅ 0 ∅ [].
Definition all_well (fd : Z) : start_answers := mkAnswers fd true true true.
Definition takes_all (fd : Z) (data : list Z) : Z := zlen data.

(** A server on descriptor 3 with the client 4, which is object 1. *)
Definition sample_server : SocketServer * kernel :=
  let '(_, s, k) := server_start (all_well 3) SocketServer_new empty_kernel in acceptLoop 4 s k.

Lemma sample_fds : fds sample_server.2 = <[4 := 1]> (<[3 := 0]> ∅).
Proof. reflexivity. Qed.

Lemma sample_serves : serves 4 1 sample_server.1 sample_server.2.
Proof.
  split.
  - reflexivity.
  - left.
  - repeat constructor.
  - reflexivity.
  - intros fd'; rewrite sample_fds; intros [[<- E]|[_ [[<- E]|[_ E]]%lookup_insert_Some]]%lookup_insert_Some; [done|discriminate|by rewrite lookup_empty in E].
  - intros fd' o; rewrite sample_fds; intros [[<- <-]|[_ [[<- <-]|[_ E]]%lookup_insert_Some]]%lookup_insert_Some; [done|done|by rewrite lookup_empty in E].
  - cbn; lia.
Qed.

Lemma client_gets_stream_witness :
  let '(s', k') := server_run [Send [1; 2]; Accept 5; Write takes_all; Send [3]; Write takes_all] sample_server in
  wire 1 k' ++ concat (mQueue s') = [1; 2; 3].
Proof.
  apply (gets_whole 1 _ [[1; 2]; [3]] sample_server _
    (client_gets_stream 4 1 (sample_server.1) (sample_server.2) [Send [1; 2]; Accept 5; Write takes_all; Send [3]; Write takes_all]
      sample_serves ltac:(repeat split; done))).
  repeat constructor; done.
Defined.

Lemma start_leaks_witness : fds (server_start (mkAnswers 3 true false true) SocketServer_new empty_kernel).2 !! 3 = Some 0 /\
  server_start (mkAnswers 3 true false true) SocketServer_new empty_kernel =
    (false, SocketServer_new <| mServerFd := 3 |>, new_fd 3 empty_kernel).
Proof.
  pose proof (start_leaks (mkAnswers 3 true false true) SocketServer_new empty_kernel true eq_refl ltac:(cbn; lia) eq_refl) as H.
  cbn [server_start SocketServer_new mIsRunning an_socket an_reuse an_bind Z.ltb Z.compare negb] in H.
  split; [|done]; destruct H as (_ & H & _); cbn -[fds new_fd] in *; rewrite H; apply lookup_insert_eq.
Defined.

(** A descriptor of something else that gets the number of a former client gets the stream after
    the server has been started again. *)
Definition restarted : SocketServer * kernel :=
  let '(s, k) := sample_server in
  let '(_, s, k) := server_stop true s k in
  let k := new_fd 4 k in
  let '(_, s, k) := server_start (all_well 3) s k in
  server_run [Send [1; 2]; Write takes_all] (s, k).

Lemma restart_writes_to_stranger : fds (restarted.2) !! 4 = Some 2 /\ wire 2 (restarted.2) = [1; 2].
Proof. by vm_compute. Qed.

(** What was queued when the server was stopped is sent when it has been started again. *)
Lemma restart_sends_old : let '(s, k) := server_run [Send [1]; Send [2]] sample_server in
  let '(_, s, k) := server_stop true s k in
  let '(_, s, k) := server_start (all_well 3) s k in
  mQueue s = [[2]; []].
Proof. by vm_compute. Qed.

(** Of a write that takes only a part of the data the rest is lost. *)
Lemma short_write_loses : let '(s, k) := server_run [Send [1; 2; 3]; Write (fun _ _ => 1); Send [4]; Write takes_all] sample_server in
  wire 1 k = [1; 4] /\ mQueue s = [].
Proof. by vm_compute. Qed.
