(* ===== verification/TsDump.v ===== *)
(** The copies of the stream for TCP clients: the socket servers of [MediaSourceHandler] and of
    [TimeShiftBufferConsumer] (include/MediaSourceHandler.h, include/TimeShiftBufferConsumer.h),
    which are part of the build unless TS_PACKAGE_DUMP is switched off. *)

From S2P Require Import Prelude Interfaces Json Regex ChannelConfig BufferIndexer Watchdog TimeShift TimeShiftProps TimeShiftStream BufferQueue MediaSource SourceData SourceQueue HttpDemuxer HttpPipeline ChannelFiles Sockets SocketServer.

(** * What the owners of a server do with it *)

(** [send] reads the memory it is given only when the server runs. *)
Definition socket_send (buf : list Z) (size : Z) (s : SocketServer) : outcome SocketServer :=
  if mIsRunning s then data ← slice buf 0 size; Done (server_send data s).2 else Done s.

(** When a channel is opened; [enable] is what [mTsDumpEnable] leads to, if it is not null. *)
Definition ts_dump_switch (enable : option bool) (a : start_answers) (popping : bool) (c : SocketServer * kernel)
  : SocketServer * kernel :=
  match enable with
  | None => c
  | Some true => let '(_, s, k) := server_start a c.1 c.2 in (s, k)
  | Some false => let '(_, s, k) := server_stop popping c.1 c.2 in (s, k)
  end.

(** A server that runs is not started again. *)
Lemma switch_running enable a popping c : mIsRunning c.1 = true -> enable <> Some false ->
  ts_dump_switch enable a popping c = c.
Proof. destruct c as [s k]; destruct enable as [[]|]; cbn; unfold server_start; [intros ->|..]; done. Qed.

Lemma socket_send_tracks fd o buf size data s k : tracks fd o s k -> slice buf 0 size = Done data ->
  exists s', socket_send buf size s = Done s' /\ tracks fd o s' k /\ gets o True [data] (s, k) (s', k).
Proof.
  intros Ht Hd; unfold socket_send; rewrite (tr_running _ _ _ _ Ht), Hd, bind_Done; eexists; split; [done|].
  unfold server_send; rewrite (tr_running _ _ _ _ Ht); split; [by destruct Ht; split|by apply gets_none].
Qed.

(** A turn of one of the server's threads. *)
Inductive server_turn := TurnWrite (answer : Z -> list Z -> Z) | TurnAccept (fd : Z).

Definition turn_op (t : server_turn) : server_op :=
  match t with TurnWrite answer => Write answer | TurnAccept fd => Accept fd end.

Lemma turn_tracks fd o t s k : tracks fd o s k -> op_fine (turn_op t) k ->
  let c := server_exec (turn_op t) (s, k) in
  tracks fd o c.1 c.2 /\ gets o (fds k !! fd = Some o /\ takes_whole fd (turn_op t)) [] (s, k) c /\
  (fds k !! fd = Some o /\ takes_whole fd (turn_op t) -> fds c.2 !! fd = Some o).
Proof. intros Ht Hop; pose proof (tracks_step fd o (turn_op t) s k Ht Hop) as H; by destruct t. Qed.

(** * The player's side *)

Section player.
Context {cfg : StreamfsConfig} {cb : Type -> Type} {CB : CircularBuffer cb}.
Context {pool : Type} {RB : RingBuffer pool} {RBL : RingBufferLaws pool}.
Context {RBB : RingBufferBytes pool} {RBBL : RingBufferBytesLaws pool}.
Implicit Types s : TimeShiftBufferConsumer cb pool.

Record player_dump := mkPlayerDump {
  pd_tsb : TimeShiftBufferConsumer cb pool;
  pd_server : SocketServer;
  pd_kernel : kernel;
}.

#[export] Instance player_dump_eta : Eta player_dump := fun r => mkPlayerDump (pd_tsb r) (pd_server r) (pd_kernel r).

(** [readData] with the memory [data] it is to fill: all of it goes to the server, however much
    has been read. *)
Definition readData_dump (handle : Z) (data : list Z) (d : player_dump) : outcome (Z * list Z * player_dump) :=
  let size := zlen data in
  let '(bytes, s) := readData (pd_tsb d) handle size in
  data ← splice data 0 bytes;
  server ← socket_send data size (pd_server d);
  Done (zlen bytes, data, mkPlayerDump s server (pd_kernel d)).

Definition onOpen_dump (enable : option bool) (a : start_answers) (popping : bool) (d : player_dump) : player_dump :=
  let '(server, k) := ts_dump_switch enable a popping (pd_server d, pd_kernel d) in
  mkPlayerDump (TimeShift_onOpen (pd_tsb d)) server k.

(** Opening a channel keeps the clients of a server that runs. *)
Lemma onOpen_dump_serves enable a popping d fd o : serves fd o (pd_server d) (pd_kernel d) -> enable <> Some false ->
  onOpen_dump enable a popping d = mkPlayerDump (TimeShift_onOpen (pd_tsb d)) (pd_server d) (pd_kernel d).
Proof. intros Hs He; unfold onOpen_dump; by rewrite switch_running by (try done; apply Hs). Qed.

(** A read into the memory [data], a turn of the server's threads, or another step of the time
    shift buffer. *)
Inductive player_op :=
| PlRead (handle : Z) (data : list Z)
| PlTurn (t : server_turn)
| PlPost (chunk : list Z) (t now : Z)
| PlState (state : PlayerState)
| PlWatchdog
| PlRelease (handle : Z).

(** The step of the time shift buffer. *)
Definition step_of (op : player_op) : option tsb_step :=
  match op with
  | PlRead handle data => Some (TRead handle (zlen data))
  | PlTurn _ => None
  | PlPost chunk t now => Some (TPost chunk t now)
  | PlState state => Some (TState state)
  | PlWatchdog => Some TWatchdog
  | PlRelease handle => Some (TRelease handle)
  end.

(** What a read returned, and the memory it left, which was sent. *)
Record dump_read := mkRead { rd_handle : Z; rd_bytes : list Z; rd_sent : list Z }.

Definition player_exec (op : player_op) (d : player_dump) : outcome (list dump_read * player_dump) :=
  match op with
  | PlRead handle data =>
    '(n, data, d) ← readData_dump handle data d;
    Done ([mkRead handle (ztake n data) data], d)
  | PlTurn t =>
    let '(server, k) := server_exec (turn_op t) (pd_server d, pd_kernel d) in
    Done ([], mkPlayerDump (pd_tsb d) server k)
  | PlPost chunk t now => s ← TimeShift_post (pd_tsb d) chunk t now; Done ([], d <| pd_tsb := s |>)
  | PlState state => s ← setPlayerState (pd_tsb d) state; Done ([], d <| pd_tsb := s |>)
  | PlWatchdog => Done ([], d <| pd_tsb := default (pd_tsb d) (watchdog_runs (pd_tsb d)) |>)
  | PlRelease handle => Done ([], d <| pd_tsb := release (pd_tsb d) handle |>)
  end.

Fixpoint player_run (ops : list player_op) (d : player_dump) : outcome (list dump_read * player_dump) :=
  match ops with
  | [] => Done ([], d)
  | op :: ops =>
    '(reads, d) ← player_exec op d;
    '(rest, d) ← player_run ops d;
    Done (reads ++ rest, d)
  end.

(** The handle [h] is not left behind, as in [reads_are_stream], and the kernel hands out
    descriptors that are free. *)
Definition player_op_fine (h : Z) (op : player_op) (d : player_dump) : Prop :=
  match op with
  | PlTurn t => op_fine (turn_op t) (pd_kernel d)
  | _ => from_option (fun st => step_fine h st (pd_tsb d)) True (step_of op)
  end.

Fixpoint player_fine (h : Z) (ops : list player_op) (d : player_dump) : Prop :=
  match ops with
  | [] => True
  | op :: ops => player_op_fine h op d /\
      forall reads d', player_exec op d = Done (reads, d') -> player_fine h ops d'
  end.

Lemma player_fine_cons h op ops d reads d' : player_op_fine h op d -> player_exec op d = Done (reads, d') ->
  player_fine h ops d' -> player_fine h (op :: ops) d.
Proof. intros Hop He Hops; split; [done|]; intros reads1 d1 He1; rewrite He in He1; by injection He1 as _ <-. Qed.

Definition dump_bytes (op : player_op) : list Z := match op with PlPost chunk _ _ => chunk | _ => [] end.

(** The handles and the memories the reads of a run are given. *)
Definition memories (ops : list player_op) : list (Z * list Z) :=
  omap (fun op => match op with PlRead handle data => Some (handle, data) | _ => None end) ops.

(** The memory a read leaves: the bytes read, and then what was in it before. *)
Definition read_left (m : Z * list Z) (r : dump_read) : Prop :=
  rd_handle r = m.1 /\ zlen (rd_bytes r) <= zlen m.2 /\ rd_sent r = rd_bytes r ++ zdrop (zlen (rd_bytes r)) m.2.

(** What [h] has read. *)
Definition read_by (h : Z) (reads : list dump_read) : list Z :=
  concat (rd_bytes <$> filter (fun r => rd_handle r = h) reads).

(** [write] takes all the data for [fd]. *)
Definition player_whole (fd : Z) (op : player_op) : Prop :=
  match op with PlTurn t => takes_whole fd (turn_op t) | _ => True end.

(** A read is by [h] and fills its memory. *)
Definition fills (h : Z) (r : dump_read) : Prop := rd_handle r = h /\ rd_sent r = rd_bytes r.

Lemma read_by_app h l1 l2 : read_by h (l1 ++ l2) = read_by h l1 ++ read_by h l2.
Proof. unfold read_by; by rewrite filter_app, fmap_app, concat_app. Qed.

Lemma read_by_one h handle bytes mem : read_by h [mkRead handle bytes mem] = if bool_decide (handle = h) then bytes else [].
Proof.
  unfold read_by; case_bool_decide; [rewrite filter_cons_True by done|by rewrite filter_cons_False by done]; cbn.
  apply app_nil_r.
Qed.

Lemma read_by_fills h reads : Forall (fills h) reads -> concat (rd_sent <$> reads) = read_by h reads.
Proof.
  induction 1 as [|r reads [Hh Hr] _ IH]; [done|]; unfold read_by in *; rewrite filter_cons_True by done; cbn.
  by rewrite Hr, IH.
Qed.

Lemma readData_length s handle n : 0 <= n -> zlen (readData s handle n).1 <= n.
Proof.
  intros Hn; destruct (readData_spec s handle n) as [o Ho]; destruct (readData s handle n) as [bytes s']; cbn [fst].
  destruct Ho as (Hr & _); pose proof (read_size n (read_position s handle) (mRingBufferPool s) Hn) as Hl; by rewrite Hr in Hl.
Qed.

(** A read sends the whole memory it was given, also when it does not fill it. *)
Lemma readData_dump_tracks fd o handle data d : tracks fd o (pd_server d) (pd_kernel d) ->
  exists mem server, let '(bytes, s) := readData (pd_tsb d) handle (zlen data) in
  readData_dump handle data d = Done (zlen bytes, mem, mkPlayerDump s server (pd_kernel d)) /\
  zlen bytes <= zlen data /\ mem = bytes ++ zdrop (zlen bytes) data /\ tracks fd o server (pd_kernel d) /\
  gets o True [mem] (pd_server d, pd_kernel d) (server, pd_kernel d).
Proof.
  intros Ht; pose proof (readData_length (pd_tsb d) handle (zlen data) (zlen_nonneg data)) as Hl; unfold readData_dump.
  destruct (readData (pd_tsb d) handle (zlen data)) as [bytes s]; cbn [fst] in Hl; pose proof (zlen_nonneg bytes).
  rewrite splice_ok, bind_Done by lia; rewrite ztake_0, Z.add_0_l; cbn [app].
  assert (Hz : zlen (bytes ++ zdrop (zlen bytes) data) = zlen data) by (rewrite zlen_app, zlen_zdrop; lia).
  assert (Hsl : slice (bytes ++ zdrop (zlen bytes) data) 0 (zlen data) = Done (bytes ++ zdrop (zlen bytes) data)).
  { pose proof (zlen_nonneg data); rewrite slice_ok, zdrop_0, ztake_all by lia; done. }
  destruct (socket_send_tracks fd o _ _ _ _ _ Ht Hsl) as (server & -> & Ht' & Hg); rewrite bind_Done; eauto 10.
Qed.

(** What a step of the run does. *)
Definition dump_moves (h fd o : Z) (op : player_op) (d : player_dump) (reads : list dump_read) (d' : player_dump) : Prop :=
  moves h (pd_tsb d) (dump_bytes op) (read_by h reads) (pd_tsb d') /\ Forall2 read_left (memories [op]) reads /\
  tracks fd o (pd_server d') (pd_kernel d') /\
  gets o (fds (pd_kernel d) !! fd = Some o /\ player_whole fd op) (rd_sent <$> reads) (pd_server d, pd_kernel d) (pd_server d', pd_kernel d') /\
  (fds (pd_kernel d) !! fd = Some o /\ player_whole fd op -> fds (pd_kernel d') !! fd = Some o).

(** A read by [h] may be its first one. *)
Lemma player_read h fd o handle data d : streaming (pd_tsb d) -> (handle <> h -> is_Some (mHandles (pd_tsb d) !! h)) ->
  offsets_ok (pd_tsb d) -> tracks fd o (pd_server d) (pd_kernel d) -> player_op_fine h (PlRead handle data) d ->
  zlen (stored (mRingBufferPool (pd_tsb d))) < 18446744073709551616 ->
  exists reads d', player_exec (PlRead handle data) d = Done (reads, d') /\ dump_moves h fd o (PlRead handle data) d reads d'.
Proof.
  intros Hs Hh Hoff Ht [Hz Hold] Hlen; cbn [player_exec].
  destruct (readData_dump_tracks fd o handle data d Ht) as (mem & server & Hr).
  assert (Hm : moves h (pd_tsb d) [] (if bool_decide (handle = h) then (readData (pd_tsb d) handle (zlen data)).1 else [])
    (readData (pd_tsb d) handle (zlen data)).2).
  { case_bool_decide as E; [subst; by apply read_moves; [..|apply Hold|]|by apply other_moves; [|apply Hh|..]]. }
  destruct (readData (pd_tsb d) handle (zlen data)) as [bytes s]; cbn [fst snd] in Hm.
  destruct Hr as (-> & Hl & Emem & Ht' & Hg); rewrite bind_Done; eexists _, _; split; [done|]; pose proof (zlen_nonneg bytes).
  assert (Et : ztake (zlen bytes) mem = bytes) by (rewrite Emem, ztake_app_l, ztake_all by lia; done).
  rewrite Et; unfold dump_moves; rewrite read_by_one; split_and!; [exact Hm|by constructor|exact Ht'| |by intros []].
  by eapply gets_weaken.
Qed.

Lemma player_step h fd o op d : streaming (pd_tsb d) -> is_Some (mHandles (pd_tsb d) !! h) ->
  offsets_ok (pd_tsb d) -> tracks fd o (pd_server d) (pd_kernel d) -> player_op_fine h op d ->
  zlen (stored (mRingBufferPool (pd_tsb d))) < 18446744073709551616 ->
  exists reads d', player_exec op d = Done (reads, d') /\ dump_moves h fd o op d reads d'.
Proof.
  intros Hs Hh Hoff Ht Hf Hlen.
  assert (Hother : forall st s, step_of op = Some st -> match op with PlRead _ _ => False | _ => True end ->
    moves h (pd_tsb d) (dump_bytes op) [] s -> dump_moves h fd o op d [] (d <| pd_tsb := s |>)).
  { intros st s _ Hop Hm; split_and!; try done; [by destruct op; try done; constructor| |by intros []].
    apply gets_none; [by rewrite app_nil_r|done]. }
  destruct op as [handle data|t|chunk t now|state| |handle]; cbn [player_exec]; [by apply player_read|..]; unfold player_op_fine in Hf; cbn in Hf.
  - destruct (turn_tracks fd o t _ _ Ht Hf) as (H1 & H2 & H3); destruct (server_exec _ _) as [server k].
    eexists _, _; split; [done|]; split_and!; cbn; try done; by apply moves_refl.
  - destruct (post_moves h chunk t now _ Hs Hh Hoff Hf) as (s & -> & Hm); rewrite bind_Done; eexists _, _; split; [done|by eapply Hother].
  - destruct (state_moves h state _ Hs Hh Hoff) as (s & -> & Hm); rewrite bind_Done; eexists _, _; split; [done|by eapply Hother].
  - eexists _, _; split; [done|]; eapply Hother; [done..|]; apply same_moves; try done; unfold watchdog_runs; by destruct (watchdog_thread _).
  - eexists _, _; split; [done|]; eapply Hother; [done..|by apply release_moves].
Qed.

(** The same for a run. *)
Definition dump_run_moves (h fd o : Z) (ops : list player_op) (d : player_dump) (reads : list dump_read) (d' : player_dump) : Prop :=
  moves h (pd_tsb d) (concat (dump_bytes <$> ops)) (read_by h reads) (pd_tsb d') /\ Forall2 read_left (memories ops) reads /\
  gets o (fds (pd_kernel d) !! fd = Some o /\ Forall (player_whole fd) ops) (rd_sent <$> reads)
    (pd_server d, pd_kernel d) (pd_server d', pd_kernel d').

Lemma dump_moves_cons h fd o op ops d d1 d2 reads rest : dump_moves h fd o op d reads d1 ->
  dump_run_moves h fd o ops d1 rest d2 -> dump_run_moves h fd o (op :: ops) d (reads ++ rest) d2.
Proof.
  intros (M1 & L1 & _ & G1 & K1) (M2 & L2 & G2); split_and!.
  - rewrite read_by_app; cbn [fmap list_fmap concat]; exact (moves_trans _ _ _ _ _ _ _ _ M1 M2).
  - replace (memories (op :: ops)) with (memories [op] ++ memories ops) by (unfold memories; by rewrite <- omap_app).
    by apply Forall2_app.
  - rewrite fmap_app; eapply gets_trans; [exact G1|exact G2|]; intros [Ho [Hw Hws]%Forall_cons]; by split; [|split; [apply K1|]].
Qed.

Lemma player_steps h fd o ops d : streaming (pd_tsb d) -> is_Some (mHandles (pd_tsb d) !! h) ->
  offsets_ok (pd_tsb d) -> tracks fd o (pd_server d) (pd_kernel d) -> player_fine h ops d ->
  zlen (stored (mRingBufferPool (pd_tsb d)) ++ concat (dump_bytes <$> ops)) < 18446744073709551616 ->
  exists reads d', player_run ops d = Done (reads, d') /\ dump_run_moves h fd o ops d reads d'.
Proof.
  revert d; induction ops as [|op ops IH]; intros d Hs Hh Hoff Ht Hf Hlen; cbn [player_run].
  - exists [], d; split; [done|]; split_and!; [by apply moves_refl|by constructor|apply gets_none; [by rewrite app_nil_r|done]].
  - destruct Hf as [Hop Hops]; cbn [fmap list_fmap concat] in Hlen; rewrite app_assoc, zlen_app, zlen_app in Hlen.
    pose proof (zlen_nonneg (dump_bytes op)); pose proof (zlen_nonneg (concat (dump_bytes <$> ops))).
    destruct (player_step h fd o op d Hs Hh Hoff Ht Hop ltac:(lia)) as (reads & d1 & He & Hm).
    rewrite He, bind_Done; pose proof Hm as ((Hs1 & Hh1 & Hoff1 & Hst & _) & _ & Ht1 & _).
    destruct (IH d1 Hs1 Hh1 Hoff1 Ht1 (Hops _ _ He)) as (rest & d' & -> & Hm').
    { rewrite Hst, !zlen_app; lia. }
    rewrite bind_Done; exists (reads ++ rest), d'; split; [done|by eapply dump_moves_cons].
Qed.

(** C15. What a TCP client of the player's copy gets, from the first read of a handle on, however
    reads by this and other handles, posts, pauses and the threads of the server interleave: for
    each read one buffer is sent, which is the memory the caller gave, [size] bytes of it, with
    the bytes that were read in front of what the memory held before; of each buffer, in order,
    the client gets the part that [write] takes in one call. The reads of the handle put together
    are the stream from its position on. So the client gets exactly what the handle reads when no
    other handle reads, every read fills its memory and every [write] takes all. The conditions
    are those of [reads_are_stream] on the handle, the stream stays open and the copy switched on,
    and the kernel hands out descriptors that are free. *)
Theorem player_dump_correct h fd o data ops d (Hs : streaming (pd_tsb d)) (Hoff : offsets_ok (pd_tsb d))
    (Hserves : serves fd o (pd_server d) (pd_kernel d)) (Hfine : player_fine h (PlRead h data :: ops) d)
    (Hlen : zlen (stored (mRingBufferPool (pd_tsb d)) ++ concat (dump_bytes <$> ops)) < 18446744073709551616) :
  exists reads d', player_run (PlRead h data :: ops) d = Done (reads, d') /\
    Forall2 read_left (memories (PlRead h data :: ops)) reads /\
    gets o (Forall (player_whole fd) ops) (rd_sent <$> reads) (pd_server d, pd_kernel d) (pd_server d', pd_kernel d') /\
    stored (mRingBufferPool (pd_tsb d')) = stored (mRingBufferPool (pd_tsb d)) ++ concat (dump_bytes <$> ops) /\
    read_by h reads `prefix_of` zdrop (read_position (pd_tsb d) h) (stored (mRingBufferPool (pd_tsb d'))) /\
    (Forall (fills h) reads -> Forall (player_whole fd) ops ->
     wire o (pd_kernel d') ++ concat (mQueue (pd_server d')) =
       wire o (pd_kernel d) ++ concat (mQueue (pd_server d)) ++ read_by h reads).
Proof.
  destruct Hfine as [Hop Hops]; rewrite zlen_app in Hlen; pose proof (zlen_nonneg (concat (dump_bytes <$> ops))).
  pose proof (serves_tracks _ _ _ _ Hserves) as Ht; pose proof (sv_object _ _ _ _ Hserves) as Ho.
  destruct (player_read h fd o h data d Hs) as (r1 & d1 & He & Hm); try done; [lia|].
  cbn [player_run]; rewrite He, bind_Done; pose proof Hm as ((Hs1 & Hh1 & Hoff1 & Hst & _) & _ & Ht1 & _); cbn [dump_bytes] in *.
  destruct (player_steps h fd o ops d1 Hs1 Hh1 Hoff1 Ht1 (Hops _ _ He)) as (rest & d' & -> & Hm').
  { rewrite Hst, app_nil_r, zlen_app; lia. }
  destruct (dump_moves_cons h fd o _ _ _ _ _ _ _ Hm Hm') as ((_ & _ & _ & Hb & Hp & _) & Hl & Hg).
  assert (Hg' : gets o (Forall (player_whole fd) ops) (rd_sent <$> r1 ++ rest) (pd_server d, pd_kernel d) (pd_server d', pd_kernel d')).
  { eapply gets_weaken; [exact Hg|]; intros ?; split; [done|by constructor]. }
  rewrite bind_Done; exists (r1 ++ rest), d'; split_and!; try done.
  intros Hf Hw; rewrite <- (read_by_fills h) by done; exact (gets_whole _ _ _ _ _ Hg' Hw).
Qed.

End player.

(** * The demuxer's side *)

Section demuxer.
Context {Rx : BoostRegex} {Tl : BoostToLower} {Ia : InetAton} {cfg : StreamfsConfig} {Hcfg : StreamfsConfigOk cfg} {dirt : Dirt}.
Local Abbreviation source_handler := (MediaSourceHandler HttpDemuxerImpl).

(** What a call has sent. *)
Fixpoint send_all (es : list source_event) (s : SocketServer) : outcome SocketServer :=
  match es with
  | [] => Done s
  | SocketSend buf size :: es => s ← socket_send buf size s; send_all es s
  | _ :: es => send_all es s
  end.

Record demuxer_dump := mkDemuxerDump {
  dd_pipe : pipeline;
  dd_server : SocketServer;
  dd_kernel : kernel;
}.

(** A step of the threads that bring the data, or a turn of the threads of the server; [open]
    switches the server before anything else. *)
Inductive dump_op :=
| DPipe (enable : option bool) (a : start_answers) (popping : bool) (op : pipe_op)
| DTurn (t : server_turn).

Definition dump_exec (op : dump_op) (d : demuxer_dump) : outcome demuxer_dump :=
  match op with
  | DPipe enable a popping op =>
    let '(server, k) := match op with
                        | POpen _ _ => ts_dump_switch enable a popping (dd_server d, dd_kernel d)
                        | _ => (dd_server d, dd_kernel d)
                        end in
    p ← pipe_exec op (dd_pipe d);
    server ← send_all (drop (length (events (source (dd_pipe d)))) (events (source p))) server;
    Done (mkDemuxerDump p server k)
  | DTurn t =>
    let '(server, k) := server_exec (turn_op t) (dd_server d, dd_kernel d) in
    Done (mkDemuxerDump (dd_pipe d) server k)
  end.

(** A step that would wait is skipped. *)
Fixpoint dump_run (ops : list dump_op) (d : demuxer_dump) : outcome demuxer_dump :=
  match ops with
  | [] => Done d
  | op :: ops => d ← match dump_exec op d with Stop Blocked => Done d | r => r end; dump_run ops d
  end.

(** The copy is not switched off, and the kernel hands out descriptors that are free. *)
Definition dump_op_fine (op : dump_op) (d : demuxer_dump) : Prop :=
  match op with
  | DPipe enable _ _ op => enable <> Some false /\ pipe_op_ok op
  | DTurn t => op_fine (turn_op t) (dd_kernel d)
  end.

Fixpoint dump_fine (ops : list dump_op) (d : demuxer_dump) : Prop :=
  match ops with
  | [] => True
  | op :: ops => dump_op_fine op d /\
      match dump_exec op d with
      | Done d' => dump_fine ops d'
      | Stop Blocked => dump_fine ops d
      | Stop _ => True
      end
  end.

(** Conditions that do not depend on the state. *)
Definition dump_op_static (op : dump_op) : Prop :=
  match op with
  | DPipe enable _ _ op => enable <> Some false /\ pipe_op_ok op
  | DTurn (TurnWrite _) => True
  | DTurn (TurnAccept _) => False
  end.

Lemma dump_fine_static ops d : Forall dump_op_static ops -> dump_fine ops d.
Proof.
  intros Hops; revert d; induction Hops as [|op ops Hop _ IH]; intros d; cbn [dump_fine]; [done|]; split.
  - by destruct op as [|[]].
  - destruct (dump_exec op d) as [|[]]; auto.
Qed.

(** [write] takes all the data for [fd]. *)
Definition dump_whole (fd : Z) (op : dump_op) : Prop :=
  match op with DTurn t => takes_whole fd (turn_op t) | DPipe _ _ _ _ => True end.

Definition sends (es : list source_event) : list (outcome (list Z)) :=
  omap (fun e => match e with SocketSend buf size => Some (slice buf 0 size) | _ => None end) es.

Lemma send_all_tracks fd o es l s k : tracks fd o s k -> sends es = Done <$> l ->
  exists s', send_all es s = Done s' /\ tracks fd o s' k /\ gets o True l (s, k) (s', k).
Proof.
  revert l s; induction es as [|e es IH]; intros l s Ht Hl; cbn [send_all].
  - exists s; destruct l; [|done]; split_and!; try done; apply gets_none; [by rewrite app_nil_r|done].
  - destruct e; try (by apply IH); destruct l as [|x l]; [done|]; cbn -[slice] in Hl; injection Hl as Hx Hl.
    destruct (socket_send_tracks fd o _ _ _ s k Ht Hx) as (s1 & -> & Ht1 & Hg1); rewrite bind_Done.
    destruct (IH l s1 Ht1 Hl) as (s' & -> & Ht' & Hg'); exists s'; split_and!; try done.
    by eapply (gets_trans _ _ _ _ [x] l); [exact Hg1|exact Hg'|].
Qed.

Lemma open_events uri now (s s' : source_handler) r : source_open uri 0 now s = Done (s', r) ->
  exists new, events s' = events s ++ new.
Proof.
  unfold source_open; case_if; [intros [= <- _]; exists []; by rewrite app_nil_r|].
  destruct (mSessions s !! 0) as [f|]; [|intros [= <- _]; exists []; by rewrite app_nil_r].
  destruct (dx_getChannelStats true (mDemuxer f)) as [x y]; intros (c & _ & Hr)%bind_done_inv; revert Hr; cbv beta zeta.
  set (s1 := _ <| mCurrentUri := uri |>); set (f1 := f <| mDemuxer := x |>).
  assert (Hd : exists new, events (disconnect f1 s1).2 = events s ++ new).
  { unfold disconnect; case_if; [exists []; by rewrite app_nil_r|by eexists]. }
  destruct (disconnect f1 s1) as [f2 s2], Hd as [new Hd]; cbn [snd] in Hd; unfold emit.
  destruct uri; intros [= <- _]; cbn [events]; eexists; cbn; rewrite Hd, <- !app_assoc; reflexivity.
Qed.

Lemma pipe_events pure bufs op p p' : pipe_inv pure bufs p -> pipe_exec op p = Done p' ->
  exists new, events (source p') = events (source p) ++ new.
Proof.
  intros Hp He; destruct (is_open op) eqn:Ho.
  - destruct op; try done; cbn [pipe_exec] in He; revert He; unfold joined; case_if; [|done].
    intros (s & Hs & [= <-])%bind_done_inv; destruct (source_open uri 0 now (source p)) as [[s1 r]|] eqn:Eo; [|done].
    injection Hs as <-; by eapply open_events.
  - destruct (pipe_adds pure bufs op p p' Hp Ho He) as ((new & Hn & _) & _); by exists new.
Qed.

(** The buffers of the pipeline, as they have been queued. *)
Definition queued_log (p : pipeline) (log : list entry) : Prop :=
  Forall entry_ok log /\ dumped (source p) = Done <$> (snd <$> log) /\ http_bytes log `prefix_of` received p.

Lemma inv_log pure bufs p : pipe_inv pure bufs p -> exists log, queued_log p log.
Proof.
  intros (h & copied & queue & _ & [_ _ _ _ _ S6 S8 S7] & _); exists (copied ++ queue); split_and!; [done|done|].
  rewrite S7; by eexists.
Qed.

Lemma pipe_sends bufs op p p' : pipe_inv false bufs p -> pipe_op_ok op -> pipe_exec op p = Done p' ->
  pipe_inv false bufs p' /\ exists new l, events (source p') = events (source p) ++ new /\ sends new = Done <$> l /\
    dumped (source p') = dumped (source p) ++ (Done <$> l).
Proof.
  intros Hp Hop He; pose proof (pipe_step false bufs p op Hp Hop ltac:(by destruct op)) as Hp'.
  unfold step_ok in Hp'; rewrite He in Hp'; cbn [wp] in Hp'; split; [done|].
  destruct (pipe_events false bufs op p p' Hp He) as [new Hn]; exists new.
  assert (Hd : dumped (source p') = dumped (source p) ++ sends new) by (unfold dumped, sends; by rewrite Hn, omap_app).
  destruct (inv_log _ _ _ Hp') as (log & _ & Hl & _); rewrite Hd in Hl.
  symmetry in Hl; apply fmap_app_inv in Hl as (l1 & l2 & _ & H2 & _); exists l2; by rewrite Hd, H2.
Qed.

(** What a step does, and a run. *)
Definition dump_keeps (fd o : Z) (bufs : list Z) (whole : Prop) (d d' : demuxer_dump) : Prop :=
  pipe_inv false bufs (dd_pipe d') /\ tracks fd o (dd_server d') (dd_kernel d') /\
  exists l, dumped (source (dd_pipe d')) = dumped (source (dd_pipe d)) ++ (Done <$> l) /\
    gets o (fds (dd_kernel d) !! fd = Some o /\ whole) l (dd_server d, dd_kernel d) (dd_server d', dd_kernel d') /\
    (fds (dd_kernel d) !! fd = Some o /\ whole -> fds (dd_kernel d') !! fd = Some o).

Lemma dump_keeps_trans fd o bufs (w1 w2 w : Prop) d d1 d2 : dump_keeps fd o bufs w1 d d1 -> dump_keeps fd o bufs w2 d1 d2 ->
  (w -> w1 /\ w2) -> dump_keeps fd o bufs w d d2.
Proof.
  intros (_ & _ & l1 & D1 & G1 & K1) (Hp & Ht & l2 & D2 & G2 & K2) Hw; split; [done|split; [done|]]; exists (l1 ++ l2).
  split_and!; [by rewrite D2, D1, fmap_app, app_assoc| |intros [? [? ?]%Hw]; auto].
  eapply gets_trans; [exact G1|exact G2|]; intros [? [? ?]%Hw]; auto.
Qed.

Lemma dump_step fd o bufs op d : pipe_inv false bufs (dd_pipe d) -> tracks fd o (dd_server d) (dd_kernel d) ->
  dump_op_fine op d -> wp may_stop (dump_exec op d) (dump_keeps fd o bufs (dump_whole fd op) d).
Proof.
  intros Hp Hs Hf; destruct op as [enable a popping op|t]; cbn [dump_exec dump_op_fine] in *.
  - destruct Hf as [He Hop]; set (c := match op with POpen _ _ => _ | _ => _ end).
    assert (c = (dd_server d, dd_kernel d)) as -> by (destruct op; try done; apply switch_running; [apply Hs|done]).
    pose proof (pipe_step false bufs (dd_pipe d) op Hp Hop ltac:(by destruct op)) as Hst; unfold step_ok in Hst.
    destruct (pipe_exec op (dd_pipe d)) as [p|e] eqn:Ee; [|exact Hst]; rewrite bind_Done.
    destruct (pipe_sends bufs op (dd_pipe d) p Hp Hop Ee) as (Hp' & new & l & Hn & Hl & Hd).
    rewrite Hn, drop_app_length; destruct (send_all_tracks fd o new l _ _ Hs Hl) as (server & -> & Hs' & Hg); rewrite bind_Done.
    split; [done|split; [done|]]; exists l; split_and!; [done| |by intros []].
    by eapply gets_weaken.
  - destruct (turn_tracks fd o t _ _ Hs Hf) as (H1 & H2 & H3); destruct (server_exec _ _) as [server k]; cbn [fst snd] in *.
    split; [done|split; [done|]]; exists []; split_and!; [by rewrite app_nil_r|exact H2|exact H3].
Qed.

Lemma dump_steps fd o bufs ops d : pipe_inv false bufs (dd_pipe d) -> tracks fd o (dd_server d) (dd_kernel d) ->
  dump_fine ops d -> wp (fun e => e = Ub /\ dirty) (dump_run ops d) (dump_keeps fd o bufs (Forall (dump_whole fd) ops) d).
Proof.
  revert d; induction ops as [|op ops IH]; intros d Hp Hs Hf; cbn [dump_run].
  - split; [done|split; [done|]]; exists []; split_and!; [by rewrite app_nil_r|apply gets_none; [by rewrite app_nil_r|done]|by intros []].
  - destruct Hf as [Hop Hops]; pose proof (dump_step fd o bufs op d Hp Hs Hop) as Hst.
    destruct (dump_exec op d) as [d1|e]; cbn [wp] in Hst.
    + rewrite bind_Done; pose proof Hst as (Hp1 & Hs1 & _); eapply wp_mono; [exact (IH d1 Hp1 Hs1 Hops)|].
      intros d' _ Hd'; eapply dump_keeps_trans; [exact Hst|exact Hd'|]; by intros [? ?]%Forall_cons.
    + destruct Hst as [->|[-> Hd]]; [|done]; rewrite bind_Done; eapply wp_mono; [exact (IH d Hp Hs Hops)|].
      intros d' _ (? & ? & l & ? & Hg & Hk); split; [done|split; [done|]]; exists l; split_and!; [done| |].
      * eapply gets_weaken; [exact Hg|]; by intros [? [_ ?]%Forall_cons].
      * intros [? [_ ?]%Forall_cons]; by apply Hk.
Qed.

End demuxer.

Section demuxer_copy.
Context {Rx : BoostRegex} {Tl : BoostToLower} {Ia : InetAton} {cfg : StreamfsConfig} {Hcfg : StreamfsConfigOk cfg}.


End demuxer_copy.
