(* ===== verification/StreamExamples.v ===== *)
(** The theorems on the files of multicast channels and on the copies of the stream at concrete
    inputs. *)

From S2P Require Import Prelude Interfaces Json ProtectionExport StdString Regex ChannelConfig ChannelProps Protection TimeShift TimeShiftExamples BufferQueue MediaSource CallbackHandler SourceExamples Plugin PluginProps TimeShiftProps TimeShiftStream PluginStream SourceData SourceQueue StreamBox MulticastDemuxer Rtp RtpProps ListenerPipeline Listeners ChannelFiles PluginExamples BufferIndexer HttpDemuxer HttpPipeline Sockets SocketServer TsDump.

#[local] Existing Instances config1000 config1000_ok.

(** A multicast channel has been opened, and nothing has come yet. *)
Definition group_source : outcome (MediaSourceHandler MulticastDemuxer) :=
  s ← MediaSourceHandler_new (mkMulticast []) 0 true 0 sample_mems;
  match s with Some s => '(s, _) ← source_open sample_uri 0 0 s; Done s | None => Stop Abort end.

Definition opened_group : MediaSourceHandler MulticastDemuxer :=
  match group_source with
  | Done s => s
  | Stop _ => mkSource (BufferQueue_new 0) ∅ [] ∅ false [] ChannelConfig_default 0 false 0 [] [] []
  end.

Lemma opened_group_inv {dirt : Dirt} `{LL : ListenerLaws L E} (l : L) : listener_ok l ->
  lp_inv (mem_ptr <$> sample_mems) (listener_begin opened_group sample_garbage l : listener_pipe L E MulticastDemuxer).
Proof.
  intros Hl; assert (Hg : zlen sample_garbage = BUFFER_CHUNK_SIZE) by (by vm_compute).
  assert (Hu : is_done (ChannelConfig_new sample_uri DEFAULT_SOCKET_PORT) = true) by (by vm_compute).
  destruct (listener_begin_inv (mkMulticast []) sample_mems 0 sample_garbage l sample_mems_ok
    (fun H => False_ind _ (sample_mems_clean H)) Hg Hl) as (s & Hs & Hi).
  destruct (open_same_queue sample_uri 0 s Hu) as (s' & r & Ho & Hq).
  unfold opened_group, group_source; rewrite Hs, bind_Done, Ho, bind_Done.
  exact (inv_same_queue _ (listener_begin s sample_garbage l) s' Hi Hq).
Qed.

(** ** RTP *)

(** The packet of a place, with a payload of 700 bytes. *)
Definition rtp_datagram (k x : Z) : Z * list Z :=
  (712, [128; 33; Z.shiftr (seq16 k) 8; Z.land (seq16 k) 255] ++ replicate 8 0 ++ replicate (Z.to_nat 700) x).

Definition new_rtp : RtpStreamListener * list Z := (RtpStreamListener_new, replicate (Z.to_nat BUF_SIZE) 0).

Definition rtp_box : box (cb := list_cb) (q := list) (pool := list_pool) (H := unit) (P := rtp_pipe) :=
  mkBox (FCCPlugin_new opened_group tt (run_state TimeShiftExamples.opened) (0, 0)) (listener_begin opened_group sample_garbage new_rtp).

Local Abbreviation step := (BPipe sample_clocks 1000).

(** The second packet comes after the third one; the sequence numbers wrap around. Then the player
    pauses, the watchdog expires, packets come, and the player plays on. *)
Definition rtp_ops : list (box_op (Op := listener_op (Z * list Z))) :=
  [step (LReceive (rtp_datagram 65535 1)); step (LPush 1000); step (LReceive (rtp_datagram 65537 3)); step LTake;
   step LCopy; step (LReceive (rtp_datagram 65536 2)); step (LPush 1000); step (LPush 1000); step LTake; step LCopy;
   BApp (AppRead 3 500 10); step LTake; step LCopy; BApp (AppRead 3 500 510); BApp (AppRead 3 50000 1010);
   BApp (AppState sample_clocks (text_of "PAUSED")); BApp AppWatchdog; BApp AppWatchdog; BApp AppWatchdog;
   BApp AppWatchdog; BApp AppWatchdog; BPipe sample_clocks 2000 (LReceive (rtp_datagram 65538 4)); BPipe sample_clocks 2000 (LPush 2000);
   BPipe sample_clocks 2000 LTake; BPipe sample_clocks 2000 LCopy; BPipe sample_clocks 3000 (LReceive (rtp_datagram 65539 5));
   BPipe sample_clocks 3000 (LPush 3000); BPipe sample_clocks 3000 LTake; BPipe sample_clocks 3000 LCopy;
   BApp (AppState sample_clocks (text_of "PLAYING")); BApp (AppRead 3 300 2000); BApp (AppRead 3 50000 2300)].

Definition rtp_fine_b (op : listener_op (Z * list Z)) : bool :=
  match op with
  | LReceive e => (e.1 =? zlen e.2) && (zlen e.2 <=? BUF_SIZE) &&
    match rtp_header false e.2 e.1 with
    | Done (Some (_, o, k)) => is_done (slice e.2 o k)
    | Done None => true
    | Stop _ => false
    end
  | LOpen _ _ => false
  | _ => true
  end.

Lemma rtp_fine_b_sound op (p : rtp_pipe) : rtp_fine_b op = true -> pl_fine (Pipeline := rtp_pipeline false) op p.
Proof.
  destruct op; try done; unfold rtp_fine_b; intros [[H1%Z.eqb_eq H2%Z.leb_le]%andb_true_iff H3]%andb_true_iff.
  split; [done|]; split; [done|]; split; [done|]; by destruct (rtp_header false e.2 e.1) as [[[[? ?] ?]|]|].
Qed.


(** What the run reads: the payloads in the order of their places. *)
Lemma rtp_reads_in_order :
  fst <$> box_run (PL := rtp_pipeline false) [] 1 false 3 (BApp (AppRead 3 10 0) :: rtp_ops) rtp_box =
  Done (as_text (ztake 3000 (replicate (Z.to_nat 700) 1 ++ replicate (Z.to_nat 700) 2 ++ replicate (Z.to_nat 700) 3 ++
    replicate (Z.to_nat 700) 4 ++ replicate (Z.to_nat 700) 5))).
Proof. by vm_compute. Qed.

(** The packets of the run come as the theorem asks. *)
Lemma rtp_run_packets :
  packets_come false [rtp_datagram 65535 1; rtp_datagram 65537 3; rtp_datagram 65536 2; rtp_datagram 65538 4; rtp_datagram 65539 5]
    [(65535, replicate (Z.to_nat 700) 1); (65537, replicate (Z.to_nat 700) 3); (65536, replicate (Z.to_nat 700) 2);
     (65538, replicate (Z.to_nat 700) 4); (65539, replicate (Z.to_nat 700) 5)] 65535 65540.
Proof.
  split; [|split; [done|]].
  - repeat constructor; try (by vm_compute); eexists 12, 700; split; by vm_compute.
  - exists ∅; cbn [fmap list_fmap fst]; eapply (ar_due _ _ 65536); [split_and!; [lia|lia|set_solver]|].
    replace (filter (fun k => 65536 < k) ∅) with (∅ : gset Z) by set_solver.
    apply ar_early; [lia|set_solver|rewrite size_empty; lia|].
    eapply (ar_due _ _ 65538).
    { split_and!; [lia| |set_solver]; intros i Hi; assert (i = 65537) as -> by lia; set_solver. }
    replace (filter (fun k => 65538 < k) ({[65537]} ∪ ∅)) with (∅ : gset Z).
    { apply (ar_due _ _ 65539); [split_and!; [lia|lia|set_solver]|].
      replace (filter (fun k => 65539 < k) ∅) with (∅ : gset Z) by set_solver.
      apply (ar_due _ _ 65540); [split_and!; [lia|lia|set_solver]|].
      replace (filter (fun k => 65540 < k) ∅) with (∅ : gset Z) by set_solver; apply ar_nil. }
    symmetry; apply set_eq; intros k; rewrite elem_of_filter; split; [|set_solver].
    intros [Hk Hin]; rewrite elem_of_union, elem_of_singleton in Hin; set_solver by lia.
Qed.

(** ** UDP *)

Definition udp_box : box (cb := list_cb) (q := list) (pool := list_pool) (H := unit) (P := udp_pipe) :=
  mkBox (FCCPlugin_new opened_group tt (run_state TimeShiftExamples.opened) (0, 0))
    (listener_begin opened_group sample_garbage (replicate (Z.to_nat FEIP_BUFFER_SIZE) 0)).

(** Two datagrams with null packets of the monitor between them, which has not had data for two
    and a half seconds. *)
Definition udp_ops : list (box_op (Op := listener_op (option (list Z)))) :=
  [step (LReceive (Some (replicate (Z.to_nat 700) 1))); step (LPush 1000); step (LMonitor 3500);
   step (LReceive (Some (replicate (Z.to_nat 700) 2))); step (LPush 3500); step LTake; step LCopy; step LTake; step LCopy;
   step LTake; step LCopy; BApp (AppRead 3 500 10); BApp (AppRead 3 50000 510)].

Lemma udp_file_correct_example :
  wp (fun e => Exists has_round udp_ops \/ (e = Ub /\ unlabelled (mMediaSource (b_plugin udp_box)))) (box_run [] 1 false 3 (BApp (AppRead 3 10 0) :: udp_ops) udp_box) (fun '(out, b') =>
    exists new data log, out = as_text data /\
      data `prefix_of` zdrop (read_position (box_tsb udp_box) 3) (stored (mRingBufferPool (box_tsb udp_box)) ++ new) /\
      (mHandles (box_tsb udp_box) !! 3 = None -> mSeekByteOffset (box_tsb udp_box) = 0 -> data `prefix_of` new) /\
      concat (posted_chunks (mMediaSource (b_plugin udp_box))) ++ new `prefix_of` concat (snd <$> log) /\
      Forall pushed_ok log /\
      forall datagrams, lp_events (b_pipe b') = Some <$> datagrams ->
        from_listener log `prefix_of` (ztake FEIP_BUFFER_SIZE <$> datagrams)).
Proof.
  apply (udp_file_correct [] 1 false).
  - split; [|by vm_compute]; split; [by vm_compute|]; exists (mem_ptr <$> sample_mems).
    apply opened_group_inv; by vm_compute.
  - split; vm_compute; congruence.
  - unfold offsets_ok; replace (mHandles (box_tsb udp_box)) with (∅ : gmap Z HandleContext) by (vm_compute; reflexivity).
    apply map_Forall_empty.
  - vm_compute; reflexivity.
  - apply (box_fine_b_sound [] 1 false (fun op => match op with LReceive e => bool_decide (is_Some e) | LOpen _ _ => false | _ => true end));
      [|vm_compute; reflexivity].
    intros [] p; try done; intros Hd; split; [done|]; exact (proj1 (bool_decide_eq_true _) Hd).
Defined.

(** What it reads: the first datagram, then null packets, then the second one. *)
Lemma udp_reads :
  zlen <$> (fst <$> box_run [] 1 false 3 (BApp (AppRead 3 10 0) :: udp_ops) udp_box) = Done 43000.
Proof. by vm_compute. Qed.

(** * The copies of the stream *)

(** ** The player *)

(** A kilobyte is there and a client has been accepted. *)
Definition sample_player : player_dump (cb := list_cb) (pool := list_pool) :=
  mkPlayerDump before_reading sample_server.1 sample_server.2.

(** Nothing is read first, then a piece of a buffer; another handle reads and gets nothing; a
    call of [write] takes all, the next one a byte. *)
Definition player_ops : list player_op :=
  [PlPost (full_chunk 1) 1000 0; PlRead 7 [0; 0; 0]; PlRead 9 [5; 5]; PlTurn (TurnWrite takes_all);
   PlTurn (TurnWrite takes_all); PlTurn (TurnWrite (fun _ _ => 1)); PlRead 7 [7; 7]].

Lemma player_dump_correct_witness :
  exists reads d', player_run (PlRead 7 [] :: player_ops) sample_player = Done (reads, d') /\
    Forall2 read_left (memories (PlRead 7 [] :: player_ops)) reads /\
    gets 1 (Forall (player_whole 4) player_ops) (rd_sent <$> reads) (pd_server sample_player, pd_kernel sample_player)
      (pd_server d', pd_kernel d') /\
    stored (mRingBufferPool (pd_tsb d')) = stored (mRingBufferPool (pd_tsb sample_player)) ++ concat (dump_bytes <$> player_ops) /\
    read_by 7 reads `prefix_of` zdrop (read_position (pd_tsb sample_player) 7) (stored (mRingBufferPool (pd_tsb d'))) /\
    (Forall (fills 7) reads -> Forall (player_whole 4) player_ops ->
     wire 1 (pd_kernel d') ++ concat (mQueue (pd_server d')) =
       wire 1 (pd_kernel sample_player) ++ concat (mQueue (pd_server sample_player)) ++ read_by 7 reads).
Proof.
  apply (player_dump_correct 7 4 1).
  - split; vm_compute; congruence.
  - unfold offsets_ok; replace (mHandles (pd_tsb sample_player)) with (∅ : gmap Z HandleContext) by (vm_compute; reflexivity).
    apply map_Forall_empty.
  - exact sample_serves.
  - unfold player_ops; repeat (eapply player_fine_cons;
      [first [exact I|apply step_fine_b_sound; vm_compute; reflexivity]|vm_compute; reflexivity|]); done.
  - vm_compute; reflexivity.
Defined.

(** What the client has then: the three bytes, the memory of the other handle, and of the last
    buffer nothing yet. *)
Lemma player_copy : exists reads d', player_run (PlRead 7 [] :: player_ops) sample_player = Done (reads, d') /\
  wire 1 (pd_kernel d') = [1; 1; 1; 5] /\ mQueue (pd_server d') = [[1; 1]].
Proof. eexists _, _; split; [vm_compute; reflexivity|split; reflexivity]. Qed.

(** A read of three bytes of which one is there sends the two that were in the memory before. *)
Lemma short_read_example :
  exists n data d, readData_dump 7 [50; 51; 52] (mkPlayerDump
      (before_reading <| mHandles := {[7 := mkHandleContext 1999]} |>) sample_server.1 sample_server.2) = Done (n, data, d) /\
    n = 1 /\ mQueue (pd_server d) = [[9; 51; 52]].
Proof. eexists _, _, _; split; [vm_compute; reflexivity|split; reflexivity]. Qed.

(** ** The demuxer *)

Definition dump_schedule : list dump_op :=
  (DPipe (Some true) (all_well 9) false <$> sample_schedule) ++ [DTurn (TurnWrite takes_all)].

