(* ===== verification/Multicast.v ===== *)
(** The sockets of the multicast demuxers: the constructor, [setup], [readLoop] and the destructor
    of [UdpStreamListener] (3rdparty/udp/UdpStreamListener.cpp) and [RtpStreamListener]
    (3rdparty/rtp/RtpStreamListener.cpp), which are the same in both, with the threads that run
    them. What a datagram goes through is in Udp.v and Rtp.v. *)

From S2P Require Import Prelude Sockets.

(** * [setup] *)

(** What the calls of [setup] answer: a descriptor or a negative number, and whether the others
    succeed. *)
Record setup_answers := mkSetup { sa_socket : Z; sa_reuse : bool; sa_bind : bool; sa_member : bool }.

(** Up to the lock: the new socket, or none when a call failed, which closes it again. *)
Definition setup_prepare (a : setup_answers) (k : kernel) : option Z * kernel :=
  let fd := sa_socket a in
  if fd <? 0 then (None, k)
  else
    let k := new_fd fd k in
    if negb (sa_reuse a) then (None, close_fd fd k)
    else if negb (sa_bind a) then (None, close_fd fd k)
    else if negb (sa_member a) then (None, close_fd fd k)
    else (Some fd, k).

(** Under [mLock]: the old socket is closed and the new one takes its place. *)
Definition setup_commit (fd mFd : Z) (k : kernel) : Z * kernel :=
  let k := if negb (mFd =? 0) then close_fd mFd k else k in
  (fd, k).

(** * The threads *)

(** Where the thread of [readLoop] is: waiting for [mFd], at the test of [mExitRequested], inside
    [recvfrom] on a descriptor, or handing the data on; it holds [mLock] in the last two. *)
Inductive reader := WaitOpen | AtTest | InRecv (fd : Z) | Handing (fd : Z) | Ended.

(** Where the thread that uses the demuxer is: waiting for [mLock] in [setup], waiting for the
    reader in the destructor, or behind it. *)
Inductive owner := Outside | Committing (fd : Z) | Joining | Gone.

(** [mAddr] and [mPHandler] are left out: the first is only an argument of system calls, and the
    second is always the address of the same member of the demuxer. *)
Record StreamListener := mkListener {
  mFd : Z;
  mExitRequested : bool;
  l_reader : reader;
  l_owner : owner;
  l_kernel : kernel;
}.

#[export] Instance listener_eta : Eta StreamListener := fun r =>
  mkListener (mFd r) (mExitRequested r) (l_reader r) (l_owner r) (l_kernel r).

Definition StreamListener_new (k : kernel) : StreamListener := mkListener 0 false WaitOpen Outside k.

Definition holds_lock (r : reader) : bool :=
  match r with InRecv _ | Handing _ => true | _ => false end.

(** [Received]: [recvfrom] returns. [Handed]: the data is with the handler. [ReaderRuns]: any
    other step of the reader. *)
Inductive action := ReaderRuns | Received | Handed | Setup (a : setup_answers) | Commit | Destroy | Join.

Definition reader_step (s : StreamListener) : option StreamListener :=
  match l_reader s with
  | WaitOpen => Some (if mFd s =? 0 then s else s <| l_reader := AtTest |>)
  | AtTest => Some (s <| l_reader := if mExitRequested s then Ended else InRecv (mFd s) |>)
  | _ => None
  end.

(** [close] does not end a [recvfrom] of another thread on the same socket. *)
Definition destroy (s : StreamListener) : StreamListener :=
  let s := s <| mExitRequested := true |> in
  let s := if negb (mFd s =? 0) then s <| l_kernel := close_fd (mFd s) (l_kernel s) |> else s in
  s <| l_owner := Joining |>.

(** [None] is a step that cannot be taken now. *)
Definition listener_step (x : action) (s : StreamListener) : option StreamListener :=
  match x, l_owner s, l_reader s with
  | ReaderRuns, _, _ => reader_step s
  | Received, _, InRecv fd => Some (s <| l_reader := Handing fd |>)
  | Handed, _, Handing _ => Some (s <| l_reader := AtTest |>)
  | Setup a, Outside, _ =>
    let '(r, k) := setup_prepare a (l_kernel s) in
    Some (s <| l_kernel := k |> <| l_owner := match r with Some fd => Committing fd | None => Outside end |>)
  | Commit, Committing fd, r =>
    if holds_lock r then None
    else
      let '(fd, k) := setup_commit fd (mFd s) (l_kernel s) in
      Some (s <| mFd := fd |> <| l_kernel := k |> <| l_owner := Outside |>)
  | Destroy, Outside, _ => Some (destroy s)
  | Join, Joining, Ended => Some (s <| l_owner := Gone |>)
  | _, _, _ => None
  end.

Fixpoint listener_run (l : list action) (s : StreamListener) : option StreamListener :=
  match l with
  | [] => Some s
  | x :: l => s' ← listener_step x s; listener_run l s'
  end.

(** * One socket *)

(** What the kernel may answer: a free descriptor that is not 0, which the standard input
    occupies. The destructor is left out: it has its own theorem. *)
Definition action_fine (x : action) (s : StreamListener) : Prop :=
  match x with
  | Setup a => 0 <= sa_socket a -> fresh (l_kernel s) (sa_socket a) /\ sa_socket a <> 0
  | Destroy => False
  | _ => True
  end.

Fixpoint run_fine (l : list action) (s : StreamListener) : Prop :=
  match l with
  | [] => True
  | x :: l => action_fine x s /\ match listener_step x s with Some s' => run_fine l s' | None => True end
  end.

#[export] Instance action_fine_dec x s : Decision (action_fine x s).
Proof. destruct x; cbn; apply _. Defined.

#[export] Instance run_fine_dec l s : Decision (run_fine l s).
Proof.
  revert s; induction l as [|x l IH]; intros s; cbn; [apply _|].
  destruct (listener_step x s); apply _.
Defined.

(** [base] are the descriptors that are not the listener's. *)
Definition owns (base : gmap Z Z) (mFd : Z) (k : kernel) : Prop :=
  if mFd =? 0 then fds k = base else base !! mFd = None /\ exists o, fds k = <[mFd := o]> base.

(** The descriptor the reader uses. *)
Definition reads_from (r : reader) : option Z :=
  match r with InRecv fd | Handing fd => Some fd | _ => None end.

Record listener_inv (base : gmap Z Z) (bad : list Z) (s : StreamListener) : Prop := {
  inv_owner : match l_owner s with
    | Outside => owns base (mFd s) (l_kernel s)
    | Committing fd => fd <> 0 /\ base !! fd = None /\ exists o, owns (<[fd := o]> base) (mFd s) (l_kernel s)
    | _ => False
    end;
  inv_bad : bad_closes (l_kernel s) = bad;
  inv_reads : forall fd, reads_from (l_reader s) = Some fd -> fd = mFd s;
  inv_open : l_reader s <> WaitOpen -> mFd s <> 0;
}.

Lemma owns_zero base k : owns base 0 k <-> fds k = base.
Proof. done. Qed.

Lemma owns_socket base fd k : fd <> 0 -> owns base fd k <-> base !! fd = None /\ exists o, fds k = <[fd := o]> base.
Proof. intros H; unfold owns; by rewrite (proj2 (Z.eqb_neq _ _) H). Qed.

(** A set-up that fails leaves every descriptor as it was; one that succeeds adds one. *)
Lemma prepare_cases a k : (0 <= sa_socket a -> fresh k (sa_socket a)) ->
  let '(r, k') := setup_prepare a k in bad_closes k' = bad_closes k /\
  match r with
  | None => fds k' = fds k
  | Some fd => fd = sa_socket a /\ fresh k fd /\ fds k' = <[fd := next_object k]> (fds k)
  end.
Proof.
  intros Ha; unfold setup_prepare; case_if; b2p; [done|]; specialize (Ha E).
  destruct (close_new _ _ Ha) as [Hc Hb], (new_fd_fds (sa_socket a) k E) as [Hf Hb'].
  destruct (sa_reuse a), (sa_bind a), (sa_member a); done.
Qed.

Lemma owns_fds base mFd k k' : fds k' = fds k -> owns base mFd k -> owns base mFd k'.
Proof. by unfold owns; intros ->. Qed.

Lemma prepare_owns base mFd k k' fd : fd <> 0 -> fresh k fd -> owns base mFd k ->
  fds k' = <[fd := next_object k]> (fds k) ->
  base !! fd = None /\ exists o, owns (<[fd := o]> base) mFd k'.
Proof.
  intros H0 [_ Hn] Ho Hf; destruct (Z.eq_dec mFd 0) as [->|Hm].
  - apply owns_zero in Ho; rewrite Ho in *; split; [done|eexists]; by apply owns_zero.
  - apply owns_socket in Ho as [Hb [o Ho]]; [|done]; rewrite Ho in *.
    apply lookup_insert_None in Hn as [Hn Hne]; split; [done|].
    exists (next_object k); apply owns_socket; [done|]; split.
    + by rewrite lookup_insert_ne.
    + exists o; rewrite Hf; by apply insert_insert_ne.
Qed.

Lemma commit_owns base mFd k fd o : fd <> 0 -> base !! fd = None -> owns (<[fd := o]> base) mFd k ->
  let '(fd', k') := setup_commit fd mFd k in fd' = fd /\ owns base fd k' /\ bad_closes k' = bad_closes k.
Proof.
  intros H0 Hb Ho; unfold setup_commit; split; [done|]; rewrite owns_socket by done.
  destruct (Z.eq_dec mFd 0) as [->|Hm]; cbn [Z.eqb negb].
  - apply owns_zero in Ho; split; [|done]; split; [done|]; by exists o.
  - apply owns_socket in Ho as [Hn [o' Ho]]; [|done]; rewrite (proj2 (Z.eqb_neq _ _) Hm); cbn [negb].
    destruct (close_open _ _ _ _ Ho Hn) as [-> ->]; split; [|done]; split; [done|]; by exists o.
Qed.

Lemma reader_inv base bad r s : listener_inv base bad s -> (forall fd, reads_from r = Some fd -> fd = mFd s) ->
  (r <> WaitOpen -> mFd s <> 0) -> listener_inv base bad (s <| l_reader := r |>).
Proof. by intros [Ho Hb _ _] Hr Hz; split. Qed.

Lemma reader_step_inv base bad s s' : listener_inv base bad s -> reader_step s = Some s' -> listener_inv base bad s'.
Proof.
  intros Hi; unfold reader_step; destruct (l_reader s) eqn:Er; try done.
  - destruct (mFd s =? 0) eqn:E0; b2p; intros [= <-]; [done|]; by apply reader_inv.
  - assert (mFd s <> 0) by (apply (inv_open _ _ _ Hi); by rewrite Er).
    destruct (mExitRequested s); intros [= <-]; apply reader_inv; try done; by intros fd [= <-].
Qed.

Lemma commit_inv base bad fd s : listener_inv base bad s -> l_owner s = Committing fd -> holds_lock (l_reader s) = false ->
  let '(fd', k) := setup_commit fd (mFd s) (l_kernel s) in
  listener_inv base bad (s <| mFd := fd' |> <| l_kernel := k |> <| l_owner := Outside |>).
Proof.
  intros [Ho Hb _ _] Eo El; rewrite Eo in Ho; destruct Ho as (H0 & Hn & o & Ho).
  pose proof (commit_owns base (mFd s) (l_kernel s) fd o H0 Hn Ho) as Hc.
  destruct (setup_commit fd (mFd s) (l_kernel s)) as [fd' k], Hc as (-> & Hc & Hcb).
  split; cbn; [done|congruence| |done]; intros fd'; by destruct (l_reader s).
Qed.

Lemma step_inv base bad x s s' : listener_inv base bad s -> action_fine x s -> listener_step x s = Some s' ->
  listener_inv base bad s'.
Proof.
  intros Hi Ha; pose proof Hi as [Ho Hb Hr Hz]; destruct x; unfold listener_step; cbn [action_fine] in Ha; try done.
  - apply reader_step_inv; by destruct (l_owner s).
  - destruct (l_reader s) as [| |fd| |] eqn:Er; try (by destruct (l_owner s)); intros Hs.
    assert (s' = s <| l_reader := Handing fd |>) as -> by (destruct (l_owner s); congruence).
    apply reader_inv; [done|exact Hr|by intros _; apply Hz].
  - destruct (l_reader s) as [| | |fd|] eqn:Er; try (by destruct (l_owner s)); intros Hs.
    assert (s' = s <| l_reader := AtTest |>) as -> by (destruct (l_owner s); congruence).
    apply reader_inv; [done|done|by intros _; apply Hz].
  - destruct (l_owner s) eqn:Eo; try (destruct (l_reader s); done).
    pose proof (prepare_cases a (l_kernel s) (fun H => proj1 (Ha H))) as Hp.
    destruct (setup_prepare a (l_kernel s)) as [r k], Hp as [Hpb Hp].
    intros [= <-]; split; cbn; [|congruence|done|done].
    destruct r as [fd|]; [|by apply (owns_fds _ _ (l_kernel s))].
    destruct Hp as (-> & Hf & Hk); destruct (Ha (proj1 Hf)) as [_ H0].
    split; [done|]; by apply (prepare_owns base (mFd s) (l_kernel s)).
  - destruct (l_owner s) as [|fd| |] eqn:Eo; try (destruct (l_reader s); done).
    destruct (holds_lock (l_reader s)) eqn:El; [by destruct (l_reader s)|].
    pose proof (commit_inv base bad fd s Hi Eo El) as Hc.
    destruct (setup_commit fd (mFd s) (l_kernel s)) as [fd' k].
    destruct (l_reader s); cbn in El; try done; by intros [= <-].
  - destruct (l_owner s); try done; by destruct (l_reader s).
Qed.

Lemma run_inv base bad l : forall s s', listener_inv base bad s -> run_fine l s -> listener_run l s = Some s' ->
  listener_inv base bad s'.
Proof.
  induction l as [|x l IH]; intros s s' Hs Hf Hr; [by injection Hr as <-|]; cbn in Hr, Hf.
  destruct Hf as [Ha Hf]; destruct (listener_step x s) as [s1|] eqn:E; [|done]; cbn in Hr.
  exact (IH s1 s' (step_inv base bad x s s1 Hs Ha E) Hf Hr).
Qed.

(** C30. However the channel changes, the system calls that fail and the turns of the reader
    thread follow each other, between the calls of [setup] a listener has exactly one socket
    open beside the descriptors of the rest of the process, that of the last set-up that
    succeeded: none is lost, none closed twice; and the reader receives from that socket only,
    never from one that was closed under it. *)
Theorem one_socket l k s : run_fine l (StreamListener_new k) -> listener_run l (StreamListener_new k) = Some s ->
  (l_owner s = Outside -> owns (fds k) (mFd s) (l_kernel s)) /\
  bad_closes (l_kernel s) = bad_closes k /\
  (forall fd, reads_from (l_reader s) = Some fd -> fd = mFd s /\ is_Some (fds (l_kernel s) !! fd)).
Proof.
  intros Hf Hr; assert (Hi : listener_inv (fds k) (bad_closes k) s).
  { apply (run_inv _ _ l (StreamListener_new k)); try done; by split. }
  destruct Hi as [Ho Hb Hrd Hz]; split; [by intros Eo; rewrite Eo in Ho|]; split; [done|].
  intros fd Efd; pose proof (Hrd fd Efd) as ->; split; [done|].
  assert (H0 : mFd s <> 0) by (apply Hz; by intros E; rewrite E in Efd).
  destruct (l_owner s); try done.
  - apply owns_socket in Ho as [_ [o ->]]; [|done]; rewrite lookup_insert_eq; by eexists.
  - destruct Ho as (_ & _ & o' & [_ [o ->]]%owns_socket); [|done]; rewrite lookup_insert_eq; by eexists.
Qed.

(** Two channels, with a set-up in between that fails, while the reader runs. *)
Definition two_channels : list action :=
  [Setup (mkSetup 3 true true true); Commit; ReaderRuns; ReaderRuns; Setup (mkSetup 4 true true false);
   Setup (mkSetup 4 true true true); Received; Handed; Commit; ReaderRuns].

Definition start_kernel : kernel := mkKernel {[0 := 0; 1 := 1; 2 := 2]} 3 ∅ [].

Definition second_channel : StreamListener :=
  default (StreamListener_new start_kernel) (listener_run two_channels (StreamListener_new start_kernel)).

Lemma one_socket_witness : l_owner second_channel = Outside /\ mFd second_channel = 4 /\
  owns (fds start_kernel) 4 (l_kernel second_channel).
Proof.
  split; [vm_compute; reflexivity|]; split; [vm_compute; reflexivity|].
  assert (E : mFd second_channel = 4) by (vm_compute; reflexivity); rewrite <- E.
  apply (one_socket two_channels start_kernel second_channel); [|vm_compute; reflexivity..].
  apply (bool_decide_unpack (run_fine two_channels (StreamListener_new start_kernel))); vm_compute; exact I.
Defined.

(** A socket with the number 0 is taken for none: the next set-up does not close it. *)
Lemma socket_zero_lost :
  (fun s => (mFd s, fds (l_kernel s) !! 0)) <$>
    listener_run [Setup (mkSetup 0 true true true); Commit; Setup (mkSetup 3 true true true); Commit]
      (StreamListener_new (mkKernel ∅ 0 ∅ [])) = Some (3, Some 0).
Proof. by vm_compute. Qed.

(** * What waits for what *)

(** A channel change waits for a datagram of the channel that is left: while the reader is in
    [recvfrom] it holds the lock that [setup] needs, so nothing of the listener can move until
    [recvfrom] on the old socket returns; once it does, and its data is handed on, [setup]
    completes. *)
Theorem setup_waits_for_datagram s fd old : l_owner s = Committing fd -> l_reader s = InRecv old ->
  (forall x s', listener_step x s = Some s' -> x = Received) /\
  exists s', listener_run [Received; Handed; Commit] s = Some s' /\ mFd s' = fd /\ l_owner s' = Outside.
Proof.
  intros Ho Hr; split.
  - intros x s'; destruct x; try done; unfold listener_step, reader_step; by rewrite ?Ho, ?Hr.
  - unfold listener_run, listener_step; rewrite Hr; cbn; rewrite Ho; cbn; by eexists.
Qed.

Definition waiting_listener : StreamListener :=
  default (StreamListener_new start_kernel) (listener_run (take 6 two_channels) (StreamListener_new start_kernel)).

Lemma setup_waits_for_datagram_witness : l_owner waiting_listener = Committing 4 /\ l_reader waiting_listener = InRecv 3 /\
  (forall x s', listener_step x waiting_listener = Some s' -> x = Received).
Proof.
  split; [vm_compute; reflexivity|]; split; [vm_compute; reflexivity|].
  apply (setup_waits_for_datagram waiting_listener 4 3); vm_compute; reflexivity.
Defined.

(** A listener that was never set up cannot be destroyed: its reader waits for [mFd] without a
    look at [mExitRequested], and the destructor waits for the reader. *)
Lemma destroy_unopened k l : forall s s', mFd s = 0 -> l_reader s = WaitOpen -> l_owner s = Joining ->
  l_kernel s = k -> listener_run l s = Some s' -> s' = s.
Proof.
  induction l as [|x l IH]; intros s s' H0 Hr Ho Hk Hl; cbn in Hl; [by injection Hl as <-|].
  destruct x; unfold listener_step, reader_step in Hl; rewrite ?Ho, ?Hr, ?H0 in Hl; try done; cbn in Hl; eauto.
Qed.

(** The destructor of a listener on which no channel was ever opened never returns. *)
Theorem destructor_hangs l k s : listener_run (Destroy :: l) (StreamListener_new k) = Some s -> l_owner s = Joining.
Proof. intros Hl; cbn in Hl; by rewrite (destroy_unopened k l (destroy (StreamListener_new k)) s eq_refl eq_refl eq_refl eq_refl Hl). Qed.

Lemma destructor_hangs_witness : l_owner (destroy (StreamListener_new start_kernel)) = Joining.
Proof. apply (destructor_hangs [ReaderRuns; ReaderRuns] start_kernel); reflexivity. Defined.

(** The destructor closes the socket outside [mLock], while the reader is inside [recvfrom] on
    it: [recvfrom] goes on with a descriptor that is closed. *)
Lemma destructor_races :
  (fun s => (l_reader s, fds (l_kernel s) !! 3)) <$>
    listener_run [Setup (mkSetup 3 true true true); Commit; ReaderRuns; ReaderRuns; Destroy]
      (StreamListener_new start_kernel) = Some (InRecv 3, None).
Proof. by vm_compute. Qed.
