(* ===== verification/ScheduledTask.v ===== *)
(** The timer of include/StreamParser/ScheduledTask.h and src/StreamParser/ScheduledTask.cpp: the
    detached threads that [schedule] and [scheduleFixedRate] start, and [stop], as steps that
    interleave. Nothing of the plugin uses it. *)

From S2P Require Import Prelude.

(** Where a detached thread is. [schedule]: before the first test, asleep, before the call.
    [scheduleFixedRate]: at its start, in the initial delay, before the call after the delay, at
    the test of the loop, asleep, before the call in the loop, behind the loop, and before the
    last [notify_all]. *)
Inductive task :=
| OnceTest | OnceSleep | OnceCall
| RateStart (delayed : bool) | RateDelay | RateFirst | RateLoop | RateSleep | RateCall | RateLeave | RateNotify
| TaskEnd.

(** Where the thread that calls [stop(true)] is: at the predicate with [mWaitMutex] held, about
    to sleep after it was false, asleep. *)
Inductive stopper := StopIdle | StopTest | StopBlocking | StopAsleep.

Record ScheduledTask := mkTask {
  mRunning : bool;
  mRequestExit : bool;
  tasks : list task;
  waiter : stopper;
  calls : Z;
}.

#[export] Instance task_eta : Eta ScheduledTask := fun r =>
  mkTask (mRunning r) (mRequestExit r) (tasks r) (waiter r) (calls r).

Definition ScheduledTask_new : ScheduledTask := mkTask false false [] StopIdle 0.

Definition schedule (s : ScheduledTask) : ScheduledTask :=
  s <| mRequestExit := false |> <| tasks := tasks s ++ [OnceTest] |>.

Definition scheduleFixedRate (initialDelay : Z) (s : ScheduledTask) : ScheduledTask :=
  s <| mRequestExit := false |> <| tasks := tasks s ++ [RateStart (0 <? initialDelay)] |>.

Definition stop (waitExit : bool) (s : ScheduledTask) : ScheduledTask :=
  let s := s <| mRequestExit := true |> in
  if waitExit then s <| waiter := StopTest |> else s.

(** [notify_all]: only a thread that is asleep hears it. *)
Definition notify_all (s : ScheduledTask) : ScheduledTask :=
  match waiter s with StopAsleep => s <| waiter := StopTest |> | _ => s end.

Definition call (s : ScheduledTask) : ScheduledTask := s <| calls := calls s + 1 |>.

(** One step of a detached thread. *)
Definition task_step (t : task) (s : ScheduledTask) : task * ScheduledTask :=
  match t with
  | OnceTest => (if mRequestExit s then TaskEnd else OnceSleep, s)
  | OnceSleep => (if mRequestExit s then TaskEnd else OnceCall, s)
  | OnceCall => (TaskEnd, call s)
  | RateStart delayed => (if delayed then RateDelay else RateLoop, s <| mRunning := true |>)
  | RateDelay => if mRequestExit s then (TaskEnd, notify_all s) else (RateFirst, s)
  | RateFirst => (RateLoop, call s)
  | RateLoop => (if mRequestExit s then RateLeave else RateSleep, s)
  | RateSleep => (if mRequestExit s then RateLeave else RateCall, s)
  | RateCall => (RateLoop, call s)
  | RateLeave => (RateNotify, s <| mRunning := false |>)
  | RateNotify => (TaskEnd, notify_all s)
  | TaskEnd => (TaskEnd, s)
  end.

Definition run_task (i : nat) (s : ScheduledTask) : ScheduledTask :=
  match tasks s !! i with
  | Some t => let '(t, s) := task_step t s in s <| tasks := <[i := t]> (tasks s) |>
  | None => s
  end.

(** One step of the thread in [stop(true)]; asleep it does nothing. *)
Definition run_waiter (s : ScheduledTask) : ScheduledTask :=
  match waiter s with
  | StopTest => s <| waiter := if mRunning s then StopBlocking else StopIdle |>
  | StopBlocking => s <| waiter := StopAsleep |>
  | _ => s
  end.

Inductive task_op := Schedule | ScheduleFixedRate (initialDelay : Z) | StopNow (waitExit : bool) | RunTask (i : nat) | RunWaiter.

Definition task_exec (x : task_op) (s : ScheduledTask) : ScheduledTask :=
  match x with
  | Schedule => schedule s
  | ScheduleFixedRate d => scheduleFixedRate d s
  | StopNow w => stop w s
  | RunTask i => run_task i s
  | RunWaiter => run_waiter s
  end.

Definition task_run (l : list task_op) (s : ScheduledTask) : ScheduledTask := fold_left (fun s x => task_exec x s) l s.

(** * What [stop] ensures *)

(** A thread that is past its last test makes the call that follows it. *)
Definition about_to_call (t : task) : bool := match t with OnceCall | RateFirst | RateCall => true | _ => false end.

Fixpoint pending (l : list task) : Z :=
  match l with [] => 0 | t :: l => (if about_to_call t then 1 else 0) + pending l end.

Definition starts (x : task_op) : bool := match x with Schedule | ScheduleFixedRate _ => true | _ => false end.

Lemma pending_insert l i t t' : l !! i = Some t ->
  pending (<[i := t']> l) = pending l - (if about_to_call t then 1 else 0) + (if about_to_call t' then 1 else 0).
Proof.
  revert i; induction l as [|a l IH]; intros [|i] Hi; try done; cbn in *.
  - injection Hi as ->; lia.
  - pose proof (IH i Hi); unfold insert in *; lia.
Qed.

Lemma pending_pos l : 0 <= pending l.
Proof. induction l as [|t l IH]; cbn; [done|]; destruct (about_to_call t); lia. Qed.

Definition stopped_bound (n : Z) (s : ScheduledTask) : Prop := mRequestExit s = true /\ calls s + pending (tasks s) <= n.

Lemma notify_fields s : mRequestExit (notify_all s) = mRequestExit s /\ tasks (notify_all s) = tasks s /\ calls (notify_all s) = calls s.
Proof. unfold notify_all; by destruct (waiter s). Qed.

Lemma run_task_bound n i s : stopped_bound n s -> stopped_bound n (run_task i s).
Proof.
  intros [He Hn]; unfold run_task; destruct (tasks s !! i) as [t|] eqn:Ei; [|done].
  destruct (notify_fields s) as (Hne & Hnt & Hnc).
  destruct t; cbn [task_step]; rewrite ?He; unfold stopped_bound; cbn;
    rewrite ?Hne, ?Hnt, ?Hnc, (pending_insert _ _ _ _ Ei); cbn; split; try done; try lia;
    destruct delayed; cbn; lia.
Qed.

Lemma run_bound n l : Forall (fun x => starts x = false) l -> forall s, stopped_bound n s -> stopped_bound n (task_run l s).
Proof.
  induction 1 as [|x l Hx _ IH]; intros s Hs; [done|]; apply IH; destruct x as [| |w|i|]; try done.
  - destruct Hs as [_ Hs]; unfold stopped_bound, task_exec, stop; by destruct w.
  - by apply run_task_bound.
  - unfold task_exec, run_waiter; by destruct (waiter s).
Qed.

(** After [stop], and until a task is scheduled again, a detached thread makes at most the one
    call it was about to make, whatever the interleaving: threads that sleep or wait for their
    turn never call the function again. *)
Theorem stop_ends_calls l w s : Forall (fun x => starts x = false) l ->
  calls (task_run l (stop w s)) <= calls s + pending (tasks s).
Proof.
  intros Hl; enough (stopped_bound (calls s + pending (tasks s)) (task_run l (stop w s))) as [_ H].
  { pose proof (pending_pos (tasks (task_run l (stop w s)))); lia. }
  apply run_bound; [done|]; unfold stopped_bound, stop; by destruct w.
Qed.

Lemma stop_ends_calls_witness :
  calls (task_run [RunTask 0; RunTask 0; RunTask 0] (stop false (task_run [ScheduleFixedRate 0; RunTask 0; RunTask 0; RunTask 0] ScheduledTask_new))) <= 1.
Proof.
  apply (stop_ends_calls [RunTask 0; RunTask 0; RunTask 0] false (task_run [ScheduleFixedRate 0; RunTask 0; RunTask 0; RunTask 0] ScheduledTask_new)).
  repeat constructor.
Defined.

(** * What [stop(true)] may wait for *)

(** The threads of a task that ended while it was in its initial delay. *)
Definition ended_early (s : ScheduledTask) : Prop :=
  mRunning s = true /\ waiter s <> StopIdle /\ Forall (fun t => t = TaskEnd) (tasks s).

(** [stop(true)] never returns when it ends a task in its initial delay: the thread leaves
    without a reset of [mRunning], which [stop] waits for, and no step of any thread changes
    that. *)
Theorem stop_waits_for_ever l s : ended_early s ->
  Forall (fun x => match x with RunTask _ | RunWaiter => True | _ => False end) l -> waiter (task_run l s) <> StopIdle.
Proof.
  intros Hs Hl; enough (ended_early (task_run l s)) as (_ & H & _) by done.
  revert s Hs; induction Hl as [|x l Hx _ IH]; intros s (Hr & Hw & Ht); [done|]; apply IH.
  destruct x as [| | |i|]; try done; cbn.
  - unfold run_task; destruct (tasks s !! i) as [t|] eqn:Ei; [|done].
    rewrite (Forall_lookup_1 _ _ _ _ Ht Ei) in *; cbn; unfold ended_early; cbn.
    split; [done|]; split; [done|]; by apply Forall_insert.
  - unfold run_waiter; destruct (waiter s) eqn:Ew; try done; unfold ended_early; cbn; by rewrite ?Hr, ?Ew.
Qed.

(** A task with an initial delay, ended in it. *)
Definition delayed_stop : ScheduledTask :=
  task_run [ScheduleFixedRate 10; RunTask 0; StopNow true; RunWaiter; RunWaiter; RunTask 0] ScheduledTask_new.

Lemma stop_waits_for_ever_witness : waiter (task_run [RunWaiter; RunTask 0; RunWaiter] delayed_stop) <> StopIdle.
Proof.
  apply (stop_waits_for_ever [RunWaiter; RunTask 0; RunWaiter] delayed_stop); [|repeat constructor].
  split; [reflexivity|]; split; [discriminate|repeat constructor].
Defined.

(** A [notify_all] between the test of the predicate and the sleep is lost, as [mRunning] is
    reset without [mWaitMutex]: the task has ended, and [stop] sleeps. *)
Lemma wakeup_lost :
  let s := task_run [ScheduleFixedRate 0; RunTask 0; RunTask 0; StopNow true; RunWaiter; RunTask 0; RunTask 0; RunTask 0; RunWaiter]
    ScheduledTask_new in
  (mRunning s, waiter s, tasks s) = (false, StopAsleep, [TaskEnd]).
Proof. reflexivity. Qed.

(** [stop(true)] before the new thread has run returns at once, and the thread starts after it. *)
Lemma stop_too_early :
  let s := task_run [ScheduleFixedRate 0; StopNow true; RunWaiter; RunTask 0] ScheduledTask_new in
  (mRunning s, waiter s) = (true, StopIdle).
Proof. reflexivity. Qed.

(** A task scheduled after [stop] takes the request back for the threads of earlier tasks. *)
Lemma schedule_revives :
  calls (task_run [ScheduleFixedRate 0; RunTask 0; RunTask 0; StopNow false; Schedule; RunTask 0; RunTask 0] ScheduledTask_new) = 1.
Proof. reflexivity. Qed.
