(* ===== verification/RouteThread.v ===== *)
(** The thread of [NetworkRouteMonitor] (src/NetworkRouteMonitor.cpp): how [routePollThread] gets
    to its batches of messages and tells the callbacks one by one, and how [start], [stop] and
    [registerCallback] work together with it. The messages, and a batch as one call, are in
    RouteMonitor.v. *)

From S2P Require Import Prelude Json RouteMonitor.

(** Where [routePollThread] is: before [socket], [bind], the request for a dump, [recv], the batch
    that was received, the test whether the callback [it] has expired, the [lock] of that callback,
    behind an [erase] with an iterator that the [erase] has made invalid, the test of the outer
    loop, [close], or behind its end. *)
Inductive poll_pc :=
| PSocket | PBind | PRequest | PRecv | PBatch (msgs : list nlmsg) | PTell (it : nat) | PLock (it : nat) | PInvalid
| PTest | PClose | PEnded.

(** Where the thread that calls [stop] is: outside, before its request, waiting for the thread,
    or behind the call. *)
Inductive stop_pc := SOutside | SRequest | SJoin | SDone.

(** [poll] is [None] as long as [mRMonThread] is a null pointer. [answers] are the messages in the
    socket, one list for each [recv]. *)
Record MonitorThread := mkMonitorThread {
  poll : option poll_pc;
  mRequestExit : bool;
  socket_open : bool;
  answers : list (list nlmsg);
  stopping : stop_pc;
  monitor : NetworkRouteMonitor;
}.

#[export] Instance MonitorThread_eta : Eta MonitorThread := fun r =>
  mkMonitorThread (poll r) (mRequestExit r) (socket_open r) (answers r) (stopping r) (monitor r).

Definition MonitorThread_new : MonitorThread := mkMonitorThread None false false [] SOutside NetworkRouteMonitor_new.

Section thread.
Context `{NetNames} `{Srt : StdSort}.
Implicit Types s : MonitorThread.

Definition monitor_start s : MonitorThread :=
  match poll s with None => s <| poll := Some PSocket |> | Some _ => s end.

(** The kernel answers a request for a dump with the messages [reply]. *)
Definition sendRouteDumpRequest (ok : bool) (reply : list nlmsg) s : bool * MonitorThread :=
  if ok then (true, s <| answers := answers s ++ [reply] |>) else (false, s).

(** A step of the thread; [ok] is whether the system call at this place succeeds, [reply] what the
    kernel answers if it is a request. [None] is a [recv] that waits. The callbacks are told under
    [mMutex]; an expired one is tested again and again, and for one that expires between the test
    and the [lock] the loop goes on with an invalid iterator: what it does then is undefined. *)
Definition routePollThread (ok : bool) (reply : list nlmsg) s : option MonitorThread :=
  let at_pc pc s := Some (s <| poll := Some pc |>) in
  match poll s with
  | None | Some PEnded | Some PInvalid => Some s
  | Some PSocket => if ok then at_pc PBind (s <| socket_open := true |>) else at_pc PEnded s
  | Some PBind => at_pc (if ok then PRequest else PEnded) s
  | Some PRequest =>
    let '(sent, s) := sendRouteDumpRequest ok reply s in at_pc (if (sent : bool) then PRecv else PClose) s
  | Some PRecv =>
    if negb ok then at_pc PTest s
    else match answers s with
         | msgs :: rest => at_pc (if mRequestExit s then PTest else PBatch msgs) (s <| answers := rest |>)
         | [] => None
         end
  | Some (PBatch msgs) =>
    let '(updated, m) := route_messages msgs false (monitor s) in
    let route := match mDefaultRoutes m with r :: _ => r | [] => no_route end in
    if negb updated || bool_decide (ri_interface route = ri_interface (mRoute m)) then at_pc PRecv (s <| monitor := m |>)
    else at_pc (PTell 0) (s <| monitor := m <| mRoute := route |> |>)
  | Some (PTell it) =>
    match nStateCbs (monitor s) !! it with
    | Some c => at_pc (if rc_expired c then PTell it else PLock it) s
    | None => at_pc PRecv s
    end
  | Some (PLock it) =>
    let m := monitor s in
    match nStateCbs m !! it with
    | Some c =>
      if rc_expired c then at_pc PInvalid s
      else at_pc (PTell (S it)) (s <| monitor := m <| told := told m ++ [(rc_id c, mRoute m)] |> |>)
    | None => at_pc PRecv s
    end
  | Some PTest => at_pc (if mRequestExit s then PClose else PRequest) s
  | Some PClose => at_pc PEnded (s <| socket_open := false |>)
  end.

(** The steps of [stop]: the request, which wakes the thread, and the join. *)
Definition monitor_stop s : MonitorThread :=
  let s := s <| mRequestExit := true |> in
  s <| stopping := match poll s with Some _ => SRequest | None => SDone end |>.

Definition stop_step (ok : bool) (reply : list nlmsg) s : option MonitorThread :=
  match stopping s with
  | SRequest => Some ((sendRouteDumpRequest ok reply s).2 <| stopping := SJoin |>)
  | SJoin => match poll s with Some PEnded => Some (s <| stopping := SDone |>) | _ => None end
  | _ => Some s
  end.

(** [mMutex] is held while the callbacks are told. *)
Definition telling s : bool :=
  match poll s with Some (PTell _) | Some (PLock _) | Some PInvalid => true | _ => false end.

(** The owner of a callback lets go of it. *)
Definition expire (id : Z) (c : route_callback) : route_callback :=
  if rc_id c =? id then mkCallback id true else c.

Inductive monitor_op :=
| StartMonitor | StopMonitor | RunPoll (ok : bool) (reply : list nlmsg) | RunStop (ok : bool) (reply : list nlmsg)
| KernelMessage (msgs : list nlmsg) | Register (id : Z) | Expire (id : Z).

Definition monitor_exec (x : monitor_op) s : option MonitorThread :=
  match x with
  | StartMonitor => Some (monitor_start s)
  | StopMonitor => match stopping s with SOutside => Some (monitor_stop s) | _ => None end
  | RunPoll ok reply => routePollThread ok reply s
  | RunStop ok reply => stop_step ok reply s
  | KernelMessage msgs => if socket_open s then Some (s <| answers := answers s ++ [msgs] |>) else None
  | Register id => if telling s then None else Some (s <| monitor := registerCallback id (monitor s) |>)
  | Expire id => let m := monitor s in Some (s <| monitor := m <| nStateCbs := expire id <$> nStateCbs m |> |>)
  end.

Fixpoint monitor_run (l : list monitor_op) s : option MonitorThread :=
  match l with
  | [] => Some s
  | x :: l => s' ← monitor_exec x s; monitor_run l s'
  end.

Lemma monitor_run_app l1 l2 : forall s, monitor_run (l1 ++ l2) s = s' ← monitor_run l1 s; monitor_run l2 s'.
Proof. induction l1 as [|x l1 IH]; intros s; cbn; [done|]; destruct (monitor_exec x s); cbn; auto. Qed.

(** * A batch

    The steps of the thread from a batch to the next [recv] do what [route_batch] does. *)

Definition polls (n : nat) : list monitor_op := replicate n (RunPoll true []).

Lemma polls_step n s s1 : routePollThread true [] s = Some s1 -> monitor_run (polls (S n)) s = monitor_run (polls n) s1.
Proof. by intros E; cbn; rewrite E. Qed.

Lemma tell_steps fuel : forall it m m' s, tell_loop fuel (Z.of_nat it) m = Done m' ->
  poll s = Some (PTell it) -> monitor s = m ->
  exists n, monitor_run (polls n) s = Some (s <| poll := Some PRecv |> <| monitor := m' |>).
Proof.
  induction fuel as [|fuel IH]; intros it m m' s Hl Hp Hm; [done|]; cbn [tell_loop] in Hl.
  unfold rd in Hl; rewrite (proj2 (Z.leb_le 0 _)), Nat2Z.id in Hl by lia.
  destruct (nStateCbs m !! it) as [c|] eqn:Ec.
  - pose proof (lookup_lt_Some _ _ _ Ec); rewrite (proj2 (Z.ltb_lt _ _)), bind_Done in Hl by (unfold zlen; lia).
    destruct (rc_expired c) eqn:Ee; [exfalso; by rewrite (tell_loop_hangs fuel _ c) in Hl;
      [..|unfold rd; rewrite (proj2 (Z.leb_le 0 _)), Nat2Z.id, Ec by lia|]|].
    replace (Z.of_nat it + 1) with (Z.of_nat (S it)) in Hl by lia.
    set (m1 := m <| told := _ |>) in Hl.
    destruct (IH (S it) m1 m' (s <| poll := Some (PTell (S it)) |> <| monitor := m1 |>) Hl) as [n Hn]; [done..|].
    exists (S (S n)); erewrite polls_step by (unfold routePollThread; rewrite Hp, Hm, Ec, Ee; reflexivity).
    erewrite polls_step by (unfold routePollThread; cbn; rewrite Hm, Ec, Ee; reflexivity); exact Hn.
  - pose proof (lookup_ge_None_1 _ _ Ec); rewrite (proj2 (Z.ltb_ge _ _)) in Hl by (unfold zlen; lia).
    injection Hl as <-; exists 1%nat; cbn; unfold routePollThread; rewrite Hp, Hm, Ec; cbn; by destruct s; cbn in Hm; subst.
Qed.

Lemma batch_steps fuel msgs m' s : route_batch fuel msgs (monitor s) = Done m' -> poll s = Some (PBatch msgs) ->
  exists n, monitor_run (polls n) s = Some (s <| poll := Some PRecv |> <| monitor := m' |>).
Proof.
  unfold route_batch, dispatchDefaultRouteChange; intros Hb Hp; cbv zeta in Hb.
  destruct (route_messages msgs false (monitor s)) as [[] m] eqn:Em.
  - destruct (bool_decide _) eqn:Ei.
    + injection Hb as <-; exists 1%nat; cbn; unfold routePollThread; by rewrite Hp, Em, Ei.
    + set (m1 := m <| mRoute := _ |>) in Hb.
      destruct (tell_steps fuel 0 m1 m' (s <| poll := Some (PTell 0) |> <| monitor := m1 |>) Hb) as [n Hn]; [done..|].
      exists (S n); erewrite polls_step by (unfold routePollThread; rewrite Hp, Em, Ei; reflexivity); exact Hn.
  - injection Hb as <-; exists 1%nat; cbn; unfold routePollThread; by rewrite Hp, Em.
Qed.

(** * [stop] *)

(** The request of [stop] reaches the kernel when the socket is open. *)
Definition stop_sends (x : monitor_op) s : Prop :=
  match x with RunStop ok _ => socket_open s = true -> ok = true | _ => True end.

Fixpoint stops_send (l : list monitor_op) s : Prop :=
  match l with
  | [] => True
  | x :: l => stop_sends x s /\ match monitor_exec x s with Some s' => stops_send l s' | None => True end
  end.

(** The thread is inside the inner loop. *)
Definition inner (pc : poll_pc) : bool :=
  match pc with PRecv | PBatch _ | PTell _ | PLock _ | PInvalid => true | _ => false end.

(** How far the thread is from its end once an exit is requested, with [n] callbacks. *)
Definition distance (n : nat) (pc : poll_pc) : nat :=
  match pc with
  | PSocket => 6 | PBind => 5 | PRequest => 4 | PRecv => 3 | PTest => 2 | PClose => 1 | PEnded => 0
  | PBatch _ => 5 + 2 * n
  | PTell it => 4 + 2 * (n - it)
  | PLock it => 3 + 2 * Nat.max 1 (n - it)
  | PInvalid => 0
  end.

(** Every callback that was registered still has its owner. *)
Definition owned s : Prop := Forall (fun c => rc_expired c = false) (nStateCbs (monitor s)).

Record thread_inv s : Prop := {
  ti_exit : stopping s <> SOutside -> mRequestExit s = true;
  ti_open : forall pc, poll s = Some pc -> socket_open s = false -> pc = PSocket \/ pc = PEnded;
  ti_woken : forall pc, stopping s = SJoin -> poll s = Some pc -> inner pc = true -> answers s <> [];
  ti_joins : stopping s = SRequest \/ stopping s = SJoin -> poll s <> None;
  ti_valid : owned s -> poll s <> Some PInvalid;
}.

(** What keeps the invariant when the thread moves. *)
Lemma inv_moves s s' pc pc' : thread_inv s -> poll s = Some pc -> poll s' = Some pc' ->
  stopping s' = stopping s -> mRequestExit s' = mRequestExit s ->
  (socket_open s' = false -> pc' = PSocket \/ pc' = PEnded) ->
  (stopping s = SJoin -> inner pc' = true -> answers s' <> []) ->
  (owned s' -> pc' <> PInvalid) -> thread_inv s'.
Proof.
  intros [He Ho Hw Hj Hv] Hp Hp' Hs Hx Hopen Hans Hval; split; rewrite ?Hp', ?Hs, ?Hx; try done.
  - by intros ? [= <-].
  - intros ? ? [= <-]; auto.
  - intros Hw' [= ->]; by apply Hval.
Qed.

Lemma poll_inv ok reply s s' : thread_inv s -> routePollThread ok reply s = Some s' -> thread_inv s'.
Proof.
  intros Hi; pose proof Hi as [He Ho Hw Hj Hv]; unfold routePollThread, sendRouteDumpRequest.
  destruct (poll s) as [pc|] eqn:Ep; [|by intros [= <-]].
  assert (Hopen : socket_open s = false -> pc <> PSocket -> pc <> PEnded -> False).
  { intros Hb H1 H2; destruct (Ho pc eq_refl Hb); done. }
  assert (Hin : stopping s = SJoin -> inner pc = true -> answers s <> []) by (intros; by eapply Hw).
  assert (Hexit : stopping s = SJoin -> mRequestExit s = true) by (intros E; apply He; by rewrite E).
  destruct pc; repeat (case_match; simplify_eq; cbn [negb] in *; try done); intros [= <-]; try done;
    (eapply inv_moves; [exact Hi|exact Ep|reflexivity|reflexivity|reflexivity| | |]); cbn; try done; try by auto.
  all: try (intros Hs; by destruct (Hopen Hs)).
  all: try (by intros _ _ [_ [=]]%app_nil).
  all: try (intros Hs; specialize (Hexit Hs); congruence).
  all: try (intros Hs _; by apply Hin).
  intros Hown _; match goal with E : nStateCbs _ !! _ = Some _ |- _ => pose proof (Forall_lookup_1 _ _ _ _ Hown E) end; cbn in *; congruence.
Qed.

(** What keeps the invariant when other threads move. *)
Lemma inv_others s s' : thread_inv s -> poll s' = poll s -> socket_open s' = socket_open s ->
  (stopping s' <> SOutside -> mRequestExit s' = true) ->
  (forall pc, stopping s' = SJoin -> poll s = Some pc -> inner pc = true -> answers s' <> []) ->
  (stopping s' = SRequest \/ stopping s' = SJoin -> poll s <> None) -> (owned s' -> owned s) -> thread_inv s'.
Proof. intros [He Ho Hw Hj Hv] Hp Hopen Hx Ha Hj' Hown; split; rewrite ?Hp, ?Hopen; auto. Qed.

Lemma exec_inv x s s' : thread_inv s -> stop_sends x s -> monitor_exec x s = Some s' -> thread_inv s'.
Proof.
  intros Hi Hx; pose proof Hi as [He Ho Hw Hj Hv]; destruct x; cbn [monitor_exec].
  - intros [= <-]; unfold monitor_start; destruct (poll s) eqn:Ep; [done|].
    split; cbn; try done; [intros ? [= <-]; auto|by intros ? ? [= <-]].
  - destruct (stopping s) eqn:Es; try done; intros [= <-]; unfold monitor_stop; cbn.
    destruct (poll s) as [pc|] eqn:Ep; apply (inv_others s); cbn; rewrite ?Ep; try done; by intros [[=]|[=]].
  - by apply poll_inv.
  - unfold stop_step; destruct (stopping s) eqn:Es; try (by intros [= <-]).
    + cbn [stop_sends] in Hx; intros [= <-]; unfold sendRouteDumpRequest.
      destruct ok; cbn; apply (inv_others s); cbn; try done; try (by intros _; apply He); try (intros _; by apply Hj; left).
      * by intros pc _ _ _ [_ [=]]%app_nil.
      * intros pc _ Hp Hin; destruct (socket_open s) eqn:Eo; [by specialize (Hx eq_refl)|].
        destruct (Ho _ Hp eq_refl); by subst.
    + destruct (poll s) as [[]|] eqn:Ep; try done; intros [= <-]; apply (inv_others s); cbn; rewrite ?Ep; try done;
        try (intros _; by apply He).
  - destruct (socket_open s) eqn:Eo; [|done]; intros [= <-]; apply (inv_others s); cbn; try done.
    by intros pc _ _ _ [_ [=]]%app_nil.
  - destruct (telling s); [done|]; intros [= <-]; apply (inv_others s); cbn; try done.
    unfold owned; cbn; by intros [? _]%Forall_app.
  - intros [= <-]; apply (inv_others s); cbn; try done; unfold owned; cbn; rewrite Forall_fmap.
    intros HF; eapply Forall_impl; [exact HF|]; intros c; cbn; unfold expire; by case_if.
Qed.

Lemma monitor_run_inv l : forall s s', thread_inv s -> stops_send l s -> monitor_run l s = Some s' -> thread_inv s'.
Proof.
  induction l as [|x l IH]; intros s s' Hi Hl Hr; cbn in Hl, Hr; [by injection Hr as <-|].
  destruct Hl as [Hx Hl]; destruct (monitor_exec x s) as [s1|] eqn:E; [|done]; cbn in Hr.
  exact (IH s1 s' (exec_inv x s s1 Hi Hx E) Hl Hr).
Qed.

(** A callback without an owner keeps the thread where it is, whatever else happens to it. *)
Lemma expired_hangs ok reply it c s : poll s = Some (PTell it) -> nStateCbs (monitor s) !! it = Some c ->
  rc_expired c = true -> routePollThread ok reply s = Some s.
Proof. intros Hp Hc He; unfold routePollThread; rewrite Hp, Hc, He; by destruct s; cbn in *; subst. Qed.

(** The messages of a batch leave the callbacks alone. *)
Lemma route_messages_callbacks msgs : forall u m, nStateCbs (route_messages msgs u m).2 = nStateCbs m.
Proof.
  induction msgs as [|msg msgs IH]; intros u m; cbn; [done|].
  destruct (route_message msg m) as [u' m'] eqn:E; rewrite IH; unfold route_message in E; repeat case_match; by simplify_eq.
Qed.

(** With an exit requested, the request of [stop] sent and all callbacks owned, the thread is never
    stuck, and every step brings it nearer to its end. *)
Lemma poll_progress ok reply s pc : thread_inv s -> owned s -> stopping s = SJoin -> poll s = Some pc ->
  let n := length (nStateCbs (monitor s)) in
  exists s' pc', routePollThread ok reply s = Some s' /\ stopping s' = SJoin /\ poll s' = Some pc' /\ owned s' /\
    length (nStateCbs (monitor s')) = n /\ (distance n pc' <= pred (distance n pc))%nat.
Proof.
  intros [He Ho Hw Hj Hv] Hown Hs Hp n; assert (Ee : mRequestExit s = true) by (apply He; by rewrite Hs).
  assert (Ha : inner pc = true -> answers s <> []) by eauto.
  unfold routePollThread, sendRouteDumpRequest; rewrite Hp; destruct pc as [| | | |msgs|it|it| | | |]; rewrite ?Ee;
    try (destruct ok; eexists _, _; (split; [reflexivity|]); cbn; rewrite ?Hs, ?Hp; split_and!; first [done | cbn; lia]).
  - destruct ok; cbn [negb]; [destruct (answers s); [by destruct (Ha eq_refl)|]|];
      eexists _, _; (split; [reflexivity|]); cbn; split_and!; first [done | cbn; lia].
  - pose proof (route_messages_callbacks msgs false (monitor s)) as Hc.
    destruct (route_messages _ _ _) as [u m]; cbn [snd] in Hc; unfold owned in *.
    destruct (negb u || _); eexists _, _; (split; [reflexivity|]); cbn; rewrite Hc; split_and!; first [done | cbn; lia].
  - destruct (nStateCbs (monitor s) !! it) as [c|] eqn:Ec.
    + pose proof (Forall_lookup_1 _ _ _ _ Hown Ec) as Hx; pose proof (lookup_lt_Some _ _ _ Ec); cbn in Hx; rewrite Hx.
      eexists _, _; (split; [reflexivity|]); cbn; split_and!; first [done | cbn; lia].
    + eexists _, _; (split; [reflexivity|]); cbn; split_and!; first [done | cbn; lia].
  - destruct (nStateCbs (monitor s) !! it) as [c|] eqn:Ec.
    + pose proof (Forall_lookup_1 _ _ _ _ Hown Ec) as Hx; pose proof (lookup_lt_Some _ _ _ Ec); cbn in Hx; rewrite Hx.
      eexists _, _; (split; [reflexivity|]); cbn; split_and!; first [done | cbn; lia].
    + eexists _, _; (split; [reflexivity|]); cbn; split_and!; first [done | cbn; lia].
Qed.

Lemma poll_ends steps : forall s pc, thread_inv s -> owned s -> stopping s = SJoin -> poll s = Some pc ->
  (distance (length (nStateCbs (monitor s))) pc <= length steps)%nat ->
  exists s', monitor_run ((fun '(ok, reply) => RunPoll ok reply) <$> steps) s = Some s' /\ poll s' = Some PEnded /\ stopping s' = SJoin.
Proof.
  induction steps as [|[ok reply] steps IH]; intros s pc Hi Hown Hs Hp Hd.
  - exists s; split; [done|split; [|done]]; rewrite Hp; f_equal; destruct pc; cbn in Hd; try lia; [|done].
    by destruct (ti_valid _ Hi Hown).
  - destruct (poll_progress ok reply s pc Hi Hown Hs Hp) as (s1 & pc1 & E & Hs1 & Hp1 & Hown1 & Hn1 & Hd1); cbn; rewrite E; cbn.
    apply (IH s1 pc1); [by apply (poll_inv ok reply s)|done..|rewrite Hn1; cbn in Hd; lia].
Qed.

(** C29. However calls of [start], [stop] and [registerCallback], the steps of the thread, failing
    system calls, messages of the kernel and callbacks that lose their owners interleave: when a
    call of [stop] waits, its request has reached the socket if that was open, and no callback has
    lost its owner, then the call gets to its end. The thread ends within six steps of its own and
    two for each callback, whatever its system calls answer, and [stop] returns. (With a callback
    that has lost its owner the thread may stay in the loop over the callbacks for ever; the
    callbacks themselves are taken to return.) *)
Theorem stop_joins l s steps : monitor_run l MonitorThread_new = Some s -> stops_send l MonitorThread_new ->
  stopping s = SJoin -> owned s -> (6 + 2 * length (nStateCbs (monitor s)) <= length steps)%nat ->
  exists s', monitor_run (((fun '(ok, reply) => RunPoll ok reply) <$> steps) ++ [RunStop true []]) s = Some s' /\
    poll s' = Some PEnded /\ stopping s' = SDone.
Proof.
  intros Hr Hl Hs Hown Ho; assert (Hi : thread_inv s).
  { apply (monitor_run_inv l MonitorThread_new); [|done..]; split; cbn; try done; by intros [[=]|[=]]. }
  destruct (poll s) as [pc|] eqn:Hp; [|by destruct (ti_joins _ Hi (or_intror Hs))].
  destruct (poll_ends steps s pc Hi Hown Hs Hp) as (s1 & E1 & Hp1 & Hs1); [destruct pc; cbn; lia|].
  rewrite monitor_run_app, E1; cbn; unfold stop_step; rewrite Hs1, Hp1; by eexists.
Qed.

(** A request of [stop] that fails although the thread waits leaves both threads waiting. *)
Lemma stop_request_fails : exists s,
  monitor_run [StartMonitor; RunPoll true []; RunPoll true []; RunPoll true []; RunPoll true []; RunPoll true []; StopMonitor;
    RunStop false []] MonitorThread_new = Some s /\ routePollThread true [] s = None /\ stop_step true [] s = None.
Proof. eexists; by split. Qed.

(** [start] after [stop] starts nothing: the pointer to the thread is never reset. *)
Lemma restart_refused s : poll s = Some PEnded -> monitor_start s = s.
Proof. intros E; unfold monitor_start; by rewrite E. Qed.

(** A [bind] that fails ends the thread with its socket open. *)
Lemma bind_failure_leaks : exists s,
  monitor_run [StartMonitor; RunPoll true []; RunPoll false []] MonitorThread_new = Some s /\
  poll s = Some PEnded /\ socket_open s = true.
Proof. eexists; by split. Qed.

End thread.

(** * Example

    The thread is about to tell the second of two callbacks when [stop] is called. *)
#[local] Instance one_letter : NetNames := { inet_ntop a := [chr a]; if_indextoname i := Some [chr i] }.

Definition sample_route : list nlmsg := [RTM_NEWROUTE [RTA_GATEWAY 1; RTA_OIF 65; RTA_PRIORITY 20]].

Definition stop_sample : list monitor_op :=
  [Register 1; Register 2; StartMonitor; RunPoll true []; RunPoll true []; RunPoll true sample_route;
   RunPoll true []; RunPoll true []; RunPoll true []; RunPoll true []; StopMonitor; RunStop true []].

Definition stop_state : MonitorThread := default MonitorThread_new (monitor_run stop_sample MonitorThread_new).

Lemma stop_joins_witness : exists s',
  monitor_run (((fun '(ok, reply) => RunPoll ok reply) <$> replicate 10 (true, [])) ++ [RunStop true []]) stop_state = Some s' /\
  poll s' = Some PEnded /\ stopping s' = SDone.
Proof.
  apply (stop_joins stop_sample stop_state (replicate 10 (true, []))); [by vm_compute| |by vm_compute| |vm_compute; lia].
  - vm_compute; tauto.
  - vm_compute; by repeat constructor.
Defined.

Lemma stop_sample_telling : poll stop_state = Some (PTell 1).
Proof. by vm_compute. Qed.

(** The second callback loses its owner while the first is told: the thread never gets on. *)
Lemma stop_hangs : exists s, monitor_run (take 10 stop_sample ++ [Expire 2; StopMonitor; RunStop true []]) MonitorThread_new = Some s /\
  stopping s = SJoin /\ forall n, monitor_run (polls n) s = Some s.
Proof.
  eexists; split; [vm_compute; reflexivity|split; [done|]]; induction n as [|n IH]; [done|].
  by erewrite polls_step by (by apply (expired_hangs true [] 1 (mkCallback 2 true))).
Qed.
