(* ===== verification/ConfigCache.v ===== *)
(** Class [ConfigCache] of include/confighandler/ConfigCache.h and src/confighandler/ConfigCache.cpp:
    the values of configuration files that are read in chunks, by file handle. *)

From S2P Require Import Prelude Json.

Record ConfigCache := mkCache { configMap : gmap Z text }.

Implicit Types c : ConfigCache.

(** [std::map::insert] keeps a value that is there. *)
Definition cache_insert (handle : Z) (value : text) c : ConfigCache :=
  match configMap c !! handle with Some _ => c | None => mkCache (<[handle := value]> (configMap c)) end.

Definition hasKey (handle : Z) c : bool := bool_decide (is_Some (configMap c !! handle)).

Definition cache_getValue (handle : Z) c : text := default [] (configMap c !! handle).

Definition cache_remove (handle : Z) c : ConfigCache := mkCache (delete handle (configMap c)).

Inductive cache_op := CacheInsert (handle : Z) (value : text) | CacheRemove (handle : Z).

Definition cache_exec (x : cache_op) c : ConfigCache :=
  match x with CacheInsert h v => cache_insert h v c | CacheRemove h => cache_remove h c end.

Definition cache_run (l : list cache_op) c : ConfigCache := fold_left (fun c x => cache_exec x c) l c.

Lemma insert_present h h' v v' c : configMap c !! h = Some v -> configMap (cache_insert h' v' c) !! h = Some v.
Proof.
  intros Hc; unfold cache_insert; destruct (configMap c !! h') eqn:E; [done|]; cbn.
  rewrite lookup_insert_ne; [done|congruence].
Qed.

(** What the comment of the class promises: after the first value of a handle is put into the
    cache, every look-up gives that value, whatever is inserted for this or other handles or
    removed for others, until the handle itself is removed; then it has none. *)
Theorem cache_keeps_first l h v c : configMap c !! h = None -> CacheRemove h ∉ l ->
  let c' := cache_run l (cache_insert h v c) in
  hasKey h c' = true /\ cache_getValue h c' = v /\
  hasKey h (cache_remove h c') = false /\ cache_getValue h (cache_remove h c') = [].
Proof.
  intros Hc Hl; cbv zeta; assert (H : configMap (cache_run l (cache_insert h v c)) !! h = Some v).
  { assert (H0 : configMap (cache_insert h v c) !! h = Some v) by (unfold cache_insert; rewrite Hc; cbn; by rewrite lookup_insert_eq).
    revert H0 Hl; generalize (cache_insert h v c); induction l as [|x l IH]; intros c0 H0 Hl; [done|].
    apply not_elem_of_cons in Hl as [Hx Hl]; apply IH; [|done]; destruct x as [h' v'|h']; cbn.
    - by apply insert_present.
    - unfold cache_remove; rewrite lookup_delete_ne; [done|congruence]. }
  unfold hasKey, cache_getValue, cache_remove; cbn; rewrite H, lookup_delete_eq; done.
Qed.

Lemma cache_keeps_first_witness :
  cache_getValue 7 (cache_run [CacheInsert 7 []; CacheRemove 3] (cache_insert 7 (String.list_ascii_of_string "a") (mkCache ∅))) =
    String.list_ascii_of_string "a".
Proof.
  apply (cache_keeps_first [CacheInsert 7 []; CacheRemove 3] 7 (String.list_ascii_of_string "a") (mkCache ∅));
    [reflexivity|rewrite !elem_of_cons, elem_of_nil; naive_solver].
Defined.
