(* ===== verification/Lifecycle.v ===== *)
(** How parts of the plugin come and go: the functions by which streamfs loads and unloads it
    (include/FCCPlugin.h), and the constructor and destructor of [NokiaSocketCbHandler]
    (3rdparty/nokia/NokiaSocketCbHandler.cpp). *)

From S2P Require Import Prelude Json Sockets.

(** * Loading *)

(** The plugin object that is made: with an HTTP demuxer of its own, or with the demuxer that was
    linked in. *)
Inductive plugin_kind := HttpPlugin | LinkedPlugin.

(** [g_fcc_demuxer] is whether the pointer is set; [plugins] are the objects made so far. *)
Record loader := mkLoader { g_fcc_demuxer : bool; plugins : list plugin_kind }.

#[export] Instance loader_eta : Eta loader := fun r => mkLoader (g_fcc_demuxer r) (plugins r).

(** [streamType] is the value of the variable STREAM_TYPE. *)
Definition INIT_STREAMFS_PLUGIN (streamType : option string) (s : loader) : option plugin_kind * loader :=
  match streamType with
  | Some t =>
    if String.eqb t "http" then (Some HttpPlugin, s <| plugins := plugins s ++ [HttpPlugin] |>) else (None, s)
  | None =>
    if g_fcc_demuxer s then (None, s)
    else (Some LinkedPlugin, s <| g_fcc_demuxer := true |> <| plugins := plugins s ++ [LinkedPlugin] |>)
  end.

(** [stopPlayback], which is all that it calls, does nothing. *)
Definition UNLOAD_STREAMFS_PLUGIN (plugin : option plugin_kind) (s : loader) : loader := s.

Inductive loader_op := Init (streamType : option string) | Unload (plugin : option plugin_kind).

Definition loader_exec (x : loader_op) (s : loader) : loader :=
  match x with Init t => (INIT_STREAMFS_PLUGIN t s).2 | Unload p => UNLOAD_STREAMFS_PLUGIN p s end.

Definition loader_run (l : list loader_op) : loader := fold_left (fun s x => loader_exec x s) l (mkLoader false []).

Definition linked (p : plugin_kind) : nat := match p with LinkedPlugin => 1 | HttpPlugin => 0 end.

(** However often the plugin is loaded and unloaded, at most one object has the linked demuxer;
    once it is made, neither a second call nor an unloading before it gives another. *)
Lemma one_linked_plugin l :
  sum_list_with linked (plugins (loader_run l)) = if g_fcc_demuxer (loader_run l) then 1%nat else 0%nat.
Proof.
  induction l as [|x l IH] using rev_ind; [done|]; unfold loader_run in *; rewrite fold_left_app; cbn.
  set (s := fold_left _ l _) in *; destruct x as [[t|]|p]; cbn; [|destruct (g_fcc_demuxer s) eqn:E|done].
  - destruct (String.eqb t "http"); [|done]; cbn; rewrite sum_list_with_app, IH; cbn; lia.
  - cbn; rewrite E; exact IH.
  - cbn; rewrite sum_list_with_app, IH; done.
Qed.

Lemma reload_refused : loader_run [Init None; Unload (Some LinkedPlugin); Init None] = mkLoader true [LinkedPlugin].
Proof. done. Qed.

(** * The socket of the set-top box's handler *)

Record socket_answers := mkSocketAnswers { na_socket : Z; na_reuse : bool; na_bind : bool }.

(** [mNetworkThread] is whether the pointer to the thread is set. *)
Record NokiaSocket := mkNokiaSocket { mSocketFd : Z; mNetworkThread : bool }.

(** A [throw] without an exception ends the program. *)
Definition nokia_construct (a : socket_answers) (k : kernel) : outcome (NokiaSocket * kernel) :=
  let fd := na_socket a in
  let k := new_fd fd k in
  if fd <? 0 then Done (mkNokiaSocket fd false, k)
  else if negb (na_reuse a) then Stop Abort
  else if negb (na_bind a) then Stop Abort
  else Done (mkNokiaSocket fd true, k).

(** The thread is asked whether it can be joined, which needs an object behind the pointer. *)
Definition nokia_destruct (s : NokiaSocket) (k : kernel) : outcome kernel :=
  let k := close_fd (mSocketFd s) k in
  if mNetworkThread s then Done k else Stop Ub.

(** A handler gives its descriptor back; one that could not make its socket cannot be
    destroyed; a port that is in use ends the program. *)
Lemma nokia_socket_lifecycle a k : (0 <= na_socket a -> fresh k (na_socket a)) ->
  match nokia_construct a k with
  | Done (s, k1) =>
    if 0 <=? na_socket a
    then exists k2, nokia_destruct s k1 = Done k2 /\ fds k2 = fds k /\ bad_closes k2 = bad_closes k
    else nokia_destruct s k1 = Stop Ub
  | Stop e => e = Abort /\ na_reuse a && na_bind a = false
  end.
Proof.
  intros Ha; unfold nokia_construct; destruct (na_socket a <? 0) eqn:E; b2p.
  - by rewrite (proj2 (Z.leb_gt _ _) E).
  - rewrite (proj2 (Z.leb_le _ _) E); destruct (na_reuse a), (na_bind a); cbn; try done.
    destruct (close_new _ _ (Ha E)) as [Hc Hb]; by eexists.
Qed.
