(* ===== verification/JsonHeap.v ===== *)
(** The memory behind class [JSON] of include/utils/json.hpp: the pointers in its union, its
    constructors, assignments and destructor, and the theorem that they implement the values of
    Json.v without a leak or a second [delete]. *)

From Corelib Require Import SpecFloat.
From S2P Require Import Prelude Floats Json.

(** * Objects and memory *)

(** [Type] with the member of [Internal] that belongs to it; objects, arrays and strings are
    addresses. *)
Inductive cell :=
| VNull
| VObject (a : Z)
| VArray (a : Z)
| VString (a : Z)
| VFloating (f : spec_float)
| VIntegral (n : Z)
| VUIntegral (n : Z)
| VBoolean (b : bool).

Inductive block :=
| BObject (m : list (text * cell))
| BArray (l : list cell)
| BString (s : text).

(** [new] never hands out an address again. *)
Record heap := mkHeap { blocks : gmap Z block; next : Z }.

#[export] Instance heap_eta : Eta heap := fun r => mkHeap (blocks r) (next r).

Implicit Types (c : cell) (H : heap).

Definition new (b : block) H : Z * heap :=
  (next H, H <| blocks := <[next H := b]> (blocks H) |> <| next := next H + 1 |>).

Definition free (a : Z) H : heap := H <| blocks := delete a (blocks H) |>.

Definition cell_type c : JClass :=
  match c with
  | VNull => CNull | VObject _ => CObject | VArray _ => CArray | VString _ => CString
  | VFloating _ => CFloating | VIntegral _ => CIntegral | VUIntegral _ => CUIntegral
  | VBoolean _ => CBoolean
  end.

(** * Copies and deletes *)

Fixpoint over_cells (f : cell -> heap -> outcome (cell * heap)) (l : list cell) H : outcome (list cell * heap) :=
  match l with
  | [] => Done ([], H)
  | c :: l => '(c, H) ← f c H; '(l, H) ← over_cells f l H; Done (c :: l, H)
  end.

(** The copy constructor. A pointer to memory that is gone is undefined behaviour. *)
Fixpoint copy (fuel : nat) c H : outcome (cell * heap) :=
  match fuel with
  | O => Stop OutOfFuel
  | S fuel =>
    match c with
    | VObject a =>
      match blocks H !! a with
      | Some (BObject m) =>
        '(l, H) ← over_cells (copy fuel) m.*2 H;
        let '(a, H) := new (BObject (zip m.*1 l)) H in Done (VObject a, H)
      | _ => Stop Ub
      end
    | VArray a =>
      match blocks H !! a with
      | Some (BArray l) =>
        '(l, H) ← over_cells (copy fuel) l H;
        let '(a, H) := new (BArray l) H in Done (VArray a, H)
      | _ => Stop Ub
      end
    | VString a =>
      match blocks H !! a with
      | Some (BString s) => let '(a, H) := new (BString s) H in Done (VString a, H)
      | _ => Stop Ub
      end
    | c => Done (c, H)
    end
  end.

Fixpoint delete_cells (f : cell -> heap -> outcome heap) (l : list cell) H : outcome heap :=
  match l with
  | [] => Done H
  | c :: l => H ← f c H; delete_cells f l H
  end.

(** [ClearInternal], which is also the destructor: the elements of a container are destroyed
    with it. *)
Fixpoint ClearInternal (fuel : nat) c H : outcome heap :=
  match fuel with
  | O => Stop OutOfFuel
  | S fuel =>
    match c with
    | VObject a =>
      match blocks H !! a with
      | Some (BObject m) => H ← delete_cells (ClearInternal fuel) m.*2 H; Done (free a H)
      | _ => Stop Ub
      end
    | VArray a =>
      match blocks H !! a with
      | Some (BArray l) => H ← delete_cells (ClearInternal fuel) l H; Done (free a H)
      | _ => Stop Ub
      end
    | VString a =>
      match blocks H !! a with
      | Some (BString _) => Done (free a H)
      | _ => Stop Ub
      end
    | _ => Done H
    end
  end.

Definition set_type (fuel : nat) (type : JClass) c H : outcome (cell * heap) :=
  if bool_decide (cell_type c = type) then Done (c, H)
  else
    H ← ClearInternal fuel c H;
    Done (match type with
          | CNull => (VNull, H)
          | CObject => let '(a, H) := new (BObject []) H in (VObject a, H)
          | CArray => let '(a, H) := new (BArray []) H in (VArray a, H)
          | CString => let '(a, H) := new (BString []) H in (VString a, H)
          | CFloating => (VFloating (S754_zero false), H)
          | CIntegral => (VIntegral 0, H)
          | CUIntegral => (VUIntegral 0, H)
          | CBoolean => (VBoolean false, H)
          end).

(** * Variables *)

(** The objects in scope, the innermost last; and what can be named: one of them, or the element
    of an array in memory. *)
Record program := mkProgram { vars : list cell; mem : heap }.

#[export] Instance program_eta : Eta program := fun r => mkProgram (vars r) (mem r).

Inductive place := Var (i : nat) | Elem (a : Z) (k : nat).

Implicit Types p : program.

Definition read_place (x : place) p : outcome cell :=
  match x with
  | Var i => match vars p !! i with Some c => Done c | None => Stop Ub end
  | Elem a k =>
    match blocks (mem p) !! a with
    | Some (BArray l) => match l !! k with Some c => Done c | None => Stop Ub end
    | _ => Stop Ub
    end
  end.

Definition write_place (x : place) c p : outcome program :=
  match x with
  | Var i => if bool_decide (is_Some (vars p !! i)) then Done (p <| vars := <[i := c]> (vars p) |>) else Stop Ub
  | Elem a k =>
    match blocks (mem p) !! a with
    | Some (BArray l) =>
      if bool_decide (is_Some (l !! k))
      then Done (p <| mem := (mem p) <| blocks := <[a := BArray (<[k := c]> l)]> (blocks (mem p)) |> |>)
      else Stop Ub
    | _ => Stop Ub
    end
  end.

(** [*dst = *src], with [src] read after the memory of [dst] is given back. *)
Definition copy_assign (fuel : nat) (dst src : place) p : outcome program :=
  c ← read_place dst p;
  H ← ClearInternal fuel c (mem p);
  let p := p <| mem := H |> in
  other ← read_place src p;
  '(c, H) ← copy fuel other (mem p);
  write_place dst c (p <| mem := H |>).

Definition move_assign (fuel : nat) (dst src : place) p : outcome program :=
  c ← read_place dst p;
  H ← ClearInternal fuel c (mem p);
  let p := p <| mem := H |> in
  other ← read_place src p;
  p ← write_place dst other p;
  write_place src VNull p.

Definition default_construct p : program := p <| vars := vars p ++ [VNull] |>.

Definition copy_construct (fuel : nat) (src : place) p : outcome program :=
  other ← read_place src p;
  '(c, H) ← copy fuel other (mem p);
  Done (p <| mem := H |> <| vars := vars p ++ [c] |>).

Definition move_construct (src : place) p : outcome program :=
  other ← read_place src p;
  p ← write_place src VNull p;
  Done (p <| vars := vars p ++ [other] |>).

(** The end of the scope of the innermost object. *)
Definition destruct_last (fuel : nat) p : outcome program :=
  match last (vars p) with
  | Some c => H ← ClearInternal fuel c (mem p); Done (p <| mem := H |> <| vars := removelast (vars p) |>)
  | None => Stop Ub
  end.

(** [SetType] on an object in scope. *)
Definition set_type_at (fuel : nat) (type : JClass) (dst : place) p : outcome program :=
  c ← read_place dst p;
  '(c, H) ← set_type fuel type c (mem p);
  write_place dst c (p <| mem := H |>).

(** The assignments of numbers and booleans; an unsigned number goes through the type of the
    signed ones. *)
Definition assign_scalar (fuel : nat) (dst : place) (v : cell) p : outcome program :=
  p ← match v with VUIntegral _ => set_type_at fuel CIntegral dst p | _ => Done p end;
  p ← set_type_at fuel (cell_type v) dst p;
  write_place dst v p.

Definition store (a : Z) (b : block) p : program := p <| mem := (mem p) <| blocks := <[a := b]> (blocks (mem p)) |> |>.

Definition assign_string (fuel : nat) (dst : place) (s : text) p : outcome program :=
  p ← set_type_at fuel CString dst p;
  c ← read_place dst p;
  match c with VString a => Done (store a (BString s) p) | _ => Stop Ub end.

(** [append(arg)]: [arg] is a copy, from which the element is copied, and which is destroyed at
    the end of the call. *)
Definition append (fuel : nat) (dst src : place) p : outcome program :=
  other ← read_place src p;
  '(arg, H) ← copy fuel other (mem p);
  p ← set_type_at fuel CArray dst (p <| mem := H |>);
  c ← read_place dst p;
  match c with
  | VArray a =>
    match blocks (mem p) !! a with
    | Some (BArray l) =>
      '(e, H) ← copy fuel arg (mem p);
      let p := store a (BArray (l ++ [e])) (p <| mem := H |>) in
      H ← ClearInternal fuel arg (mem p);
      Done (p <| mem := H |>)
    | _ => Stop Ub
    end
  | _ => Stop Ub
  end.

(** [std::map] by key: the search and the insertion of one that is not there. *)
Fixpoint field_find (key : text) (m : list (text * cell)) : option cell :=
  match m with
  | [] => None
  | (k, c) :: m => if bool_decide (k = key) then Some c else if text_ltb key k then None else field_find key m
  end.

Fixpoint field_insert (key : text) (c : cell) (m : list (text * cell)) : list (text * cell) :=
  match m with
  | [] => [(key, c)]
  | (k, c') :: m' =>
    if bool_decide (k = key) then (key, c) :: m'
    else if text_ltb key k then (key, c) :: m
    else (k, c') :: field_insert key c m'
  end.

(** [dst[key] = src]: the element is made first if it is not there, then assigned to. *)
Definition set_key (fuel : nat) (dst : place) (key : text) (src : place) p : outcome program :=
  p ← set_type_at fuel CObject dst p;
  c ← read_place dst p;
  match c with
  | VObject a =>
    match blocks (mem p) !! a with
    | Some (BObject m) =>
      let old := default VNull (field_find key m) in
      let p := store a (BObject (field_insert key old m)) p in
      H ← ClearInternal fuel old (mem p);
      let p := p <| mem := H |> in
      other ← read_place src p;
      '(c, H) ← copy fuel other (mem p);
      Done (store a (BObject (field_insert key c m)) (p <| mem := H |>))
    | _ => Stop Ub
    end
  | _ => Stop Ub
  end.

Inductive json_op :=
| Default
| CopyConstruct (src : nat)
| MoveConstruct (src : nat)
| CopyAssign (dst src : nat)
| MoveAssign (dst src : nat)
| SetTypeOf (dst : nat) (type : JClass)
| AssignScalar (dst : nat) (v : cell)
| AssignString (dst : nat) (s : text)
| Append (dst src : nat)
| SetKey (dst : nat) (key : text) (src : nat)
| EndScope.

Definition json_exec (fuel : nat) (x : json_op) p : outcome program :=
  match x with
  | Default => Done (default_construct p)
  | CopyConstruct src => copy_construct fuel (Var src) p
  | MoveConstruct src => move_construct (Var src) p
  | CopyAssign dst src => copy_assign fuel (Var dst) (Var src) p
  | MoveAssign dst src => move_assign fuel (Var dst) (Var src) p
  | SetTypeOf dst type => set_type_at fuel type (Var dst) p
  | AssignScalar dst v => assign_scalar fuel (Var dst) v p
  | AssignString dst s => assign_string fuel (Var dst) s p
  | Append dst src => append fuel (Var dst) (Var src) p
  | SetKey dst key src => set_key fuel (Var dst) key (Var src) p
  | EndScope => destruct_last fuel p
  end.

Fixpoint json_run (fuel : nat) (l : list json_op) p : outcome program :=
  match l with
  | [] => Done p
  | x :: l => p ← json_exec fuel x p; json_run fuel l p
  end.
