(* ===== verification/JsonMemory.v ===== *)
(** Class [JSON] owns its memory: the operations of JsonHeap.v implement those of Json.v on
    values, every block belongs to exactly one object, and none is left when the last object is
    gone. *)

From Corelib Require Import SpecFloat.
From S2P Require Import Prelude Floats Json JsonHeap.

Abbreviation memory := (gmap Z block).
Implicit Types (c : cell) (v : JSON) (H : heap) (p : program) (h F : memory).

(** * Ownership *)

(** Cells and values one by one, each cell with memory of its own; [h] is all of it. *)
Fixpoint owns_cells (P : cell -> JSON -> memory -> Prop) (l : list cell) (vs : list JSON) h : Prop :=
  match l, vs with
  | [], [] => h = ∅
  | c :: l, v :: vs => exists h1 h2, h = h1 ∪ h2 /\ h1 ##ₘ h2 /\ P c v h1 /\ owns_cells P l vs h2
  | _, _ => False
  end.

(** The cell [c] stands for the value [v], nested less than [n] times, and [h] is exactly the
    memory it owns. *)
Fixpoint owns (n : nat) c v h : Prop :=
  match n with
  | O => False
  | S n =>
    match c, v with
    | VNull, JNull => h = ∅
    | VObject a, JObject m => exists cm h', h = <[a := BObject cm]> h' /\ h' !! a = None /\
      cm.*1 = m.*1 /\ owns_cells (owns n) cm.*2 m.*2 h'
    | VArray a, JArray vs => exists l h', h = <[a := BArray l]> h' /\ h' !! a = None /\ owns_cells (owns n) l vs h'
    | VString a, JString s => h = {[a := BString s]}
    | VFloating f, JFloating g => f = g /\ h = ∅
    | VIntegral m, JIntegral k => m = k /\ h = ∅
    | VUIntegral m, JUIntegral k => m = k /\ h = ∅
    | VBoolean b, JBoolean b' => b = b' /\ h = ∅
    | _, _ => False
    end
  end.

Lemma owns_cells_mono (P Q : cell -> JSON -> memory -> Prop) l : (forall c v h, P c v h -> Q c v h) ->
  forall vs h, owns_cells P l vs h -> owns_cells Q l vs h.
Proof. intros HPQ; induction l as [|c l IH]; intros [|v vs] h; cbn; try done; naive_solver. Qed.

Lemma owns_S n : forall c v h, owns n c v h -> owns (S n) c v h.
Proof.
  induction n as [|n IH]; intros c v h; [done|]; intros Ho; destruct c, v; cbn in Ho |- *; try done.
  - destruct Ho as (cm & h' & ? & ? & ? & Hc); exists cm, h'; split_and!; [done..|]; by apply (owns_cells_mono (owns n)).
  - destruct Ho as (l0 & h' & ? & ? & Hc); exists l0, h'; split_and!; [done..|]; by apply (owns_cells_mono (owns n)).
Qed.

Lemma owns_mono n m c v h : (n <= m)%nat -> owns n c v h -> owns m c v h.
Proof. induction 1; [done|]; eauto using owns_S. Qed.

Lemma owns_null n : (0 < n)%nat -> owns n VNull JNull ∅.
Proof. destruct n; [lia|done]. Qed.

Lemma cells_length P l : forall vs h, owns_cells P l vs h -> length l = length vs.
Proof. induction l as [|c l IH]; intros [|v vs] h; cbn; try done; intros (? & ? & _ & _ & _ & Hc); f_equal; eauto. Qed.

(** One of the cells with its memory, and how another takes its place. *)
Lemma cells_lens P l : forall vs h i c, owns_cells P l vs h -> l !! i = Some c ->
  exists v h1 h2, vs !! i = Some v /\ h = h1 ∪ h2 /\ h1 ##ₘ h2 /\ P c v h1 /\
    forall (Q : cell -> JSON -> memory -> Prop) c' v' h', (forall c v h, P c v h -> Q c v h) -> Q c' v' h' -> h' ##ₘ h2 ->
      owns_cells Q (<[i := c']> l) (<[i := v']> vs) (h' ∪ h2).
Proof.
  induction l as [|c0 l IH]; intros [|v0 vs] h i c Ho Hi; try done; cbn in Ho; destruct Ho as (ha & hb & -> & Hd & Hc & Ho).
  destruct i as [|i]; cbn in Hi.
  - injection Hi as ->; exists v0, ha, hb; split_and!; try done; intros Q c' v' h' HPQ HQ Hh; cbn.
    exists h', hb; split_and!; try done; by apply (owns_cells_mono P).
  - destruct (IH vs hb i c Ho Hi) as (v & h1 & h2 & Hv & -> & Hd2 & HP & Hclose).
    exists v, h1, (ha ∪ h2); split_and!; try done.
    + rewrite !map_union_assoc; f_equal; apply map_union_comm; solve_map_disjoint.
    + solve_map_disjoint.
    + intros Q c' v' h' HPQ HQ Hh; cbn; exists ha, (h' ∪ h2); split_and!; try auto.
      * rewrite !map_union_assoc; f_equal; apply map_union_comm; solve_map_disjoint.
      * solve_map_disjoint.
      * apply Hclose; [done..|solve_map_disjoint].
Qed.

Lemma cells_app P l : forall vs h l' vs' h', owns_cells P l vs h -> owns_cells P l' vs' h' -> h ##ₘ h' ->
  owns_cells P (l ++ l') (vs ++ vs') (h ∪ h').
Proof.
  induction l as [|c l IH]; intros [|v vs] h l' vs' h' Ho Ho' Hd; cbn in Ho; try done.
  - subst; by rewrite map_empty_union.
  - destruct Ho as (h1 & h2 & -> & Hd1 & HP & Ho); cbn; exists h1, (h2 ∪ h').
    split_and!; [by rewrite map_union_assoc|solve_map_disjoint|done|apply IH; [done..|solve_map_disjoint]].
Qed.

Lemma cells_snoc (P : cell -> JSON -> memory -> Prop) l vs c v h h' : owns_cells P l vs h -> P c v h' -> h ##ₘ h' ->
  owns_cells P (l ++ [c]) (vs ++ [v]) (h ∪ h').
Proof.
  intros Ho HP Hd; apply cells_app; try done; cbn; exists h', ∅; split_and!; try done; [by rewrite map_union_empty|solve_map_disjoint].
Qed.

(** * Copies and deletes *)

Definition heap_ok H : Prop := forall a, is_Some (blocks H !! a) -> a < next H.

Definition copies (f : cell -> heap -> outcome (cell * heap)) (P : cell -> JSON -> memory -> Prop) : Prop :=
  forall c v h H, P c v h -> h ⊆ blocks H -> heap_ok H ->
  exists c' H' h', f c H = Done (c', H') /\ blocks H' = h' ∪ blocks H /\ h' ##ₘ blocks H /\ P c' v h' /\ heap_ok H'.

Lemma over_cells_copies f P l : copies f P -> forall vs h H, owns_cells P l vs h -> h ⊆ blocks H -> heap_ok H ->
  exists l' H' h', over_cells f l H = Done (l', H') /\ blocks H' = h' ∪ blocks H /\ h' ##ₘ blocks H /\
    owns_cells P l' vs h' /\ heap_ok H'.
Proof.
  intros Hf; induction l as [|c l IH]; intros [|v vs] h H Ho Hs Hk; cbn in Ho; try done.
  - exists [], H, ∅; split_and!; [done|by rewrite map_empty_union|solve_map_disjoint|done..].
  - destruct Ho as (h1 & h2 & -> & Hd & HP & Ho).
    assert (h1 ⊆ blocks H) as Hs1 by (etrans; [apply map_union_subseteq_l|done]).
    assert (h2 ⊆ blocks H) as Hs2 by (etrans; [by apply map_union_subseteq_r|done]).
    destruct (Hf c v h1 H HP Hs1 Hk) as (c' & H1 & g1 & E1 & B1 & D1 & P1 & K1).
    destruct (IH vs h2 H1 Ho) as (l' & H2 & g2 & E2 & B2 & D2 & P2 & K2); [|done|].
    { rewrite B1; etrans; [exact Hs2|by apply map_union_subseteq_r]. }
    exists (c' :: l'), H2, (g1 ∪ g2); cbn [over_cells]; rewrite E1, bind_Done, E2, bind_Done.
    rewrite B1 in D2; split_and!; [done| |solve_map_disjoint| |done].
    + rewrite B2, B1, map_union_assoc; f_equal; apply map_union_comm; solve_map_disjoint.
    + exists g1, g2; split_and!; try done; solve_map_disjoint.
Qed.

Lemma new_ok b H : heap_ok H -> heap_ok (new b H).2.
Proof.
  intros Hk a; cbn; destruct (decide (a = next H)) as [->|Hne]; [lia|].
  rewrite lookup_insert_ne by done; intros ?%Hk; lia.
Qed.

Lemma next_free H : heap_ok H -> blocks H !! next H = None.
Proof. intros Hk; apply eq_None_not_Some; intros ?%Hk; lia. Qed.

(** A container that is made around copies of its elements. *)
Lemma new_block b H h0 H1 : heap_ok H1 -> blocks H1 = h0 ∪ blocks H -> h0 ##ₘ blocks H ->
  let a := next H1 in
  h0 !! a = None /\ blocks (new b H1).2 = <[a := b]> h0 ∪ blocks H /\ <[a := b]> h0 ##ₘ blocks H /\ heap_ok (new b H1).2.
Proof.
  intros Hk Hb Hd a; pose proof (next_free H1 Hk) as Hf; rewrite Hb in Hf; apply lookup_union_None in Hf as [Hf1 Hf2].
  split; [done|]; split; [cbn; rewrite Hb; by apply insert_union_l|]; split; [|by apply new_ok].
  by apply map_disjoint_insert_l.
Qed.

Lemma zip_fst_snd {A B} (l : list A) (k : list B) : length l = length k -> (zip l k).*1 = l /\ (zip l k).*2 = k.
Proof. intros Hl; split; [apply fst_zip|apply snd_zip]; lia. Qed.

Lemma insert_lookup_sub (a : Z) (b : block) h h' : <[a := b]> h ⊆ h' -> h' !! a = Some b.
Proof. intros Hs; eapply lookup_weaken; [|done]; apply lookup_insert_eq. Qed.

Lemma insert_tail_sub (a : Z) (b : block) h h' : h !! a = None -> <[a := b]> h ⊆ h' -> h ⊆ h'.
Proof. intros Hn Hs; etrans; [|exact Hs]; by apply insert_subseteq. Qed.

(** A copy is a second object with the same value and memory of its own. *)
Lemma copy_copies n : forall fuel, (n <= fuel)%nat -> copies (copy fuel) (owns n).
Proof.
  induction n as [|n IH]; intros [|fuel] Hf c v h H Ho Hs Hk; try done; [lia|].
  specialize (IH fuel ltac:(lia)).
  assert (Hscalar : h = ∅ -> exists c' H' h', Done (c, H) = Done (c', H') /\ blocks H' = h' ∪ blocks H /\ h' ##ₘ blocks H /\
    owns (S n) c' v h' /\ heap_ok H').
  { intros ->; exists c, H, ∅; split_and!; [done|by rewrite map_empty_union|solve_map_disjoint|done..]. }
  destruct c, v; cbn in Ho; try done; try (by apply Hscalar); try (by apply Hscalar; destruct Ho); cbn [copy].
  - destruct Ho as (cm & h' & -> & Hn & Hk1 & Ho); rewrite (insert_lookup_sub _ _ _ _ Hs).
    destruct (over_cells_copies _ _ _ IH _ _ _ Ho (insert_tail_sub _ _ _ _ Hn Hs) Hk) as (l' & H1 & g & E & B & D & P & K).
    rewrite E, bind_Done; set (b := BObject (zip cm.*1 l')).
    destruct (new_block b H g H1 K B D) as (Hg & Hb & Hd & Hok).
    do 3 eexists; split_and!; [reflexivity|exact Hb|exact Hd| |exact Hok].
    destruct (zip_fst_snd cm.*1 l') as [Z1 Z2].
    { pose proof (cells_length _ _ _ _ P); pose proof (cells_length _ _ _ _ Ho); rewrite !length_fmap in *; lia. }
    exists (zip cm.*1 l'), g; split_and!; try done; [by rewrite Z1|by rewrite Z2].
  - destruct Ho as (l0 & h' & -> & Hn & Ho); rewrite (insert_lookup_sub _ _ _ _ Hs).
    destruct (over_cells_copies _ _ _ IH _ _ _ Ho (insert_tail_sub _ _ _ _ Hn Hs) Hk) as (l' & H1 & g & E & B & D & P & K).
    rewrite E, bind_Done; destruct (new_block (BArray l') H g H1 K B D) as (Hg & Hb & Hd & Hok).
    do 3 eexists; split_and!; [reflexivity|exact Hb|exact Hd| |exact Hok]; by exists l', g.
  - subst h; rewrite (insert_lookup_sub _ _ _ _ Hs).
    destruct (new_block (BString s) H ∅ H Hk) as (Hg & Hb & Hd & Hok); [by rewrite map_empty_union|solve_map_disjoint|].
    do 3 eexists; split_and!; [reflexivity|exact Hb|exact Hd|done|exact Hok].
Qed.

Definition deletes (f : cell -> heap -> outcome heap) (P : cell -> JSON -> memory -> Prop) : Prop :=
  forall c v h F H, P c v h -> blocks H = h ∪ F -> h ##ₘ F ->
  exists H', f c H = Done H' /\ blocks H' = F /\ next H' = next H.

Lemma delete_cells_deletes f P l : deletes f P -> forall vs h F H, owns_cells P l vs h -> blocks H = h ∪ F -> h ##ₘ F ->
  exists H', delete_cells f l H = Done H' /\ blocks H' = F /\ next H' = next H.
Proof.
  intros Hf; induction l as [|c l IH]; intros [|v vs] h F H Ho Hb Hd; cbn in Ho; try done.
  - subst; exists H; split_and!; try done; by rewrite Hb, map_empty_union.
  - destruct Ho as (h1 & h2 & -> & Hd1 & HP & Ho); cbn [delete_cells].
    destruct (Hf c v h1 (h2 ∪ F) H HP) as (H1 & E1 & B1 & N1); [by rewrite Hb, map_union_assoc|solve_map_disjoint|].
    destruct (IH vs h2 F H1 Ho B1) as (H2 & E2 & B2 & N2); [solve_map_disjoint|].
    rewrite E1, bind_Done; exists H2; split_and!; try done; congruence.
Qed.

(** The memory of a container goes after that of its elements. *)
Lemma free_block (a : Z) (b : block) h F H : blocks H = <[a := b]> h ∪ F -> <[a := b]> h ##ₘ F -> h !! a = None ->
  blocks H !! a = Some b /\ blocks H = h ∪ <[a := b]> F /\ h ##ₘ <[a := b]> F /\ F !! a = None.
Proof.
  intros Hb Hd Hn; apply map_disjoint_insert_l in Hd as [HF Hd]; split; [by rewrite Hb, lookup_union_l, lookup_insert_eq|].
  split; [rewrite Hb, <- insert_union_l, insert_union_r by done; done|]; split; [|done]; by apply map_disjoint_insert_r.
Qed.

(** The destructor gives back exactly the memory of the object. *)
Lemma ClearInternal_deletes n : forall fuel, (n <= fuel)%nat -> deletes (ClearInternal fuel) (owns n).
Proof.
  induction n as [|n IH]; intros [|fuel] Hf c v h F H Ho Hb Hd; try done; [lia|].
  specialize (IH fuel ltac:(lia)).
  assert (Hscalar : h = ∅ -> exists H', Done H = Done H' /\ blocks H' = F /\ next H' = next H).
  { intros ->; exists H; split_and!; try done; by rewrite Hb, map_empty_union. }
  destruct c, v; cbn in Ho; try done; try (by apply Hscalar); try (by apply Hscalar; destruct Ho); cbn [ClearInternal].
  - destruct Ho as (cm & h' & -> & Hn & Hk1 & Ho); destruct (free_block _ _ _ _ _ Hb Hd Hn) as (-> & Hb' & Hd' & HF).
    destruct (delete_cells_deletes _ _ _ IH _ _ _ _ Ho Hb' Hd') as (H1 & E & B & N); rewrite E, bind_Done.
    eexists; split_and!; [reflexivity| |done]; cbn; rewrite B; by apply delete_insert_id.
  - destruct Ho as (l0 & h' & -> & Hn & Ho); destruct (free_block _ _ _ _ _ Hb Hd Hn) as (-> & Hb' & Hd' & HF).
    destruct (delete_cells_deletes _ _ _ IH _ _ _ _ Ho Hb' Hd') as (H1 & E & B & N); rewrite E, bind_Done.
    eexists; split_and!; [reflexivity| |done]; cbn; rewrite B; by apply delete_insert_id.
  - subst h; destruct (free_block _ _ ∅ _ _ Hb Hd (lookup_empty _)) as (-> & Hb' & Hd' & HF).
    eexists; split_and!; [reflexivity| |done]; cbn; rewrite Hb', map_empty_union; by apply delete_insert_id.
Qed.

(** * Programs *)

(** The objects in scope stand for the values [E] and own all memory but [F]. *)
Definition stands_for (n : nat) F p (E : list JSON) : Prop :=
  heap_ok (mem p) /\ exists B, blocks (mem p) = B ∪ F /\ B ##ₘ F /\ owns_cells (owns n) (vars p) E B.

Lemma stands_mono n m F p E : (n <= m)%nat -> stands_for n F p E -> stands_for m F p E.
Proof.
  intros Hnm (Hk & B & HB & HD & Ho); split; [done|]; exists B; split_and!; try done.
  apply (owns_cells_mono (owns n)); [|done]; intros; by apply (owns_mono n).
Qed.

(** An object in scope, and what may take its place; the memory that is nobody's may change
    with it. *)
Lemma stands_lens n F p E i v : stands_for n F p E -> E !! i = Some v ->
  exists c h R, vars p !! i = Some c /\ owns n c v h /\ blocks (mem p) = h ∪ (R ∪ F) /\ h ##ₘ R /\ h ##ₘ F /\ R ##ₘ F /\
    forall m c' v' h' F' H', (n <= m)%nat -> owns m c' v' h' -> heap_ok H' -> blocks H' = h' ∪ (R ∪ F') ->
      h' ##ₘ R -> h' ##ₘ F' -> R ##ₘ F' ->
      stands_for m F' (mkProgram (<[i := c']> (vars p)) H') (<[i := v']> E).
Proof.
  intros (Hk & B & HB & HD & Ho) Hi; pose proof (cells_length _ _ _ _ Ho) as Hl.
  destruct (vars p !! i) as [c|] eqn:Hc; [|apply lookup_ge_None in Hc; apply lookup_lt_Some in Hi; lia].
  destruct (cells_lens _ _ _ _ _ _ Ho Hc) as (v' & h & R & Hv & -> & Hd & HP & Hclose).
  rewrite Hi in Hv; injection Hv as <-; exists c, h, R; split_and!; try done; [by rewrite HB, map_union_assoc|solve_map_disjoint..|].
  intros m c' v' h' F' H' Hnm HQ Hk' HB' D1 D2 D3; split; [done|]; exists (h' ∪ R); split_and!;
    [cbn; by rewrite HB', map_union_assoc|solve_map_disjoint|].
  apply Hclose; try done; intros; by apply (owns_mono n).
Qed.

(** Memory that is nobody's becomes that of a new object. *)
Lemma stands_push n F p E c v h : stands_for n (h ∪ F) p E -> owns n c v h -> h ##ₘ F ->
  stands_for n F (p <| vars := vars p ++ [c] |>) (E ++ [v]).
Proof.
  intros (Hk & B & HB & HD & Ho) Hc Hd; split; [done|]; exists (B ∪ h); cbn; split_and!.
  - by rewrite HB, map_union_assoc.
  - solve_map_disjoint.
  - apply cells_snoc; try done; solve_map_disjoint.
Qed.

Lemma cells_last P l c : forall vs h, owns_cells P (l ++ [c]) vs h ->
  exists vs' v h1 h2, vs = vs' ++ [v] /\ h = h1 ∪ h2 /\ h1 ##ₘ h2 /\ P c v h2 /\ owns_cells P l vs' h1.
Proof.
  induction l as [|c0 l IH]; intros [|v vs] h Ho; cbn in Ho; try done.
  - destruct Ho as (h1 & h2 & -> & Hd & HP & Ho); destruct vs; [|done]; cbn in Ho; subst h2.
    exists [], v, ∅, h1; split_and!; try done; try solve_map_disjoint; by rewrite map_empty_union, map_union_empty.
  - destruct Ho as (h1 & h2 & -> & Hd & HP & Ho); destruct (IH vs h2 Ho) as (vs' & w & g1 & g2 & -> & -> & Hd2 & HP2 & Ho2).
    exists (v :: vs'), w, (h1 ∪ g1), g2; split_and!; try done; [by rewrite map_union_assoc|solve_map_disjoint|].
    exists h1, g1; split_and!; try done; solve_map_disjoint.
Qed.

(** A copy of an object in scope is nobody's at first. *)
Lemma stands_copy n fuel F p E i v : (n <= fuel)%nat -> stands_for n F p E -> E !! i = Some v ->
  exists c c' H' h', vars p !! i = Some c /\ copy fuel c (mem p) = Done (c', H') /\ owns n c' v h' /\
    h' ##ₘ blocks (mem p) /\ blocks H' = h' ∪ blocks (mem p) /\ heap_ok H' /\ stands_for n (h' ∪ F) (p <| mem := H' |>) E.
Proof.
  intros Hf Hs Hi; pose proof Hs as (Hk & B & HB & HD & Ho).
  destruct (stands_lens _ _ _ _ _ _ Hs Hi) as (c & h & R & Hc & Hown & Hb & _).
  destruct (copy_copies n fuel Hf c v h (mem p) Hown) as (c' & H' & h' & E1 & B1 & D1 & P1 & K1);
    [rewrite Hb; apply map_union_subseteq_l|done|].
  rewrite HB in D1; exists c, c', H', h'; split_and!; try done; [by rewrite HB|].
  split; [done|]; exists B; cbn; split_and!; [|solve_map_disjoint|done].
  rewrite B1, HB, !map_union_assoc; f_equal; apply map_union_comm; solve_map_disjoint.
Qed.

(** An object in scope gives its memory back and is left without a value. *)
Lemma stands_clear n fuel F p E i v : (n <= fuel)%nat -> stands_for n F p E -> E !! i = Some v ->
  exists c H', vars p !! i = Some c /\ ClearInternal fuel c (mem p) = Done H' /\
    stands_for n F (mkProgram (<[i := VNull]> (vars p)) H') (<[i := JNull]> E).
Proof.
  intros Hf Hs Hi; destruct (stands_lens _ _ _ _ _ _ Hs Hi) as (c & h & R & Hc & Hown & Hb & D1 & D2 & D3 & Hclose).
  destruct (ClearInternal_deletes n fuel Hf c v h (R ∪ F) (mem p) Hown Hb) as (H' & E1 & B1 & N1); [solve_map_disjoint|].
  exists c, H'; split_and!; try done; apply (Hclose n VNull JNull ∅); try done; [|..|solve_map_disjoint|solve_map_disjoint].
  - apply owns_null; destruct n; [done|lia].
  - destruct Hs as [Hk _]; intros a; rewrite B1, N1; intros Ha; apply Hk; rewrite Hb.
    destruct Ha as [b Ha]; exists b; apply lookup_union_Some_r; [solve_map_disjoint|done].
  - by rewrite map_empty_union.
Qed.

(** * What the operations mean *)

Definition scalar_value (c : cell) : option JSON :=
  match c with
  | VFloating f => Some (JFloating f)
  | VIntegral n => Some (JIntegral n)
  | VUIntegral n => Some (JUIntegral n)
  | VBoolean b => Some (JBoolean b)
  | _ => None
  end.

(** On values. [None] is an object that does not exist, or an object copied to itself. *)
Definition json_spec (x : json_op) (E : list JSON) : option (list JSON) :=
  match x with
  | Default => Some (E ++ [JNull])
  | CopyConstruct src => v ← E !! src; Some (E ++ [v])
  | MoveConstruct src => v ← E !! src; Some (<[src := JNull]> E ++ [v])
  | CopyAssign dst src => _ ← E !! dst; v ← E !! src; if decide (dst = src) then None else Some (<[dst := v]> E)
  | MoveAssign dst src => _ ← E !! dst; v ← E !! src; Some (<[src := JNull]> (<[dst := v]> E))
  | SetTypeOf dst type => j ← E !! dst; Some (<[dst := SetType type j]> E)
  | AssignScalar dst c => _ ← E !! dst; v ← scalar_value c; Some (<[dst := v]> E)
  | AssignString dst s => _ ← E !! dst; Some (<[dst := JString s]> E)
  | Append dst src => j ← E !! dst; v ← E !! src; Some (<[dst := json_append j v]> E)
  | SetKey dst key src =>
    j ← E !! dst; v ← E !! src; if decide (dst = src) then None else Some (<[dst := json_set_key j key v]> E)
  | EndScope => match E with [] => None | _ => Some (removelast E) end
  end.

Fixpoint json_specs (l : list json_op) (E : list JSON) : option (list JSON) :=
  match l with
  | [] => Some E
  | x :: l => E ← json_spec x E; json_specs l E
  end.
