(* ===== verification/JsonProgram.v ===== *)
(** Programs with JSON objects: each operation of JsonHeap.v does to the objects in scope what
    its counterpart of Json.v does to values, and keeps the memory theirs alone. *)

From Corelib Require Import SpecFloat.
From S2P Require Import Prelude Floats Json JsonHeap JsonMemory.

Implicit Types (c : cell) (v j : JSON) (H : heap) (p : program) (h F : memory).

(** * Memory that is nobody's *)

Lemma union_middle h1 h2 F : h1 ##ₘ h2 -> h1 ∪ (h2 ∪ F) = h2 ∪ h1 ∪ F.
Proof. intros Hd; rewrite map_union_assoc; f_equal; by apply map_union_comm. Qed.

Lemma union_swap h1 h2 F : h1 ##ₘ h2 -> h1 ∪ (h2 ∪ F) = h2 ∪ (h1 ∪ F).
Proof. intros Hd; rewrite union_middle by done; by rewrite map_union_assoc. Qed.

Lemma frame_alloc n F p E h H' : stands_for n F p E -> blocks H' = h ∪ blocks (mem p) -> h ##ₘ blocks (mem p) ->
  heap_ok H' -> stands_for n (h ∪ F) (p <| mem := H' |>) E.
Proof.
  intros (Hk & B & HB & HD & Ho) HB' Hd Hk'; rewrite HB in *; split; [done|]; exists B; cbn; split_and!; [|solve_map_disjoint|done].
  rewrite HB', !map_union_assoc; f_equal; apply map_union_comm; solve_map_disjoint.
Qed.

Lemma frame_new n F p E b : stands_for n F p E ->
  let a := next (mem p) in
  {[a := b]} ##ₘ F /\ stands_for n ({[a := b]} ∪ F) (p <| mem := (new b (mem p)).2 |>) E.
Proof.
  intros Hs a; pose proof Hs as (Hk & B & HB & HD & Ho).
  destruct (new_block b (mem p) ∅ (mem p) Hk) as (_ & Hb & Hd & Hok); [by rewrite map_empty_union|solve_map_disjoint|].
  rewrite insert_empty in Hb, Hd; split; [rewrite HB in Hd; solve_map_disjoint|]; by apply frame_alloc.
Qed.

Lemma frame_sub n F p E : stands_for n F p E -> F ⊆ blocks (mem p).
Proof. intros (_ & B & -> & HD & _); by apply map_union_subseteq_r. Qed.

Lemma frame_clear n k fuel F p E c v h : (k <= fuel)%nat -> stands_for n (h ∪ F) p E -> h ##ₘ F -> owns k c v h ->
  exists H', ClearInternal fuel c (mem p) = Done H' /\ stands_for n F (p <| mem := H' |>) E.
Proof.
  intros Hf (Hk & B & HB & HD & Ho) Hd Hc.
  assert (blocks (mem p) = h ∪ (B ∪ F)) as HB'.
  { rewrite HB, !map_union_assoc; f_equal; apply map_union_comm; solve_map_disjoint. }
  destruct (ClearInternal_deletes k fuel Hf c v h (B ∪ F) (mem p) Hc HB') as (H' & E1 & B1 & N1); [solve_map_disjoint|].
  exists H'; split; [done|]; split; cbn; [|exists B; split_and!; try done; solve_map_disjoint].
  intros a [b Ha]; rewrite N1; apply Hk; rewrite HB'; rewrite B1 in Ha; exists b; apply lookup_union_Some_r; [solve_map_disjoint|done].
Qed.

Lemma frame_store n F p E a b b' h : stands_for n (<[a := b]> h ∪ F) p E -> F !! a = None ->
  stands_for n (<[a := b']> h ∪ F) (store a b' p) E.
Proof.
  intros (Hk & B & HB & HD & Ho) HF; apply map_disjoint_union_r in HD as [HD1 HD2].
  apply map_disjoint_insert_r in HD1 as [HBa HD1].
  assert (HBs : blocks (mem (store a b' p)) = B ∪ (<[a := b']> h ∪ F)).
  { cbn; rewrite HB, <- !insert_union_l, <- !insert_union_r, insert_insert_eq by done; done. }
  split; [|exists B; split_and!; [done| |done]].
  - intros x; rewrite HBs; cbn; intros Hx; apply Hk; rewrite HB; revert Hx; rewrite !lookup_union_is_Some, !lookup_insert_is_Some; tauto.
  - apply map_disjoint_union_r; split; [by apply map_disjoint_insert_r|done].
Qed.

(** * Objects and their memory *)

(** The memory of an object is taken from it. *)
Lemma stands_take n F p E i v : stands_for n F p E -> E !! i = Some v ->
  exists c h, vars p !! i = Some c /\ owns n c v h /\ h ##ₘ F /\
    stands_for n (h ∪ F) (mkProgram (<[i := VNull]> (vars p)) (mem p)) (<[i := JNull]> E).
Proof.
  intros Hs Hi; destruct (stands_lens _ _ _ _ _ _ Hs Hi) as (c & h & R & Hc & Hown & Hb & D1 & D2 & D3 & Hclose).
  exists c, h; split_and!; try done; apply (Hclose n VNull JNull ∅); try done; [|..]; try solve_map_disjoint.
  - apply owns_null; destruct n; [done|lia].
  - by destruct Hs.
  - rewrite Hb, map_empty_union, !map_union_assoc; f_equal; apply map_union_comm; solve_map_disjoint.
Qed.

(** An object without a value gets memory. *)
Lemma stands_put n m F p E i c v h : stands_for n (h ∪ F) p E -> vars p !! i = Some VNull -> E !! i = Some JNull ->
  (n <= m)%nat -> owns m c v h -> h ##ₘ F -> stands_for m F (mkProgram (<[i := c]> (vars p)) (mem p)) (<[i := v]> E).
Proof.
  intros Hs Hi HE Hnm Hc Hd; destruct (stands_lens _ _ _ _ _ _ Hs HE) as (c0 & h0 & R & Hc0 & Hown & Hb & D1 & D2 & D3 & Hclose).
  rewrite Hi in Hc0; injection Hc0 as <-; destruct n; [done|]; cbn in Hown; subst h0.
  apply (Hclose m c v h); try done; try solve_map_disjoint; [by destruct Hs|].
  rewrite Hb, map_empty_union, !map_union_assoc; f_equal; apply map_union_comm; solve_map_disjoint.
Qed.

Lemma stands_length n F p E : stands_for n F p E -> length (vars p) = length E.
Proof. intros (_ & B & _ & _ & Ho); by apply cells_length in Ho. Qed.

Lemma stands_pos n F p E i v : stands_for n F p E -> E !! i = Some v -> (0 < n)%nat.
Proof. intros Hs Hi; destruct (stands_lens _ _ _ _ _ _ Hs Hi) as (c & h & R & _ & Ho & _); destruct n; [done|lia]. Qed.

Lemma put_back i c p : vars p !! i = Some c -> mkProgram (<[i := c]> (vars p)) (mem p) = p.
Proof. intros Hi; destruct p; cbn in *; f_equal; by apply list_insert_id. Qed.

Lemma read_var i c p : vars p !! i = Some c -> read_place (Var i) p = Done c.
Proof. unfold read_place; by intros ->. Qed.

Lemma write_var i c c' p : vars p !! i = Some c' -> write_place (Var i) c p = Done (p <| vars := <[i := c]> (vars p) |>).
Proof. unfold write_place; intros ->; by rewrite bool_decide_eq_true_2. Qed.

(** * The operations *)

Section operations.
Context (n fuel : nat) (Hfuel : (n <= fuel)%nat).
Implicit Types (E : list JSON).

Lemma copy_construct_stands F p E src v : stands_for n F p E -> E !! src = Some v ->
  exists p', copy_construct fuel (Var src) p = Done p' /\ stands_for n F p' (E ++ [v]).
Proof.
  intros Hs Hi; destruct (stands_copy n fuel F p E src v Hfuel Hs Hi) as (c & c' & H' & h & Hc & Ec & Ho & Hd & Hb & Hk & Hs').
  unfold copy_construct; rewrite (read_var _ _ _ Hc), bind_Done, Ec, bind_Done; eexists; split; [reflexivity|].
  refine (stands_push n F (p <| mem := H' |>) E c' v h Hs' Ho _).
  destruct Hs as (_ & B & HB & _); rewrite HB in Hd; solve_map_disjoint.
Qed.

Lemma move_construct_stands F p E src v : stands_for n F p E -> E !! src = Some v ->
  exists p', move_construct (Var src) p = Done p' /\ stands_for n F p' (<[src := JNull]> E ++ [v]).
Proof.
  intros Hs Hi; destruct (stands_take n F p E src v Hs Hi) as (c & h & Hc & Ho & Hd & Hs').
  unfold move_construct; rewrite (read_var _ _ _ Hc), bind_Done, (write_var _ _ _ _ Hc), bind_Done; eexists; split; [reflexivity|].
  exact (stands_push n F (mkProgram (<[src := VNull]> (vars p)) (mem p)) _ c v h Hs' Ho Hd).
Qed.

Lemma copy_assign_stands F p E dst src u v : stands_for n F p E -> E !! dst = Some u -> E !! src = Some v -> dst <> src ->
  exists p', copy_assign fuel (Var dst) (Var src) p = Done p' /\ stands_for n F p' (<[dst := v]> E).
Proof.
  intros Hs Hu Hv Hne; destruct (stands_clear n fuel F p E dst u Hfuel Hs Hu) as (c & H1 & Hc & E1 & Hs1).
  destruct (stands_copy n fuel F _ _ src v Hfuel Hs1) as (o & c' & H2 & h & Ho & E2 & Hown & Hd & Hb & Hk & Hs2);
    [by rewrite list_lookup_insert_ne|]; cbn in Ho, E2; rewrite list_lookup_insert_ne in Ho by done.
  unfold copy_assign; rewrite (read_var _ _ _ Hc), bind_Done, E1, bind_Done; cbv zeta.
  rewrite (read_var src o) by done; rewrite bind_Done; change (copy fuel o (mem _)) with (copy fuel o H1).
  rewrite E2, bind_Done, (write_var dst c' c) by done.
  eexists; split; [reflexivity|].
  pose proof (stands_put n n F _ _ dst c' v h Hs2) as Hp; cbn in Hp; rewrite !list_insert_insert_eq in Hp; apply Hp; try done.
  - apply list_lookup_insert_eq; by apply lookup_lt_Some in Hc.
  - apply list_lookup_insert_eq; by apply lookup_lt_Some in Hu.
  - destruct Hs1 as (_ & B & HB & _); cbn in HB, Hd; rewrite HB in Hd; solve_map_disjoint.
Qed.

Lemma move_assign_stands F p E dst src u v : stands_for n F p E -> E !! dst = Some u -> E !! src = Some v ->
  exists p', move_assign fuel (Var dst) (Var src) p = Done p' /\ stands_for n F p' (<[src := JNull]> (<[dst := v]> E)).
Proof.
  intros Hs Hu Hv; destruct (stands_clear n fuel F p E dst u Hfuel Hs Hu) as (c & H1 & Hc & E1 & Hs1).
  pose proof (lookup_lt_Some _ _ _ Hc) as Hlc; pose proof (lookup_lt_Some _ _ _ Hu) as Hlu.
  unfold move_assign; rewrite (read_var _ _ _ Hc), bind_Done, E1, bind_Done; cbv zeta.
  destruct (decide (dst = src)) as [->|Hne].
  - rewrite (read_var src c) by done; rewrite bind_Done, (write_var src c c) by done; rewrite bind_Done.
    rewrite (write_var src VNull c) by (cbn; by apply list_lookup_insert_eq); eexists; split; [reflexivity|].
    cbn; by rewrite !list_insert_insert_eq.
  - destruct (stands_take n F _ _ src v Hs1) as (o & h & Ho & Hown & Hd & Hs2); [by rewrite list_lookup_insert_ne|].
    cbn in Ho; rewrite list_lookup_insert_ne in Ho by done.
    rewrite (read_var src o) by done; rewrite bind_Done, (write_var dst o c) by done; rewrite bind_Done.
    rewrite (write_var src VNull o) by (cbn; by rewrite list_lookup_insert_ne); eexists; split; [reflexivity|].
    pose proof (stands_put n n F _ _ dst o v h Hs2) as Hp; cbn in Hp.
    rewrite !(list_insert_insert_ne _ dst src), !list_insert_insert_eq in Hp by done.
    apply Hp; try done; rewrite list_lookup_insert_ne by done; by apply list_lookup_insert_eq.
Qed.

Lemma cell_type_owns k c v h : owns k c v h -> cell_type c = JSONType v.
Proof. destruct k; [done|]; by destruct c, v. Qed.

(** An object without a value gets a new block. *)
Lemma put_new F p E i b c v : stands_for n F p E -> vars p !! i = Some VNull -> E !! i = Some JNull ->
  owns n c v {[next (mem p) := b]} ->
  stands_for n F (mkProgram (<[i := c]> (vars p)) (new b (mem p)).2) (<[i := v]> E).
Proof.
  intros Hs Hi HE Ho; destruct (frame_new n F p E b Hs) as [Hd Hs1].
  exact (stands_put n n F (p <| mem := (new b (mem p)).2 |>) E i c v {[next (mem p) := b]} Hs1 Hi HE (le_n n) Ho Hd).
Qed.

Lemma put_scalar F p E i c v : stands_for n F p E -> vars p !! i = Some VNull -> E !! i = Some JNull -> owns n c v ∅ ->
  stands_for n F (mkProgram (<[i := c]> (vars p)) (mem p)) (<[i := v]> E).
Proof.
  intros Hs Hi HE Ho; apply (stands_put n n F p E i c v ∅); try done; [by rewrite map_empty_union|solve_map_disjoint].
Qed.

Lemma set_type_stands F p E dst j type : stands_for n F p E -> E !! dst = Some j ->
  exists p', set_type_at fuel type (Var dst) p = Done p' /\ stands_for n F p' (<[dst := SetType type j]> E).
Proof.
  intros Hs Hj; destruct (stands_clear n fuel F p E dst j Hfuel Hs Hj) as (c & H1 & Hc & E1 & Hs1).
  destruct (stands_lens _ _ _ _ _ _ Hs Hj) as (c0 & h & R & Hc0 & Ho & _); rewrite Hc in Hc0; injection Hc0 as <-.
  pose proof (lookup_lt_Some _ _ _ Hc) as Hlc; pose proof (lookup_lt_Some _ _ _ Hj) as Hlj.
  pose proof (stands_pos _ _ _ _ _ _ Hs Hj) as Hn.
  unfold set_type_at, set_type, SetType; rewrite (read_var _ _ _ Hc), bind_Done, (cell_type_owns _ _ _ _ Ho).
  case_bool_decide as Et.
  - rewrite bind_Done, (write_var dst c c) by done; eexists; split; [reflexivity|]; cbn; rewrite !list_insert_id by done.
    by destruct p.
  - rewrite E1, !bind_Done.
    assert (HV : <[dst := VNull]> (vars p) !! dst = Some VNull) by (by apply list_lookup_insert_eq).
    assert (HE : <[dst := JNull]> E !! dst = Some JNull) by (by apply list_lookup_insert_eq).
    destruct type; unfold new; cbv beta iota; rewrite (write_var dst _ c) by done; (eexists; split; [reflexivity|]); cbn; [exact Hs1|..].
    1: pose proof (put_new F _ _ dst (BObject []) (VObject (next H1)) (JObject []) Hs1 HV HE) as Hp.
    2: pose proof (put_new F _ _ dst (BArray []) (VArray (next H1)) (JArray []) Hs1 HV HE) as Hp.
    3: pose proof (put_new F _ _ dst (BString []) (VString (next H1)) (JString []) Hs1 HV HE) as Hp.
    4: pose proof (put_scalar F _ _ dst (VFloating (S754_zero false)) (JFloating (S754_zero false)) Hs1 HV HE) as Hp.
    5: pose proof (put_scalar F _ _ dst (VIntegral 0) (JIntegral 0) Hs1 HV HE) as Hp.
    6: pose proof (put_scalar F _ _ dst (VUIntegral 0) (JUIntegral 0) Hs1 HV HE) as Hp.
    7: pose proof (put_scalar F _ _ dst (VBoolean false) (JBoolean false) Hs1 HV HE) as Hp.
    all: cbn in Hp; rewrite !list_insert_insert_eq in Hp; apply Hp; destruct n; [lia|]; cbn; try done.
    all: eexists [], ∅; split_and!; try done.
Qed.

(** A number or a boolean has no memory. *)
Lemma scalar_empty k c w v h : owns k c v h -> scalar_value w <> None -> JSONType v = cell_type w -> h = ∅.
Proof. destruct k; [done|]; destruct c, v; cbn; try done; try (by intros [_ ->]); by destruct w. Qed.

Lemma scalar_owns k w v : (0 < k)%nat -> scalar_value w = Some v -> owns k w v ∅.
Proof. destruct k; [lia|]; destruct w; cbn; try done; by intros _ [= <-]. Qed.

Lemma SetType_type type j : JSONType (SetType type j) = type.
Proof. unfold SetType; case_bool_decide; [done|]; by destruct type. Qed.

Lemma overwrite_scalar F p E dst j w v : stands_for n F p E -> E !! dst = Some j -> JSONType j = cell_type w ->
  scalar_value w = Some v ->
  exists p', write_place (Var dst) w p = Done p' /\ stands_for n F p' (<[dst := v]> E).
Proof.
  intros Hs Hj Ht Hv; destruct (stands_take n F p E dst j Hs Hj) as (c & h & Hc & Ho & Hd & Hs1).
  rewrite (scalar_empty _ _ w _ _ Ho) in Hs1 by congruence; rewrite map_empty_union in Hs1.
  pose proof (lookup_lt_Some _ _ _ Hc) as Hlc; pose proof (lookup_lt_Some _ _ _ Hj) as Hlj.
  rewrite (write_var _ _ _ _ Hc); eexists; split; [reflexivity|].
  pose proof (put_scalar F _ _ dst w v Hs1) as Hp; cbn in Hp; rewrite !list_insert_insert_eq in Hp.
  apply Hp; try (by apply list_lookup_insert_eq); apply scalar_owns; [exact (stands_pos _ _ _ _ _ _ Hs Hj)|done].
Qed.

Lemma assign_scalar_stands F p E dst j w v : stands_for n F p E -> E !! dst = Some j -> scalar_value w = Some v ->
  exists p', assign_scalar fuel (Var dst) w p = Done p' /\ stands_for n F p' (<[dst := v]> E).
Proof.
  intros Hs Hj Hv; pose proof (lookup_lt_Some _ _ _ Hj) as Hlj; unfold assign_scalar.
  assert (exists p1 j1, match w with VUIntegral _ => set_type_at fuel CIntegral (Var dst) p | _ => Done p end = Done p1 /\
    stands_for n F p1 (<[dst := j1]> E)) as (p1 & j1 & -> & Hs1).
  { destruct w; try (exists p, j; split; [done|]; by rewrite list_insert_id).
    destruct (set_type_stands F p E dst j CIntegral Hs Hj) as (p1 & ? & ?); by exists p1, (SetType CIntegral j). }
  assert (Hj1 : <[dst := j1]> E !! dst = Some j1) by (by apply list_lookup_insert_eq).
  destruct (set_type_stands F p1 _ dst j1 (cell_type w) Hs1 Hj1) as (p2 & E2 & Hs2).
  rewrite list_insert_insert_eq in Hs2; rewrite bind_Done, E2, bind_Done.
  destruct (overwrite_scalar F p2 _ dst (SetType (cell_type w) j1) w v Hs2) as (p3 & E3 & Hs3);
    [by apply list_lookup_insert_eq|apply SetType_type|done|].
  exists p3; split; [done|]; by rewrite list_insert_insert_eq in Hs3.
Qed.

Lemma SetType_string j : exists s, SetType CString j = JString s.
Proof. pose proof (SetType_type CString j); destruct (SetType CString j); try done; eauto. Qed.

Lemma SetType_array j : exists vs, SetType CArray j = JArray vs.
Proof. pose proof (SetType_type CArray j); destruct (SetType CArray j); try done; eauto. Qed.

Lemma SetType_object j : exists m, SetType CObject j = JObject m.
Proof. pose proof (SetType_type CObject j); destruct (SetType CObject j); try done; eauto. Qed.

Lemma assign_string_stands F p E dst j s : stands_for n F p E -> E !! dst = Some j ->
  exists p', assign_string fuel (Var dst) s p = Done p' /\ stands_for n F p' (<[dst := JString s]> E).
Proof.
  intros Hs Hj; pose proof (lookup_lt_Some _ _ _ Hj) as Hlj; pose proof (stands_pos _ _ _ _ _ _ Hs Hj) as Hn.
  destruct (set_type_stands F p E dst j CString Hs Hj) as (p1 & E1 & Hs1); unfold assign_string; rewrite E1, bind_Done.
  destruct (SetType_string j) as [s0 Ej]; rewrite Ej in Hs1.
  destruct (stands_take n F p1 _ dst (JString s0) Hs1) as (c & h & Hc & Ho & Hd & Hs2); [by apply list_lookup_insert_eq|].
  rewrite (read_var _ _ _ Hc), bind_Done; pose proof (lookup_lt_Some _ _ _ Hc) as Hlc.
  destruct n as [|n']; [lia|]; destruct c; cbn in Ho; try done; subst h; eexists; split; [reflexivity|].
  rewrite <- insert_empty in Hs2, Hd; apply map_disjoint_insert_l in Hd as [HF _].
  pose proof (frame_store (S n') F _ _ a _ (BString s) ∅ Hs2 HF) as Hs3.
  pose proof (stands_put (S n') (S n') F _ _ dst (VString a) (JString s) _ Hs3) as Hp; cbn in Hp.
  rewrite !list_insert_insert_eq in Hp.
  rewrite <- (put_back dst (VString a) (store a (BString s) p1)) by done; apply Hp; try (by apply list_lookup_insert_eq); try done.
  apply map_disjoint_insert_l; split; [done|solve_map_disjoint].
Qed.

Lemma destruct_last_stands F p E v : stands_for n F p (E ++ [v]) ->
  exists p', destruct_last fuel p = Done p' /\ stands_for n F p' E.
Proof.
  intros (Hk & B & HB & HD & Ho); pose proof (cells_length _ _ _ _ Ho) as Hl; rewrite length_app in Hl; cbn in Hl.
  destruct (vars p) as [|c l _] eqn:Ev using rev_ind; [cbn in Hl; lia|].
  destruct (cells_last _ _ _ _ _ Ho) as (vs & w & h1 & h2 & Hvs & -> & Hd & Hc & Ho').
  apply app_inj_tail in Hvs as [<- <-]; unfold destruct_last; rewrite Ev, last_snoc.
  destruct (frame_clear n n fuel F (mkProgram l (mem p)) E c v h2) as (H' & E1 & Hs1); try done; [|solve_map_disjoint|].
  - split; [done|]; exists h1; split_and!; [cbn; by rewrite HB, map_union_assoc|solve_map_disjoint|done].
  - cbn in E1; rewrite E1, bind_Done; eexists; split; [reflexivity|]; cbn; rewrite removelast_last; exact Hs1.
Qed.

(** An element of an array in scope at the end of the others. *)
Lemma owns_append k a l vs e v h he : owns k (VArray a) (JArray vs) (<[a := BArray l]> h) -> h !! a = None ->
  owns k e v he -> he ##ₘ <[a := BArray l]> h ->
  owns (S k) (VArray a) (JArray (vs ++ [v])) (<[a := BArray (l ++ [e])]> (h ∪ he)).
Proof.
  intros Ho Hn He Hd; destruct k as [|k]; [done|]; apply map_disjoint_insert_r in Hd as [Hea Hd].
  destruct Ho as (l0 & h0 & Hh & Hn0 & Ho).
  assert (l0 = l) as -> by (apply (f_equal (fun m => m !! a)) in Hh; rewrite !lookup_insert_eq in Hh; congruence).
  assert (h0 = h) as -> by (apply (f_equal (delete a)) in Hh; by rewrite !delete_insert_id in Hh).
  exists (l ++ [e]), (h ∪ he); split_and!; [done|by apply lookup_union_None|].
  apply cells_snoc; [|done|solve_map_disjoint]; apply (owns_cells_mono (owns k)); [|done]; apply owns_S.
Qed.

Lemma append_stands F p E dst src j v : stands_for n F p E -> E !! dst = Some j -> E !! src = Some v ->
  exists p', append fuel (Var dst) (Var src) p = Done p' /\ stands_for (S n) F p' (<[dst := json_append j v]> E).
Proof.
  intros Hs Hj Hv; pose proof (lookup_lt_Some _ _ _ Hj) as Hlj; unfold append.
  destruct (stands_copy n fuel F p E src v Hfuel Hs Hv) as (o & arg & H1 & ha & Ho & E1 & Hoa & Hda & _ & _ & Hs1).
  assert (ha ##ₘ F) as HaF by (destruct Hs as (_ & B & HB & _); rewrite HB in Hda; solve_map_disjoint).
  rewrite (read_var _ _ _ Ho), bind_Done, E1, bind_Done; cbv beta iota.
  destruct (set_type_stands (ha ∪ F) _ E dst j CArray Hs1 Hj) as (p2 & E2 & Hs2); rewrite E2, bind_Done.
  destruct (SetType_array j) as [vs Ej]; unfold json_append; rewrite Ej in Hs2 |- *.
  destruct (stands_take n _ p2 _ dst (JArray vs) Hs2) as (c & h & Hc & Hoc & Hdc & Hs3); [by apply list_lookup_insert_eq|].
  rewrite (read_var _ _ _ Hc), bind_Done, list_insert_insert_eq in *.
  pose proof (frame_sub _ _ _ _ Hs3) as Hsub; cbn in Hsub.
  destruct c as [| |a| | | | |]; try (by destruct n).
  assert (exists l h', h = <[a := BArray l]> h' /\ h' !! a = None) as (l & h' & -> & Hn').
  { destruct n; [done|]; destruct Hoc as (l & h' & ? & ? & _); eauto. }
  rewrite (insert_lookup_sub a (BArray l) h' (blocks (mem p2))) by (etrans; [apply map_union_subseteq_l|exact Hsub]).
  destruct (copy_copies n fuel Hfuel arg v ha (mem p2) Hoa) as (e & H3 & he & E3 & B3 & D3 & P3 & K3);
    [etrans; [|exact Hsub]; etrans; [apply map_union_subseteq_l|apply map_union_subseteq_r; solve_map_disjoint]|by destruct Hs2|].
  rewrite E3, bind_Done; cbv zeta.
  pose proof (frame_alloc _ _ _ _ he H3 Hs3 B3 D3 K3) as Hs4.
  apply (map_disjoint_weaken_r _ _ _ D3) in Hsub as De; apply map_disjoint_union_r in De as [De1 De2].
  apply map_disjoint_insert_l in Hdc as Hdc'; destruct Hdc' as [Ha Hdc'].
  rewrite (union_middle he), <- insert_union_l in Hs4 by solve_map_disjoint.
  apply (frame_store n (ha ∪ F) _ _ a _ (BArray (l ++ [e])) (h' ∪ he)) in Hs4; [|done].
  apply map_disjoint_insert_r in De1 as De1'; destruct De1' as [Dea De1'].
  apply lookup_union_None in Ha as [Ha1 Ha2]; rewrite (union_swap _ ha) in Hs4
    by (apply map_disjoint_insert_l; split; [done|solve_map_disjoint]).
  destruct (frame_clear n n fuel _ _ _ arg v ha Hfuel Hs4) as (H5 & E5 & Hs5); [|done|].
  { apply map_disjoint_union_r; split; [|done]; apply map_disjoint_insert_r; split; [done|solve_map_disjoint]. }
  cbn in E5; cbn; rewrite E5, bind_Done; eexists; split; [reflexivity|].
  pose proof (stands_put n (S n) F _ _ dst (VArray a) (JArray (vs ++ [v])) _ Hs5) as Hp; cbn in Hp.
  rewrite !list_insert_insert_eq, (list_insert_id (vars p2) dst (VArray a)) in Hp by done.
  pose proof (lookup_lt_Some _ _ _ Hc) as Hlc.
  refine (Hp _ _ (le_S _ _ (le_n n)) (owns_append n a l vs e v h' he Hoc Hn' P3 De1) _); [by apply list_lookup_insert_eq..|].
  apply map_disjoint_insert_l; split; [done|solve_map_disjoint].
Qed.

(** A field of an object by its key, or the place for it, and the object with the field set. *)
Lemma fields_lens (P : cell -> JSON -> memory -> Prop) key cm : P VNull JNull ∅ -> forall m h,
  cm.*1 = m.*1 -> owns_cells P cm.*2 m.*2 h ->
  exists vo ho hr, h = ho ∪ hr /\ ho ##ₘ hr /\ P (default VNull (field_find key cm)) vo ho /\
    forall c v h', P c v h' -> h' ##ₘ hr ->
      (field_insert key c cm).*1 = (map_insert key v m).*1 /\
      owns_cells P (field_insert key c cm).*2 (map_insert key v m).*2 (h' ∪ hr).
Proof.
  intros Hnull; induction cm as [|[k c0] cm IH]; intros [|[k' v0] m] h Hk Ho; try done; cbn in Ho.
  - subst h; exists JNull, ∅, ∅; split_and!; try done; try solve_map_disjoint; try (by rewrite map_empty_union).
    intros c v h' HP Hd; cbn; split; [done|]; exists h', ∅; split_and!; try done.
  - cbn in Hk; injection Hk as <- Hk; destruct Ho as (h1 & h2 & -> & Hd & HP & Ho); cbn [field_find field_insert map_insert].
    case_bool_decide as Ek; [|destruct (text_ltb key k) eqn:El].
    + exists v0, h1, h2; split_and!; try done; intros c v h' HP' Hd'; cbn; split; [by rewrite Hk|]; by exists h', h2.
    + exists JNull, ∅, (h1 ∪ h2); split_and!; try done; try solve_map_disjoint; try (by rewrite map_empty_union).
      intros c v h' HP' Hd'; cbn; split; [by rewrite Hk|]; exists h', (h1 ∪ h2); split_and!; try done; by exists h1, h2.
    + destruct (IH m h2 Hk Ho) as (vo & ho & hr & -> & Hd2 & HPo & Hclose).
      exists vo, ho, (h1 ∪ hr); split_and!; try done; [apply union_swap; solve_map_disjoint|solve_map_disjoint|].
      intros c v h' HP' Hd'; destruct (Hclose c v h' HP') as [Hk' Ho']; [solve_map_disjoint|]; cbn; split; [by rewrite Hk'|].
      exists h1, (h' ∪ hr); split_and!; try done; [apply union_swap; solve_map_disjoint|solve_map_disjoint].
Qed.

(** The memory of an object, with that of one field apart. *)
Lemma owns_object a m key h : owns n (VObject a) (JObject m) h ->
  exists cm vo ho hr, h = <[a := BObject cm]> (ho ∪ hr) /\ (ho ∪ hr) !! a = None /\ ho ##ₘ hr /\
    owns n (default VNull (field_find key cm)) vo ho /\
    forall c v h', owns n c v h' -> h' ##ₘ hr -> h' !! a = None ->
      owns (S n) (VObject a) (JObject (map_insert key v m)) (<[a := BObject (field_insert key c cm)]> (hr ∪ h')).
Proof.
  clear Hfuel; destruct n as [|k] eqn:En; [done|]; intros (cm & h0 & -> & Hn & Hk & Ho).
  apply (owns_cells_mono _ (owns (S k)) _ (owns_S k)) in Ho.
  destruct (fields_lens (owns (S k)) key cm (owns_null (S k) ltac:(lia)) _ _ Hk Ho) as (vo & ho & hr & -> & Hd & HP & Hclose).
  exists cm, vo, ho, hr; split_and!; try done; intros c v h' Hc Hd' Ha; destruct (Hclose c v h' Hc Hd') as [Hk' Ho'].
  apply lookup_union_None in Hn as [_ Hn].
  exists (field_insert key c cm), (hr ∪ h'); split_and!; try done; [by apply lookup_union_None|].
  rewrite map_union_comm by solve_map_disjoint; exact Ho'.
Qed.

Lemma set_key_stands F p E dst key src j v : stands_for n F p E -> E !! dst = Some j -> E !! src = Some v -> dst <> src ->
  exists p', set_key fuel (Var dst) key (Var src) p = Done p' /\ stands_for (S n) F p' (<[dst := json_set_key j key v]> E).
Proof.
  intros Hs Hj Hv Hne; pose proof (lookup_lt_Some _ _ _ Hj) as Hlj; unfold set_key.
  destruct (set_type_stands F p E dst j CObject Hs Hj) as (p1 & E1 & Hs1); rewrite E1, bind_Done.
  destruct (SetType_object j) as [m Ej]; unfold json_set_key; rewrite Ej in Hs1 |- *.
  destruct (stands_take n F p1 _ dst (JObject m) Hs1) as (c & h & Hc & Hoc & Hdc & Hs2); [by apply list_lookup_insert_eq|].
  rewrite (read_var _ _ _ Hc), bind_Done, list_insert_insert_eq in *; pose proof (lookup_lt_Some _ _ _ Hc) as Hlc.
  pose proof (frame_sub _ _ _ _ Hs2) as Hsub; cbn in Hsub.
  destruct c as [|a| | | | | |]; try (by destruct n).
  destruct (owns_object a m key h Hoc) as (cm & vo & ho & hr & -> & Hn & Hd & Hold & Hclose).
  rewrite (insert_lookup_sub a (BObject cm) (ho ∪ hr) (blocks (mem p1))) by (etrans; [apply map_union_subseteq_l|exact Hsub]).
  cbv zeta; set (old := default VNull (field_find key cm)) in *; set (b1 := BObject (field_insert key old cm)).
  apply map_disjoint_insert_l in Hdc as [HFa Hdc]; apply lookup_union_None in Hn as Hn'; destruct Hn' as [Hna Hnr].
  apply (frame_store n F _ _ a _ b1 (ho ∪ hr)) in Hs2; [|done].
  rewrite insert_union_r, <- map_union_assoc in Hs2 by done.
  destruct (frame_clear n n fuel _ _ _ old vo ho Hfuel Hs2) as (H3 & E3 & Hs3); [|done|].
  { apply map_disjoint_union_r; split; [|solve_map_disjoint]; by apply map_disjoint_insert_r. }
  cbn in E3; cbn; rewrite E3, bind_Done.
  destruct (stands_copy n fuel _ _ _ src v Hfuel Hs3) as (o & c' & H4 & hc & Ho & E4 & Hoc' & Hdh & _ & _ & Hs4);
    [by rewrite list_lookup_insert_ne|]; cbn in Ho, E4; rewrite list_lookup_insert_ne in Ho by done.
  cbn; rewrite Ho, bind_Done, E4, bind_Done; eexists; split; [reflexivity|].
  pose proof (map_disjoint_weaken_r _ _ _ Hdh (frame_sub _ _ _ _ Hs3)) as [Hd1 HdF]%map_disjoint_union_r.
  rewrite (union_middle hc), <- insert_union_l in Hs4 by done; apply map_disjoint_insert_r in Hd1 as [Hca Hd1].
  apply (frame_store n F _ _ a _ (BObject (field_insert key c' cm)) (hr ∪ hc)) in Hs4; [|done].
  pose proof (stands_put n (S n) F _ _ dst (VObject a) (JObject (map_insert key v m)) _ Hs4) as Hp; cbn in Hp.
  rewrite !list_insert_insert_eq, (list_insert_id (vars p1) dst (VObject a)) in Hp by done.
  refine (Hp _ _ (le_S _ _ (le_n n)) (Hclose c' v hc Hoc' Hd1 Hca) _); [by apply list_lookup_insert_eq..|].
  apply map_disjoint_insert_l; split; [done|solve_map_disjoint].
Qed.

End operations.

(** * Programs *)

Lemma exec_stands n fuel x F p E E' : (n <= fuel)%nat -> (0 < n)%nat -> stands_for n F p E -> json_spec x E = Some E' ->
  exists p', json_exec fuel x p = Done p' /\ stands_for (S n) F p' E'.
Proof.
  intros Hf Hn Hs; assert (Hup : forall m E0, (exists p', m = Done p' /\ stands_for n F p' E0) ->
    exists p', m = Done p' /\ stands_for (S n) F p' E0).
  { intros m E0 (p' & -> & Hp); exists p'; split; [done|]; apply (stands_mono n); [lia|done]. }
  destruct x as [|src|src|dst src|dst src|dst type|dst w|dst s|dst src|dst key src|]; cbn [json_spec json_exec].
  - intros [= <-]; apply Hup; eexists; split; [reflexivity|].
    refine (stands_push n F p E VNull JNull ∅ _ (owns_null n Hn) _); [by rewrite map_empty_union|solve_map_disjoint].
  - destruct (E !! src) eqn:Ev; [|done]; intros [= <-]; apply Hup; by apply copy_construct_stands.
  - destruct (E !! src) eqn:Ev; [|done]; intros [= <-]; apply Hup; by apply move_construct_stands.
  - destruct (E !! dst) eqn:Ed, (E !! src) eqn:Ev; cbn; try done; case_decide; [done|]; intros [= <-]; apply Hup.
    by eapply copy_assign_stands.
  - destruct (E !! dst) eqn:Ed, (E !! src) eqn:Ev; cbn; try done; intros [= <-]; apply Hup; by eapply move_assign_stands.
  - destruct (E !! dst) eqn:Ed; [|done]; intros [= <-]; apply Hup; by apply set_type_stands.
  - destruct (E !! dst) eqn:Ed; [|done]; cbn; destruct (scalar_value w) eqn:Ew; [|done]; intros [= <-]; apply Hup.
    by eapply assign_scalar_stands.
  - destruct (E !! dst) eqn:Ed; [|done]; intros [= <-]; apply Hup; by eapply assign_string_stands.
  - destruct (E !! dst) eqn:Ed, (E !! src) eqn:Ev; cbn; try done; intros [= <-]; by apply append_stands.
  - destruct (E !! dst) eqn:Ed, (E !! src) eqn:Ev; cbn; try done; case_decide; [done|]; intros [= <-]; by apply set_key_stands.
  - destruct E as [|v E _] using rev_ind; [done|]; intros HE; apply Hup.
    rewrite removelast_last in HE; assert (E' = E) as -> by (destruct E; by injection HE as <-).
    by apply (destruct_last_stands n fuel Hf F p E v).
Qed.

Lemma run_stands fuel l : forall n p E E', (n + length l <= S fuel)%nat -> (0 < n)%nat -> stands_for n ∅ p E ->
  json_specs l E = Some E' -> exists p', json_run fuel l p = Done p' /\ stands_for (n + length l) ∅ p' E'.
Proof.
  induction l as [|x l IH]; intros n p E E' Hf Hn Hs HE; cbn in HE, Hf.
  - injection HE as <-; exists p; by rewrite Nat.add_0_r.
  - destruct (json_spec x E) as [E1|] eqn:Ex; [|done]; cbn in HE.
    destruct (exec_stands n fuel x ∅ p E E1) as (p1 & E2 & Hs1); [lia|done..|].
    destruct (IH (S n) p1 E1 E') as (p2 & E3 & Hs2); [lia..|done|done|].
    cbn [json_run]; rewrite E2, bind_Done; exists p2; split; [done|]; cbn; by rewrite Nat.add_succ_r.
Qed.

Definition empty_program : program := mkProgram [] (mkHeap ∅ 0).

(** C19. A program that makes JSON objects, copies, moves, changes and appends them and puts them
    into each other, in any order, and copies none to itself, never uses memory that was given
    back and never gives any back twice; its objects have the values that the functions on
    values give, each with memory of its own; and when the last object is gone no memory is
    left. *)
Theorem json_memory_correct l E fuel : json_specs l [] = Some E -> (length l <= fuel)%nat ->
  exists p, json_run fuel l empty_program = Done p /\ stands_for (S (length l)) ∅ p E /\
    (E = [] -> blocks (mem p) = ∅).
Proof.
  intros HE Hf; destruct (run_stands fuel l 1 empty_program [] E) as (p & Ep & Hp); [lia|lia| |done|].
  { split; [intros a [b Hb]; done|]; exists ∅; split_and!; try done. }
  exists p; split; [done|]; split; [done|]; intros ->; destruct Hp as (_ & B & HB & _ & Ho).
  destruct (vars p); [|done]; cbn in Ho; by rewrite HB, Ho.
Qed.

(** An array inside an object, both of which go at the end. *)
Definition json_sample : list json_op :=
  [Default; AssignString 0 (text_of "a"); Default; Append 1 0; Append 1 1; Default; SetKey 2 (text_of "k") 1;
   CopyConstruct 2; MoveAssign 0 3; CopyAssign 1 2; SetKey 2 (text_of "k") 0; EndScope; EndScope; EndScope; EndScope].

Lemma json_memory_correct_witness : exists p, json_run 15 json_sample empty_program = Done p /\ blocks (mem p) = ∅.
Proof.
  destruct (json_memory_correct json_sample [] 15) as (p & Ep & _ & Hp); [vm_compute; reflexivity|cbn; lia|].
  exists p; split; [exact Ep|apply Hp; reflexivity].
Defined.

(** A string, an array or an object assigned to itself is read after its memory was given
    back. *)
Lemma self_copy_reads_freed n fuel F p E i v : (n <= fuel)%nat -> stands_for n F p E -> E !! i = Some v ->
  JSONType v = CString \/ JSONType v = CArray \/ JSONType v = CObject ->
  copy_assign fuel (Var i) (Var i) p = Stop Ub.
Proof.
  intros Hf Hs Hi Ht; destruct (stands_lens _ _ _ _ _ _ Hs Hi) as (c & h & R & Hc & Ho & Hb & D1 & D2 & _).
  destruct (ClearInternal_deletes n fuel Hf c v h (R ∪ F) (mem p) Ho Hb) as (H' & E1 & B1 & _); [solve_map_disjoint|].
  unfold copy_assign; rewrite (read_var _ _ _ Hc), bind_Done, E1, bind_Done; cbv zeta.
  rewrite (read_var i c) by done; rewrite bind_Done; change (copy fuel c (mem _)) with (copy fuel c H').
  destruct fuel as [|fuel]; [destruct n; [done|lia]|]; destruct n; [done|].
  assert (Hgone : forall a, is_Some (h !! a) -> blocks H' !! a = None).
  { intros a [b Ha]; rewrite B1; eapply map_disjoint_Some_l; [|exact Ha]; solve_map_disjoint. }
  destruct c, v; cbn in Ho; try done; cbn in Ht; try (by destruct Ht as [|[]]); cbn [copy]; rewrite Hgone; try done.
  - destruct Ho as (? & ? & -> & _); rewrite lookup_insert_eq; by eexists.
  - destruct Ho as (? & ? & -> & _); rewrite lookup_insert_eq; by eexists.
  - subst h; rewrite lookup_singleton_eq; by eexists.
Qed.

(** So is an element that is assigned to the array it is in. *)
Lemma child_copy_reads_freed : (p ← json_run 9 [Default; Default; Append 0 1] empty_program;
  copy_assign 9 (Var 0) (Elem 0 0) p) = Stop Ub.
Proof. by vm_compute. Qed.
